(** * claude-historian: search, relevance scoring, re-ranking,
      similarity, de-duplication, parsing and truncation, embedded from
      the TypeScript sources.

    Conventions of the embedding.

    - A JavaScript string is a Rocq [string]; every character stands for
      one UTF-16 code unit in the range U+0000..U+00FF.  On that range
      [toLowerCase] is length preserving and is written out below;
      [toUpperCase] is only ever applied by the sources to words made of
      [A-Za-z0-9_-], where it acts on a..z alone.
    - A JavaScript number that is a count or an index is a [nat] or a
      [Z].  Every other number is a rational ([Q]).  The similarity
      engine (search-helpers.ts) and the truncation of the parser
      compute in binary64: there every sum, product and quotient is
      rounded to the nearest binary64 number, ties to even, and a
      decimal constant is the binary64 number nearest to it; see
      [Module Binary64].  The quality and the duration of a session and
      the success rate of a tool (search.ts) are computed the same
      way.  Binary64 has no number of magnitude 2^1024 or
      more; the similarity engine never leaves the interval from 0 to
      1.2 times a word count, and the truncation stays below its
      budget, so neither overflows.  The relevance scorer adds
      integers.  The multipliers of re-ranking and the averages of the
      cache and of the formatter are applied as the rationals the
      sources write; the properties stated of them are about signs,
      zeros, counts and comparisons of one score with another, which
      rounding leaves as they are.
    - [Map<string, V>] keeps insertion order, so it is an association
      list.
    - Code that reads the file system or the clock threads an explicit
      world and may throw; see [Module Eff]. *)

From Stdlib Require Import String Ascii List Bool Arith ZArith QArith Lia.
From Stdlib Require Import Qminmax Qround Qpower.
From Stdlib Require Floats Uint63 DecimalString.
From Stdlib Require Import Sorting.Sorted Sorting.Permutation.
Import ListNotations.

Local Open Scope string_scope.
Local Open Scope list_scope.
Local Open Scope nat_scope.

(* ------------------------------------------------------------------ *)
(** ** JavaScript string primitives *)
(* ------------------------------------------------------------------ *)

(** [x < y] on scores. *)
Definition Qlt_bool (x y : Q) : bool := negb (Qle_bool y x).

Module JS.

Definition code (c : ascii) : nat := nat_of_ascii c.

Definition inRange (lo hi : nat) (c : ascii) : bool :=
  (lo <=? code c) && (code c <=? hi).

Definition isUpperAZ (c : ascii) : bool := inRange 65 90 c.
Definition isLowerAZ (c : ascii) : bool := inRange 97 122 c.
Definition isDigit (c : ascii) : bool := inRange 48 57 c.

(** [\w] *)
Definition isWordChar (c : ascii) : bool :=
  isUpperAZ c || isLowerAZ c || isDigit c || (code c =? 95).

(** [\s], restricted to code units below 256: TAB, LF, VT, FF, CR,
    SPACE and NBSP. *)
Definition isSpace (c : ascii) : bool :=
  inRange 9 13 c || (code c =? 32) || (code c =? 160).

(** Letters of U+00C0..U+00DE that have a lower-case form (all but the
    multiplication sign U+00D7). *)
Definition isUpperLatin1 (c : ascii) : bool :=
  inRange 192 222 c && negb (code c =? 215).

Definition lowerChar (c : ascii) : ascii :=
  if isUpperAZ c || isUpperLatin1 c then ascii_of_nat (code c + 32) else c.

Definition upperChar (c : ascii) : ascii :=
  if isLowerAZ c then ascii_of_nat (code c - 32) else c.

Fixpoint mapString (f : ascii -> ascii) (s : string) : string :=
  match s with
  | EmptyString => EmptyString
  | String c s' => String (f c) (mapString f s')
  end.

Definition toLowerCase : string -> string := mapString lowerChar.
Definition toUpperCase : string -> string := mapString upperChar.

Fixpoint filterString (p : ascii -> bool) (s : string) : string :=
  match s with
  | EmptyString => EmptyString
  | String c s' => if p c then String c (filterString p s') else filterString p s'
  end.

Fixpoint forallString (p : ascii -> bool) (s : string) : bool :=
  match s with
  | EmptyString => true
  | String c s' => p c && forallString p s'
  end.

Fixpoint startsWith (s p : string) : bool :=
  match p, s with
  | EmptyString, _ => true
  | String _ _, EmptyString => false
  | String a p', String b s' => Ascii.eqb a b && startsWith s' p'
  end.

(** [s.includes(sub)] *)
Fixpoint includes (s sub : string) : bool :=
  startsWith s sub ||
  match s with
  | EmptyString => false
  | String _ s' => includes s' sub
  end.

Fixpoint take (n : nat) (s : string) : string :=
  match n, s with
  | O, _ => EmptyString
  | S _, EmptyString => EmptyString
  | S n', String c s' => String c (take n' s')
  end.

Fixpoint drop (n : nat) (s : string) : string :=
  match n, s with
  | O, _ => s
  | S _, EmptyString => EmptyString
  | S n', String _ s' => drop n' s'
  end.

(** [s.substring(0, e)]: a negative end is clamped to 0. *)
Definition substring0 (s : string) (e : Z) : string := take (Z.to_nat e) s.

Definition startsWithP (p : ascii -> bool) (s : string) : bool :=
  match s with
  | EmptyString => false
  | String c _ => p c
  end.

(** [s.split(/[delim]+/)]: the pieces between maximal runs of
    delimiters; a leading or trailing run leaves an empty piece, and the
    empty string splits into one empty piece. *)
Fixpoint split (delim : ascii -> bool) (s : string) : list string :=
  match s with
  | EmptyString => [EmptyString]
  | String c s' =>
      if delim c then
        if startsWithP delim s' then split delim s'
        else EmptyString :: split delim s'
      else
        match split delim s' with
        | w :: ws => String c w :: ws
        | [] => [String c EmptyString]
        end
  end.

(** [s.split(/\s+/)] *)
Definition splitSpaces : string -> list string := split isSpace.

Fixpoint dropWhile (p : ascii -> bool) (s : string) : string :=
  match s with
  | EmptyString => EmptyString
  | String c s' => if p c then dropWhile p s' else s
  end.

Fixpoint revString (s acc : string) : string :=
  match s with
  | EmptyString => acc
  | String c s' => revString s' (String c acc)
  end.

(** [s.trim()] *)
Definition trim (s : string) : string :=
  revString (dropWhile isSpace (revString (dropWhile isSpace s) EmptyString)) EmptyString.

(** [s.replace(/[p]+/g, r)]: every maximal run of characters in [p]
    becomes one copy of [r]. *)
Fixpoint replaceRuns (p : ascii -> bool) (r : string) (s : string) : string :=
  match s with
  | EmptyString => EmptyString
  | String c s' =>
      if p c then
        if startsWithP p s' then replaceRuns p r s'
        else (r ++ replaceRuns p r s')%string
      else String c (replaceRuns p r s')
  end.

(** [xs.join(sep)] *)
Fixpoint join (sep : string) (xs : list string) : string :=
  match xs with
  | [] => EmptyString
  | [x] => x
  | x :: rest => (x ++ sep ++ join sep rest)%string
  end.

Fixpoint endsWith (s suf : string) : bool :=
  String.eqb s suf ||
  match s with
  | EmptyString => false
  | String _ s' => endsWith s' suf
  end.

Definition charAt0 (s : string) : string :=
  match s with
  | EmptyString => EmptyString
  | String c _ => String c EmptyString
  end.

Definition inList (x : string) (xs : list string) : bool :=
  existsb (String.eqb x) xs.

(** [arr.slice(0, e)] for an integer [e]. *)
Definition slice0 {A} (l : list A) (e : Z) : list A :=
  if (e <? 0)%Z then firstn (Z.to_nat (Z.max (Z.of_nat (length l) + e) 0)) l
  else firstn (Z.to_nat e) l.

(** [arr.sort((a, b) => key(b) - key(a))]: stable, descending. *)
Fixpoint insertDesc {A} (key : A -> Q) (x : A) (l : list A) : list A :=
  match l with
  | [] => [x]
  | y :: ys => if Qlt_bool (key x) (key y) then y :: insertDesc key x ys
               else x :: y :: ys
  end.

Definition sortDesc {A} (key : A -> Q) (l : list A) : list A :=
  fold_right (insertDesc key) [] l.

(** [Math.ceil(a / b)] for an integer [a] and a positive count [b]. *)
Definition ceilDiv (a : Z) (b : nat) : Z := (- ((- a) / Z.of_nat b))%Z.

End JS.

(* ------------------------------------------------------------------ *)
(** ** Binary64 arithmetic *)
(* ------------------------------------------------------------------ *)

(** The numbers of JavaScript are those of IEEE 754 binary64.  A finite
    one is a rational; an operation returns the binary64 number nearest
    to the exact result, the one with an even last bit when two are
    equally near.  Signed zeros, infinities and NaN are left out. *)
Module Binary64.

Definition pow2 (e : Z) : Q := (2 ^ e)%Q.

(** The integer [e] with [2^e <= x < 2^(e+1)], for a positive [x]. *)
Definition ilog2 (x : Q) : Z :=
  let k := (Z.log2 (Qnum x) - Z.log2 (Zpos (Qden x)))%Z in
  if Qle_bool (pow2 k) x then k else (k - 1)%Z.

(** The exponent of the last place of the binary64 numbers next to a
    positive [x]: they have 53 significant bits, and below 2^-1022 the
    last place stays at 2^-1074. *)
Definition lastPlace (x : Q) : Z := Z.max (ilog2 x - 52) (-1074).

(** To the nearest integer, a tie to the even one. *)
Definition roundHalfEven (x : Q) : Z :=
  let f := Qfloor x in
  match (x - inject_Z f ?= 1 # 2)%Q with
  | Lt => f
  | Gt => (f + 1)%Z
  | Eq => if Z.even f then f else (f + 1)%Z
  end.

Definition roundPositive (x : Q) : Q :=
  (inject_Z (roundHalfEven (x / pow2 (lastPlace x))) * pow2 (lastPlace x))%Q.

(** The binary64 number nearest to [x], as a reduced fraction. *)
Definition rnd (x : Q) : Q :=
  match Qnum x with
  | Z0 => 0%Q
  | Zpos _ => Qred (roundPositive x)
  | Zneg _ => Qred (- roundPositive (- x))
  end.

(** [x + y], [x * y] and [x / y] *)
Definition add (x y : Q) : Q := rnd (x + y).
Definition mul (x y : Q) : Q := rnd (x * y).
Definition sub (x y : Q) : Q := rnd (x - y).
Definition div (x y : Q) : Q := rnd (x / y).

(** A count as a number. *)
Definition ofNat (n : nat) : Q := rnd (inject_Z (Z.of_nat n)).
Definition ofZ (n : Z) : Q := rnd (inject_Z n).

(** Arithmetic on counts and decimal constants, to be evaluated here
    and by the binary64 unit of the kernel. *)
Inductive Expr :=
| Count (n : positive)
| Decimal (n d : positive)
| Plus (a b : Expr)
| Times (a b : Expr)
| Over (a b : Expr).

Fixpoint eval (e : Expr) : Q :=
  match e with
  | Count n => ofZ (Zpos n)
  | Decimal n d => rnd (Zpos n # d)
  | Plus a b => add (eval a) (eval b)
  | Times a b => mul (eval a) (eval b)
  | Over a b => div (eval a) (eval b)
  end.

Definition kernelCount (n : positive) : PrimFloat.float :=
  PrimFloat.of_uint63 (Uint63.of_Z (Zpos n)).

Fixpoint kernelEval (e : Expr) : PrimFloat.float :=
  match e with
  | Count n => kernelCount n
  | Decimal n d => PrimFloat.div (kernelCount n) (kernelCount d)
  | Plus a b => PrimFloat.add (kernelEval a) (kernelEval b)
  | Times a b => PrimFloat.mul (kernelEval a) (kernelEval b)
  | Over a b => PrimFloat.div (kernelEval a) (kernelEval b)
  end.

(** The rational a finite float of the kernel stands for. *)
Definition ofKernel (f : PrimFloat.float) : option Q :=
  match FloatOps.Prim2SF f with
  | SpecFloat.S754_zero _ => Some 0%Q
  | SpecFloat.S754_finite negative m e =>
      Some (Qred ((if negative then - inject_Z (Zpos m) else inject_Z (Zpos m))
                  * pow2 e))
  | _ => None
  end.

Definition agrees (e : Expr) : bool :=
  match ofKernel (kernelEval e) with
  | Some q => Qeq_bool q (eval e)
  | None => false
  end.

(** [e] times itself, [k] times over. *)
Fixpoint power (e : Expr) (k : nat) : Expr :=
  match k with
  | O => Count 1
  | S k' => Times (power e k') e
  end.

(** The constants and some of the products, sums and quotients of the
    sources, and numbers at the lower end of the range. *)
Definition samples : list Expr :=
  [ Decimal 1 10; Decimal 3 10; Decimal 4 10; Decimal 5 10; Decimal 6 10;
    Decimal 7 10; Decimal 8 10; Decimal 12 10; Decimal 15 10; Decimal 22 10;
    Decimal 25 10; Decimal 28 10; Decimal 1 3; Decimal 2 3; Decimal 13 20;
    Decimal 51 100;
    Times (Decimal 8 10) (Over (Count 6) (Count 8));
    Times (Decimal 8 10) (Over (Count 7) (Count 8));
    Times (Decimal 8 10) (Over (Count 5) (Count 7));
    Times (Count 6) (Decimal 6 10);
    Times (Count 7) (Decimal 6 10);
    Times (Count 90) (Decimal 7 10);
    Times (Count 3000) (Decimal 7 10);
    Times (Count 3500) (Decimal 7 10);
    Times (Count 4000) (Decimal 7 10);
    Times (Times (Times (Count 5) (Count 2)) (Decimal 25 10)) (Decimal 22 10);
    Plus (Decimal 1 10) (Decimal 2 10);
    Plus (Decimal 5 10) (Times (Over (Count 1) (Count 2)) (Decimal 3 10));
    Plus (Times (Times (Over (Plus (Count 1) (Decimal 6 10)) (Count 2))
                   (Over (Count 2) (Count 2))) (Decimal 12 10))
         (Times (Over (Count 1) (Count 3)) (Decimal 3 10));
    Over (Count 1) (Count 9007199254740993);
    Plus (Count 9007199254740992) (Count 1);
    Plus (Count 9007199254740992) (Count 3);
    Times (Decimal 1 1000000) (Decimal 1 1000000);
    power (Decimal 1 100000000000000000) 18;
    power (Decimal 1 100000000000000000) 19;
    power (Decimal 3 100000000000000000) 19;
    power (Decimal 1 100000000000000000) 20 ].

End Binary64.

(* ------------------------------------------------------------------ *)
(** ** Data model (types.ts) *)
(* ------------------------------------------------------------------ *)

Inductive MessageType := user | assistant | tool_use | tool_result.

Definition MessageType_eqb (a b : MessageType) : bool :=
  match a, b with
  | user, user | assistant, assistant
  | tool_use, tool_use | tool_result, tool_result => true
  | _, _ => false
  end.

Definition MessageType_name (t : MessageType) : string :=
  match t with
  | user => "user"
  | assistant => "assistant"
  | tool_use => "tool_use"
  | tool_result => "tool_result"
  end.

(** One element of an array-valued [message.content]. *)
Inductive ContentItem :=
| TextItem (text : string)
| ToolUseItem (name : string)
| ToolResultItem
| OtherItem.

Inductive MessageContent :=
| ContentString (s : string)
| ContentArray (items : list ContentItem)
| ContentOther.

Record ClaudeMessage := {
  cm_cwd : string;
  cm_sessionId : string;
  cm_type : MessageType;
  cm_message : option MessageContent;
  cm_uuid : string;
  cm_timestamp : string
}.

Record Context := {
  filesReferenced : option (list string);
  toolsUsed : option (list string);
  errorPatterns : option (list string);
  bashCommands : option (list string);
  claudeInsights : option (list string);
  codeSnippets : option (list string);
  actionItems : option (list string)
}.

Record CompactMessage := {
  uuid : string;
  timestamp : string;
  type : MessageType;
  content : string;
  sessionId : string;
  projectPath : option string;
  relevanceScore : option Q;
  finalScore : option Q;
  context : option Context
}.

Record SearchResult := {
  messages : list CompactMessage;
  totalResults : nat;
  searchQuery : string;
  executionTime : Z
}.

(** [x || 0] on an optional score. *)
Definition orZero (x : option Q) : Q :=
  match x with
  | Some q => q
  | None => 0
  end.

(** [(xs?.length || 0)] on an optional array. *)
Definition lengthOr0 (xs : option (list string)) : nat :=
  match xs with
  | Some l => length l
  | None => 0
  end.

Definition ctxField (f : Context -> option (list string)) (m : CompactMessage)
  : option (list string) :=
  match context m with
  | Some c => f c
  | None => None
  end.

(* ------------------------------------------------------------------ *)
(** ** Term matcher and relevance scorer (utils.ts) *)
(* ------------------------------------------------------------------ *)

Module Utils.
Import JS.

Definition extractItem (item : ContentItem) : string :=
  match item with
  | TextItem text => text
  | ToolUseItem name => ("[Tool: " ++ name ++ "]")%string
  | ToolResultItem => "[Tool Result]"
  | OtherItem => EmptyString
  end.

Definition extractContentFromMessage (message : option MessageContent) : string :=
  match message with
  | Some (ContentString s) => s
  | Some (ContentArray items) => trim (join " " (map extractItem items))
  | _ => EmptyString
  end.

(** The delimiter class that [matchesTechTerm] splits the content on:
    white space and the characters . , ; : ! ? ( ) [ ] { } < > and the
    single and double quote. *)
Definition isTermDelimiter (c : ascii) : bool :=
  isSpace c ||
  existsb (Nat.eqb (code c))
    [46; 44; 59; 58; 33; 63; 40; 41; 91; 93; 123; 125; 39; 34; 60; 62].

(** [word.replace(/[^\w-]/g, '')] *)
Definition cleanWord (word : string) : string :=
  filterString (fun c => isWordChar c || (code c =? 45)) word.

Definition isNormalCase (cleanWord : string) : bool :=
  String.eqb cleanWord (toLowerCase cleanWord) ||
  String.eqb cleanWord (toUpperCase cleanWord) ||
  String.eqb cleanWord
    (toUpperCase (charAt0 cleanWord) ++ toLowerCase (drop 1 cleanWord))%string.

(** The body of the [for (const word of words)] loop: [true] when the
    loop returns at this word. *)
Definition wordHits (termLower : string) (word : string) : bool :=
  let cw := cleanWord word in
  match cw with
  | EmptyString => false
  | _ => String.eqb (toLowerCase cw) termLower && isNormalCase cw
  end.

Definition matchesTechTerm (content term : string) : bool :=
  let words := split isTermDelimiter content in
  let termLower := toLowerCase term in
  existsb (wordHits termLower) words.

(** The alternatives of [coreTechPatterns]. *)
Definition coreTechNames : list string :=
  [
    "webpack"; "docker"; "react"; "vue"; "angular"; "node"; "npm"; "yarn";
    "typescript"; "python"; "rust"; "go"; "java"; "kubernetes"; "aws";
    "gcp"; "azure"; "postgres"; "mysql"; "redis"; "mongodb"; "graphql";
    "rest"; "grpc"; "oauth"; "jwt"; "git"; "github"; "gitlab"; "jenkins";
    "nginx"; "apache"; "eslint"; "prettier"; "babel"; "vite"; "rollup";
    "esbuild"; "jest"; "mocha"; "cypress"; "playwright"; "nextjs"; "nuxt";
    "svelte"; "tailwind"; "sass"; "less"; "vitest"; "pnpm"; "turborepo";
    "prisma"; "drizzle"; "sequelize"; "sqlite"; "leveldb"; "indexeddb"
  ].

(** [coreTechPatterns.test(w)]: the pattern is anchored at both ends and
    case-insensitive. *)
Definition coreTechPatterns_test (w : string) : bool :=
  inList (toLowerCase w) coreTechNames.

Definition genericTerms : list string :=
  [
    "config"; "configuration"; "setup"; "install"; "build"; "deploy";
    "test"; "run"; "start"; "create"; "update"; "fix"; "add"; "remove";
    "change"; "optimize"; "optimization"; "improve"; "use"; "using";
    "with"; "for"; "the"; "and"; "make"; "write"; "read"; "delete";
    "check"; "testing"; "tests"; "mocks"; "mocking"; "mock"; "stubs";
    "stubbing"; "specs"; "coverage"; "design"; "designs"; "designing";
    "responsive"; "architecture"; "pattern"; "patterns"; "caching";
    "cache"; "rendering"; "render"; "bundle"; "bundling"; "performance";
    "strategy"; "strategies"; "approach"; "implementation"; "solution";
    "solutions"; "feature"; "features"; "system"; "systems"; "process";
    "processing"; "handler"; "handling"; "manager"; "management"; "files";
    "file"; "folder"; "directory"; "path"; "code"; "data"; "error";
    "errors"; "function"; "functions"; "class"; "classes"; "method";
    "methods"; "variable"; "variables"; "component"; "components";
    "module"; "modules"; "package"; "packages"; "library"; "libraries";
    "format"; "formatting"; "style"; "styles"; "layout"; "display"; "show";
    "hide"; "visible"; "rules"; "rule"; "options"; "option"; "settings";
    "setting"; "params"; "parameters"; "server"; "client"; "request";
    "response"; "async"; "await"; "promise"; "callback"; "import";
    "export"; "require"; "include"; "define"; "declare"; "return";
    "output"; "input"; "database"; "schema"; "schemas"; "models"; "model";
    "table"; "tables"; "query"; "queries"; "migration"; "migrations";
    "index"; "indexes"; "field"; "fields"; "column"; "columns";
    "deployment"; "container"; "containers"; "service"; "services";
    "cluster"; "clusters"; "instance"; "instances"; "environment";
    "environments"; "manifest"; "resource"; "resources"; "interface";
    "interfaces"; "types"; "typing"; "object"; "objects"; "array";
    "arrays"; "string"; "strings"; "number"; "numbers"; "boolean"; "value";
    "values"; "property"; "properties"
  ].

Definition words_gt2 (s : string) : list string :=
  filter (fun w => 2 <? String.length w) (splitSpaces s).

Definition strictCoreTermsOf (queryWords : list string) : list string :=
  filter coreTechPatterns_test queryWords.

Definition supportingTermsOf (queryWords : list string) : list string :=
  filter
    (fun w => negb (coreTechPatterns_test w) && negb (inList w genericTerms)
              && (5 <=? String.length w))
    queryWords.

(** [Math.ceil(n * 0.6)] for a count [n]. *)
Definition ceil_six_tenths (n : nat) : nat := (3 * n + 4) / 5.

Definition bonus (b : bool) (points : Z) : Z := if b then points else 0%Z.

Definition calculateRelevanceScore
  (message : ClaudeMessage) (query : string) (projectPath : option string) : Z :=
  let content := extractContentFromMessage (cm_message message) in
  let lowerQuery := toLowerCase query in
  let lowerContent := toLowerCase content in
  let queryWords := words_gt2 lowerQuery in
  let strictCoreTerms := strictCoreTermsOf queryWords in
  let supportingTerms := supportingTermsOf queryWords in
  let strictCoreMatches :=
    length (filter (matchesTechTerm content) strictCoreTerms) in
  if (0 <? length strictCoreTerms) && (strictCoreMatches =? 0) then 0%Z
  else
    let supportingMatches :=
      length (filter (matchesTechTerm content) supportingTerms) in
    let residualMatches :=
      length
        (filter
           (fun word =>
              negb (inList word strictCoreTerms)
              && negb (inList word supportingTerms)
              && matchesTechTerm content word)
           queryWords) in
    let wordMatchCount := strictCoreMatches + residualMatches in
    let exactPhrase := includes lowerContent lowerQuery in
    let majority :=
      (0 <? length queryWords)
      && (ceil_six_tenths (length queryWords) <=? wordMatchCount) in
    let toolMessage :=
      match cm_type message with
      | tool_use | tool_result => true
      | _ => false
      end in
    let fileReference :=
      includes content "src/" || includes content ".ts"
      || includes content ".js" in
    let projectMatch :=
      match projectPath with
      | Some p =>
          negb (String.eqb p EmptyString) && negb (String.eqb (cm_cwd message) EmptyString)
          && includes (cm_cwd message) p
      | None => false
      end in
    (10 * Z.of_nat strictCoreMatches
     + 3 * Z.of_nat supportingMatches
     + 2 * Z.of_nat residualMatches
     + bonus exactPhrase 5
     + bonus majority 4
     + bonus toolMessage 5
     + bonus fileReference 3
     + bonus projectMatch 5)%Z.

End Utils.

(* ------------------------------------------------------------------ *)
(** ** Similarity engine (search-helpers.ts) *)
(* ------------------------------------------------------------------ *)

Module SearchHelpers.
Import JS.

Definition stopWords : list string :=
  [ "the"; "and"; "for"; "that"; "this"; "with"; "from"; "have"; "has";
    "how"; "what"; "when"; "where"; "why"; "can"; "could"; "would";
    "should"; "want"; "need"; "help"; "please"; "just"; "like"; "some";
    "any"; "all" ].

Definition technicalSynonyms : list (string * list string) :=
  [ ("error", ["exception"; "fail"; "crash"; "bug"; "issue"; "problem"]);
    ("fix", ["resolve"; "solve"; "repair"; "correct"; "solution"]);
    ("install", ["setup"; "configure"; "add"; "create"]);
    ("build", ["compile"; "bundle"; "deploy"; "package"]);
    ("test", ["verify"; "check"; "validate"; "debug"]);
    ("typescript", ["ts"; "type"; "interface"]);
    ("javascript", ["js"; "node"; "npm"]) ].

Definition technicalTriggers : list string :=
  [ "error"; "fix"; "build"; "install"; "typescript"; "javascript" ].

Definition tokenize (query : string) : list string :=
  filter (fun w => 2 <? String.length w) (splitSpaces (toLowerCase query)).

Definition significantOf (words : list string) : list string :=
  filter (fun w => (4 <=? String.length w) && negb (inList w stopWords)) words.

Fixpoint samePositions (a b : string) : nat :=
  match a, b with
  | String x a', String y b' =>
      (if Ascii.eqb x y then 1 else 0) + samePositions a' b'
  | _, _ => 0
  end.

Definition isWordSimilar (word1 word2 : string) : bool :=
  let l1 := String.length word1 in
  let l2 := String.length word2 in
  if 3 <? (Nat.max l1 l2 - Nat.min l1 l2) then false
  else
    let minLen := Nat.min l1 l2 in
    if minLen <? 4 then false
    else
      let shared := Binary64.mul (Binary64.ofNat minLen) (Binary64.rnd (6 # 10)) in
      let matches := samePositions word1 word2 in
      (* matches >= shared *)
      Qle_bool shared (Binary64.ofNat matches).

Definition synonymHit (word1 word2 : string) : bool :=
  existsb
    (fun entry : string * list string =>
       let (key, synonyms) := entry in
       (String.eqb key word1 && inList word2 synonyms)
       || (String.eqb key word2 && inList word1 synonyms)
       || (inList word1 synonyms && inList word2 synonyms))
    technicalSynonyms.

(** [a / b] as a rational, for the functions that divide exactly. *)
Definition ratio (a b : nat) : Q :=
  (inject_Z (Z.of_nat a) / inject_Z (Z.of_nat b))%Q.

(** [a / b] on two counts. *)
Definition quotient (a b : nat) : Q :=
  Binary64.div (Binary64.ofNat a) (Binary64.ofNat b).

(** The [if / else if] chain of the inner loop: the pair's match score,
    and whether [significantMatches] is incremented for it. *)
Definition pairScore (word1 word2 : string) (isSignificant1 isSignificant2 : bool)
  : Q * bool :=
  if String.eqb word1 word2 then (1%Q, isSignificant1 && isSignificant2)
  else if includes word1 word2 || includes word2 word1 then
    let shorter := Nat.min (String.length word1) (String.length word2) in
    let longer := Nat.max (String.length word1) (String.length word2) in
    if (5 <=? shorter)
       && Qle_bool (Binary64.rnd (6 # 10)) (quotient shorter longer)
    then (Binary64.mul (Binary64.rnd (8 # 10)) (quotient shorter longer),
          isSignificant1 && isSignificant2)
    else (0%Q, false)
  else if isWordSimilar word1 word2 then (Binary64.rnd (6 # 10), false)
  else if synonymHit word1 word2
       then (Binary64.rnd (7 # 10), isSignificant1 && isSignificant2)
       else (0%Q, false).

(** State of the inner loop over [words2]. *)
Record Best := {
  bestMatch : Q;
  bestIndex : option nat;
  significantMatches : nat
}.

Fixpoint scan (word1 : string) (isSignificant1 : bool)
  (significant2 : list string) (matched2 : list nat)
  (j : nat) (words2 : list string) (st : Best) : Best :=
  match words2 with
  | [] => st
  | word2 :: rest =>
      if existsb (Nat.eqb j) matched2
      then scan word1 isSignificant1 significant2 matched2 (S j) rest st
      else
        let isSignificant2 := inList word2 significant2 in
        let (matchScore, counted) :=
          pairScore word1 word2 isSignificant1 isSignificant2 in
        let sig := if counted then S (significantMatches st)
                   else significantMatches st in
        let st' :=
          if Qlt_bool (bestMatch st) matchScore
          then {| bestMatch := matchScore; bestIndex := Some j;
                  significantMatches := sig |}
          else {| bestMatch := bestMatch st; bestIndex := bestIndex st;
                  significantMatches := sig |} in
        scan word1 isSignificant1 significant2 matched2 (S j) rest st'
  end.

(** State of the outer loop over [words1]. *)
Record Tally := {
  matched2 : list nat;
  totalScore : Q;
  sigMatches : nat;
  (** not kept by the source: the pairs (index in words1, chosen index in
      words2) of the greedy assignment, in order. *)
  chosen : list (nat * nat)
}.

Definition stepWord (significant1 significant2 words2 : list string)
  (i : nat) (word1 : string) (t : Tally) : Tally :=
  let r := scan word1 (inList word1 significant1) significant2 (matched2 t)
             0 words2
             {| bestMatch := 0%Q; bestIndex := None;
                significantMatches := sigMatches t |} in
  match bestIndex r with
  | Some b =>
      {| matched2 := b :: matched2 t;
         totalScore := Binary64.add (totalScore t) (bestMatch r);
         sigMatches := significantMatches r;
         chosen := chosen t ++ [(i, b)] |}
  | None =>
      {| matched2 := matched2 t;
         totalScore := totalScore t;
         sigMatches := significantMatches r;
         chosen := chosen t |}
  end.

Fixpoint matchLoop (significant1 significant2 words2 : list string)
  (i : nat) (words1 : list string) (t : Tally) : Tally :=
  match words1 with
  | [] => t
  | word1 :: rest =>
      matchLoop significant1 significant2 words2 (S i) rest
        (stepWord significant1 significant2 words2 i word1 t)
  end.

Definition greedy (words1 words2 : list string) : Tally :=
  matchLoop (significantOf words1) (significantOf words2) words2 0 words1
    {| matched2 := []; totalScore := 0%Q; sigMatches := 0; chosen := [] |}.

Definition stemSuffixes : list string := ["ing"; "ed"; "s"; "ly"; "tion"; "ment"].

(** [word.replace(/(ing|ed|s|ly|tion|ment)$/, '')]: the suffixes end in
    different letters, so at most one of them applies. *)
Definition stem (word : string) : string :=
  match find (endsWith word) stemSuffixes with
  | Some suf => take (String.length word - String.length suf) word
  | None => word
  end.

Definition stemBonus (words1 words2 : list string) : Q :=
  let stemmed1 := map stem words1 in
  let stemmed2 := map stem words2 in
  let stemmedIntersection := filter (fun w => inList w stemmed2) stemmed1 in
  Binary64.mul
    (quotient (length stemmedIntersection)
       (Nat.max (length stemmed1) (length stemmed2)))
    (Binary64.rnd (3 # 10)).

Definition isTechnical (words1 words2 : list string) : bool :=
  existsb (fun w => inList w technicalTriggers) words1
  || existsb (fun w => inList w technicalTriggers) words2.

Definition calculateQuerySimilarity (query1 query2 : string) : Q :=
  let words1 := tokenize query1 in
  let words2 := tokenize query2 in
  if (length words1 =? 0) || (length words2 =? 0) then 0%Q
  else
    let significant1 := significantOf words1 in
    let significant2 := significantOf words2 in
    let maxWords := Nat.max (length words1) (length words2) in
    let minWords := Nat.min (length words1) (length words2) in
    let t := greedy words1 words2 in
    if (sigMatches t <? 2) && (2 <=? length significant1)
       && (2 <=? length significant2)
    then 0%Q
    else
      let technicalBoost : Q :=
        if isTechnical words1 words2 then Binary64.rnd (12 # 10) else 1%Q in
      let lengthPenalty := quotient minWords maxWords in
      let baseScore :=
        Binary64.mul
          (Binary64.mul (Binary64.div (totalScore t) (Binary64.ofNat maxWords))
             lengthPenalty)
          technicalBoost in
      Qmin (Binary64.add baseScore (stemBonus words1 words2)) 1%Q.

(** The number of pairs of the greedy assignment whose two words are both
    significant. *)
Definition significantGreedyMatches (query1 query2 : string) : nat :=
  let words1 := tokenize query1 in
  let words2 := tokenize query2 in
  length
    (filter
       (fun p : nat * nat =>
          inList (nth (fst p) words1 EmptyString) (significantOf words1)
          && inList (nth (snd p) words2 EmptyString) (significantOf words2))
       (chosen (greedy words1 words2))).

End SearchHelpers.

(* ------------------------------------------------------------------ *)
(** ** Effects: a state monad with exceptions *)
(* ------------------------------------------------------------------ *)

Module Eff.

Inductive Outcome (A : Type) :=
| Returned (a : A)
| Thrown (error : string).
Arguments Returned {A} a.
Arguments Thrown {A} error.

(** An [async] function over a state [S]: it returns or throws, and
    leaves a new state either way. *)
Definition M (S A : Type) : Type := S -> Outcome A * S.

Definition ret {S A} (a : A) : M S A := fun s => (Returned a, s).

Definition throw {S A} (e : string) : M S A := fun s => (Thrown e, s).

Definition bind {S A B} (m : M S A) (k : A -> M S B) : M S B :=
  fun s =>
    match m s with
    | (Returned a, s') => k a s'
    | (Thrown e, s') => (Thrown e, s')
    end.

(** [try { m } catch (error) { h error }] *)
Definition tryCatch {S A} (m : M S A) (h : string -> M S A) : M S A :=
  fun s =>
    match m s with
    | (Returned a, s') => (Returned a, s')
    | (Thrown e, s') => h e s'
    end.

(** The settled result of a promise, as [Promise.allSettled] reports it. *)
Definition settle {S A} (m : M S A) : M S (Outcome A) :=
  fun s => let (r, s') := m s in (Returned r, s').

(** A step that cannot throw. *)
Definition total {S A} (f : S -> A * S) : M S A :=
  fun s => let (a, s') := f s in (Returned a, s').

Fixpoint mapM {S A B} (f : A -> M S B) (l : list A) : M S (list B) :=
  match l with
  | [] => ret []
  | x :: xs => bind (f x) (fun y => bind (mapM f xs) (fun ys => ret (y :: ys)))
  end.

Definition returns {S A} (m : M S A) (s : S) : Prop :=
  exists a s', m s = (Returned a, s').

End Eff.

Declare Scope eff_scope.
Delimit Scope eff_scope with eff.
Notation "x <- m ;; k" := (Eff.bind m (fun x => k))
  (at level 61, m at next level, right associativity) : eff_scope.

(* ------------------------------------------------------------------ *)
(** ** Directory listings (utils.ts) *)
(* ------------------------------------------------------------------ *)

(** What [stat] reports of a path, as far as the listings look. *)
Record Stats := {
  isDirectory : bool;
  mtimeMs : Q
}.

(** The file-system calls of Node and the projects directory. *)
Record FileSystem (World : Type) := {
  projectsPath : string;
  path_join : string -> string -> string;
  readdir : string -> Eff.M World (list string);
  stat : string -> Eff.M World Stats
}.
Arguments projectsPath {World}.
Arguments path_join {World}.
Arguments readdir {World}.
Arguments stat {World}.

Module Listing.
Import JS Eff.
Local Open Scope eff_scope.

Section WithFileSystem.
Variable World : Type.
Variable fs : FileSystem World.

(** The [for (const entry of entries)] loop of [findProjectDirectories]. *)
Fixpoint statEntries (entries : list string) (dirsWithMtime : list (string * Q))
  : M World (list (string * Q)) :=
  match entries with
  | [] => ret dirsWithMtime
  | entry :: rest =>
      stats <- stat fs (path_join fs (projectsPath fs) entry) ;;
      statEntries rest
        (if isDirectory stats then dirsWithMtime ++ [(entry, mtimeMs stats)]
         else dirsWithMtime)
  end.

Definition findProjectDirectories : M World (list string) :=
  tryCatch
    (entries <- readdir fs (projectsPath fs) ;;
     dirsWithMtime <- statEntries entries [] ;;
     ret (map fst (sortDesc snd dirsWithMtime)))
    (fun _ => ret []).

(** One of the promises joined in [findJsonlFiles]: a file whose [stat]
    fails gets modification time 0. *)
Definition statFile (fullPath file : string) : M World (string * Q) :=
  tryCatch
    (stats <- stat fs (path_join fs fullPath file) ;;
     ret (file, mtimeMs stats))
    (fun _ => ret (file, 0%Q)).

Definition findJsonlFiles (projectDir : string) : M World (list string) :=
  tryCatch
    (let fullPath := path_join fs (projectsPath fs) projectDir in
     entries <- readdir fs fullPath ;;
     let jsonlFiles := filter (fun file => endsWith file ".jsonl") entries in
     filesWithStats <- mapM (statFile fullPath) jsonlFiles ;;
     ret (map fst (sortDesc snd filesWithStats)))
    (fun _ => ret []).

End WithFileSystem.
End Listing.

(* ------------------------------------------------------------------ *)
(** ** Conversation parser (parser.ts) *)
(* ------------------------------------------------------------------ *)

Inductive ContentType := ct_code | ct_error | ct_technical | ct_conversational.

(** The pattern-driven helpers of the parser, taken as given: each is a
    pure function of its arguments. *)
Record ParserDeps := {
  extractMostValuableContent : string -> Z -> string;
  detectContentType : string -> ContentType;
  preserveCodeBlocks : string -> Z -> string;
  preserveErrorMessages : string -> Z -> string;
  preserveTechnicalContent : string -> Z -> string;
  extractContext : ClaudeMessage -> string -> option Context;
  (** [new Date(timestamp).toISOString()]; [None] when it throws. *)
  formatTimestamp : string -> option string
}.

(** One line of a JSONL file, as [JSON.parse] sees it. *)
Inductive Line :=
| Blank
| Malformed
| Parsed (m : ClaudeMessage).

Module Parser.
Import JS.

Definition strlen (s : string) : Z := Z.of_nat (String.length s).

(** [content.lastIndexOf(pat, from)], as an integer (-1 when absent). *)
Fixpoint lastIndexOfFrom (content pat : string) (i : nat) (from : Z) (last : Z) : Z :=
  let here :=
    if (Z.of_nat i <=? Z.max from 0)%Z && startsWith content pat
    then Z.of_nat i else last in
  match content with
  | EmptyString => here
  | String _ rest => lastIndexOfFrom rest pat (S i) from here
  end.

Definition lastIndexOf (content pat : string) (from : Z) : Z :=
  lastIndexOfFrom content pat 0 from (-1)%Z.

Definition LF : ascii := ascii_of_nat 10.

(** The boundaries tried in turn: blank line, end of sentence, line
    break, comma, space. *)
Definition boundaries : list string :=
  [ String LF (String LF EmptyString); ". "; "! "; "? ";
    String LF EmptyString; ", "; " " ].

(** The budget [maxLength] is an integer.  An index into a string is a
    binary64 number as it is. *)
Definition intelligentTruncation (content : string) (maxLength : Z) : string :=
  if (strlen content <=? maxLength)%Z then content
  else
    match
      find (fun boundary =>
              let lastBoundary := lastIndexOf content boundary (maxLength - 3) in
              (* lastBoundary > maxLength * 0.7 *)
              Qlt_bool
                (Binary64.mul (Binary64.ofZ maxLength) (Binary64.rnd (7 # 10)))
                (inject_Z lastBoundary))
           boundaries
    with
    | Some boundary =>
        (substring0 content (lastIndexOf content boundary (maxLength - 3)) ++ "...")%string
    | None => (substring0 content (maxLength - 3) ++ "...")%string
    end.

Section WithDeps.
Variable deps : ParserDeps.

Definition getContentLimit (content : string) : Z :=
  match detectContentType deps content with
  | ct_code => 4000
  | ct_error => 3500
  | ct_technical => 3500
  | ct_conversational => 3000
  end%Z.

Definition smartContentPreservation (content : string) (maxLength : Z) : string :=
  if (strlen content <=? maxLength)%Z then content
  else
    let valuableContent := extractMostValuableContent deps content maxLength in
    if (strlen valuableContent <=? maxLength)%Z then valuableContent
    else
      match detectContentType deps content with
      | ct_code => preserveCodeBlocks deps content maxLength
      | ct_error => preserveErrorMessages deps content maxLength
      | ct_technical => preserveTechnicalContent deps content maxLength
      | ct_conversational => intelligentTruncation content maxLength
      end.

(** [encodedPath.replace(/-/g, '/')] *)
Definition decodeProjectPath (encodedPath : string) : string :=
  mapString (fun c => if code c =? 45 then ascii_of_nat 47 else c) encodedPath.

(** The body of the [for await] loop for one line: the message pushed,
    if any.  A line that fails to parse, a message outside the time
    filter, one without content, and one whose timestamp cannot be
    formatted are all skipped. *)
Definition parseLine (projectDir : string) (query : option string)
  (timeFilter : option (string -> bool)) (line : Line) : option CompactMessage :=
  match line with
  | Blank | Malformed => None
  | Parsed claudeMessage =>
      let passes :=
        match timeFilter with
        | Some f => f (cm_timestamp claudeMessage)
        | None => true
        end in
      if negb passes then None
      else
        let content := Utils.extractContentFromMessage (cm_message claudeMessage) in
        if String.eqb content EmptyString then None
        else
          match formatTimestamp deps (cm_timestamp claudeMessage) with
          | None => None
          | Some ts =>
              Some
                {| uuid := cm_uuid claudeMessage;
                   timestamp := ts;
                   type := cm_type claudeMessage;
                   content := smartContentPreservation content (getContentLimit content);
                   sessionId := cm_sessionId claudeMessage;
                   projectPath := Some (decodeProjectPath projectDir);
                   relevanceScore :=
                     Some
                       (match query with
                        | Some q =>
                            if String.eqb q EmptyString then 0%Q
                            else inject_Z
                                   (Utils.calculateRelevanceScore claudeMessage q
                                      (Some projectDir))
                        | None => 0%Q
                        end);
                   finalScore := None;
                   context := extractContext deps claudeMessage content |}
          end
  end.

Fixpoint collect {A B} (f : A -> option B) (l : list A) : list B :=
  match l with
  | [] => []
  | x :: xs =>
      match f x with
      | Some y => y :: collect f xs
      | None => collect f xs
      end
  end.

(** [parseJsonlFile] applied to the lines the stream delivered.  The
    session bookkeeping of the parser is not part of its result and is
    left out. *)
Definition parseLines (projectDir : string) (query : option string)
  (timeFilter : option (string -> bool)) (lines : list Line) : list CompactMessage :=
  collect (parseLine projectDir query timeFilter) lines.

End WithDeps.
End Parser.

(* ------------------------------------------------------------------ *)
(** ** Search engine (search.ts): the pure part *)
(* ------------------------------------------------------------------ *)

Inductive QueryType := q_error | q_implementation | q_analysis | q_general.
Inductive Urgency := high | medium.
Inductive Scope := broad | focused.

(** The object built by [analyzeQueryIntent].  [semanticBoosts] keeps the
    order in which its keys were added, which is the order
    [Object.entries] walks them in. *)
Record Analysis := {
  a_type : QueryType;
  urgency : Urgency;
  scope : Scope;
  expectsCode : bool;
  expectsSolution : bool;
  keywords : list string;
  semanticBoosts : list (string * Q)
}.

Module Engine.
Import JS.

Definition withFinalScore (msg : CompactMessage) (score : Q) : CompactMessage :=
  {| uuid := uuid msg; timestamp := timestamp msg; type := type msg;
     content := content msg; sessionId := sessionId msg;
     projectPath := projectPath msg; relevanceScore := relevanceScore msg;
     finalScore := Some score; context := context msg |}.

Definition classifyQueryType (query : string) : QueryType :=
  let lowerQuery := toLowerCase query in
  if includes lowerQuery "error" || includes lowerQuery "bug"
     || includes lowerQuery "fix" || includes lowerQuery "issue"
  then q_error
  else if includes lowerQuery "implement" || includes lowerQuery "create"
          || includes lowerQuery "build" || includes lowerQuery "add"
  then q_implementation
  else if includes lowerQuery "how" || includes lowerQuery "why"
          || includes lowerQuery "analyze" || includes lowerQuery "understand"
  then q_analysis
  else q_general.

Definition getSemanticBoosts (query : string) : list (string * Q) :=
  (if includes query "error" then [("errorResolution", 3%Q)] else [])
  ++ (if includes query "implement" then [("implementation", (25 # 10)%Q)] else [])
  ++ (if includes query "optimize" then [("optimization", 2%Q)] else [])
  ++ (if includes query "fix" then [("solutions", (28 # 10)%Q)] else [])
  ++ (if includes query "file" then [("fileOperations", 2%Q)] else [])
  ++ (if includes query "tool" then [("toolUsage", (22 # 10)%Q)] else []).

Definition analyzeQueryIntent (query : string) : Analysis :=
  let lowerQuery := toLowerCase query in
  {| a_type := classifyQueryType query;
     urgency := if includes lowerQuery "error" || includes lowerQuery "failed"
                then high else medium;
     scope := if includes lowerQuery "project" || includes lowerQuery "all"
              then broad else focused;
     expectsCode := includes lowerQuery "function" || includes lowerQuery "implement"
                    || includes lowerQuery "code";
     expectsSolution := includes lowerQuery "how" || includes lowerQuery "fix"
                        || includes lowerQuery "solve";
     keywords := Utils.words_gt2 lowerQuery;
     semanticBoosts := getSemanticBoosts lowerQuery |}.

Definition noisePatterns : list string :=
  [ "this session is being continued"; "caveat:"; "command-name>";
    "local-command-stdout"; "system-reminder"; "command-message>";
    "much better! now i can see"; "package.js"; "export interface";
    "you are claude code"; "read-only mode"; "i cannot make changes";
    "i'm in plan mode"; "hello! i'm claude"; "i am claude";
    "ready to help you"; "what would you like me to"; "how can i assist";
    "i understand that i'm" ].

Definition matchesQueryIntent (message : CompactMessage) (analysis : Analysis) : bool :=
  let content := toLowerCase (content message) in
  match a_type analysis with
  | q_error =>
      includes content "error" || includes content "fix"
      || includes content "solution"
      || (0 <? lengthOr0 (ctxField errorPatterns message))
  | q_implementation =>
      includes content "implement" || includes content "create"
      || includes content "function"
      || (0 <? lengthOr0 (ctxField codeSnippets message))
  | q_analysis =>
      includes content "analyze" || includes content "understand"
      || includes content "explain"
      || (MessageType_eqb (type message) assistant && (100 <? String.length content))
  | q_general =>
      (0 <? lengthOr0 (ctxField toolsUsed message))
      || (MessageType_eqb (type message) assistant && (80 <? String.length content))
  end.

Definition isHighlyRelevant (message : CompactMessage) (query : string)
  (analysis : Analysis) : bool :=
  let content := toLowerCase (content message) in
  if existsb (includes content) noisePatterns || (String.length content <? 40)
  then false
  else if Qlt_bool (orZero (relevanceScore message)) (3 # 10) then false
  else matchesQueryIntent message analysis.

Definition messageMatchesSemanticType (message : CompactMessage) (type : string) : bool :=
  let content := toLowerCase (content message) in
  if String.eqb type "errorResolution" then
    includes content "error" || includes content "exception"
    || (0 <? lengthOr0 (ctxField errorPatterns message))
  else if String.eqb type "implementation" then
    includes content "function" || includes content "implement"
    || (0 <? lengthOr0 (ctxField codeSnippets message))
  else if String.eqb type "optimization" then
    includes content "optimize" || includes content "performance"
    || includes content "faster"
  else if String.eqb type "solutions" then
    includes content "solution" || includes content "fix"
    || includes content "resolve"
  else if String.eqb type "fileOperations" then
    0 <? lengthOr0 (ctxField filesReferenced message)
  else if String.eqb type "toolUsage" then
    0 <? lengthOr0 (ctxField toolsUsed message)
  else false.

(** [content.trim().length < 20], or one of the low-value patterns: four
    substrings, a bare acknowledgement with an optional full stop, and
    a bare [error:] or [warning:] followed by white space only. *)
Definition isLowValueContent (content : string) : bool :=
  let lowerContent := toLowerCase content in
  let bare (prefix : string) :=
    startsWith lowerContent prefix
    && forallString isSpace (drop (String.length prefix) lowerContent) in
  existsb (includes lowerContent)
    [ "local-command-stdout>(no content)"; "command-name>/doctor";
      "system-reminder>"; "much better! now i can see" ]
  || inList lowerContent
       [ "ok"; "yes"; "no"; "sure"; "thanks";
         "ok."; "yes."; "no."; "sure."; "thanks." ]
  || bare "error:"
  || bare "warning:"
  || (String.length (trim content) <? 20).

(** *** Content signature and de-duplication *)

Fixpoint insertSorted (x : string) (l : list string) : list string :=
  match l with
  | [] => [x]
  | y :: ys => if String.leb x y then x :: y :: ys else y :: insertSorted x ys
  end.

(** [xs.sort()] on an array of strings: ascending code-unit order. *)
Definition sortStrings (l : list string) : list string :=
  fold_right insertSorted [] l.

(** [createIntelligentSignature] sorts [message.context.toolsUsed] in
    place; this is the message as that call leaves it. *)
Definition sortedTools (message : CompactMessage) : CompactMessage :=
  match context message with
  | Some c =>
      match toolsUsed c with
      | Some tools =>
          {| uuid := uuid message; timestamp := timestamp message;
             type := type message; content := content message;
             sessionId := sessionId message; projectPath := projectPath message;
             relevanceScore := relevanceScore message;
             finalScore := finalScore message;
             context :=
               Some {| filesReferenced := filesReferenced c;
                       toolsUsed := Some (sortStrings tools);
                       errorPatterns := errorPatterns c;
                       bashCommands := bashCommands c;
                       claudeInsights := claudeInsights c;
                       codeSnippets := codeSnippets c;
                       actionItems := actionItems c |} |}
      | None => message
      end
  | None => message
  end.

Definition isQuote (c : ascii) : bool := (code c =? 34) || (code c =? 39).

Definition contentHash (content : string) : string :=
  take 80
    (replaceRuns isSpace " "
       (filterString (fun c => negb (isQuote c))
          (replaceRuns isDigit "N" (toLowerCase content)))).

(** The string [createIntelligentSignature] returns. *)
Definition createIntelligentSignature (message : CompactMessage) : string :=
  let tools :=
    join "|"
      (sortStrings
         (match ctxField toolsUsed message with
          | Some tools => tools
          | None => []
          end)) in
  let files :=
    if 0 <? lengthOr0 (ctxField filesReferenced message) then "files" else "nofiles" in
  (MessageType_name (type message) ++ ":" ++ tools ++ ":" ++ files ++ ":"
   ++ contentHash (content message))%string.

(** [seen.has(signature)] / [seen.get(signature)] *)
Fixpoint mapGet {V} (key : string) (m : list (string * V)) : option V :=
  match m with
  | [] => None
  | (k, v) :: rest => if String.eqb k key then Some v else mapGet key rest
  end.

(** [seen.set(signature, v)]: a new key goes last, a present key keeps
    its place and takes the new value. *)
Fixpoint mapSet {V} (key : string) (v : V) (m : list (string * V)) : list (string * V) :=
  match m with
  | [] => [(key, v)]
  | (k, old) :: rest =>
      if String.eqb k key then (k, v) :: rest else (k, old) :: mapSet key v rest
  end.

Definition mapDelete {V} (key : string) (m : list (string * V)) : list (string * V) :=
  filter (fun kv => negb (String.eqb (fst kv) key)) m.

(** One turn of the loop of [intelligentDeduplicate]. *)
Definition dedupStep (seen : list (string * CompactMessage)) (message0 : CompactMessage)
  : list (string * CompactMessage) :=
  let message := sortedTools message0 in
  let signature := createIntelligentSignature message0 in
  match mapGet signature seen with
  | None => mapSet signature message seen
  | Some existing =>
      if Qlt_bool (orZero (finalScore existing)) (orZero (finalScore message))
      then mapSet signature message seen
      else seen
  end.

Definition intelligentDeduplicate (messages : list CompactMessage) : list CompactMessage :=
  map snd (fold_left dedupStep messages []).

(** *** Re-ranking *)

Definition queryWordsOf (query : string) : list string :=
  filter (fun w => 2 <? String.length w) (splitSpaces query).

(** The score of a candidate after the coverage step. *)
Definition coverageBoost (score : Q) (contentLower : string)
  (queryTerms : list string) : Q :=
  let matchCount := length (filter (includes contentLower) queryTerms) in
  let coverageRatio : Q :=
    if 0 <? length queryTerms then SearchHelpers.ratio matchCount (length queryTerms)
    else 1%Q in
  if Qle_bool (1 # 2) coverageRatio then
    fold_left
      (fun sc term => if includes contentLower term then (sc * 2)%Q else sc)
      queryTerms score
  else if 0 <? matchCount then
    (score * ((1 + inject_Z (Z.of_nat matchCount) * (1 # 2)) * coverageRatio))%Q
  else (score * (1 # 10))%Q.

Definition applySemanticBoosts (msg : CompactMessage)
  (boosts : list (string * Q)) (score : Q) : Q :=
  fold_left
    (fun sc (entry : string * Q) =>
       if messageMatchesSemanticType msg (fst entry) then (sc * snd entry)%Q else sc)
    boosts score.

(** The callback of [candidates.map] in [selectTopRelevantResults];
    [recent] tells whether the candidate is less than 24 hours old, which
    is looked at for urgent queries only. *)
Definition scoreCandidate (query : string) (analysis : Analysis) (recent : bool)
  (msg : CompactMessage) : CompactMessage :=
  let score := orZero (relevanceScore msg) in
  let queryWords := queryWordsOf query in
  if (2 <=? length queryWords) && Qeq_bool score 0 then withFinalScore msg 0
  else
    let contentLower := toLowerCase (content msg) in
    let queryTerms := Utils.words_gt2 (toLowerCase query) in
    let score1 := coverageBoost score contentLower queryTerms in
    let score2 := applySemanticBoosts msg (semanticBoosts analysis) score1 in
    let score3 :=
      match urgency analysis with
      | high => if recent then (score2 * (15 # 10))%Q else score2
      | medium => score2
      end in
    withFinalScore msg score3.

End Engine.

(* ------------------------------------------------------------------ *)
(** ** Search engine (search.ts): the operations *)
(* ------------------------------------------------------------------ *)

(** What the engine is given: the clock, the directory listings, the
    line reader and the parser's helpers.  The listings are [async] and
    are allowed to throw; [withListing] below plugs in the ones of
    utils.ts, which do not.  [readJsonl] yields the lines a file's stream delivered
    before it ended or failed; [parseJsonlFile] catches a failing stream
    and keeps the messages parsed so far. *)
Record Env (World : Type) := {
  Date_now : World -> Z * World;
  (** [new Date(timestamp).getTime()]; [None] for an invalid date. *)
  Date_parse : string -> option Z;
  findProjectDirectories : Eff.M World (list string);
  findJsonlFiles : string -> Eff.M World (list string);
  readJsonl : string -> string -> World -> list Line * World;
  getTimeRangeFilter : option string -> Eff.M World (string -> bool);
  parserDeps : ParserDeps
}.
Arguments Date_now {World}.
Arguments Date_parse {World}.
Arguments findProjectDirectories {World}.
Arguments findJsonlFiles {World}.
Arguments readJsonl {World}.
Arguments getTimeRangeFilter {World}.
Arguments parserDeps {World}.

(** The outside world together with the engine's [messageCache]. *)
Record State (World : Type) := {
  world : World;
  messageCache : list (string * list CompactMessage)
}.
Arguments world {World}.
Arguments messageCache {World}.
Arguments Build_State {World}.

(** The environment whose two listings are the ones of utils.ts over the
    given file system. *)
Definition withListing {World} (fs : FileSystem World) (env : Env World) : Env World :=
  {| Date_now := Date_now env;
     Date_parse := Date_parse env;
     findProjectDirectories := Listing.findProjectDirectories World fs;
     findJsonlFiles := Listing.findJsonlFiles World fs;
     readJsonl := readJsonl env;
     getTimeRangeFilter := getTimeRangeFilter env;
     parserDeps := parserDeps env |}.

Module HistorySearchEngine.
Import JS Eff Engine.
Local Open Scope eff_scope.

Section WithEnv.
Variable World : Type.
Variable env : Env World.

Local Abbreviation St := (State World).

(** An operation of the outside world, run from the engine. *)
Definition liftW {A} (m : M World A) : M St A :=
  fun s =>
    let (r, w) := m (world s) in
    (r, {| world := w; messageCache := messageCache s |}).

(** [Date.now()] *)
Definition now : M St Z :=
  total (fun s : St =>
           let (t, w) := Date_now env (world s) in
           (t, {| world := w; messageCache := messageCache s |})).

(** [expandWorktreeProjects] returns its argument (the expansion is
    switched off in the source). *)
Definition expandWorktreeProjects (projectDirs : list string) : M St (list string) :=
  ret projectDirs.

(** *** processJsonlFile and its cache *)

Definition averageScore (msgs : list CompactMessage) : option Q :=
  match msgs with
  | [] => None (* 0 / 0 *)
  | _ =>
      Some (fold_left (fun sum m => (sum + orZero (relevanceScore m))%Q) msgs 0%Q
            / inject_Z (Z.of_nat (length msgs)))%Q
  end.

(** The reducer that looks for the least valuable cache entry; an
    [avgScore] of [None] in the accumulator stands for [Infinity]. *)
Definition leastValuableStep (min : string * option Q)
  (entry : string * list CompactMessage) : string * option Q :=
  match averageScore (snd entry) with
  | None => min
  | Some avgScore =>
      let below :=
        match snd min with
        | Some m => if Qeq_bool m 0 then true (* 0 || Infinity *)
                    else Qlt_bool avgScore m
        | None => true
        end in
      if below then (fst entry, Some avgScore) else min
  end.

Definition cacheAfter (cacheKey : string) (messages : list CompactMessage)
  (cache : list (string * list CompactMessage)) : list (string * list CompactMessage) :=
  if length cache <? 500 then mapSet cacheKey messages cache
  else if existsb (fun m => Qlt_bool 8 (orZero (relevanceScore m))) messages then
    let leastValuable := fold_left leastValuableStep cache (EmptyString, None) in
    if negb (String.eqb (fst leastValuable) EmptyString)
    then mapSet cacheKey messages (mapDelete (fst leastValuable) cache)
    else cache
  else cache.

Definition processJsonlFile (projectDir file query : string)
  (timeFilter : option (string -> bool)) : M St (list CompactMessage) :=
  fun s =>
    let cacheKey := (projectDir ++ "/" ++ file)%string in
    match mapGet cacheKey (messageCache s) with
    | Some cached => (Returned cached, s)
    | None =>
        let (lines, w) := readJsonl env projectDir file (world s) in
        let messages :=
          Parser.parseLines (parserDeps env) projectDir (Some query) timeFilter lines in
        (Returned messages,
         {| world := w;
            messageCache := cacheAfter cacheKey messages (messageCache s) |})
    end.

(** *** Candidate gathering *)

Definition geZ (n : nat) (z : Z) : bool := (z <=? Z.of_nat n)%Z.

(** The [for (const file of priorityFiles)] loop of
    [processProjectFocused]; [messages] is what has been pushed so far,
    and is what the surrounding [catch] returns if a file throws. *)
Fixpoint focusedLoop (projectDir query : string) (analysis : Analysis)
  (timeFilter : option (string -> bool)) (targetPerProject : Z) (perFile : Z)
  (files : list string) (messages : list CompactMessage)
  : M St (list CompactMessage) :=
  match files with
  | [] => ret messages
  | file :: rest =>
      r <- settle (processJsonlFile projectDir file query timeFilter) ;;
      match r with
      | Thrown _ => ret messages
      | Returned fileMessages =>
          let relevant :=
            slice0
              (filter (fun msg => matchesQueryIntent msg analysis)
                 (filter (fun msg => Qle_bool 1 (orZero (relevanceScore msg)))
                    fileMessages))
              perFile in
          let messages' := messages ++ relevant in
          if geZ (length messages') targetPerProject then ret messages'
          else focusedLoop projectDir query analysis timeFilter targetPerProject
                 perFile rest messages'
      end
  end.

Definition processProjectFocused (projectDir query : string) (analysis : Analysis)
  (timeFilter : option (string -> bool)) (targetPerProject : Z)
  : M St (list CompactMessage) :=
  r <- settle (liftW (findJsonlFiles env projectDir)) ;;
  match r with
  | Thrown _ => ret []
  | Returned jsonlFiles =>
      let priorityFiles := firstn (Nat.min 4 (length jsonlFiles)) jsonlFiles in
      focusedLoop projectDir query analysis timeFilter targetPerProject
        (ceilDiv targetPerProject (length priorityFiles)) priorityFiles []
  end.

(** The aggregation loop over the settled project results. *)
Fixpoint aggregate (query : string) (analysis : Analysis) (targetCount : Z)
  (projectResults : list (Outcome (list CompactMessage)))
  (candidates : list CompactMessage) : list CompactMessage :=
  match projectResults with
  | [] => candidates
  | Thrown _ :: rest => aggregate query analysis targetCount rest candidates
  | Returned value :: rest =>
      let candidates' :=
        candidates ++ filter (fun msg => isHighlyRelevant msg query analysis) value in
      if geZ (length candidates') targetCount then candidates'
      else aggregate query analysis targetCount rest candidates'
  end.

(** The project scans are started together and joined with
    [Promise.allSettled]; they are run here one after the other, in the
    order of [projectDirs]. *)
Definition gatherRelevantCandidates (projectDirs : list string) (query : string)
  (analysis : Analysis) (timeFilter : option (string -> bool)) (targetCount : Z)
  : M St (list CompactMessage) :=
  projectResults <-
    mapM (fun projectDir =>
            settle (processProjectFocused projectDir query analysis timeFilter
                      (ceilDiv targetCount (length projectDirs))))
         projectDirs ;;
  ret (aggregate query analysis targetCount projectResults []).

(** *** Re-ranking *)

(** [hoursDiff < 24] for a candidate's timestamp, at clock reading [t]. *)
Definition isRecent (t : Z) (timestamp : string) : bool :=
  match Date_parse env timestamp with
  | Some stamp => (t - stamp <? 24 * 3600000)%Z
  | None => false
  end.

Definition scoreOne (query : string) (analysis : Analysis) (msg : CompactMessage)
  : M St CompactMessage :=
  let vetoed :=
    (2 <=? length (queryWordsOf query))
    && Qeq_bool (orZero (relevanceScore msg)) 0 in
  match urgency analysis with
  | high =>
      if vetoed then ret (scoreCandidate query analysis false msg)
      else
        t <- now ;;
        ret (scoreCandidate query analysis (isRecent t (timestamp msg)) msg)
  | medium => ret (scoreCandidate query analysis false msg)
  end.

Definition selectTopRelevantResults (candidates : list CompactMessage)
  (query : string) (analysis : Analysis) (limit : Z) : M St (list CompactMessage) :=
  scoredCandidates <- mapM (scoreOne query analysis) candidates ;;
  let sorted := sortDesc (fun m => orZero (finalScore m)) scoredCandidates in
  let deduped := intelligentDeduplicate sorted in
  ret (slice0 deduped limit).

(** *** search *)

(** [msg.finalScore || msg.relevanceScore || 0] *)
Definition effectiveScore (msg : CompactMessage) : Q :=
  match finalScore msg with
  | Some f => if Qeq_bool f 0 then orZero (relevanceScore msg) else f
  | None => orZero (relevanceScore msg)
  end.

Definition emptyResult (query : string) (elapsed : Z) : SearchResult :=
  {| messages := []; totalResults := 0; searchQuery := query;
     executionTime := elapsed |}.

Definition performOptimizedSearch (query : string) (analysis : Analysis)
  (limit : Z) (startTime : Z) (projectFilter timeframe : option string)
  : M St SearchResult :=
  timeFilter <- liftW (getTimeRangeFilter env timeframe) ;;
  tryCatch
    (projectDirs <- liftW (findProjectDirectories env) ;;
     expandedDirs <- expandWorktreeProjects projectDirs ;;
     if String.length query <? 3 then
       t <- now ;;
       ret (emptyResult query (t - startTime))
     else
       let maxProjects :=
         Z.min (Z.of_nat (length expandedDirs)) (Z.max 8 (ceilDiv limit 2)) in
       let targetDirs :=
         match projectFilter with
         | Some p =>
             if String.eqb p EmptyString then slice0 expandedDirs maxProjects
             else filter (fun dir => includes dir p) expandedDirs
         | None => slice0 expandedDirs maxProjects
         end in
       candidates <-
         gatherRelevantCandidates targetDirs query analysis (Some timeFilter)
           (limit * 2) ;;
       topRelevant <- selectTopRelevantResults candidates query analysis limit ;;
       let qualityResults :=
         filter
           (fun msg =>
              Qle_bool (15 # 10) (effectiveScore msg)
              && (40 <=? String.length (content msg))
              && negb (isLowValueContent (content msg)))
           topRelevant in
       t <- now ;;
       ret {| messages := qualityResults;
              totalResults := length candidates;
              searchQuery := query;
              executionTime := t - startTime |})
    (fun error => throw error).

Definition searchConversations (query : string) (projectFilter timeframe : option string)
  (limit : Z) : M St SearchResult :=
  startTime <- now ;;
  let queryAnalysis := analyzeQueryIntent query in
  let requestedLimit := limit in
  tryCatch
    (performOptimizedSearch query queryAnalysis requestedLimit startTime
       projectFilter timeframe)
    (fun _ =>
       t <- now ;;
       ret (emptyResult query (t - startTime))).

(** *** find similar queries *)

Definition setSimilarity (query : CompactMessage) (similarity : Q) : CompactMessage :=
  {| uuid := uuid query; timestamp := timestamp query; type := type query;
     content := content query; sessionId := sessionId query;
     projectPath := projectPath query; relevanceScore := Some similarity;
     finalScore := finalScore query; context := context query |}.

Definition emptyContext : Context :=
  {| filesReferenced := None; toolsUsed := None; errorPatterns := None;
     bashCommands := None; claudeInsights := None; codeSnippets := None;
     actionItems := None |}.

(** [query.context = query.context || {}; query.context.claudeInsights = [answer]] *)
Definition setInsight (query : CompactMessage) (answer : string) : CompactMessage :=
  let c := match context query with
           | Some c => c
           | None => emptyContext
           end in
  {| uuid := uuid query; timestamp := timestamp query; type := type query;
     content := content query; sessionId := sessionId query;
     projectPath := projectPath query; relevanceScore := relevanceScore query;
     finalScore := finalScore query;
     context :=
       Some {| filesReferenced := filesReferenced c;
               toolsUsed := toolsUsed c;
               errorPatterns := errorPatterns c;
               bashCommands := bashCommands c;
               claudeInsights := Some [answer];
               codeSnippets := codeSnippets c;
               actionItems := actionItems c |} |}.

(** [messages.findIndex(m => m.uuid === id)], with the messages that
    follow the match. *)
Fixpoint afterUuid (id : string) (messages : list CompactMessage)
  : option (list CompactMessage) :=
  match messages with
  | [] => None
  | m :: rest => if String.eqb (uuid m) id then Some rest else afterUuid id rest
  end.

(** The look-ahead for an answer: among the (at most four) messages that
    follow the query, the first from the assistant that is longer than
    50 characters. *)
Definition attachAnswer (messages : list CompactMessage) (query : CompactMessage)
  : CompactMessage :=
  match afterUuid (uuid query) messages with
  | None => query
  | Some following =>
      match
        find (fun nextMsg =>
                MessageType_eqb (type nextMsg) assistant
                && (50 <? String.length (content nextMsg)))
             (firstn 4 following)
      with
      | Some nextMsg => setInsight query (take 400 (content nextMsg))
      | None => query
      end
  end.

Definition isUserQuery (msg : CompactMessage) : bool :=
  MessageType_eqb (type msg) user
  && (15 <? String.length (content msg))
  && (String.length (content msg) <? 800)
  && negb (isLowValueContent (content msg)).

(** The messages one file adds to [allMessages]. *)
Definition similarInFile (targetQuery : string) (messages : list CompactMessage)
  : list CompactMessage :=
  Parser.collect
    (fun query =>
       let similarity :=
         SearchHelpers.calculateQuerySimilarity targetQuery (content query) in
       if Qlt_bool (Binary64.rnd (4 # 10)) similarity
       then Some (attachAnswer messages (setSimilarity query similarity))
       else None)
    (filter isUserQuery messages).

(** The loop over the files of one project, from the messages found so
    far; it stops at the first file after which enough were found. *)
Fixpoint similarFiles (targetQuery : string) (limit : Z) (projectDir : string)
  (files : list string) (allMessages : list CompactMessage)
  : M St (list CompactMessage) :=
  match files with
  | [] => ret allMessages
  | file :: rest =>
      messages <-
        total (fun s : St =>
                 let (lines, w) := readJsonl env projectDir file (world s) in
                 (Parser.parseLines (parserDeps env) projectDir None None lines,
                  {| world := w; messageCache := messageCache s |})) ;;
      let allMessages' := allMessages ++ similarInFile targetQuery messages in
      if geZ (length allMessages') (limit * 4) then ret allMessages'
      else similarFiles targetQuery limit projectDir rest allMessages'
  end.

Fixpoint similarDirs (targetQuery : string) (limit : Z)
  (dirs : list string) (allMessages : list CompactMessage)
  : M St (list CompactMessage) :=
  match dirs with
  | [] => ret allMessages
  | projectDir :: rest =>
      jsonlFiles <- liftW (findJsonlFiles env projectDir) ;;
      allMessages' <-
        similarFiles targetQuery limit projectDir (firstn 5 jsonlFiles) allMessages ;;
      if geZ (length allMessages') (limit * 4) then ret allMessages'
      else similarDirs targetQuery limit rest allMessages'
  end.

Definition findSimilarQueries (targetQuery : string) (limit : Z)
  : M St (list CompactMessage) :=
  tryCatch
    (projectDirs <- liftW (findProjectDirectories env) ;;
     expandedDirs <- expandWorktreeProjects projectDirs ;;
     let limitedDirs := firstn 8 expandedDirs in
     allMessages <- similarDirs targetQuery limit limitedDirs [] ;;
     let qualityResults :=
       slice0
         (sortDesc (fun m => orZero (relevanceScore m))
            (filter (fun msg => negb (isLowValueContent (content msg))) allMessages))
         limit in
     ret qualityResults)
    (fun _ => ret []).

End WithEnv.
End HistorySearchEngine.

(* ------------------------------------------------------------------ *)
(** ** Project path encoding (utils.ts) *)
(* ------------------------------------------------------------------ *)

Module Paths.
Import JS.

(** [path.replace(/\//g, '-')] *)
Definition encodeProjectPath (path : string) : string :=
  mapString (fun c => if code c =? 47 then ascii_of_nat 45 else c) path.

(** [encodedPath.replace(/-/g, '/')], as the parser uses it too. *)
Definition decodeProjectPath (encodedPath : string) : string :=
  Parser.decodeProjectPath encodedPath.

End Paths.

(* ------------------------------------------------------------------ *)
(** ** Search engine (search.ts): the simple de-duplication *)
(* ------------------------------------------------------------------ *)

Module SimpleDedup.
Import JS.

(** [message.content.substring(0, 100).toLowerCase().replace(/\s+/g, '')] *)
Definition simpleHash (message : CompactMessage) : string :=
  filterString (fun c => negb (isSpace c)) (toLowerCase (take 100 (content message))).

(** The loop of [deduplicateMessages]; [seen] is the set of hashes met. *)
Fixpoint deduplicateFrom (seen : list string) (messages : list CompactMessage)
  : list CompactMessage :=
  match messages with
  | [] => []
  | message :: rest =>
      let contentHash := simpleHash message in
      if inList contentHash seen then deduplicateFrom seen rest
      else message :: deduplicateFrom (contentHash :: seen) rest
  end.

Definition deduplicateMessages (messages : list CompactMessage) : list CompactMessage :=
  deduplicateFrom [] messages.

End SimpleDedup.


(* ------------------------------------------------------------------ *)
(** ** Search helpers (search-helpers.ts): query expansion and error
       matching *)
(* ------------------------------------------------------------------ *)

Module SearchHelpersMore.
Import JS.

(** [[...new Set(xs)]]: the first occurrence of every string, in order;
    [seen] holds the strings met so far. *)
Fixpoint uniqueFrom (seen : list string) (xs : list string) : list string :=
  match xs with
  | [] => []
  | x :: rest =>
      if inList x seen then uniqueFrom seen rest
      else x :: uniqueFrom (x :: seen) rest
  end.

Definition unique (xs : list string) : list string := uniqueFrom [] xs.

Definition technicalExpansions : list (string * list string) :=
  [ ("error", ["exception"; "fail"; "crash"; "bug"; "issue"]);
    ("fix", ["resolve"; "solve"; "repair"; "correct"]);
    ("implement", ["create"; "build"; "develop"; "add"]);
    ("optimize", ["improve"; "enhance"; "speed up"; "performance"]);
    ("debug", ["troubleshoot"; "diagnose"; "trace"]);
    ("deploy", ["publish"; "release"; "launch"]);
    ("test", ["verify"; "check"; "validate"]);
    ("config", ["configuration"; "settings"; "setup"]);
    ("auth", ["authentication"; "login"; "security"]);
    ("api", ["endpoint"; "service"; "request"]) ].

Definition patternExpansions : list (string * list string) :=
  [ (".ts", ["typescript"; "type"]);
    (".js", ["javascript"]);
    ("npm", ["package"; "dependency"]);
    ("git", ["version control"; "commit"]) ].

(** The terms pushed for the triggers that the query contains. *)
Definition pushed (baseQuery : string) (table : list (string * list string))
  : list string :=
  flat_map
    (fun entry : string * list string =>
       if includes baseQuery (fst entry) then snd entry else [])
    table.

Definition expandQuery (query : string) : list string :=
  let baseQuery := trim (toLowerCase query) in
  unique
    ([baseQuery] ++ pushed baseQuery technicalExpansions
     ++ pushed baseQuery patternExpansions).

(** The class [[!?.:]] *)
Definition isErrorPunctuation (c : ascii) : bool :=
  (code c =? 33) || (code c =? 63) || (code c =? 46) || (code c =? 58).

(** The class [[\s:_-]] *)
Definition isPatternDelimiter (c : ascii) : bool :=
  isSpace c || (code c =? 58) || (code c =? 95) || (code c =? 45).

Definition specificErrorCodes : list string :=
  [ "enoent"; "eacces"; "etimedout"; "econnrefused"; "eperm"; "eexist";
    "enotdir"; "eisdir"; "eaddrinuse"; "econnreset"; "ehostunreach";
    "typeerror"; "referenceerror"; "syntaxerror"; "rangeerror"; "urierror" ].

Definition errorPhrases : list string :=
  [ "connection refused"; "permission denied"; "no such file"; "not found";
    "module not found"; "command not found"; "cannot read"; "cannot find";
    "is not a function"; "is not defined"; "undefined is not"; "null is not";
    "build failed"; "compile error"; "test failed"; "npm err"; "yarn error";
    "exit code"; "stack trace"; "uncaught exception"; "unhandled rejection" ].

(** [phrase.split(' ')]; no phrase of the list has two spaces in a row,
    so the pieces are those between the single spaces. *)
Definition phraseWords (phrase : string) : list string :=
  split (fun c => code c =? 32) phrase.

(** [errorPattern.toLowerCase().replace(/[!?.:]+/g, '').trim()] *)
Definition lowerPatternOf (errorPattern : string) : string :=
  trim (filterString (fun c => negb (isErrorPunctuation c)) (toLowerCase errorPattern)).

Definition hasErrorInContent (content errorPattern : string) : bool :=
  let lowerContent := toLowerCase content in
  let lowerPattern := lowerPatternOf errorPattern in
  if includes lowerContent lowerPattern then true
  else
    let patternIsSpecificCode :=
      existsb (fun code => includes lowerPattern code) specificErrorCodes in
    if patternIsSpecificCode then
      existsb (fun code => includes lowerPattern code && includes lowerContent code)
        specificErrorCodes
    else
      let patternWords :=
        filter (fun w => 2 <? String.length w)
          (split isPatternDelimiter lowerPattern) in
      if length patternWords =? 0 then false
      else if existsb
                (fun phrase =>
                   includes lowerPattern (hd EmptyString (phraseWords phrase))
                   && (1 <? length (phraseWords phrase))
                   && includes lowerContent phrase)
                errorPhrases
      then true
      else
        let matchCount := length (filter (includes lowerContent) patternWords) in
        Nat.min 2 (length patternWords) <=? matchCount.

End SearchHelpersMore.

(* ------------------------------------------------------------------ *)
(** ** Formatter (formatter.ts): ranking the messages to show *)
(* ------------------------------------------------------------------ *)

Module Formatter.
Import JS SearchHelpersMore.

(** [new Set(text.toLowerCase().split(/\s+/))], in insertion order. *)
Definition wordSet (text : string) : list string :=
  unique (splitSpaces (toLowerCase text)).

(** The Jaccard index of the two word sets. *)
Definition calculateSimilarity (text1 text2 : string) : Q :=
  let words1 := wordSet text1 in
  let words2 := wordSet text2 in
  let intersection := unique (filter (fun x => inList x words2) words1) in
  let union := unique (words1 ++ words2) in
  SearchHelpers.ratio (length intersection) (length union).

Definition fileExtensions : list string :=
  [ "ts"; "js"; "json"; "md"; "py"; "java"; "cpp"; "rs"; "go"; "yml"; "yaml" ].

(** [/\.(ts|js|json|md|py|java|cpp|rs|go|yml|yaml)\b/] tried at the
    start of [s]: a dot, an extension, and then no word character. *)
Definition extensionHere (s : string) : bool :=
  existsb
    (fun ext =>
       startsWith s ("." ++ ext)%string
       && negb (startsWithP isWordChar (drop (S (String.length ext)) s)))
    fileExtensions.

Fixpoint hasFileExtension (s : string) : bool :=
  extensionHere s ||
  match s with
  | EmptyString => false
  | String _ rest => hasFileExtension rest
  end.

Definition detectContentType (text : string) : ContentType :=
  if existsb (includes text) [ "```"; "function "; "const "; "import "; "export " ]
  then ct_code
  else if existsb (includes (toLowerCase text))
            [ "error"; "exception"; "failed"; "cannot"; "unable to" ]
  then ct_error
  else if hasFileExtension text || includes text "src/" || includes text "./"
          || includes text "tool_use"
  then ct_technical
  else ct_conversational.

(** [text.split(' ')]: the pieces between single spaces; two spaces in
    a row leave an empty piece. *)
Fixpoint splitOn (sep : ascii) (s : string) : list string :=
  match s with
  | EmptyString => [EmptyString]
  | String c rest =>
      if Ascii.eqb c sep then EmptyString :: splitOn sep rest
      else
        match splitOn sep rest with
        | w :: ws => String c w :: ws
        | [] => [String c EmptyString]
        end
  end.

(** The two loops of [intelligentTextTruncation]: pieces are added, each
    followed by [sep], as long as the next one fits in [budget]; the
    loop breaks at the first piece that does not. *)
Fixpoint addWhileFits (budget : Z) (sep : string) (pieces : list string)
  (result : string) : string :=
  match pieces with
  | [] => result
  | piece :: rest =>
      if (Z.of_nat (String.length result) + Z.of_nat (String.length piece) + 1
          <=? budget)%Z
      then addWhileFits budget sep rest (result ++ piece ++ sep)%string
      else result
  end.

(** The class [[.!?]] *)
Definition isSentenceEnd (c : ascii) : bool :=
  (code c =? 46) || (code c =? 33) || (code c =? 63).

Definition intelligentTextTruncation (text : string) (maxLength : Z) : string :=
  if (Parser.strlen text <=? maxLength)%Z then text
  else
    let sentences := split isSentenceEnd text in
    let result := addWhileFits (maxLength - 3) "." sentences EmptyString in
    if 0 <? String.length result then (result ++ "..")%string
    else
      let words := splitOn (ascii_of_nat 32) text in
      let result := addWhileFits (maxLength - 3) " " words EmptyString in
      (trim result ++ "...")%string.

(** The score of the first pass of [rankAndDeduplicateMessages]. *)
Definition densityScore (msg : CompactMessage) : Z :=
  let lowerContent := toLowerCase (content msg) in
  let isType (t : ContentType) :=
    match detectContentType (content msg), t with
    | ct_code, ct_code | ct_error, ct_error | ct_technical, ct_technical => true
    | _, _ => false
    end in
  (Utils.bonus (isType ct_technical) 50
   + Utils.bonus (isType ct_code) 60
   + Utils.bonus (isType ct_error) 70
   + Utils.bonus
       (existsb (includes lowerContent)
          ["fix"; "solution"; "implement"; "deploy"; "build"]) 30
   + Utils.bonus
       (existsb (includes lowerContent) ["error"; "fail"; "issue"; "problem"]) 25
   + Utils.bonus
       (existsb (includes lowerContent) ["success"; "complete"; "working"; "done"])
       20
   - Utils.bonus
       (existsb (endsWith (trim lowerContent))
          ["hello"; "thanks"; "okay"; "sure"; "yes"; "no"]) 20
   + Z.of_nat (lengthOr0 (ctxField filesReferenced msg)) * 10
   + Z.of_nat (lengthOr0 (ctxField toolsUsed msg)) * 5)%Z.

(** The loop that drops a message when one already kept is more than
    0.8 similar to it. *)
Fixpoint dropSimilar (deduplicated scored : list (CompactMessage * Z))
  : list (CompactMessage * Z) :=
  match scored with
  | [] => deduplicated
  | msg :: rest =>
      let isDuplicate :=
        existsb
          (fun existing =>
             Qlt_bool (8 # 10)
               (calculateSimilarity (content (fst msg)) (content (fst existing))))
          deduplicated in
      if isDuplicate then dropSimilar deduplicated rest
      else dropSimilar (deduplicated ++ [msg]) rest
  end.

(** A returned pair is the message with its [score] field. *)
Definition rankAndDeduplicateMessages (messages : list CompactMessage)
  : list (CompactMessage * Z) :=
  let scored := map (fun msg => (msg, densityScore msg)) messages in
  sortDesc (fun msg => inject_Z (snd msg)) (dropSimilar [] scored).

End Formatter.

(* ------------------------------------------------------------------ *)
(** ** Search helpers (search-helpers.ts): de-duplication by content *)
(* ------------------------------------------------------------------ *)

Module ContentDedup.
Import JS Engine.

Definition orNil (xs : option (list string)) : list string :=
  match xs with
  | Some l => l
  | None => []
  end.

(** [createContentSignature] sorts [message.context.filesReferenced]
    and [message.context.toolsUsed] in place; this is the message as
    that call leaves it. *)
Definition sortedLists (message : CompactMessage) : CompactMessage :=
  match context message with
  | Some c =>
      {| uuid := uuid message; timestamp := timestamp message;
         type := type message; content := content message;
         sessionId := sessionId message; projectPath := projectPath message;
         relevanceScore := relevanceScore message;
         finalScore := finalScore message;
         context :=
           Some {| filesReferenced := option_map sortStrings (filesReferenced c);
                   toolsUsed := option_map sortStrings (toolsUsed c);
                   errorPatterns := errorPatterns c;
                   bashCommands := bashCommands c;
                   claudeInsights := claudeInsights c;
                   codeSnippets := codeSnippets c;
                   actionItems := actionItems c |} |}
  | None => message
  end.

(** The string [createContentSignature] returns. *)
Definition createContentSignature (message : CompactMessage) : string :=
  let content := toLowerCase (content message) in
  let files := join "|" (sortStrings (orNil (ctxField filesReferenced message))) in
  let tools := join "|" (sortStrings (orNil (ctxField toolsUsed message))) in
  let errors := join "|" (orNil (ctxField errorPatterns message)) in
  let normalizedContent :=
    take 200
      (replaceRuns isSpace " "
         (filterString (fun c => negb (isQuote c))
            (replaceRuns isDigit "N" content))) in
  (files ++ ":" ++ tools ++ ":" ++ errors ++ ":" ++ normalizedContent)%string.

(** One turn of the loop of [deduplicateByContent]. *)
Definition contentDedupStep (seen : list (string * CompactMessage))
  (message0 : CompactMessage) : list (string * CompactMessage) :=
  let signature := createContentSignature message0 in
  let message := sortedLists message0 in
  match mapGet signature seen with
  | None => mapSet signature message seen
  | Some existing =>
      if Qlt_bool (orZero (relevanceScore existing)) (orZero (relevanceScore message))
      then mapSet signature message seen
      else seen
  end.

Definition deduplicateByContent (messages : list CompactMessage)
  : list CompactMessage :=
  map snd (fold_left contentDedupStep messages []).

End ContentDedup.

(* ------------------------------------------------------------------ *)
(** ** Parser (parser.ts): the session bookkeeping *)
(* ------------------------------------------------------------------ *)

Record ConversationSession := {
  cs_sessionId : string;
  cs_projectPath : string;
  cs_startTime : string;
  cs_endTime : string;
  cs_messageCount : nat
}.

(** What the bookkeeping asks of [Date]. *)
Record Calendar (World : Type) := {
  (** [new Date().toISOString()] *)
  isoNow : World -> string * World;
  (** [isValidTimestamp]: a date that parses, in a year after 2020. *)
  isValidTimestamp : string -> bool;
  (** [new Date(a) < new Date(b)] *)
  earlier : string -> string -> bool
}.
Arguments isoNow {World}.
Arguments isValidTimestamp {World}.
Arguments earlier {World}.

Module Sessions.
Import JS Engine.

Section WithCalendar.
Variable World : Type.
Variable calendar : Calendar World.
Variable deps : ParserDeps.

(** The parser's state: its [sessions] map, and the world. *)
Definition ParserState : Type := (list (string * ConversationSession) * World)%type.

(** [isValidTimestamp(ts) ? ts : new Date().toISOString()] *)
Definition stampOrNow (timestamp : string) (w : World) : string * World :=
  if isValidTimestamp calendar timestamp then (timestamp, w) else isoNow calendar w.

Definition updateSessionInfo (message : ClaudeMessage) (projectDir : string)
  (st : ParserState) : ParserState :=
  let (sessions, w) := st in
  let sessionId := cm_sessionId message in
  let (sessions1, w1) :=
    match mapGet sessionId sessions with
    | Some _ => (sessions, w)
    | None =>
        let (startTime, w') := stampOrNow (cm_timestamp message) w in
        let (endTime, w'') := stampOrNow (cm_timestamp message) w' in
        (mapSet sessionId
           {| cs_sessionId := sessionId;
              cs_projectPath := Parser.decodeProjectPath projectDir;
              cs_startTime := startTime;
              cs_endTime := endTime;
              cs_messageCount := 0 |}
           sessions,
         w'')
    end in
  match mapGet sessionId sessions1 with
  | None => (sessions1, w1)
  | Some session =>
      let endTime :=
        if isValidTimestamp calendar (cm_timestamp message)
        then cm_timestamp message else cs_endTime session in
      let startTime :=
        if isValidTimestamp calendar (cm_timestamp message)
           && isValidTimestamp calendar (cs_startTime session)
           && earlier calendar (cm_timestamp message) (cs_startTime session)
        then cm_timestamp message else cs_startTime session in
      (mapSet sessionId
         {| cs_sessionId := cs_sessionId session;
            cs_projectPath := cs_projectPath session;
            cs_startTime := startTime;
            cs_endTime := endTime;
            cs_messageCount := S (cs_messageCount session) |}
         sessions1,
       w1)
  end.

(** The [for await] loop of [parseJsonlFile] with the bookkeeping: the
    messages pushed so far, and the parser's state. *)
Fixpoint parseLinesTracked (projectDir : string) (query : option string)
  (timeFilter : option (string -> bool)) (lines : list Line)
  (messages : list CompactMessage) (st : ParserState)
  : list CompactMessage * ParserState :=
  match lines with
  | [] => (messages, st)
  | line :: rest =>
      match line, Parser.parseLine deps projectDir query timeFilter line with
      | Parsed claudeMessage, Some compactMessage =>
          parseLinesTracked projectDir query timeFilter rest
            (messages ++ [compactMessage])
            (updateSessionInfo claudeMessage projectDir st)
      | _, _ => parseLinesTracked projectDir query timeFilter rest messages st
      end
  end.

(** [getSession(sessionId)?.messageCount], 0 for an unknown session. *)
Definition messageCountOf (sessionId : string)
  (sessions : list (string * ConversationSession)) : nat :=
  match mapGet sessionId sessions with
  | Some session => cs_messageCount session
  | None => 0
  end.

End WithCalendar.
End Sessions.

(* ------------------------------------------------------------------ *)
(** ** Search engine (search.ts): solutions for an error pattern *)
(* ------------------------------------------------------------------ *)

Record ErrorSolution := {
  es_errorPattern : string;
  es_solution : list CompactMessage;
  es_context : string;
  es_frequency : nat
}.

(** The two tests of [getErrorSolutions] that are written with regular
    expressions over the whole content. *)
Record ErrorTests := {
  isActualError : string -> bool;
  isMetaErrorContent : string -> bool
}.

(** The order in which the scans of one project's files complete.  The
    scans are started together and joined with [Promise.allSettled];
    each waits for its file to be parsed and then runs its loop over the
    messages to the end, writing to the map of the project.  The sources
    do not fix the order in which the scans get there: it is some
    arrangement of the files. *)
Record Completion := {
  completionOrder : string -> list string -> list string;
  completionOrder_arranges :
    forall projectDir files, Permutation (completionOrder projectDir files) files
}.

Module ErrorSolutions.
Import JS Eff Engine.
Local Open Scope eff_scope.

Definition errorTypeNames : list string :=
  [ "typeerror"; "syntaxerror"; "referenceerror"; "rangeerror"; "error" ].

(** [s.match(/(typeerror|syntaxerror|referenceerror|rangeerror|error)/)?.[0]]:
    the leftmost match, the alternatives tried in order. *)
Fixpoint errorTypeOf (s : string) : option string :=
  match find (startsWith s) errorTypeNames with
  | Some t => Some t
  | None =>
      match s with
      | EmptyString => None
      | String _ rest => errorTypeOf rest
      end
  end.

Definition hasMatchingError (errorPattern : string) (current : CompactMessage) : bool :=
  let lowerPattern := toLowerCase errorPattern in
  let patternWords :=
    filter (fun w => 2 <? String.length w) (splitSpaces lowerPattern) in
  let errorType := errorTypeOf lowerPattern in
  match ctxField errorPatterns current with
  | None => false
  | Some errs =>
      existsb
        (fun err =>
           let lowerErr := toLowerCase err in
           let typeMissing :=
             match errorType with
             | Some t => negb (includes lowerErr t)
             | None => false
             end in
           if typeMissing then false
           else if includes lowerErr lowerPattern then true
           else
             let matchCount := length (filter (includes lowerErr) patternWords) in
             Nat.min 3 (length patternWords) <=? matchCount)
        errs
  end.

(** [a || b] on strings that may be missing: the first that is there
    and not empty. *)
Definition orString (a : option string) (b : string) : string :=
  match a with
  | Some s => if String.eqb s EmptyString then b else s
  | None => b
  end.

Definition matchedErrorOf (errorPattern : string) (current : CompactMessage) : string :=
  let lowerPattern := toLowerCase errorPattern in
  let errs := ctxField errorPatterns current in
  let found :=
    match errs with
    | Some l => find (fun err => includes (toLowerCase err) lowerPattern) l
    | None => None
    end in
  let first :=
    match errs with
    | Some (e :: _) => Some e
    | _ => None
    end in
  orString found (orString first errorPattern).

Definition isSolutionMessage (msg : CompactMessage) : bool :=
  MessageType_eqb (type msg) assistant
  || MessageType_eqb (type msg) tool_result
  || (MessageType_eqb (type msg) user && (String.length (content msg) <? 200)).

(** [if (!map.has(key)) map.set(key, []); map.get(key).push(...msgs)] *)
Definition mapPush (key : string) (msgs : list CompactMessage)
  (map : list (string * list CompactMessage)) : list (string * list CompactMessage) :=
  match mapGet key map with
  | Some old => mapSet key (old ++ msgs) map
  | None => mapSet key ([] ++ msgs) map
  end.

Section WithTests.
Variable tests : ErrorTests.
Variable completion : Completion.

Definition isErrorHit (errorPattern : string) (current : CompactMessage) : bool :=
  (hasMatchingError errorPattern current
   || SearchHelpersMore.hasErrorInContent (content current) errorPattern)
  && isActualError tests (content current)
  && negb (isMetaErrorContent tests (content current)).

(** The loop [for (let i = 0; i < messages.length - 1; i++)] over the
    messages of one file; [messages] is what is left from index [i]. *)
Fixpoint scanMessages (errorPattern : string) (messages : list CompactMessage)
  (projectErrorMap : list (string * list CompactMessage))
  : list (string * list CompactMessage) :=
  match messages with
  | [] => projectErrorMap
  | current :: rest =>
      match rest with
      | [] => projectErrorMap
      | _ :: _ =>
          scanMessages errorPattern rest
            (if isErrorHit errorPattern current
             then mapPush (matchedErrorOf errorPattern current)
                    (filter isSolutionMessage (firstn 8 messages))
                    projectErrorMap
             else projectErrorMap)
      end
  end.

(** The last loop: one solution for every pattern with a quality answer. *)
Definition isQualitySolution (msg : CompactMessage) : bool :=
  MessageType_eqb (type msg) assistant
  && negb (isLowValueContent (content msg))
  && (20 <=? String.length (content msg)).

(** [SearchHelpers.extractSolutionContext] *)
Definition extractSolutionContext (messages : list CompactMessage) : string :=
  (take 200 (join " " (map content messages)) ++ "...")%string.

Definition toSolutions (errorMap : list (string * list CompactMessage))
  : list ErrorSolution :=
  Parser.collect
    (fun entry : string * list CompactMessage =>
       let qualitySolutions := filter isQualitySolution (snd entry) in
       if 0 <? length qualitySolutions then
         Some {| es_errorPattern := fst entry;
                 es_solution := firstn 5 qualitySolutions;
                 es_context := extractSolutionContext qualitySolutions;
                 es_frequency := length (snd entry) |}
       else None)
    errorMap.

(** The aggregation of the settled project maps into [errorMap]. *)
Definition aggregateErrors
  (projectResults : list (Outcome (list (string * list CompactMessage))))
  : list (string * list CompactMessage) :=
  fold_left
    (fun errorMap result =>
       match result with
       | Returned projectErrorMap =>
           fold_left (fun acc entry => mapPush (fst entry) (snd entry) acc)
             projectErrorMap errorMap
       | Thrown _ => errorMap
       end)
    projectResults [].

Variable World : Type.
Variable env : Env World.

(** The scans of the files of one project, in the order in which they
    complete, all writing to the project's map. *)
Fixpoint scanFiles (errorPattern projectDir : string) (files : list string)
  (projectErrorMap : list (string * list CompactMessage))
  : M (State World) (list (string * list CompactMessage)) :=
  match files with
  | [] => ret projectErrorMap
  | file :: rest =>
      messages <-
        total (fun s : State World =>
                 let (lines, w) := readJsonl env projectDir file (world s) in
                 (Parser.parseLines (parserDeps env) projectDir None None lines,
                  {| world := w; messageCache := messageCache s |})) ;;
      scanFiles errorPattern projectDir rest
        (scanMessages errorPattern messages projectErrorMap)
  end.

(** The scan of one project; it throws when the listing of its files
    does. *)
Definition scanProject (errorPattern projectDir : string)
  : M (State World) (list (string * list CompactMessage)) :=
  jsonlFiles <- HistorySearchEngine.liftW World (findJsonlFiles env projectDir) ;;
  let limitedFiles := firstn 6 jsonlFiles in
  scanFiles errorPattern projectDir
    (completionOrder completion projectDir limitedFiles) [].

(** The project scans are joined with [Promise.allSettled] as well.
    Each writes to a map of its own, and the maps are aggregated in the
    order of [limitedDirs]; the scans are run here in that order. *)
Definition getErrorSolutions (errorPattern : string) (limit : Z)
  : M (State World) (list ErrorSolution) :=
  tryCatch
    (projectDirs <- HistorySearchEngine.liftW World (findProjectDirectories env) ;;
     expandedDirs <- HistorySearchEngine.expandWorktreeProjects World projectDirs ;;
     let limitedDirs := firstn 12 expandedDirs in
     projectResults <-
       mapM (fun projectDir => settle (scanProject errorPattern projectDir))
         limitedDirs ;;
     let errorMap := aggregateErrors projectResults in
     let solutions := toSolutions errorMap in
     ret (slice0 (sortDesc (fun s => inject_Z (Z.of_nat (es_frequency s))) solutions)
            limit))
    (fun _ => ret []).

End WithTests.
End ErrorSolutions.

(* ------------------------------------------------------------------ *)
(** ** Search engine (search.ts): file contexts, tool patterns, recent
       sessions and plans *)
(* ------------------------------------------------------------------ *)

Inductive OperationType := op_read | op_write | op_edit | op_delete.

Record FileContext := {
  fc_filePath : string;
  fc_lastModified : string;
  fc_relatedMessages : list CompactMessage;
  fc_operationType : OperationType
}.

Record ToolPattern := {
  tp_toolName : string;
  tp_successfulUsages : list CompactMessage;
  tp_commonPatterns : list string;
  tp_bestPractices : list string
}.

Record PlanResult := {
  pr_name : string;
  pr_filepath : string;
  pr_title : option string;
  pr_content : string;
  pr_sections : list string;
  pr_filesMentioned : list string;
  pr_timestamp : string;
  pr_relevanceScore : Z
}.

(** The object [getRecentSessions] makes of one session file.
    [duration_minutes] is [None] when it is [NaN]. *)
Record SessionInfo := {
  session_id : string;
  project_path : string;
  project_dir : string;
  project_name : string;
  message_count : nat;
  duration_minutes : option Z;
  end_time : string;
  start_time : string;
  tools_used : list string;
  assistant_count : nat;
  error_count : nat;
  session_quality : string;
  accomplishments : list string
}.

(** What [stat] reports of a plan file: [stats.mtime.toISOString()],
    which throws on an invalid date. *)
Record FileTimes := {
  mtime_toISOString : Eff.Outcome string
}.

(** The process and the calls of Node that the operations below use.
    [os_homedir] is what [os.homedir()] does: it returns the home
    directory, or throws when there is none to be found.  Like the name
    of the platform and the environment variables, which the sources
    never write, it is the same at every call of one run.  The two
    imports load an optional package and tell whether the export the
    engine keeps of it is there; they throw when the package is not
    installed. *)
Record Node (World : Type) := {
  os_homedir : Eff.Outcome string;
  os_platform : string;
  env_APPDATA : option string;
  env_XDG_CONFIG_HOME : option string;
  joinPaths : list string -> string;
  fs_readdir : string -> Eff.M World (list string);
  fs_readFile : string -> Eff.M World string;
  fs_stat : string -> Eff.M World FileTimes;
  fs_access : string -> Eff.M World unit;
  import_level : Eff.M World bool;
  import_sqlite : Eff.M World bool
}.
Arguments os_homedir {World}.
Arguments os_platform {World}.
Arguments env_APPDATA {World}.
Arguments env_XDG_CONFIG_HOME {World}.
Arguments joinPaths {World}.
Arguments fs_readdir {World}.
Arguments fs_readFile {World}.
Arguments fs_stat {World}.
Arguments fs_access {World}.
Arguments import_level {World}.
Arguments import_sqlite {World}.

(** The tests and extractions that the operations below write with
    regular expressions, taken as given.  Those written as literals are
    pure functions of their arguments.  Two build their expression from
    data with [new RegExp(...)], which throws on text that is not a
    pattern: [toolMention] from the name of a tool, [countMatches] from
    a word of the query. *)
Record Patterns := {
  (** [/(?:modified|added|deleted|new file|renamed|M\s+|A\s+|D\s+)[\s:]*[^\n]*/.test(content)] *)
  mentionsGitChange : string -> bool;
  (** The chain of patterns [extractSessionAccomplishments] tries on
      the content of one message: what the first that matches pushes. *)
  sessionAccomplishmentOf : string -> option string;
  (** The first group of the tool-mention pattern of
      [extractActualToolPatterns], for a tool name and a content. *)
  toolMention : string -> string -> Eff.Outcome (option string);
  (** The first group of the code-block pattern of the same function. *)
  bashCodeBlock : string -> option string;
  extractPlanTitle : string -> option string;
  extractPlanSections : string -> list string;
  extractFileReferences : string -> list string;
  (** [(lowerContent.match(new RegExp(term, 'g')) || []).length], for a
      term and a content. *)
  countMatches : string -> string -> Eff.Outcome nat;
  (** [resolvedSessionId.replace(/^.*\//, '')] *)
  stripDirectories : string -> string;
  (** What the patterns of [extractAccomplishmentsFromMessages] push
      for the content of one assistant message, and of one tool
      result. *)
  accomplishmentsOfAssistant : string -> list string;
  accomplishmentsOfToolResult : string -> list string;
  isValidAccomplishment : string -> bool;
  (** The first groups of all matches of the three decision patterns. *)
  decisionsOf : string -> list string
}.

Module Operations.
Import JS Eff Engine.
Local Open Scope eff_scope.

(** *** Helpers *)

(** [s.split(sep).pop()] *)
Definition lastPiece (sep : ascii) (s : string) : string :=
  last (Formatter.splitOn sep s) EmptyString.

(** [a || b] on strings. *)
Definition orElse (a b : string) : string :=
  if String.eqb a EmptyString then b else a.

(** [s.replace(pat, rep)] for a string [pat]: the first occurrence. *)
Fixpoint replaceFirst (s pat rep : string) : string :=
  if startsWith s pat then (rep ++ drop (String.length pat) s)%string
  else
    match s with
    | EmptyString => EmptyString
    | String c rest => String c (replaceFirst rest pat rep)
    end.

(** [s.replace(/c/g, d)] for single characters. *)
Definition replaceChar (c d : ascii) (s : string) : string :=
  mapString (fun x => if Ascii.eqb x c then d else x) s.

Definition slash : ascii := ascii_of_nat 47.
Definition backslash : ascii := ascii_of_nat 92.

(** The decimal form of a count, as a template literal prints it. *)
Definition showNat (n : nat) : string :=
  DecimalString.NilZero.string_of_uint (Nat.to_uint n).

Definition showZ (z : Z) : string :=
  DecimalString.NilZero.string_of_int (Z.to_int z).

(** [Math.round(x)]: the nearest integer, a tie going up. *)
Definition round (x : Q) : Z := Qfloor (x + (1 # 2)).

(** [limit || d] *)
Definition orNumber (limit : option Z) (d : Z) : Z :=
  match limit with
  | Some l => if (l =? 0)%Z then d else l
  | None => d
  end.

(** A parameter with a default value. *)
Definition orDefault (limit : option Z) (d : Z) : Z :=
  match limit with
  | Some l => l
  | None => d
  end.

(** A string that is there and not empty, as a condition takes it. *)
Definition given (toolName : option string) : option string :=
  match toolName with
  | Some t => if String.eqb t EmptyString then None else Some t
  | None => None
  end.

(** [arr.sort(compare)], stable, for a comparator that orders its
    arguments consistently; [after a b] tells whether [compare(a, b)]
    is positive. *)
Fixpoint insertWith {A} (after : A -> A -> bool) (x : A) (l : list A) : list A :=
  match l with
  | [] => [x]
  | y :: ys => if after x y then y :: insertWith after x ys else x :: y :: ys
  end.

Definition sortWith {A} (after : A -> A -> bool) (l : list A) : list A :=
  fold_right (insertWith after) [] l.

(** [tb - ta > 0] for the times of two dates; the time of an invalid
    date is [NaN], and so is the difference then. *)
Definition laterThan (tb ta : option Z) : bool :=
  match tb, ta with
  | Some b, Some a => (a <? b)%Z
  | _, _ => false
  end.

(** The values of the promises that were fulfilled. *)
Definition fulfilled {A} (results : list (Outcome A)) : list A :=
  Parser.collect
    (fun result => match result with
                   | Returned value => Some value
                   | Thrown _ => None
                   end)
    results.

(** [result.status === 'fulfilled' && result.value], for values that
    are an object or [null]. *)
Definition fulfilledValues {A} (results : list (Outcome (option A))) : list A :=
  Parser.collect
    (fun result => match result with
                   | Returned value => value
                   | Thrown _ => None
                   end)
    results.

(** A step that returns or throws without looking at the state. *)
Definition ofOutcome {S A} (r : Outcome A) : M S A :=
  match r with
  | Returned a => ret a
  | Thrown e => throw e
  end.

Definition hasTools (msg : CompactMessage) : bool :=
  0 <? lengthOr0 (ctxField toolsUsed msg).

Definition toolsOf (msg : CompactMessage) : list string :=
  ContentDedup.orNil (ctxField toolsUsed msg).

Definition filesOf (msg : CompactMessage) : list string :=
  ContentDedup.orNil (ctxField filesReferenced msg).

(** *** findFileContext: the messages about a file *)

Definition refMatches (filePath ref : string) : bool :=
  let refLower := toLowerCase ref in
  let pathLower := toLowerCase filePath in
  includes refLower pathLower
  || includes pathLower refLower
  || endsWith refLower (String slash pathLower)
  || endsWith pathLower (String slash refLower)
  || String.eqb (lastPiece slash refLower) pathLower
  || String.eqb (lastPiece slash pathLower) refLower
  || String.eqb refLower pathLower
  || includes refLower (replaceChar backslash slash pathLower)
  || includes refLower (replaceChar slash backslash pathLower).

Definition pathVariations (filePath : string) : list string :=
  [ toLowerCase filePath;
    replaceChar backslash slash (toLowerCase filePath);
    replaceChar slash backslash (toLowerCase filePath);
    lastPiece slash (toLowerCase filePath);
    lastPiece backslash (toLowerCase filePath) ].

(** [SearchHelpers.inferOperationType] *)
Definition inferOperationType (messages : list CompactMessage) : OperationType :=
  let hasWrites :=
    existsb
      (fun msg =>
         includes (toLowerCase (content msg)) "write"
         || includes (toLowerCase (content msg)) "edit"
         || match ctxField toolsUsed msg with
            | Some tools => inList "Edit" tools
            | None => false
            end)
      messages in
  if hasWrites then op_edit else op_read.

Section WithPatterns.
Variable patterns : Patterns.

Definition mentionsFile (filePath : string) (msg : CompactMessage) : bool :=
  let hasFileRef :=
    match ctxField filesReferenced msg with
    | Some refs => existsb (refMatches filePath) refs
    | None => false
    end in
  let contentLower := toLowerCase (content msg) in
  let inContent :=
    existsb
      (fun variation =>
         (0 <? String.length variation) && includes contentLower variation)
      (pathVariations filePath) in
  let hasContentRef := inContent in
  let hasGitRef := mentionsGitChange patterns (content msg) && inContent in
  hasFileRef || hasContentRef || hasGitRef.

(** What one file contributes: an object, or [null]. *)
Definition contextOfFile (filePath : string) (limit : Z)
  (messages : list CompactMessage) : option FileContext :=
  let fileMessages := filter (mentionsFile filePath) messages in
  if 0 <? length fileMessages then
    let cleanFileMessages :=
      filter
        (fun msg =>
           (15 <? String.length (content msg))
           && negb (isLowValueContent (content msg)))
        fileMessages in
    let dedupedMessages := ContentDedup.deduplicateByContent cleanFileMessages in
    match dedupedMessages with
    | first :: _ =>
        Some {| fc_filePath := filePath;
                fc_lastModified := timestamp first;
                fc_relatedMessages := slice0 dedupedMessages (Z.min limit 10);
                fc_operationType := inferOperationType dedupedMessages |}
    | [] => None
    end
  else None.

(** *** getToolPatterns: what one file adds to the maps of its project *)

Definition coreTools : list string :=
  [ "Edit"; "Read"; "Bash"; "Grep"; "Glob"; "Write"; "Task"; "MultiEdit";
    "Notebook" ].

(** The separator of a workflow key, an arrow between two spaces.  The
    arrow is U+2192, which lies outside the range of the characters; it
    is written as the three bytes of its UTF-8 form, which stand apart
    from every tool name that does not hold these three in a row. *)
Definition arrow : string :=
  String (ascii_of_nat 226) (String (ascii_of_nat 134)
    (String (ascii_of_nat 146) EmptyString)).

Definition workflowKey (tools : list string) : string :=
  join (" " ++ arrow ++ " ") tools.

Definition MessageMap := list (string * list CompactMessage).

(** The first loop: every tracked tool of every message. *)
Definition trackTools (toolName : option string) (messages : list CompactMessage)
  (projectToolMap : MessageMap) : MessageMap :=
  fold_left
    (fun toolMap msg =>
       if hasTools msg then
         fold_left
           (fun toolMap tool =>
              let shouldTrack :=
                match given toolName with
                | Some name => String.eqb tool name
                | None => inList tool coreTools
                end in
              if shouldTrack then ErrorSolutions.mapPush tool [msg] toolMap
              else toolMap)
           (toolsOf msg) toolMap
       else toolMap)
    messages projectToolMap.

(** The second loop, [for (let i = 0; i < messages.length - 1; i++)];
    [messages] is what is left from index [i]. *)
Fixpoint trackPairs (toolName : option string) (messages : list CompactMessage)
  (projectWorkflowMap : MessageMap) : MessageMap :=
  match messages with
  | [] => projectWorkflowMap
  | current :: rest =>
      match rest with
      | [] => projectWorkflowMap
      | next :: _ =>
          trackPairs toolName rest
            (if hasTools current && hasTools next then
               fold_left
                 (fun workflowMap currentTool =>
                    fold_left
                      (fun workflowMap nextTool =>
                         let shouldTrack :=
                           match given toolName with
                           | Some name =>
                               String.eqb currentTool name || String.eqb nextTool name
                           | None =>
                               inList currentTool coreTools && inList nextTool coreTools
                           end in
                         if shouldTrack then
                           ErrorSolutions.mapPush (workflowKey [currentTool; nextTool])
                             [current; next] workflowMap
                         else workflowMap)
                      (toolsOf next) workflowMap)
                 (toolsOf current) projectWorkflowMap
             else projectWorkflowMap)
      end
  end.

(** The third loop, [for (let i = 0; i < messages.length - 2; i++)]. *)
Fixpoint trackTriples (toolName : option string) (messages : list CompactMessage)
  (projectWorkflowMap : MessageMap) : MessageMap :=
  match messages with
  | [] => projectWorkflowMap
  | first :: rest =>
      match rest with
      | second :: third :: _ =>
          trackTriples toolName rest
            (if hasTools first && hasTools second && hasTools third then
               fold_left
                 (fun workflowMap firstTool =>
                    fold_left
                      (fun workflowMap secondTool =>
                         fold_left
                           (fun workflowMap thirdTool =>
                              let shouldTrack :=
                                match given toolName with
                                | Some name =>
                                    String.eqb firstTool name
                                    || String.eqb secondTool name
                                    || String.eqb thirdTool name
                                | None =>
                                    inList firstTool coreTools
                                    && inList secondTool coreTools
                                    && inList thirdTool coreTools
                                end in
                              if shouldTrack then
                                ErrorSolutions.mapPush
                                  (workflowKey [firstTool; secondTool; thirdTool])
                                  [first; second; third] workflowMap
                              else workflowMap)
                           (toolsOf third) workflowMap)
                      (toolsOf second) workflowMap)
                 (toolsOf first) projectWorkflowMap
             else projectWorkflowMap)
      | _ => projectWorkflowMap
      end
  end.

(** The maps of one project: tools and workflows. *)
Definition ProjectMaps := (MessageMap * MessageMap)%type.

(** What the task of one file does once its messages are there. *)
Definition trackFile (toolName : option string) (messages : list CompactMessage)
  (maps : ProjectMaps) : ProjectMaps :=
  (trackTools toolName messages (fst maps),
   trackTriples toolName messages (trackPairs toolName messages (snd maps))).

(** The aggregation of the settled project maps. *)
Definition aggregateMaps (projectResults : list (Outcome ProjectMaps)) : ProjectMaps :=
  fold_left
    (fun maps result =>
       match result with
       | Returned value =>
           (fold_left (fun acc entry => ErrorSolutions.mapPush (fst entry) (snd entry) acc)
              (fst value) (fst maps),
            fold_left (fun acc entry => ErrorSolutions.mapPush (fst entry) (snd entry) acc)
              (snd value) (snd maps))
       | Thrown _ => maps
       end)
    projectResults ([], []).

(** *** getToolPatterns: the patterns made of the maps *)

(** The loop of [extractActualToolPatterns] over [messages.slice(0, 25)];
    it throws when the tool-mention pattern cannot be built. *)
Fixpoint toolPatternsFrom (toolName : string) (messages : list CompactMessage)
  (found : list string) : Outcome (list string) :=
  match messages with
  | [] => Returned found
  | msg :: rest =>
      let fromFiles :=
        if 0 <? lengthOr0 (ctxField filesReferenced msg) then
          Parser.collect
            (fun file =>
               let filename := orElse (lastPiece slash file) file in
               if inList toolName ["Edit"; "Write"; "Read"]
               then Some (toolName ++ ": " ++ filename)%string
               else None)
            (firstn 3 (filesOf msg))
        else [] in
      match toolMention patterns toolName (content msg) with
      | Thrown e => Thrown e
      | Returned toolMentionMatch =>
          let fromMention :=
            match toolMentionMatch with
            | Some group => [(toolName ++ ": " ++ trim group)%string]
            | None => []
            end in
          let fromBash :=
            if String.eqb toolName "Bash" then
              match bashCodeBlock patterns (content msg) with
              | Some group => [("$ " ++ take 60 group)%string]
              | None => []
              end
            else [] in
          toolPatternsFrom toolName rest (found ++ fromFiles ++ fromMention ++ fromBash)
      end
  end.

Definition extractActualToolPatterns (toolName : string)
  (messages : list CompactMessage) : Outcome (list string) :=
  match toolPatternsFrom toolName (firstn 25 messages) [] with
  | Returned found => Returned (firstn 10 (SearchHelpersMore.unique found))
  | Thrown e => Thrown e
  end.

(** [file.match(/\.(\w+)$/)?.[1]]: what follows the last full stop, when
    it is a word. *)
Definition fileExtension (file : string) : option string :=
  match rev (Formatter.splitOn (ascii_of_nat 46) file) with
  | ext :: _ :: _ =>
      if (0 <? String.length ext) && forallString isWordChar ext then Some ext
      else None
  | _ => None
  end.

Definition extractActualBestPractices (toolName : string)
  (messages : list CompactMessage) : list string :=
  let successCount :=
    length (filter (fun msg => lengthOr0 (ctxField errorPatterns msg) =? 0) messages) in
  let fileTypes :=
    SearchHelpersMore.unique
      (flat_map (fun msg => Parser.collect fileExtension (filesOf msg)) messages) in
  let count := length messages in
  let usedWith :=
    if 0 <? length fileTypes
    then [("Used with: " ++ join ", " (firstn 5 fileTypes) ++ " files")%string]
    else [] in
  let rate :=
    if 0 <? successCount then
      let successRate :=
        round (Binary64.mul (Binary64.div (Binary64.ofNat successCount)
                               (Binary64.ofNat count))
                 (Binary64.ofNat 100)) in
      [(showZ successRate ++ "% success rate (" ++ showNat successCount ++ "/"
        ++ showNat count ++ " uses)")%string]
    else [] in
  let specific :=
    if String.eqb toolName "Edit" && (5 <? count)
    then ["Frequent file modifications - consider atomic changes"]
    else if String.eqb toolName "Bash" && (3 <? count)
    then ["Multiple command executions - verify error handling"]
    else if String.eqb toolName "Read" && (10 <? count)
    then ["Heavy file reading - consider caching"]
    else [] in
  firstn 5 (usedWith ++ rate ++ specific).

(** [Array.from(map.entries()).sort((a, b) => b[1].length - a[1].length)] *)
Definition byUsage (map : MessageMap) : MessageMap :=
  sortDesc (fun entry => inject_Z (Z.of_nat (length (snd entry)))) map.

Definition hasRoom (found : list ToolPattern) (limit : Z) : bool :=
  (Z.of_nat (length found) <? limit)%Z.

Definition workflowPattern (workflow : string) (messages : list CompactMessage)
  : ToolPattern :=
  let uniqueMessages := ContentDedup.deduplicateByContent messages in
  {| tp_toolName := workflow;
     tp_successfulUsages := firstn 10 uniqueMessages;
     tp_commonPatterns := [workflow];
     tp_bestPractices :=
       [(workflow ++ " workflow (" ++ showNat (length uniqueMessages)
         ++ "x successful)")%string] |}.

(** The loop over the tools, most used first; [usedTools] is a set, in
    the order of insertion. *)
Fixpoint individualPatterns (limit : Z) (entries : MessageMap)
  (found : list ToolPattern) (usedTools : list string)
  : Outcome (list ToolPattern * list string) :=
  match entries with
  | [] => Returned (found, usedTools)
  | (tool, messages) :: rest =>
      if (1 <=? length messages) && negb (inList tool usedTools) && hasRoom found limit
      then
        let uniqueMessages := ContentDedup.deduplicateByContent messages in
        match extractActualToolPatterns tool uniqueMessages with
        | Thrown e => Thrown e
        | Returned actualPatterns =>
            let actualPractices := extractActualBestPractices tool uniqueMessages in
            individualPatterns limit rest
              (found ++
               [ {| tp_toolName := tool;
                    tp_successfulUsages := firstn 10 uniqueMessages;
                    tp_commonPatterns :=
                      if 0 <? length actualPatterns then actualPatterns
                      else [(tool ++ " usage pattern")%string];
                    tp_bestPractices :=
                      if 0 <? length actualPractices then actualPractices
                      else [(tool ++ " used " ++ showNat (length uniqueMessages)
                             ++ "x successfully")%string] |} ])
              (usedTools ++ [tool])
        end
      else individualPatterns limit rest found usedTools
  end.

Definition isWorkflow (name : string) : bool := includes name arrow.

Definition known (found : list ToolPattern) (workflow : string) : bool :=
  existsb (fun p => String.eqb (tp_toolName p) workflow) found.

(** The workflows that involve a used tool, tool by tool. *)
Definition relatedWorkflows (limit : Z) (workflowMap : MessageMap)
  (usedTools : list string) (found : list ToolPattern) : list ToolPattern :=
  fold_left
    (fun found tool =>
       fold_left
         (fun found entry =>
            let workflow := fst entry in
            let messages := snd entry in
            if includes workflow tool && isWorkflow workflow && (1 <=? length messages)
            then
              if negb (known found workflow) && hasRoom found limit
              then found ++ [workflowPattern workflow messages]
              else found
            else found)
         workflowMap found)
    usedTools found.

(** The workflows that are left, most used first. *)
Definition remainingWorkflows (limit : Z) (workflowMap : MessageMap)
  (found : list ToolPattern) : list ToolPattern :=
  fold_left
    (fun found entry =>
       let workflow := fst entry in
       let messages := snd entry in
       if isWorkflow workflow && (1 <=? length messages) && hasRoom found limit
       then
         if negb (known found workflow)
         then found ++ [workflowPattern workflow messages]
         else found
       else found)
    (byUsage workflowMap) found.

(** The comparator of the last sort: tools before workflows, then the
    more usages the earlier. *)
Definition patternAfter (a b : ToolPattern) : bool :=
  let aIsWorkflow := isWorkflow (tp_toolName a) in
  let bIsWorkflow := isWorkflow (tp_toolName b) in
  if negb (Bool.eqb aIsWorkflow bIsWorkflow) then aIsWorkflow
  else length (tp_successfulUsages a) <? length (tp_successfulUsages b).

Definition buildPatterns (limit : Z) (maps : ProjectMaps)
  : Outcome (list ToolPattern) :=
  match individualPatterns limit (byUsage (fst maps)) [] [] with
  | Thrown e => Thrown e
  | Returned (found, usedTools) =>
      let withRelated := relatedWorkflows limit (snd maps) usedTools found in
      let all := remainingWorkflows limit (snd maps) withRelated in
      Returned (slice0 (sortWith patternAfter all) limit)
  end.

(** *** getRecentSessions: the object made of one session file *)

(** [extractSessionAccomplishments] *)
Definition extractSessionAccomplishments (messages : list CompactMessage)
  : list string :=
  firstn 3
    (SearchHelpersMore.unique
       (Parser.collect
          (fun msg =>
             if MessageType_eqb (type msg) assistant
             then sessionAccomplishmentOf patterns (content msg)
             else None)
          messages)).

(** [calculateSessionQuality] *)
Definition calculateSessionQuality (messages tools errorMessages : nat) : string :=
  let score :=
    Binary64.sub
      (Binary64.add (Binary64.mul (Binary64.ofNat tools) (Binary64.ofNat 10))
         (Binary64.mul (Binary64.ofNat messages) (Binary64.rnd (5 # 10))))
      (Binary64.mul (Binary64.ofNat errorMessages) (Binary64.ofNat 5)) in
  if Qlt_bool 50 score then "excellent"
  else if Qlt_bool 25 score then "good"
  else if Qlt_bool 10 score then "average"
  else "poor".

Section WithClock.
Variable Date_getTime : string -> option Z.

(** [Math.round((end - start) / 60000)] for the times of two dates. *)
Definition minutesBetween (startTime endTime : string) : option Z :=
  match Date_getTime endTime, Date_getTime startTime with
  | Some e, Some s =>
      Some (round (Binary64.div (Binary64.sub (Binary64.ofZ e) (Binary64.ofZ s))
                     (Binary64.ofZ 60000)))
  | _, _ => None
  end.

Definition sessionOf (projectDir file : string) (messages : list CompactMessage)
  : option SessionInfo :=
  match messages with
  | [] => None
  | first :: _ =>
      let decodedPath := Parser.decodeProjectPath projectDir in
      let projectName := orElse (lastPiece slash decodedPath) "unknown" in
      let toolsUsed := SearchHelpersMore.unique (flat_map toolsOf messages) in
      let startTime := timestamp first in
      let endTime := timestamp (last messages first) in
      let realDuration :=
        if negb (String.eqb startTime EmptyString)
           && negb (String.eqb endTime EmptyString)
        then minutesBetween startTime endTime
        else Some 0%Z in
      Some {| session_id := replaceFirst file ".jsonl" EmptyString;
              project_path := decodedPath;
              project_dir := projectDir;
              project_name := projectName;
              message_count := length messages;
              duration_minutes := realDuration;
              end_time := endTime;
              start_time := startTime;
              tools_used := firstn 5 toolsUsed;
              assistant_count :=
                length (filter (fun m => MessageType_eqb (type m) assistant) messages);
              error_count :=
                length (filter (fun m => 0 <? lengthOr0 (ctxField errorPatterns m))
                          messages);
              session_quality :=
                calculateSessionQuality (length messages) (length toolsUsed) 0;
              accomplishments := firstn 3 (extractSessionAccomplishments messages) |}
  end.

End WithClock.

(** *** searchPlans: the score of one plan *)

(** The loop over the terms of the query that counts matches in the
    content; it throws when a term is not a pattern. *)
Fixpoint contentTermScore (queryTerms : list string) (lowerContent : string)
  (score : Z) : Outcome Z :=
  match queryTerms with
  | [] => Returned score
  | term :: rest =>
      match countMatches patterns term lowerContent with
      | Thrown e => Thrown e
      | Returned occurrences =>
          contentTermScore rest lowerContent
            (score + Z.of_nat (Nat.min occurrences 5))%Z
      end
  end.

Definition termHits (queryTerms : list string) (lowerText : string) : Z :=
  Z.of_nat (length (filter (includes lowerText) queryTerms)).

Definition calculatePlanRelevance (query : string) (title : option string)
  (sections : list string) (content : string) : Outcome Z :=
  let lowerQuery := toLowerCase query in
  let queryTerms := filter (fun w => 2 <? String.length w) (splitSpaces lowerQuery) in
  let titleScore :=
    match title with
    | Some t =>
        if String.eqb t EmptyString then 0
        else
          let lowerTitle := toLowerCase t in
          (if includes lowerTitle lowerQuery then 20 else 0)
          + 5 * termHits queryTerms lowerTitle
    | None => 0
    end%Z in
  let sectionScore :=
    fold_left
      (fun score section =>
         let lowerSection := toLowerCase section in
         (score + (if includes lowerSection lowerQuery then 10 else 0)
          + 3 * termHits queryTerms lowerSection)%Z)
      sections 0%Z in
  let lowerContent := toLowerCase content in
  contentTermScore queryTerms lowerContent
    (titleScore + sectionScore + (if includes lowerContent lowerQuery then 8 else 0))%Z.

(** *** The operations *)

Section WithEnv.
Variable completion : Completion.
Variable World : Type.
Variable env : Env World.
Variable node : Node World.

Local Abbreviation St := (State World).
Local Abbreviation liftW := (HistorySearchEngine.liftW World).
Local Abbreviation expandWorktreeProjects :=
  (HistorySearchEngine.expandWorktreeProjects World).

(** [getClaudeProjectsPath()] and [getClaudePlansPath()]: they throw
    when [homedir()] does. *)
Definition getClaudeProjectsPath : Outcome string :=
  match os_homedir node with
  | Returned home => Returned (joinPaths node [home; ".claude"; "projects"])
  | Thrown e => Thrown e
  end.

Definition getClaudePlansPath : Outcome string :=
  match os_homedir node with
  | Returned home => Returned (joinPaths node [home; ".claude"; "plans"])
  | Thrown e => Thrown e
  end.

(** [this.parser.parseJsonlFile(projectDir, file)], with neither query
    nor time filter.  The parser makes the path of the file before it
    enters its own [try]; a stream that fails is caught inside, and the
    messages parsed so far are the result. *)
Definition parseJsonlFile (projectDir file : string) : M St (list CompactMessage) :=
  _ <- ofOutcome getClaudeProjectsPath ;;
  total (fun s : St =>
           let (lines, w) := readJsonl env projectDir file (world s) in
           (Parser.parseLines (parserDeps env) projectDir None None lines,
            {| world := w; messageCache := messageCache s |})).

(** **** findFileContext *)

(** The files of a project are read by tasks that are started together
    and joined with [Promise.allSettled]; the tasks of [findFileContext]
    and of [getRecentSessions] write nothing that another reads, and
    their results are taken in the order of the files, whatever the
    order of completion.  The files are read here in that order. *)
Definition contextsOfProject (filePath : string) (limit : Z) (projectDir : string)
  : M St (list FileContext) :=
  jsonlFiles <- liftW (findJsonlFiles env projectDir) ;;
  let limitedFiles := firstn 10 jsonlFiles in
  fileResults <-
    mapM (fun file =>
            settle (messages <- parseJsonlFile projectDir file ;;
                    ret (contextOfFile filePath limit messages)))
      limitedFiles ;;
  ret (fulfilledValues fileResults).

Definition findFileContext (filePath : string) (limit : Z) : M St (list FileContext) :=
  tryCatch
    (projectDirs <- liftW (findProjectDirectories env) ;;
     expandedDirs <- expandWorktreeProjects projectDirs ;;
     let limitedDirs := firstn 15 expandedDirs in
     projectResults <-
       mapM (fun projectDir => settle (contextsOfProject filePath limit projectDir))
         limitedDirs ;;
     let fileContexts := concat (fulfilled projectResults) in
     ret (sortWith
            (fun a b =>
               laterThan (Date_parse env (fc_lastModified b))
                 (Date_parse env (fc_lastModified a)))
            fileContexts))
    (fun _ => ret []).

(** **** getToolPatterns *)

(** The tasks of the files of one project write to the two maps of the
    project, each once its file is parsed and then to the end of its
    loops; they do so in the order in which they complete.  A task whose
    parse throws is rejected and has written nothing. *)
Fixpoint trackFiles (toolName : option string) (projectDir : string)
  (files : list string) (maps : ProjectMaps) : M St ProjectMaps :=
  match files with
  | [] => ret maps
  | file :: rest =>
      result <- settle (parseJsonlFile projectDir file) ;;
      trackFiles toolName projectDir rest
        (match result with
         | Returned messages => trackFile toolName messages maps
         | Thrown _ => maps
         end)
  end.

Definition mapsOfProject (toolName : option string) (projectDir : string)
  : M St ProjectMaps :=
  jsonlFiles <- liftW (findJsonlFiles env projectDir) ;;
  let limitedFiles := firstn 8 jsonlFiles in
  trackFiles toolName projectDir
    (completionOrder completion projectDir limitedFiles) ([], []).

Definition getToolPatterns (toolName : option string) (limit : Z)
  : M St (list ToolPattern) :=
  tryCatch
    (projectDirs <- liftW (findProjectDirectories env) ;;
     expandedDirs <- expandWorktreeProjects projectDirs ;;
     let limitedDirs := firstn 15 expandedDirs in
     projectResults <-
       mapM (fun projectDir => settle (mapsOfProject toolName projectDir))
         limitedDirs ;;
     ofOutcome (buildPatterns limit (aggregateMaps projectResults)))
    (fun _ => ret []).

(** **** getRecentSessions and getSessionMessages *)

Definition sessionsOfProject (projectDir : string) : M St (list SessionInfo) :=
  jsonlFiles <- liftW (findJsonlFiles env projectDir) ;;
  let limitedFiles := firstn 5 jsonlFiles in
  sessionResults <-
    mapM (fun file =>
            settle (messages <- parseJsonlFile projectDir file ;;
                    ret (sessionOf (Date_parse env) projectDir file messages)))
      limitedFiles ;;
  ret (fulfilledValues sessionResults).

Definition getRecentSessions (limit : Z) : M St (list SessionInfo) :=
  tryCatch
    (projectDirs <- liftW (findProjectDirectories env) ;;
     expandedDirs <- expandWorktreeProjects projectDirs ;;
     let limitedDirs := firstn 10 expandedDirs in
     projectResults <-
       mapM (fun projectDir => settle (sessionsOfProject projectDir)) limitedDirs ;;
     let realSessions := concat (fulfilled projectResults) in
     ret (slice0
            (sortWith
               (fun a b =>
                  laterThan (Date_parse env (end_time b)) (Date_parse env (end_time a)))
               (filter (fun s => negb (String.eqb (end_time s) EmptyString))
                  realSessions))
            limit))
    (fun _ => ret []).

Definition getSessionMessages (encodedProjectDir sessionId : string)
  : M St (list CompactMessage) :=
  tryCatch
    (let jsonlFile := (sessionId ++ ".jsonl")%string in
     messages <- parseJsonlFile encodedProjectDir jsonlFile ;;
     ret messages)
    (fun _ => ret []).

(** **** searchPlans *)

(** [findPlanFiles] of utils.ts *)
Definition findPlanFiles : M World (list string) :=
  tryCatch
    (plansPath <- ofOutcome getClaudePlansPath ;;
     entries <- fs_readdir node plansPath ;;
     ret (filter (fun file => endsWith file ".md") entries))
    (fun _ => ret []).

(** The task of one plan file. *)
Definition readPlan (query plansPath filename : string) : M World PlanResult :=
  let filepath := joinPaths node [plansPath; filename] in
  content <- fs_readFile node filepath ;;
  stats <- fs_stat node filepath ;;
  let title := extractPlanTitle patterns content in
  let sections := extractPlanSections patterns content in
  let filesMentioned := extractFileReferences patterns content in
  relevanceScore <- ofOutcome (calculatePlanRelevance query title sections content) ;;
  timestamp <- ofOutcome (mtime_toISOString stats) ;;
  ret {| pr_name := replaceFirst filename ".md" EmptyString;
         pr_filepath := filepath;
         pr_title := title;
         pr_content := take 2000 content;
         pr_sections := sections;
         pr_filesMentioned := filesMentioned;
         pr_timestamp := timestamp;
         pr_relevanceScore := relevanceScore |}.

Definition searchPlans (query : string) (limit : Z) : M St (list PlanResult) :=
  tryCatch
    (planFiles <- liftW findPlanFiles ;;
     plansPath <- ofOutcome getClaudePlansPath ;;
     planResults <-
       mapM (fun filename => settle (liftW (readPlan query plansPath filename)))
         planFiles ;;
     let plans := fulfilled planResults in
     ret (slice0
            (sortDesc (fun p => inject_Z (pr_relevanceScore p))
               (filter (fun p => (0 <? pr_relevanceScore p)%Z) plans))
            limit))
    (fun _ => ret []).

End WithEnv.
End WithPatterns.
End Operations.

(* ------------------------------------------------------------------ *)
(** ** The engine over both sources (universal-engine.ts) *)
(* ------------------------------------------------------------------ *)

Inductive Source := claude_code | claude_desktop.

(** A result with its source. *)
Record Sourced (A : Type) := {
  source : Source;
  results : A;
  enhanced : bool
}.
Arguments source {A}.
Arguments results {A}.
Arguments enhanced {A}.
Arguments Build_Sourced {A}.

(** The object [generateCompactSummary] returns. *)
Record SessionSummary := {
  sum_session_id : string;
  sum_end_time : option string;
  sum_start_time : option string;
  sum_duration_minutes : Z;
  sum_message_count : nat;
  sum_project_path : option string;
  sum_tools_used : list string;
  sum_files_modified : list string;
  sum_accomplishments : list string;
  sum_key_decisions : list string
}.

(** The fields of the engine; of the two packages only whether they are
    loaded is looked at. *)
Record Universal (World : Type) := {
  claudeCodeEngine : State World;
  claudeDesktopAvailable : option bool;
  desktopStoragePath : option string;
  desktopIndexedDBPath : option string;
  levelDB : bool;
  sqlite3 : bool;
  enhancedMode : bool
}.
Arguments claudeCodeEngine {World}.
Arguments claudeDesktopAvailable {World}.
Arguments desktopStoragePath {World}.
Arguments desktopIndexedDBPath {World}.
Arguments levelDB {World}.
Arguments sqlite3 {World}.
Arguments enhancedMode {World}.
Arguments Build_Universal {World}.

(** The four searches of the stores of Claude Desktop, taken as given:
    each reads the fields of the engine and the file system, writes no
    field, and returns messages or throws.  Their arguments are the
    query, the time frame and the limit. *)
Record Desktop (World : Type) := {
  searchLocalStorageData :
    Universal World -> string -> option string -> option Z
    -> Eff.M World (list CompactMessage);
  searchSQLiteWebStorage :
    Universal World -> string -> option string -> option Z
    -> Eff.M World (list CompactMessage);
  searchIndexedDBWithMicroCopy :
    Universal World -> string -> option string -> option Z
    -> Eff.M World (list CompactMessage);
  searchLocalStorageWithMicroCopy :
    Universal World -> string -> option string -> option Z
    -> Eff.M World (list CompactMessage)
}.
Arguments searchLocalStorageData {World}.
Arguments searchSQLiteWebStorage {World}.
Arguments searchIndexedDBWithMicroCopy {World}.
Arguments searchLocalStorageWithMicroCopy {World}.

Module UniversalHistorySearchEngine.
Import JS Eff Engine Operations.
Local Open Scope eff_scope.

(** *** The pure helpers *)

Definition combineFileContextResults (claudeCodeResults : list FileContext)
  (desktopMessages : list CompactMessage) : list FileContext :=
  claudeCodeResults
  ++ map (fun msg =>
            {| fc_filePath := "claude-desktop";
               fc_lastModified := timestamp msg;
               fc_relatedMessages := [msg];
               fc_operationType := op_read |})
       desktopMessages.

Definition combineErrorSolutionResults (claudeCodeResults : list ErrorSolution)
  (desktopMessages : list CompactMessage) : list ErrorSolution :=
  claudeCodeResults
  ++ map (fun msg =>
            {| es_errorPattern := "claude-desktop-error";
               es_solution := [msg];
               es_context := content msg;
               es_frequency := 1 |})
       desktopMessages.

Definition extractToolsFromMessages (messages : list CompactMessage) : list string :=
  firstn 8 (SearchHelpersMore.unique (flat_map toolsOf messages)).

Definition extractFilesFromMessages (messages : list CompactMessage) : list string :=
  firstn 10
    (SearchHelpersMore.unique
       (flat_map
          (fun msg =>
             Parser.collect
               (fun file =>
                  let filename := orElse (lastPiece slash file) file in
                  if 2 <? String.length filename then Some filename else None)
               (filesOf msg))
          messages)).

Definition fileTools : list string := [ "Edit"; "Write"; "MultiEdit"; "NotebookEdit" ].

(** The fallback of [extractAccomplishmentsFromMessages] for a message
    that used a file-editing tool. *)
Definition modifiedFile (msg : CompactMessage) : list string :=
  match ctxField toolsUsed msg, ctxField filesReferenced msg with
  | Some tools, Some (first :: _) =>
      if existsb (fun t => inList t fileTools) tools then
        let file := lastPiece slash first in
        if 3 <? String.length file then [("Modified " ++ file)%string] else []
      else []
  | _, _ => []
  end.

Section WithPatterns.
Variable patterns : Patterns.

Definition extractAccomplishmentsFromMessages (messages : list CompactMessage)
  : list string :=
  let fromAssistant :=
    flat_map
      (fun msg =>
         if MessageType_eqb (type msg) assistant
         then accomplishmentsOfAssistant patterns (content msg) ++ modifiedFile msg
         else [])
      messages in
  let fromToolResults :=
    flat_map
      (fun msg =>
         if MessageType_eqb (type msg) tool_result
            && (20 <? String.length (content msg))
         then accomplishmentsOfToolResult patterns (content msg)
         else [])
      messages in
  let rawAccomplishments := fromAssistant ++ fromToolResults in
  firstn 8
    (SearchHelpersMore.unique (filter (isValidAccomplishment patterns) rawAccomplishments)).

Definition extractDecisionsFromMessages (messages : list CompactMessage)
  : list string :=
  firstn 3
    (SearchHelpersMore.unique
       (flat_map
          (fun msg =>
             if MessageType_eqb (type msg) assistant
             then decisionsOf patterns (content msg)
             else [])
          messages)).

(** The summary of a session that was not found. *)
Definition noSession (sessionId : string) : Sourced SessionSummary :=
  {| source := claude_code;
     results :=
       {| sum_session_id := sessionId;
          sum_end_time := None;
          sum_start_time := None;
          sum_duration_minutes := 0;
          sum_message_count := 0;
          sum_project_path := None;
          sum_tools_used := [];
          sum_files_modified := [];
          sum_accomplishments := [];
          sum_key_decisions := [] |};
     enhanced := false |}.

(** The test of [allSessions.find(...)]. *)
Definition isSession (resolvedSessionId : string) (s : SessionInfo) : bool :=
  String.eqb (session_id s) resolvedSessionId
  || startsWith (session_id s) resolvedSessionId
  || includes resolvedSessionId (session_id s)
  || includes (session_id s) (stripDirectories patterns resolvedSessionId).

Section WithEnv.
Variable tests : ErrorTests.
Variable completion : Completion.
Variable World : Type.
Variable env : Env World.
Variable node : Node World.
Variable desktop : Desktop World.

Local Abbreviation U := (Universal World).

(** *** The state of the engine *)

Definition getState {S} : M S S := fun s => (Returned s, s).

Definition modify {S} (f : S -> S) : M S unit := fun s => (Returned tt, f s).

(** An operation of the Claude Code engine, run from this one. *)
Definition liftE {A} (m : M (State World) A) : M U A :=
  fun u =>
    let (r, s) := m (claudeCodeEngine u) in
    (r, {| claudeCodeEngine := s;
           claudeDesktopAvailable := claudeDesktopAvailable u;
           desktopStoragePath := desktopStoragePath u;
           desktopIndexedDBPath := desktopIndexedDBPath u;
           levelDB := levelDB u;
           sqlite3 := sqlite3 u;
           enhancedMode := enhancedMode u |}).

Definition liftWorld {A} (m : M World A) : M U A :=
  liftE (HistorySearchEngine.liftW World m).

Definition setLevelDB (level : bool) (u : U) : U :=
  {| claudeCodeEngine := claudeCodeEngine u;
     claudeDesktopAvailable := claudeDesktopAvailable u;
     desktopStoragePath := desktopStoragePath u;
     desktopIndexedDBPath := desktopIndexedDBPath u;
     levelDB := level;
     sqlite3 := sqlite3 u;
     enhancedMode := true |}.

Definition setSqlite3 (sqlite : bool) (u : U) : U :=
  {| claudeCodeEngine := claudeCodeEngine u;
     claudeDesktopAvailable := claudeDesktopAvailable u;
     desktopStoragePath := desktopStoragePath u;
     desktopIndexedDBPath := desktopIndexedDBPath u;
     levelDB := levelDB u;
     sqlite3 := sqlite;
     enhancedMode := true |}.

Definition setAvailable (available : bool) (u : U) : U :=
  {| claudeCodeEngine := claudeCodeEngine u;
     claudeDesktopAvailable := Some available;
     desktopStoragePath := desktopStoragePath u;
     desktopIndexedDBPath := desktopIndexedDBPath u;
     levelDB := levelDB u;
     sqlite3 := sqlite3 u;
     enhancedMode := enhancedMode u |}.

Definition setStoragePath (path : option string) (u : U) : U :=
  {| claudeCodeEngine := claudeCodeEngine u;
     claudeDesktopAvailable := claudeDesktopAvailable u;
     desktopStoragePath := path;
     desktopIndexedDBPath := desktopIndexedDBPath u;
     levelDB := levelDB u;
     sqlite3 := sqlite3 u;
     enhancedMode := enhancedMode u |}.

Definition setIndexedDBPath (path : option string) (u : U) : U :=
  {| claudeCodeEngine := claudeCodeEngine u;
     claudeDesktopAvailable := claudeDesktopAvailable u;
     desktopStoragePath := desktopStoragePath u;
     desktopIndexedDBPath := path;
     levelDB := levelDB u;
     sqlite3 := sqlite3 u;
     enhancedMode := enhancedMode u |}.

(** [!this.claudeDesktopAvailable] is false for [true] alone. *)
Definition available (u : U) : bool :=
  match claudeDesktopAvailable u with
  | Some b => b
  | None => false
  end.

(** *** Detection (utils.ts and the engine) *)

(** [getClaudeDesktopPath]: the directory of Claude Desktop for the
    platform, [null] on a platform it does not know; it throws when it
    needs [homedir()] and that throws. *)
Definition underHome (pieces : list string) : Outcome (option string) :=
  match os_homedir node with
  | Returned home => Returned (Some (joinPaths node (home :: pieces)))
  | Thrown e => Thrown e
  end.

Definition getClaudeDesktopPath : Outcome (option string) :=
  if String.eqb (os_platform node) "darwin" then
    underHome ["Library/Application Support/Claude/"]
  else if String.eqb (os_platform node) "win32" then
    Returned
      (Some (joinPaths node
               [ErrorSolutions.orString (env_APPDATA node) EmptyString; "Claude/"]))
  else if String.eqb (os_platform node) "linux" then
    match given (env_XDG_CONFIG_HOME node) with
    | Some configHome => Returned (Some (joinPaths node [configHome; "Claude/"]))
    | None =>
        match os_homedir node with
        | Returned home =>
            Returned (Some (joinPaths node [joinPaths node [home; ".config"]; "Claude/"]))
        | Thrown e => Thrown e
        end
    end
  else Returned None.

Definition detectClaudeDesktop : M World bool :=
  tryCatch
    (desktopPath <- ofOutcome getClaudeDesktopPath ;;
     match given desktopPath with
     | None => ret false
     | Some path =>
         let configPath := joinPaths node [path; "claude_desktop_config.json"] in
         _ <- fs_access node configPath ;;
         ret true
     end)
    (fun _ => ret false).

(** The two getters call [getClaudeDesktopPath] before they enter their
    [try]. *)
Definition existingUnder (directory : string) : M World (option string) :=
  desktopPath <- ofOutcome getClaudeDesktopPath ;;
  match given desktopPath with
  | None => ret None
  | Some path =>
      let found := joinPaths node [path; directory] in
      tryCatch
        (_ <- fs_access node found ;;
         ret (Some found))
        (fun _ => ret None)
  end.

Definition getClaudeDesktopStoragePath : M World (option string) :=
  existingUnder "Local Storage".

Definition getClaudeDesktopIndexedDBPath : M World (option string) :=
  existingUnder "IndexedDB".

Definition detectLevelDB : M U unit :=
  tryCatch
    (level <- liftWorld (import_level node) ;;
     modify (setLevelDB level))
    (fun _ =>
       tryCatch
         (sqlite <- liftWorld (import_sqlite node) ;;
          modify (setSqlite3 sqlite))
         (fun _ => ret tt)).

Definition initialize : M U unit :=
  _ <- detectLevelDB ;;
  detected <- liftWorld detectClaudeDesktop ;;
  _ <- modify (setAvailable detected) ;;
  if detected then
    storagePath <- liftWorld getClaudeDesktopStoragePath ;;
    _ <- modify (setStoragePath storagePath) ;;
    indexedDBPath <- liftWorld getClaudeDesktopIndexedDBPath ;;
    modify (setIndexedDBPath indexedDBPath)
  else ret tt.

(** *** The search of Claude Desktop *)

(** [shouldSearchDesktop] answers [true] for every query.  The [slice]
    that follows the [try] is written inside it here; it does not
    throw. *)
Definition searchClaudeDesktopConversations (query : string)
  (timeframe : option string) (limit : option Z) : M U (list CompactMessage) :=
  u <- getState ;;
  match given (desktopIndexedDBPath u) with
  | None => ret []
  | Some _ =>
      tryCatch
        (localStorageResults <-
           liftWorld (searchLocalStorageData desktop u query timeframe limit) ;;
         sqliteResults <-
           (if sqlite3 u
            then liftWorld (searchSQLiteWebStorage desktop u query timeframe limit)
            else ret []) ;;
         indexedDBResults <-
           liftWorld (searchIndexedDBWithMicroCopy desktop u query timeframe limit) ;;
         levelDBResults <-
           liftWorld (searchLocalStorageWithMicroCopy desktop u query timeframe limit) ;;
         let results :=
           localStorageResults ++ sqliteResults ++ indexedDBResults ++ levelDBResults in
         ret (slice0 results (orNumber limit 10)))
        (fun _ => ret [])
  end.

(** [new Date(a.timestamp || 0).getTime()] *)
Definition timeOf (timestamp : string) : option Z :=
  if String.eqb timestamp EmptyString then Some 0%Z else Date_parse env timestamp.

Definition combineSearchResults (claudeCodeResults : SearchResult)
  (desktopMessages : list CompactMessage) : SearchResult :=
  let combinedMessages := messages claudeCodeResults ++ desktopMessages in
  {| messages :=
       sortWith
         (fun a b =>
            let aScore := orZero (relevanceScore a) in
            let bScore := orZero (relevanceScore b) in
            if negb (Qeq_bool aScore bScore) then Qlt_bool aScore bScore
            else laterThan (timeOf (timestamp b)) (timeOf (timestamp a)))
         combinedMessages;
     totalResults := totalResults claudeCodeResults + length desktopMessages;
     searchQuery := searchQuery claudeCodeResults;
     executionTime := executionTime claudeCodeResults |}.

(** *** The entry points *)

(** What the five operations that look at Claude Desktop do with the
    result of the Claude Code engine. *)
Definition withDesktop {A} (query : string) (timeframe : option string)
  (limit : option Z) (claudeCodeResults : A)
  (combine : A -> list CompactMessage -> A) : M U (Sourced A) :=
  u <- getState ;;
  if negb (available u) then
    ret {| source := claude_code; results := claudeCodeResults; enhanced := false |}
  else
    desktopMessages <- searchClaudeDesktopConversations query timeframe limit ;;
    let combinedResults := combine claudeCodeResults desktopMessages in
    let hasDesktopData := 0 <? length desktopMessages in
    ret {| source := if hasDesktopData then claude_desktop else claude_code;
           results := combinedResults;
           enhanced := hasDesktopData |}.

Definition searchConversations (query : string) (project timeframe : option string)
  (limit : option Z) : M U (Sourced SearchResult) :=
  _ <- initialize ;;
  claudeCodeResults <-
    liftE (HistorySearchEngine.searchConversations World env query project timeframe
             (orDefault limit 15)) ;;
  withDesktop query timeframe limit claudeCodeResults combineSearchResults.

Definition findFileContext (filepath : string) (limit : option Z)
  : M U (Sourced (list FileContext)) :=
  _ <- initialize ;;
  claudeCodeResults <-
    liftE (Operations.findFileContext patterns World env node filepath
             (orDefault limit 25)) ;;
  withDesktop filepath None limit claudeCodeResults combineFileContextResults.

Definition findSimilarQueries (query : string) (limit : option Z)
  : M U (Sourced (list CompactMessage)) :=
  _ <- initialize ;;
  claudeCodeResults <-
    liftE (HistorySearchEngine.findSimilarQueries World env query (orDefault limit 10)) ;;
  withDesktop query None limit claudeCodeResults (fun code found => code ++ found).

Definition getErrorSolutions (errorPattern : string) (limit : option Z)
  : M U (Sourced (list ErrorSolution)) :=
  _ <- initialize ;;
  claudeCodeResults <-
    liftE (ErrorSolutions.getErrorSolutions tests completion World env errorPattern
             (orDefault limit 10)) ;;
  withDesktop errorPattern None limit claudeCodeResults combineErrorSolutionResults.

Definition getRecentSessions (limit : option Z) : M U (Sourced (list SessionInfo)) :=
  _ <- initialize ;;
  claudeCodeSessions <-
    liftE (Operations.getRecentSessions patterns World env node (orNumber limit 10)) ;;
  u <- getState ;;
  ret {| source := claude_code;
         results := claudeCodeSessions;
         enhanced := available u |}.

Definition getToolPatterns (toolName : option string) (limit : option Z)
  : M U (Sourced (list ToolPattern)) :=
  _ <- initialize ;;
  claudeCodePatterns <-
    liftE (Operations.getToolPatterns patterns completion World env node toolName
             (orNumber limit 12)) ;;
  u <- getState ;;
  ret {| source := claude_code;
         results := claudeCodePatterns;
         enhanced := available u |}.

Definition generateCompactSummary (sessionId : string) (maxMessages : option Z)
  : M U (Sourced SessionSummary) :=
  _ <- initialize ;;
  allSessions <- liftE (Operations.getRecentSessions patterns World env node 20) ;;
  let resolved :=
    if String.eqb (toLowerCase sessionId) "latest" then
      match allSessions with
      | latest :: _ => Some (session_id latest)
      | [] => None
      end
    else Some sessionId in
  match resolved with
  | None => ret (noSession "latest")
  | Some resolvedSessionId =>
      match find (isSession resolvedSessionId) allSessions with
      | None => ret (noSession resolvedSessionId)
      | Some sessionData =>
          messages <-
            liftE (Operations.getSessionMessages World env node
                     (project_dir sessionData) (session_id sessionData)) ;;
          let sessionMessages := slice0 messages (orNumber maxMessages 100) in
          u <- getState ;;
          ret {| source := claude_code;
                 results :=
                   {| sum_session_id := session_id sessionData;
                      sum_end_time := Some (end_time sessionData);
                      sum_start_time := Some (start_time sessionData);
                      sum_duration_minutes :=
                        match duration_minutes sessionData with
                        | Some minutes => minutes
                        | None => 0%Z
                        end;
                      sum_message_count := length sessionMessages;
                      sum_project_path := Some (project_path sessionData);
                      sum_tools_used := extractToolsFromMessages sessionMessages;
                      sum_files_modified := extractFilesFromMessages sessionMessages;
                      sum_accomplishments :=
                        extractAccomplishmentsFromMessages sessionMessages;
                      sum_key_decisions := extractDecisionsFromMessages sessionMessages |};
                 enhanced :=
                   match claudeDesktopAvailable u with
                   | Some true => true
                   | _ => false
                   end |}
      end
  end.

Definition searchPlans (query : string) (limit : option Z)
  : M U (Sourced (list PlanResult)) :=
  plans <- liftE (Operations.searchPlans patterns World node query (orNumber limit 10)) ;;
  ret {| source := claude_code; results := plans; enhanced := false |}.

End WithEnv.
End WithPatterns.
End UniversalHistorySearchEngine.

(* ------------------------------------------------------------------ *)
(** ** Definitions used to state the properties *)
(* ------------------------------------------------------------------ *)

Module Outcomes.
Import Eff.

(** [m] returns from [s], and the value it returns and the state it
    leaves satisfy [post]. *)
Definition returnsWith {S A} (post : A -> S -> Prop) (m : M S A) (s : S) : Prop :=
  exists a s', m s = (Returned a, s') /\ post a s'.

End Outcomes.

Module Casing.
Import JS.

(** No letter of the word is upper case. *)
Definition entirelyLowercase (w : string) : bool :=
  forallString (fun c => negb (isUpperAZ c)) w.

(** No letter of the word is lower case. *)
Definition entirelyUppercase (w : string) : bool :=
  forallString (fun c => negb (isLowerAZ c)) w.

(** The first character is not a lower-case letter and no later one is an
    upper-case letter. *)
Definition titleCase (w : string) : bool :=
  match w with
  | EmptyString => true
  | String c rest => negb (isLowerAZ c) && entirelyLowercase rest
  end.

Definition casingAccepted (w : string) : bool :=
  entirelyLowercase w || entirelyUppercase w || titleCase w.

(** The characters [cleanWord] keeps. *)
Definition isCleanChar (c : ascii) : bool := isWordChar c || (code c =? 45).

End Casing.

Module DedupInv.
Import Engine.

Definition lebP (a b : string) : Prop := String.leb a b = true.

(** What holds of the map [seen] throughout [intelligentDeduplicate]:
    its keys are distinct, and every message is stored under its own
    signature with its tools already sorted. *)
Definition wellKeyed (seen : list (string * CompactMessage)) : Prop :=
  NoDup (map fst seen)
  /\ forall k v, In (k, v) seen ->
       createIntelligentSignature v = k /\ sortedTools v = v.

End DedupInv.

Module SimilarSpec.

(** What the find-similar operation promises of a returned record, for
    the target query it was asked about. *)
Definition similarHit (targetQuery : string) (m : CompactMessage) : Prop :=
  type m = user
  /\ 15 < String.length (content m) < 800
  /\ (Binary64.rnd (4 # 10)
      < SearchHelpers.calculateQuerySimilarity targetQuery (content m))%Q
  /\ relevanceScore m
     = Some (SearchHelpers.calculateQuerySimilarity targetQuery (content m)).

(** Non-increasing similarity to the target, front to back. *)
Definition bySimilarity (targetQuery : string) (a b : CompactMessage) : Prop :=
  (SearchHelpers.calculateQuerySimilarity targetQuery (content b)
   <= SearchHelpers.calculateQuerySimilarity targetQuery (content a))%Q.

Definition byKey {A} (key : A -> Q) (a b : A) : Prop := (key b <= key a)%Q.

(** A run that, if it returns a list, returns one whose elements all
    satisfy [P]. *)
Definition keeps {S A} (P : A -> Prop) (r : Eff.Outcome (list A) * S) : Prop :=
  match fst r with
  | Eff.Returned l => Forall P l
  | Eff.Thrown _ => True
  end.

End SimilarSpec.

(* ------------------------------------------------------------------ *)
(** ** Concrete corpora *)
(* ------------------------------------------------------------------ *)

Module Scenarios.
Import Eff.

(** Parser helpers for contents that stay below every length budget and
    carry no file, tool, error, insight, snippet or action pattern: the
    content is conversational and comes with no context. *)
Definition plainDeps : ParserDeps :=
  {| extractMostValuableContent := fun content _ => content;
     detectContentType := fun _ => ct_conversational;
     preserveCodeBlocks := fun content _ => content;
     preserveErrorMessages := fun content _ => content;
     preserveTechnicalContent := fun content _ => content;
     extractContext := fun _ _ => None;
     formatTimestamp := fun timestamp => Some timestamp |}.

(** A world that is just a clock ticking once per reading, with one
    project directory holding one file of the given lines. *)
Definition oneFileEnv (lines : list Line) : Env Z :=
  {| Date_now := fun w => (w, (w + 1)%Z);
     Date_parse := fun _ => None;
     findProjectDirectories := ret ["-home-dev-app"];
     findJsonlFiles := fun _ => ret ["session.jsonl"];
     readJsonl := fun _ _ w => (lines, w);
     getTimeRangeFilter := fun _ => ret (fun _ => true);
     parserDeps := plainDeps |}.

(** A world whose project directories cannot be listed. *)
Definition brokenEnv : Env Z :=
  {| Date_now := fun w => (w, (w + 1)%Z);
     Date_parse := fun _ => None;
     findProjectDirectories := throw "EACCES";
     findJsonlFiles := fun _ => ret [];
     readJsonl := fun _ _ w => ([], w);
     getTimeRangeFilter := fun _ => ret (fun _ => true);
     parserDeps := plainDeps |}.

(** A file system whose projects directory cannot be read. *)
Definition brokenFs : FileSystem Z :=
  {| projectsPath := "/home/dev/.claude/projects";
     path_join := fun a b => (a ++ "/" ++ b)%string;
     readdir := fun _ => throw "ENOENT";
     stat := fun _ => throw "ENOENT" |}.

Definition freshState : State Z := {| world := 0%Z; messageCache := [] |}.

Definition line (t : MessageType) (id text : string) : Line :=
  Parsed
    {| cm_cwd := "/home/dev/app"; cm_sessionId := "s1"; cm_type := t;
       cm_message := Some (ContentString text); cm_uuid := id;
       cm_timestamp := "2026-01-01T00:00:00.000Z" |}.

Definition replyText : string :=
  "This is a substantial reply from the assistant that explains how the parser handles every line.".

Definition replyCorpus : list Line := [ line assistant "a1" replyText ].

Definition replyMessage : CompactMessage :=
  {| uuid := "a1"; timestamp := "2026-01-01T00:00:00.000Z"; type := assistant;
     content := replyText; sessionId := "s1";
     projectPath := Some "/home/dev/app";
     relevanceScore := Some (inject_Z 5); finalScore := Some (inject_Z 5);
     context := None |}.

Definition askedCorpus : list Line :=
  [ line user "u1" "docker compose networking question";
    line user "u2" "docker compose networking" ].

Definition reactMessage : ClaudeMessage :=
  {| cm_cwd := "/home/dev/app"; cm_sessionId := "s1"; cm_type := assistant;
     cm_message := Some (ContentString "ReAct agent pattern implementation");
     cm_uuid := "a2"; cm_timestamp := "2026-01-01T00:00:00.000Z" |}.

(** A reply about modules that names no technology. *)
Definition modulesMessage : ClaudeMessage :=
  {| cm_cwd := "/home/dev/app"; cm_sessionId := "s1"; cm_type := assistant;
     cm_message := Some (ContentString "The modules are resolved from the workspace root");
     cm_uuid := "a4"; cm_timestamp := "2026-01-01T00:00:00.000Z" |}.

Definition unmatchedCandidate : CompactMessage :=
  {| uuid := "a3"; timestamp := "2026-01-01T00:00:00.000Z"; type := assistant;
     content := "The docker auth error was fixed by updating the token and the docker auth file";
     sessionId := "s1"; projectPath := Some "/home/dev/app";
     relevanceScore := Some 0%Q; finalScore := None;
     context := Some {| filesReferenced := Some ["auth.json"];
                        toolsUsed := Some ["Read"; "Edit"];
                        errorPatterns := Some ["error was fixed"];
                        bashCommands := None; claudeInsights := None;
                        codeSnippets := None; actionItems := None |} |}.

Definition urgentAnalysis : Analysis :=
  {| a_type := q_error; urgency := high; scope := focused;
     expectsCode := false; expectsSolution := true;
     keywords := ["docker"; "auth"; "error"; "fix"];
     semanticBoosts := [("errorResolution", 3%Q); ("solutions", (28 # 10)%Q);
                        ("fileOperations", 2%Q); ("toolUsage", (22 # 10)%Q)] |}.

End Scenarios.

(* ------------------------------------------------------------------ *)
(** ** Further concrete worlds *)
(* ------------------------------------------------------------------ *)

Module MoreScenarios.
Import Eff.

(** A directory with two session files and a note, in which one of the
    session files cannot be examined. *)
Definition flakyFs : FileSystem Z :=
  {| projectsPath := "/home/dev/.claude/projects";
     path_join := fun a b => (a ++ "/" ++ b)%string;
     readdir := fun _ => ret ["a.jsonl"; "notes.txt"; "b.jsonl"];
     stat := fun path =>
               if JS.endsWith path "b.jsonl" then throw "EACCES"
               else ret {| isDirectory := true; mtimeMs := 5%Q |} |}.

(** A calendar that accepts every timestamp, compares timestamps as
    strings, and reads a fixed date off a clock that ticks. *)
Definition wallCalendar : Calendar Z :=
  {| isoNow := fun w => ("2026-01-01T00:00:00.000Z", (w + 1)%Z);
     isValidTimestamp := fun _ => true;
     earlier := fun a b => negb (String.leb b a) |}.

(** Error tests that take every content naming an error for an actual
    error, and nothing for a discussion about errors. *)
Definition plainTests : ErrorTests :=
  {| isActualError := fun content => JS.includes (JS.toLowerCase content) "error";
     isMetaErrorContent := fun _ => false |}.

(** The scans of a project complete from the last file to the first. *)
Definition lastFileFirst : Completion :=
  {| completionOrder := fun _ files => rev files;
     completionOrder_arranges := fun _ files => Permutation_sym (Permutation_rev files) |}.

(** Patterns that find nothing in any content and take every word for
    a pattern, but for a word with an opening parenthesis, from which no
    regular expression is built. *)
Definition plainPatterns : Patterns :=
  {| mentionsGitChange := fun _ => false;
     sessionAccomplishmentOf := fun _ => None;
     toolMention := fun _ _ => Returned None;
     bashCodeBlock := fun _ => None;
     extractPlanTitle := fun _ => Some "Roadmap";
     extractPlanSections := fun _ => [];
     extractFileReferences := fun _ => [];
     countMatches := fun term content =>
                       if JS.includes term "(" then Thrown "SyntaxError"
                       else Returned (if JS.includes content term then 1 else 0);
     stripDirectories := fun sessionId => sessionId;
     accomplishmentsOfAssistant := fun _ => [];
     accomplishmentsOfToolResult := fun _ => [];
     isValidAccomplishment := fun _ => true;
     decisionsOf := fun _ => [] |}.

(** A Linux machine with one plan, Claude Desktop installed, and
    neither of the two database packages. *)
Definition laptop : Node Z :=
  {| os_homedir := Returned "/home/dev";
     os_platform := "linux";
     env_APPDATA := None;
     env_XDG_CONFIG_HOME := None;
     joinPaths := JS.join "/";
     fs_readdir := fun _ => ret ["roadmap.md"; "notes.txt"];
     fs_readFile := fun _ => ret "The roadmap of the parser";
     fs_stat := fun _ => ret {| mtime_toISOString := Returned "2026-01-01T00:00:00.000Z" |};
     fs_access := fun _ => ret tt;
     import_level := throw "ERR_MODULE_NOT_FOUND";
     import_sqlite := throw "ERR_MODULE_NOT_FOUND" |}.

(** The same machine when the home directory cannot be determined. *)
Definition homeless : Node Z :=
  {| os_homedir := Thrown "ENOENT";
     os_platform := os_platform laptop;
     env_APPDATA := env_APPDATA laptop;
     env_XDG_CONFIG_HOME := env_XDG_CONFIG_HOME laptop;
     joinPaths := joinPaths laptop;
     fs_readdir := fs_readdir laptop;
     fs_readFile := fs_readFile laptop;
     fs_stat := fs_stat laptop;
     fs_access := fs_access laptop;
     import_level := import_level laptop;
     import_sqlite := import_sqlite laptop |}.

(** Stores of Claude Desktop that are locked by another process. *)
Definition lockedStores : Desktop Z :=
  {| searchLocalStorageData := fun _ _ _ _ => throw "EBUSY";
     searchSQLiteWebStorage := fun _ _ _ _ => throw "EBUSY";
     searchIndexedDBWithMicroCopy := fun _ _ _ _ => throw "EBUSY";
     searchLocalStorageWithMicroCopy := fun _ _ _ _ => throw "EBUSY" |}.

(** The engine after [initialize] on the machine without a home
    directory: Claude Desktop is not detected. *)
Definition initializedEngine : Universal Z :=
  {| claudeCodeEngine := Scenarios.freshState;
     claudeDesktopAvailable := Some false;
     desktopStoragePath := None;
     desktopIndexedDBPath := None;
     levelDB := false;
     sqlite3 := false;
     enhancedMode := false |}.

(** An engine that was just constructed. *)
Definition freshEngine : Universal Z :=
  {| claudeCodeEngine := Scenarios.freshState;
     claudeDesktopAvailable := None;
     desktopStoragePath := None;
     desktopIndexedDBPath := None;
     levelDB := false;
     sqlite3 := false;
     enhancedMode := false |}.



(** A text of 111 characters whose first sentence ends at index 63. *)
Definition boundaryText : string :=
  "The parser reads each file line by line and keeps every message. It then sorts the messages by their time stamp".

End MoreScenarios.

(* ------------------------------------------------------------------ *)
(** ** The invariant of de-duplication by content *)
(* ------------------------------------------------------------------ *)

Module ContentDedupInv.
Import Engine ContentDedup.

(** What holds of the map [seen] throughout [deduplicateByContent]: its
    keys are distinct, and every message is stored under its own
    signature with its files and tools already sorted. *)
Definition contentKeyed (seen : list (string * CompactMessage)) : Prop :=
  NoDup (map fst seen)
  /\ forall k v, In (k, v) seen ->
       createContentSignature v = k /\ sortedLists v = v.

End ContentDedupInv.

(* ------------------------------------------------------------------ *)
(** ** Properties of binary64 rounding *)
(* ------------------------------------------------------------------ *)

Module Binary64Facts.
Import Binary64.

Lemma pow2_pos (e : Z) : (0 < pow2 e)%Q.
Proof. apply Qpower_0_lt. reflexivity. Qed.

Lemma pow2_plus (a b : Z) : (pow2 (a + b) == pow2 a * pow2 b)%Q.
Proof. apply Qpower_plus. discriminate. Qed.

Lemma pow2_le (a b : Z) : (a <= b)%Z -> (pow2 a <= pow2 b)%Q.
Proof. intros H. apply Qpower_le_compat_l; [exact H | discriminate]. Qed.

Lemma pow2_lt (a b : Z) : (a < b)%Z -> (pow2 a < pow2 b)%Q.
Proof. intros H. apply Qpower_lt_compat_l; [exact H | reflexivity]. Qed.

Lemma pow2_int (e : Z) : (0 <= e)%Z -> (pow2 e == inject_Z (2 ^ e))%Q.
Proof. intros H. unfold pow2. rewrite (Zpower_Qpower 2 e H). reflexivity. Qed.

Lemma Qpos_num (x : Q) : (0 < x)%Q <-> (0 < Qnum x)%Z.
Proof. unfold Qlt. simpl. rewrite Z.mul_1_r. reflexivity. Qed.

(** [ilog2] brackets a positive rational between two powers of 2. *)
Lemma ilog2_spec (x : Q) :
  (0 < x)%Q -> (pow2 (ilog2 x) <= x)%Q /\ (x < pow2 (ilog2 x + 1))%Q.
Proof.
  intros Hx. destruct x as [n d]. apply Qpos_num in Hx. simpl in Hx.
  unfold ilog2. cbn [Qnum Qden].
  set (a := Z.log2 n). set (b := Z.log2 (Zpos d)).
  destruct (Z.log2_spec n Hx) as [Ha1 Ha2]. fold a in Ha1, Ha2.
  destruct (Z.log2_spec (Zpos d) (Pos2Z.is_pos d)) as [Hb1 Hb2]. fold b in Hb1, Hb2.
  assert (Ha0 : (0 <= a)%Z) by apply Z.log2_nonneg.
  assert (Hb0 : (0 <= b)%Z) by apply Z.log2_nonneg.
  assert (Hd : (0 < inject_Z (Zpos d))%Q) by reflexivity.
  assert (Hupper : (n # d < pow2 (a - b + 1))%Q).
  { rewrite Qmake_Qdiv. apply Qlt_shift_div_r; [exact Hd|].
    apply Qlt_le_trans with (pow2 (a - b + 1) * pow2 b)%Q.
    - rewrite <- pow2_plus. replace (a - b + 1 + b)%Z with (Z.succ a) by lia.
      rewrite pow2_int by lia. rewrite <- Zlt_Qlt. exact Ha2.
    - apply Qmult_le_l; [apply pow2_pos|].
      rewrite pow2_int by lia. rewrite <- Zle_Qle. exact Hb1. }
  assert (Hlower : (pow2 (a - b - 1) <= n # d)%Q).
  { rewrite Qmake_Qdiv. apply Qle_shift_div_l; [exact Hd|].
    apply Qle_trans with (pow2 (a - b - 1) * pow2 (b + 1))%Q.
    - apply Qmult_le_l; [apply pow2_pos|].
      rewrite pow2_int by lia. rewrite <- Zle_Qle.
      replace (b + 1)%Z with (Z.succ b) by lia. lia.
    - rewrite <- pow2_plus. replace (a - b - 1 + (b + 1))%Z with a by lia.
      rewrite pow2_int by lia. rewrite <- Zle_Qle. exact Ha1. }
  destruct (Qle_bool (pow2 (a - b)) (n # d)) eqn:E.
  - apply Qle_bool_iff in E. split; [exact E | exact Hupper].
  - split; [exact Hlower|].
    replace (a - b - 1 + 1)%Z with (a - b)%Z by lia.
    apply Qnot_le_lt. intros H. apply Qle_bool_iff in H. congruence.
Qed.

Lemma ilog2_unique (x : Q) (e : Z) :
  (pow2 e <= x)%Q -> (x < pow2 (e + 1))%Q -> ilog2 x = e.
Proof.
  intros Hlo Hhi.
  assert (Hx : (0 < x)%Q) by (eapply Qlt_le_trans; [apply pow2_pos | exact Hlo]).
  destruct (ilog2_spec x Hx) as [Hlo' Hhi'].
  destruct (Z.lt_trichotomy (ilog2 x) e) as [H|[H|H]]; [|exact H|].
  - exfalso. apply (Qlt_irrefl x).
    eapply Qlt_le_trans; [exact Hhi'|].
    eapply Qle_trans; [|exact Hlo]. apply pow2_le. lia.
  - exfalso. apply (Qlt_irrefl x).
    eapply Qlt_le_trans; [exact Hhi|].
    eapply Qle_trans; [|exact Hlo']. apply pow2_le. lia.
Qed.

Lemma ilog2_mono (x y : Q) : (0 < x)%Q -> (x <= y)%Q -> (ilog2 x <= ilog2 y)%Z.
Proof.
  intros Hx Hxy.
  assert (Hy : (0 < y)%Q) by (eapply Qlt_le_trans; eassumption).
  destruct (ilog2_spec x Hx) as [Hlo _]. destruct (ilog2_spec y Hy) as [_ Hhi].
  destruct (Z.le_gt_cases (ilog2 x) (ilog2 y)) as [H|H]; [exact H|].
  exfalso. apply (Qlt_irrefl y).
  eapply Qlt_le_trans; [exact Hhi|].
  eapply Qle_trans; [|exact Hxy]. eapply Qle_trans; [|exact Hlo].
  apply pow2_le. lia.
Qed.

Lemma ilog2_comp (x y : Q) : (0 < x)%Q -> (x == y)%Q -> ilog2 x = ilog2 y.
Proof.
  intros Hx Hxy. symmetry. destruct (ilog2_spec x Hx) as [Hlo Hhi].
  apply ilog2_unique; rewrite <- Hxy; assumption.
Qed.

Lemma roundHalfEven_Z (z : Z) : roundHalfEven (inject_Z z) = z.
Proof.
  unfold roundHalfEven. rewrite Qfloor_Z.
  replace (inject_Z z - inject_Z z ?= 1 # 2)%Q with Lt; [reflexivity|].
  symmetry. apply Qlt_alt. setoid_replace (inject_Z z - inject_Z z)%Q with 0%Q by ring.
  reflexivity.
Qed.

Lemma roundHalfEven_range (x : Q) :
  (Qfloor x <= roundHalfEven x <= Qfloor x + 1)%Z.
Proof.
  unfold roundHalfEven.
  destruct (x - inject_Z (Qfloor x) ?= 1 # 2)%Q; [destruct (Z.even _)| |]; lia.
Qed.

Lemma roundHalfEven_mono (x y : Q) :
  (x <= y)%Q -> (roundHalfEven x <= roundHalfEven y)%Z.
Proof.
  intros Hxy. pose proof (Qfloor_resp_le x y Hxy) as Hfl.
  pose proof (roundHalfEven_range x) as Hx. pose proof (roundHalfEven_range y) as Hy.
  destruct (Z.eq_dec (Qfloor x) (Qfloor y)) as [E|E]; [|lia].
  unfold roundHalfEven. rewrite <- E.
  assert (Hfrac : (x - inject_Z (Qfloor x) <= y - inject_Z (Qfloor x))%Q).
  { apply Qplus_le_compat; [exact Hxy | apply Qle_refl]. }
  destruct (x - inject_Z (Qfloor x) ?= 1 # 2)%Q eqn:Cx;
    destruct (y - inject_Z (Qfloor x) ?= 1 # 2)%Q eqn:Cy;
    try destruct (Z.even (Qfloor x)); try lia; exfalso;
    first [apply Qeq_alt in Cx | apply Qlt_alt in Cx | apply Qgt_alt in Cx];
    first [apply Qeq_alt in Cy | apply Qlt_alt in Cy | apply Qgt_alt in Cy];
    first [ rewrite Cx in Hfrac; exact (Qlt_not_le _ _ Cy Hfrac)
          | rewrite Cy in Hfrac; exact (Qlt_not_le _ _ Cx Hfrac)
          | exact (Qlt_irrefl _
                     (Qlt_le_trans _ _ _ Cx
                        (Qle_trans _ _ _ Hfrac (Qlt_le_weak _ _ Cy)))) ].
Qed.

Lemma roundHalfEven_comp (x y : Q) : (x == y)%Q -> roundHalfEven x = roundHalfEven y.
Proof.
  intros H. apply Z.le_antisymm; apply roundHalfEven_mono; rewrite H; apply Qle_refl.
Qed.


Lemma scaled_le (x : Q) (u : Z) (n : Z) :
  (x <= inject_Z n * pow2 u)%Q -> (x / pow2 u <= inject_Z n)%Q.
Proof. intros H. apply Qle_shift_div_r; [apply pow2_pos | exact H]. Qed.

Lemma scaled_ge (x : Q) (u : Z) (n : Z) :
  (inject_Z n * pow2 u <= x)%Q -> (inject_Z n <= x / pow2 u)%Q.
Proof. intros H. apply Qle_shift_div_l; [apply pow2_pos | exact H]. Qed.

(** A multiple of the last place above [x] is above its rounding, and
    one below [x] is below it. *)
Lemma roundPositive_upper (x : Q) (n : Z) :
  (x <= inject_Z n * pow2 (lastPlace x))%Q ->
  (roundPositive x <= inject_Z n * pow2 (lastPlace x))%Q.
Proof.
  intros H. unfold roundPositive.
  apply Qmult_le_compat_r; [|apply Qlt_le_weak, pow2_pos].
  rewrite <- Zle_Qle, <- (roundHalfEven_Z n).
  apply roundHalfEven_mono, scaled_le, H.
Qed.

Lemma roundPositive_lower (x : Q) (n : Z) :
  (inject_Z n * pow2 (lastPlace x) <= x)%Q ->
  (inject_Z n * pow2 (lastPlace x) <= roundPositive x)%Q.
Proof.
  intros H. unfold roundPositive.
  apply Qmult_le_compat_r; [|apply Qlt_le_weak, pow2_pos].
  rewrite <- Zle_Qle, <- (roundHalfEven_Z n).
  apply roundHalfEven_mono, scaled_ge, H.
Qed.

(** A multiple of its own last place is its own rounding. *)
Lemma roundPositive_exact (x : Q) (n : Z) :
  (x == inject_Z n * pow2 (lastPlace x))%Q -> (roundPositive x == x)%Q.
Proof.
  intros H. apply Qle_antisym.
  - rewrite H at 2. apply roundPositive_upper. rewrite <- H. apply Qle_refl.
  - rewrite H at 1. apply roundPositive_lower. rewrite <- H. apply Qle_refl.
Qed.

Lemma roundPositive_nonneg (x : Q) : (0 <= x)%Q -> (0 <= roundPositive x)%Q.
Proof.
  intros H. setoid_replace 0%Q with (inject_Z 0 * pow2 (lastPlace x))%Q by ring.
  apply roundPositive_lower. setoid_replace (inject_Z 0 * pow2 (lastPlace x))%Q with 0%Q by ring.
  exact H.
Qed.

Lemma lastPlace_mono (x y : Q) :
  (0 < x)%Q -> (x <= y)%Q -> (lastPlace x <= lastPlace y)%Z.
Proof.
  intros Hx Hxy. unfold lastPlace. pose proof (ilog2_mono x y Hx Hxy). lia.
Qed.

Lemma roundPositive_mono (x y : Q) :
  (0 < x)%Q -> (x <= y)%Q -> (roundPositive x <= roundPositive y)%Q.
Proof.
  intros Hx Hxy.
  assert (Hy : (0 < y)%Q) by (eapply Qlt_le_trans; eassumption).
  pose proof (lastPlace_mono x y Hx Hxy) as Hu.
  destruct (Z.eq_dec (lastPlace x) (lastPlace y)) as [E|E].
  - unfold roundPositive. rewrite E.
    apply Qmult_le_compat_r; [|apply Qlt_le_weak, pow2_pos].
    rewrite <- Zle_Qle. apply roundHalfEven_mono.
    apply Qmult_le_compat_r; [exact Hxy|].
    apply Qlt_le_weak, Qinv_lt_0_compat, pow2_pos.
  - pose proof (ilog2_mono x y Hx Hxy) as He.
    destruct (ilog2_spec x Hx) as [_ Hhi]. destruct (ilog2_spec y Hy) as [Hlo _].
    assert (Huy : lastPlace y = (ilog2 y - 52)%Z) by (unfold lastPlace in *; lia).
    assert (Hgap : (0 <= ilog2 y - lastPlace x)%Z) by (unfold lastPlace in *; lia).
    assert (Hlt : (ilog2 x + 1 <= ilog2 y)%Z) by (unfold lastPlace in *; lia).
    apply Qle_trans with (pow2 (ilog2 y)).
    + setoid_replace (pow2 (ilog2 y))
        with (inject_Z (2 ^ (ilog2 y - lastPlace x)) * pow2 (lastPlace x))%Q.
      * apply roundPositive_upper.
        rewrite <- pow2_int by exact Hgap. rewrite <- pow2_plus.
        replace (ilog2 y - lastPlace x + lastPlace x)%Z with (ilog2 y) by lia.
        apply Qlt_le_weak. eapply Qlt_le_trans; [exact Hhi|]. apply pow2_le. exact Hlt.
      * rewrite <- pow2_int by exact Hgap. rewrite <- pow2_plus.
        replace (ilog2 y - lastPlace x + lastPlace x)%Z with (ilog2 y) by lia.
        reflexivity.
    + setoid_replace (pow2 (ilog2 y))
        with (inject_Z (2 ^ 52) * pow2 (lastPlace y))%Q.
      * apply roundPositive_lower.
        rewrite <- pow2_int by lia. rewrite <- pow2_plus.
        replace (52 + lastPlace y)%Z with (ilog2 y) by lia. exact Hlo.
      * rewrite <- pow2_int by lia. rewrite <- pow2_plus.
        replace (52 + lastPlace y)%Z with (ilog2 y) by lia. reflexivity.
Qed.

Lemma roundPositive_comp (x y : Q) :
  (0 < x)%Q -> (x == y)%Q -> (roundPositive x == roundPositive y)%Q.
Proof.
  intros Hx Hxy.
  assert (Hy : (0 < y)%Q) by (rewrite <- Hxy; exact Hx).
  apply Qle_antisym; apply roundPositive_mono; try assumption;
    rewrite Hxy; apply Qle_refl.
Qed.

Lemma rnd_pos (x : Q) : (0 < x)%Q -> rnd x = Qred (roundPositive x).
Proof.
  intros H. apply Qpos_num in H. unfold rnd. destruct (Qnum x); [lia|reflexivity|lia].
Qed.

Lemma rnd_zero (x : Q) : (x == 0)%Q -> rnd x = 0%Q.
Proof.
  intros H. unfold Qeq in H. simpl in H. rewrite Z.mul_1_r in H.
  unfold rnd. rewrite H. reflexivity.
Qed.

(** Equal rationals round to the same fraction. *)
Lemma rnd_comp (x y : Q) : (x == y)%Q -> rnd x = rnd y.
Proof.
  intros H. destruct (Qlt_le_dec 0 x) as [Hx|Hx].
  - rewrite !rnd_pos by (try rewrite <- H; exact Hx).
    apply Qred_complete, roundPositive_comp; assumption.
  - destruct (Qeq_dec x 0) as [E|E].
    + rewrite (rnd_zero x E), (rnd_zero y) by (rewrite <- H; exact E). reflexivity.
    + assert (Hneg : (x < 0)%Q) by (apply Qle_lteq in Hx as [Hx|Hx]; [exact Hx | contradiction]).
      assert (Hx' : (Qnum x < 0)%Z).
      { unfold Qlt in Hneg. simpl in Hneg. rewrite Z.mul_1_r in Hneg. exact Hneg. }
      assert (Hy' : (Qnum y < 0)%Z).
      { rewrite H in Hneg. unfold Qlt in Hneg. simpl in Hneg.
        rewrite Z.mul_1_r in Hneg. exact Hneg. }
      unfold rnd. destruct (Qnum x); try lia. destruct (Qnum y); try lia.
      apply Qred_complete. apply Qopp_comp, roundPositive_comp.
      * apply (Qopp_lt_compat x 0) in Hneg. exact Hneg.
      * rewrite H. reflexivity.
Qed.

Lemma rnd_nonneg (x : Q) : (0 <= x)%Q -> (0 <= rnd x)%Q.
Proof.
  intros H. apply Qle_lteq in H as [H|H].
  - rewrite rnd_pos by exact H. rewrite Qred_correct.
    apply roundPositive_nonneg, Qlt_le_weak, H.
  - rewrite (rnd_zero x) by (symmetry; exact H). apply Qle_refl.
Qed.

(** Rounding keeps the order of numbers that are not negative. *)
Lemma rnd_mono (x y : Q) : (0 <= x)%Q -> (x <= y)%Q -> (rnd x <= rnd y)%Q.
Proof.
  intros Hx Hxy. apply Qle_lteq in Hx as [Hx|Hx].
  - rewrite (rnd_pos x Hx), (rnd_pos y) by (eapply Qlt_le_trans; eassumption).
    rewrite !Qred_correct. apply roundPositive_mono; assumption.
  - rewrite (rnd_zero x) by (symmetry; exact Hx).
    apply rnd_nonneg. rewrite Hx. exact Hxy.
Qed.

Lemma ilog2_Z (z : Z) : (0 < z)%Z -> ilog2 (inject_Z z) = Z.log2 z.
Proof.
  intros H. destruct (Z.log2_spec z H) as [H1 H2].
  pose proof (Z.log2_nonneg z).
  apply ilog2_unique.
  - rewrite pow2_int by lia. rewrite <- Zle_Qle. exact H1.
  - rewrite pow2_int by lia. rewrite <- Zlt_Qlt.
    replace (Z.log2 z + 1)%Z with (Z.succ (Z.log2 z)) by lia. exact H2.
Qed.

(** The integers up to 2^53 are binary64 numbers. *)
Lemma rnd_Z (z : Z) :
  (0 <= z <= 2 ^ 53)%Z -> (rnd (inject_Z z) == inject_Z z)%Q.
Proof.
  intros [H0 H53]. destruct (Z.eq_dec z 0) as [->|Hz]; [reflexivity|].
  assert (Hpos : (0 < z)%Z) by lia.
  rewrite rnd_pos by (change 0%Q with (inject_Z 0); rewrite <- Zlt_Qlt; exact Hpos).
  rewrite Qred_correct.
  assert (Hlog : (Z.log2 z <= 53)%Z).
  { rewrite <- (Z.log2_pow2 53) by lia. apply Z.log2_le_mono. exact H53. }
  pose proof (Z.log2_nonneg z) as Hlog0.
  destruct (Z.log2_spec z Hpos) as [Hlo Hhi].
  assert (Hu : lastPlace (inject_Z z) = (Z.log2 z - 52)%Z).
  { unfold lastPlace. rewrite ilog2_Z by exact Hpos. lia. }
  destruct (Z.eq_dec (Z.log2 z) 53) as [E|E].
  - assert (Hz53 : z = (2 ^ 53)%Z) by (rewrite E in Hlo; lia).
    apply (roundPositive_exact _ (2 ^ 52)).
    rewrite Hu, E. subst z. reflexivity.
  - apply (roundPositive_exact _ (z * 2 ^ (52 - Z.log2 z))).
    rewrite Hu, inject_Z_mult, <- Qmult_assoc.
    rewrite <- pow2_int by lia. rewrite <- pow2_plus.
    replace (52 - Z.log2 z + (Z.log2 z - 52))%Z with 0%Z by lia.
    change (pow2 0) with 1%Q. ring.
Qed.

(** Below 2^53 the last place is at most 1, so rounding never falls
    below the integer part. *)
Lemma rnd_ge_floor (x : Q) :
  (0 <= x)%Q -> (x < inject_Z (2 ^ 53))%Q -> (inject_Z (Qfloor x) <= rnd x)%Q.
Proof.
  intros H0 H53.
  destruct (Z.eq_dec (Qfloor x) 0) as [E|E]; [rewrite E; apply rnd_nonneg, H0|].
  assert (Hfl : (1 <= Qfloor x)%Z).
  { assert ((0 <= Qfloor x)%Z); [|lia].
    rewrite <- (Qfloor_Z 0). apply Qfloor_resp_le. exact H0. }
  assert (Hx : (0 < x)%Q).
  { apply Qlt_le_trans with (inject_Z (Qfloor x)); [|apply Qfloor_le].
    change 0%Q with (inject_Z 0). rewrite <- Zlt_Qlt. lia. }
  rewrite rnd_pos by exact Hx. rewrite Qred_correct.
  destruct (ilog2_spec x Hx) as [Hlo _].
  assert (He : (ilog2 x <= 52)%Z).
  { destruct (Z.le_gt_cases (ilog2 x) 52) as [H|H]; [exact H|]. exfalso.
    apply (Qlt_irrefl x). eapply Qlt_le_trans; [exact H53|].
    eapply Qle_trans; [|exact Hlo].
    rewrite <- pow2_int by lia. apply pow2_le. lia. }
  assert (Hu : (lastPlace x <= 0)%Z) by (unfold lastPlace; lia).
  setoid_replace (inject_Z (Qfloor x))
    with (inject_Z (Qfloor x * 2 ^ (- lastPlace x)) * pow2 (lastPlace x))%Q.
  - apply roundPositive_lower.
    rewrite inject_Z_mult, <- Qmult_assoc, <- pow2_int by lia.
    rewrite <- pow2_plus. replace (- lastPlace x + lastPlace x)%Z with 0%Z by lia.
    change (pow2 0) with 1%Q. rewrite Qmult_1_r. apply Qfloor_le.
  - rewrite inject_Z_mult, <- Qmult_assoc, <- pow2_int by lia.
    rewrite <- pow2_plus. replace (- lastPlace x + lastPlace x)%Z with 0%Z by lia.
    change (pow2 0) with 1%Q. ring.
Qed.

(** An integer above the rounding of a number below 2^53 is above the
    number. *)
Lemma rnd_lt_Z (x : Q) (n : Z) :
  (0 <= x)%Q -> (x < inject_Z (2 ^ 53))%Q -> (rnd x < inject_Z n)%Q ->
  (x < inject_Z n)%Q.
Proof.
  intros H0 H53 Hlt.
  assert (Hfl : (Qfloor x < n)%Z).
  { rewrite Zlt_Qlt. eapply Qle_lt_trans; [apply rnd_ge_floor; assumption | exact Hlt]. }
  eapply Qlt_le_trans; [apply Qlt_floor|]. rewrite <- Zle_Qle. lia.
Qed.

Lemma rnd_0 : rnd 0 = 0%Q.
Proof. reflexivity. Qed.

(** On the samples the arithmetic defined here and the binary64 unit of
    the kernel give the same numbers.  Among them: 0.8 * (6 / 8) is
    above 0.6, 90 * 0.7 is below 63, and 5 * 2 * 2.5 * 2.2 is above
    55. *)
Lemma samples_agree : forallb agrees samples = true.
Proof. vm_compute. reflexivity. Qed.

Lemma samples_round :
  (rnd (6 # 10) < mul (rnd (8 # 10)) (div (ofNat 6) (ofNat 8)))%Q
  /\ (mul (ofNat 90) (rnd (7 # 10)) < 63)%Q
  /\ (55 < mul (mul (mul (ofNat 5) (ofNat 2)) (rnd (25 # 10))) (rnd (22 # 10)))%Q
  /\ add (rnd (1 # 10)) (rnd (2 # 10)) <> rnd (3 # 10).
Proof. vm_compute. repeat split; discriminate. Qed.

Lemma rnd_1 : rnd 1 = 1%Q.
Proof. vm_compute. reflexivity. Qed.

Lemma ofNat_exact (n : nat) :
  (Z.of_nat n <= 2 ^ 53)%Z -> (ofNat n == inject_Z (Z.of_nat n))%Q.
Proof. intros H. apply rnd_Z. lia. Qed.

Lemma rnd_le_1 (x : Q) : (0 <= x)%Q -> (x <= 1)%Q -> (rnd x <= 1)%Q.
Proof. intros H0 H1. rewrite <- rnd_1. apply rnd_mono; assumption. Qed.

Lemma rnd_ge_1 (x : Q) : (1 <= x)%Q -> (1 <= rnd x)%Q.
Proof. intros H. rewrite <- rnd_1 at 1. apply rnd_mono; [discriminate | exact H]. Qed.

Lemma sum_nonneg (x y : Q) : (0 <= x)%Q -> (0 <= y)%Q -> (0 <= x + y)%Q.
Proof.
  intros Hx Hy. apply Qle_trans with (0 + 0)%Q; [discriminate|].
  apply Qplus_le_compat; assumption.
Qed.

Lemma add_nonneg (x y : Q) : (0 <= x)%Q -> (0 <= y)%Q -> (0 <= add x y)%Q.
Proof. intros Hx Hy. apply rnd_nonneg, sum_nonneg; assumption. Qed.

Lemma mul_nonneg (x y : Q) : (0 <= x)%Q -> (0 <= y)%Q -> (0 <= mul x y)%Q.
Proof. intros Hx Hy. apply rnd_nonneg, Qmult_le_0_compat; assumption. Qed.

Lemma div_nonneg (x y : Q) : (0 <= x)%Q -> (0 <= y)%Q -> (0 <= div x y)%Q.
Proof.
  intros Hx Hy. apply rnd_nonneg, Qmult_le_0_compat; [exact Hx|].
  apply Qinv_le_0_compat, Hy.
Qed.

Lemma mul_le_1 (x y : Q) :
  (0 <= x <= 1)%Q -> (0 <= y <= 1)%Q -> (mul x y <= 1)%Q.
Proof.
  intros [Hx0 Hx1] [Hy0 Hy1]. apply rnd_le_1; [apply Qmult_le_0_compat; assumption|].
  apply Qle_trans with (1 * y)%Q; [apply Qmult_le_compat_r; assumption|].
  rewrite Qmult_1_l. exact Hy1.
Qed.

Lemma ofNat_nonneg (n : nat) : (0 <= ofNat n)%Q.
Proof.
  apply rnd_nonneg. change 0%Q with (inject_Z 0). rewrite <- Zle_Qle. lia.
Qed.

Lemma ofNat_mono (a b : nat) : a <= b -> (ofNat a <= ofNat b)%Q.
Proof.
  intros H. apply rnd_mono.
  - change 0%Q with (inject_Z 0). rewrite <- Zle_Qle. lia.
  - rewrite <- Zle_Qle. lia.
Qed.

Lemma ofNat_pos (n : nat) : 0 < n -> (1 <= ofNat n)%Q.
Proof.
  intros H. apply rnd_ge_1. change 1%Q with (inject_Z 1). rewrite <- Zle_Qle. lia.
Qed.

End Binary64Facts.

(* ------------------------------------------------------------------ *)
(** ** Properties of the term matcher *)
(* ------------------------------------------------------------------ *)

Module TermMatcherFacts.
Import JS Utils Casing.

Lemma lowerChar_clean (c : ascii) :
  isCleanChar c = true ->
  Ascii.eqb c (lowerChar c) = negb (isUpperAZ c).
Proof.
  destruct c as [[] [] [] [] [] [] [] []]; vm_compute; congruence.
Qed.

Lemma upperChar_fixed (c : ascii) :
  Ascii.eqb c (upperChar c) = negb (isLowerAZ c).
Proof.
  destruct c as [[] [] [] [] [] [] [] []]; vm_compute; congruence.
Qed.

Lemma cleanWord_clean (word : string) :
  forallString isCleanChar (cleanWord word) = true.
Proof.
  unfold cleanWord.
  induction word as [|c rest IH]; simpl; [reflexivity|].
  destruct (isWordChar c || (code c =? 45)) eqn:E; simpl; [|exact IH].
  unfold isCleanChar at 1. rewrite E. exact IH.
Qed.

Lemma eqb_String (a b : ascii) (s t : string) :
  String.eqb (String a s) (String b t) = Ascii.eqb a b && String.eqb s t.
Proof.
  simpl. destruct (Ascii.eqb a b); reflexivity.
Qed.

Lemma eqb_toLowerCase (w : string) :
  forallString isCleanChar w = true ->
  String.eqb w (toLowerCase w) = entirelyLowercase w.
Proof.
  induction w as [|c rest IH]; intros H; [reflexivity|].
  simpl in H. apply andb_prop in H as [Hc Hr].
  unfold toLowerCase, entirelyLowercase in *. simpl mapString. simpl forallString.
  rewrite eqb_String, lowerChar_clean, IH by assumption. reflexivity.
Qed.

Lemma eqb_toUpperCase (w : string) :
  String.eqb w (toUpperCase w) = entirelyUppercase w.
Proof.
  induction w as [|c rest IH]; [reflexivity|].
  unfold toUpperCase, entirelyUppercase in *. simpl mapString. simpl forallString.
  rewrite eqb_String, upperChar_fixed, IH. reflexivity.
Qed.

(** On a cleaned word the three string comparisons of [isNormalCase]
    say: entirely lower case, entirely upper case, or title case. *)
Lemma isNormalCase_clean (w : string) :
  forallString isCleanChar w = true ->
  isNormalCase w = casingAccepted w.
Proof.
  intros H. unfold isNormalCase, casingAccepted.
  rewrite eqb_toLowerCase, eqb_toUpperCase by assumption.
  f_equal.
  destruct w as [|c rest]; [reflexivity|].
  simpl in H. apply andb_prop in H as [_ Hr].
  cbn [charAt0 drop toUpperCase mapString String.append titleCase].
  rewrite eqb_String, upperChar_fixed.
  fold (toLowerCase rest). rewrite eqb_toLowerCase by assumption. reflexivity.
Qed.

Lemma wordHits_spec (termLower word : string) :
  wordHits termLower word = true <->
  cleanWord word <> EmptyString /\ toLowerCase (cleanWord word) = termLower
  /\ casingAccepted (cleanWord word) = true.
Proof.
  unfold wordHits.
  rewrite <- (isNormalCase_clean (cleanWord word)) by apply cleanWord_clean.
  destruct (cleanWord word) as [|c rest] eqn:E.
  - split; [discriminate | intros [H _]; congruence].
  - rewrite andb_true_iff, String.eqb_eq. split.
    + intros [H1 H2]. repeat split; [discriminate | assumption | assumption].
    + intros [_ [H1 H2]]. split; assumption.
Qed.

(** C3. The term matcher accepts a word that equals the term up to case
    exactly when the cleaned word is entirely lower case, entirely upper
    case or title case; a word with another capitalisation is passed
    over and the remaining words are still examined.  In particular
    "ReAct" does not match "react", while "React" and "REACT" do. *)
Theorem matchesTechTerm_casing :
  (forall content term : string,
      matchesTechTerm content term = true <->
      exists word,
        In word (split isTermDelimiter content)
        /\ cleanWord word <> EmptyString
        /\ toLowerCase (cleanWord word) = toLowerCase term
        /\ casingAccepted (cleanWord word) = true)
  /\ matchesTechTerm "a ReAct pattern" "react" = false
  /\ matchesTechTerm "a React pattern" "react" = true
  /\ matchesTechTerm "a REACT pattern" "react" = true
  /\ matchesTechTerm "the ReAct loop calls react hooks" "react" = true.
Proof.
  split; [|repeat split; reflexivity].
  intros content term. unfold matchesTechTerm.
  rewrite existsb_exists. split.
  - intros [word [Hin Hhit]]. exists word. split; [exact Hin|].
    apply wordHits_spec. exact Hhit.
  - intros [word [Hin Hrest]]. exists word. split; [exact Hin|].
    apply wordHits_spec. exact Hrest.
Qed.

End TermMatcherFacts.

(* ------------------------------------------------------------------ *)
(** ** Properties of the relevance scorer and of truncation *)
(* ------------------------------------------------------------------ *)

Module ScorerFacts.
Import JS Utils.

Lemma filter_none {A} (p : A -> bool) (l : list A) :
  (forall x, In x l -> p x = false) -> filter p l = [].
Proof.
  induction l as [|x xs IH]; intros H; [reflexivity|].
  simpl. rewrite (H x (or_introl eq_refl)). apply IH.
  intros y Hy. apply H. right. exact Hy.
Qed.

(** X27. When the strict-core terms the scorer finds in the query (the
    listed names among its words of more than two characters) are not
    none, and the term matcher finds none of them in the record's
    content, the relevance score is exactly 0, whatever else the record
    and the query share. *)
Theorem strict_core_veto
  (message : ClaudeMessage) (query : string) (projectPath : option string) :
  let content := extractContentFromMessage (cm_message message) in
  let strictCoreTerms := strictCoreTermsOf (words_gt2 (toLowerCase query)) in
  strictCoreTerms <> [] ->
  (forall term, In term strictCoreTerms -> matchesTechTerm content term = false) ->
  calculateRelevanceScore message query projectPath = 0%Z.
Proof.
  intros content strictCoreTerms Hsome Hnone.
  unfold calculateRelevanceScore.
  fold content. fold strictCoreTerms.
  rewrite (filter_none _ _ Hnone).
  destruct strictCoreTerms as [|t ts]; [contradiction|].
  reflexivity.
Qed.

(** C2, at a concrete input.  The list of strict-core terms names "go",
    but the scorer looks for strict-core terms among the words of the
    query that are longer than two characters, so "go" is never one of
    them.  The query "go modules" names that technology, the reply
    below never mentions it, and its score is 6, not 0; "rust modules"
    on the same reply scores 0. *)
Theorem strict_core_veto_skips_go :
  coreTechPatterns_test "go" = true
  /\ (forall query, ~ In "go" (strictCoreTermsOf (words_gt2 (toLowerCase query))))
  /\ matchesTechTerm
       (extractContentFromMessage (cm_message Scenarios.modulesMessage)) "go" = false
  /\ calculateRelevanceScore Scenarios.modulesMessage "go modules" None = 6%Z
  /\ calculateRelevanceScore Scenarios.modulesMessage "rust modules" None = 0%Z.
Proof.
  split; [reflexivity|]. split; [|repeat split; vm_compute; reflexivity].
  intros query Hin. unfold strictCoreTermsOf, words_gt2 in Hin.
  apply filter_In in Hin as [Hin _]. apply filter_In in Hin as [_ Hlen].
  discriminate Hlen.
Qed.

End ScorerFacts.

Module TruncationFacts.
Import JS Parser.

(** C7. A text strictly shorter than the budget comes back from
    truncation unchanged. *)
Theorem smartContentPreservation_below_budget
  (deps : ParserDeps) (content : string) (maxLength : Z) :
  (strlen content < maxLength)%Z ->
  smartContentPreservation deps content maxLength = content.
Proof.
  intros H. unfold smartContentPreservation.
  destruct (strlen content <=? maxLength)%Z eqn:E; [reflexivity|].
  apply Z.leb_gt in E. lia.
Qed.

Lemma intelligentTruncation_within (content : string) (maxLength : Z) :
  (strlen content <= maxLength)%Z ->
  intelligentTruncation content maxLength = content.
Proof.
  intros H. unfold intelligentTruncation.
  apply Z.leb_le in H. rewrite H. reflexivity.
Qed.

End TruncationFacts.

(* ------------------------------------------------------------------ *)
(** ** Properties of de-duplication *)
(* ------------------------------------------------------------------ *)

Module DedupFacts.
Import JS Engine DedupInv.

Lemma insertSorted_HdRel (y x : string) (l : list string) :
  lebP y x -> HdRel lebP y l -> HdRel lebP y (insertSorted x l).
Proof.
  intros Hyx Hhd. destruct l as [|z zs]; simpl.
  - constructor. exact Hyx.
  - inversion Hhd; subst. destruct (String.leb x z); constructor; assumption.
Qed.

Lemma insertSorted_Sorted (x : string) (l : list string) :
  Sorted lebP l -> Sorted lebP (insertSorted x l).
Proof.
  induction 1 as [|y ys Hs IH Hhd]; simpl.
  - repeat constructor.
  - destruct (String.leb x y) eqn:E.
    + constructor; [constructor; assumption | constructor; exact E].
    + constructor; [exact IH|].
      apply insertSorted_HdRel; [|exact Hhd].
      destruct (String.leb_total x y) as [H|H]; [congruence | exact H].
Qed.

Lemma sortStrings_Sorted (l : list string) : Sorted lebP (sortStrings l).
Proof.
  induction l as [|x xs IH]; simpl; [constructor|].
  apply insertSorted_Sorted. exact IH.
Qed.

Lemma sortStrings_fixed (l : list string) :
  Sorted lebP l -> sortStrings l = l.
Proof.
  induction 1 as [|x xs Hs IH Hhd]; [reflexivity|].
  simpl. rewrite IH. destruct Hhd as [|y ys Hxy]; simpl; [reflexivity|].
  unfold lebP in Hxy. rewrite Hxy. reflexivity.
Qed.

Lemma sortStrings_idempotent (l : list string) :
  sortStrings (sortStrings l) = sortStrings l.
Proof. apply sortStrings_fixed, sortStrings_Sorted. Qed.

(** Sorting the tools a second time changes nothing. *)
Lemma sortedTools_idempotent (m : CompactMessage) :
  sortedTools (sortedTools m) = sortedTools m.
Proof.
  unfold sortedTools.
  destruct (context m) as [c|] eqn:Ec; [|rewrite Ec; reflexivity].
  destruct (toolsUsed c) as [tools|] eqn:Et; [|rewrite Ec, Et; reflexivity].
  simpl. rewrite sortStrings_idempotent. reflexivity.
Qed.

(** The signature does not see the order of the tools. *)
Lemma signature_sortedTools (m : CompactMessage) :
  createIntelligentSignature (sortedTools m) = createIntelligentSignature m.
Proof.
  unfold createIntelligentSignature, sortedTools, ctxField.
  destruct (context m) as [c|] eqn:Ec; [|rewrite Ec; reflexivity].
  destruct (toolsUsed c) as [tools|] eqn:Et; [|rewrite Ec, Et; reflexivity].
  simpl. rewrite sortStrings_idempotent. reflexivity.
Qed.

Lemma finalScore_sortedTools (m : CompactMessage) :
  finalScore (sortedTools m) = finalScore m.
Proof.
  unfold sortedTools. destruct (context m) as [c|]; [|reflexivity].
  destruct (toolsUsed c); reflexivity.
Qed.

Lemma relevanceScore_sortedTools (m : CompactMessage) :
  relevanceScore (sortedTools m) = relevanceScore m.
Proof.
  unfold sortedTools. destruct (context m) as [c|]; [|reflexivity].
  destruct (toolsUsed c); reflexivity.
Qed.

Section MapFacts.
Context {V : Type}.

Lemma mapGet_None (key : string) (m : list (string * V)) :
  mapGet key m = None <-> ~ In key (map fst m).
Proof.
  induction m as [|[k v] rest IH]; simpl.
  - tauto.
  - destruct (String.eqb k key) eqn:E.
    + apply String.eqb_eq in E. split; [discriminate | intros H; exfalso; auto].
    + apply String.eqb_neq in E. rewrite IH. tauto.
Qed.

Lemma mapSet_absent (key : string) (v : V) (m : list (string * V)) :
  mapGet key m = None -> mapSet key v m = m ++ [(key, v)].
Proof.
  induction m as [|[k old] rest IH]; simpl; [reflexivity|].
  destruct (String.eqb k key); [discriminate|].
  intros H. rewrite IH by exact H. reflexivity.
Qed.

Lemma mapSet_present_keys (key : string) (v : V) (m : list (string * V)) :
  mapGet key m <> None -> map fst (mapSet key v m) = map fst m.
Proof.
  induction m as [|[k old] rest IH]; simpl; [congruence|].
  destruct (String.eqb k key) eqn:E; simpl; [reflexivity|].
  intros H. rewrite IH by exact H. reflexivity.
Qed.

Lemma mapSet_In (key : string) (v : V) (m : list (string * V)) (kv : string * V) :
  In kv (mapSet key v m) -> kv = (key, v) \/ In kv m.
Proof.
  induction m as [|[k old] rest IH]; simpl.
  - intros [H|[]]. left. symmetry. exact H.
  - destruct (String.eqb k key) eqn:E; simpl.
    + apply String.eqb_eq in E. subst k.
      intros [H|H]; [left; symmetry; exact H | right; right; exact H].
    + intros [H|H]; [right; left; exact H|].
      destruct (IH H) as [H'|H']; [left; exact H' | right; right; exact H'].
Qed.

End MapFacts.

Lemma wellKeyed_mapSet (seen : list (string * CompactMessage)) (m : CompactMessage) :
  wellKeyed seen ->
  wellKeyed (mapSet (createIntelligentSignature m) (sortedTools m) seen).
Proof.
  intros [Hnd Hall]. split.
  - destruct (mapGet (createIntelligentSignature m) seen) eqn:E.
    + rewrite mapSet_present_keys by congruence. exact Hnd.
    + rewrite (mapSet_absent _ _ _ E), map_app. simpl.
      apply mapGet_None in E.
      apply NoDup_rev in Hnd. rewrite <- (rev_involutive (map fst seen ++ _)).
      apply NoDup_rev. rewrite rev_app_distr. simpl.
      constructor; [rewrite <- in_rev; exact E | exact Hnd].
  - intros k v Hin. apply mapSet_In in Hin as [Heq|Hin]; [|apply Hall; exact Hin].
    inversion Heq; subst.
    split; [apply signature_sortedTools | apply sortedTools_idempotent].
Qed.

Lemma wellKeyed_dedupStep (seen : list (string * CompactMessage)) (m : CompactMessage) :
  wellKeyed seen -> wellKeyed (dedupStep seen m).
Proof.
  intros H. unfold dedupStep.
  destruct (mapGet (createIntelligentSignature m) seen) as [existing|].
  - destruct (Qlt_bool _ _); [apply wellKeyed_mapSet; exact H | exact H].
  - apply wellKeyed_mapSet. exact H.
Qed.

Lemma wellKeyed_fold (l : list CompactMessage) (seen : list (string * CompactMessage)) :
  wellKeyed seen -> wellKeyed (fold_left dedupStep l seen).
Proof.
  revert seen. induction l as [|m ms IH]; intros seen H; simpl; [exact H|].
  apply IH, wellKeyed_dedupStep, H.
Qed.

(** Feeding the values of a well-keyed map back in rebuilds that map. *)
Lemma refill (rest acc : list (string * CompactMessage)) :
  wellKeyed (acc ++ rest) ->
  fold_left dedupStep (map snd rest) acc = acc ++ rest.
Proof.
  revert acc. induction rest as [|[k v] rest IH]; intros acc H; simpl.
  - rewrite app_nil_r. reflexivity.
  - destruct H as [Hnd Hall].
    destruct (Hall k v) as [Hsig Hsorted]; [apply in_or_app; right; left; reflexivity|].
    assert (Habsent : mapGet k acc = None).
    { apply mapGet_None. intros Hin.
      rewrite map_app in Hnd. simpl in Hnd.
      apply NoDup_remove_2 in Hnd. apply Hnd, in_or_app. left. exact Hin. }
    unfold dedupStep at 2. rewrite Hsig, Habsent, Hsorted.
    rewrite (mapSet_absent _ _ _ Habsent).
    rewrite IH; rewrite <- app_assoc; simpl; [reflexivity|].
    split; assumption.
Qed.

(** C8. De-duplication is idempotent: applied to its own output it
    returns the same records in the same order. *)
Theorem intelligentDeduplicate_idempotent (messages : list CompactMessage) :
  intelligentDeduplicate (intelligentDeduplicate messages)
  = intelligentDeduplicate messages.
Proof.
  unfold intelligentDeduplicate.
  rewrite (refill (fold_left dedupStep messages []) []); [reflexivity|].
  simpl. apply wellKeyed_fold. split; [constructor | intros k v []].
Qed.

(** Every record that leaves de-duplication is one of the records that
    entered it, with its tools sorted. *)
Lemma dedup_fold_In (l : list CompactMessage) (seen : list (string * CompactMessage))
  (kv : string * CompactMessage) :
  In kv (fold_left dedupStep l seen) ->
  In kv seen \/ exists m, In m l /\ snd kv = sortedTools m.
Proof.
  revert seen. induction l as [|m ms IH]; intros seen H; simpl in H; [left; exact H|].
  apply IH in H as [H|[m' [Hin Heq]]].
  - unfold dedupStep in H.
    assert (Hset : In kv (mapSet (createIntelligentSignature m) (sortedTools m) seen) ->
                   In kv seen \/ exists m0, In m0 (m :: ms) /\ snd kv = sortedTools m0).
    { intros Hs. apply mapSet_In in Hs as [Hs|Hs]; [|left; exact Hs].
      right. exists m. split; [left; reflexivity | subst kv; reflexivity]. }
    destruct (mapGet (createIntelligentSignature m) seen).
    + destruct (Qlt_bool _ _); [apply Hset; exact H | left; exact H].
    + apply Hset; exact H.
  - right. exists m'. split; [right; exact Hin | exact Heq].
Qed.

Lemma intelligentDeduplicate_In (l : list CompactMessage) (m : CompactMessage) :
  In m (intelligentDeduplicate l) -> exists m0, In m0 l /\ m = sortedTools m0.
Proof.
  unfold intelligentDeduplicate. intros H.
  apply in_map_iff in H as [kv [Heq Hin]].
  apply dedup_fold_In in Hin as [[]|[m0 [Hin Hm]]].
  exists m0. split; [exact Hin | congruence].
Qed.

End DedupFacts.

(* ------------------------------------------------------------------ *)
(** ** Properties of re-ranking *)
(* ------------------------------------------------------------------ *)

Module RerankFacts.
Import JS Eff Engine HistorySearchEngine.

Lemma insertDesc_In {A} (key : A -> Q) (x y : A) (l : list A) :
  In y (insertDesc key x l) -> y = x \/ In y l.
Proof.
  induction l as [|z zs IH]; simpl.
  - intros [H|[]]. left. symmetry. exact H.
  - destruct (Qlt_bool (key x) (key z)); simpl.
    + intros [H|H]; [right; left; exact H|].
      destruct (IH H) as [H'|H']; [left; exact H' | right; right; exact H'].
    + intros [H|H]; [left; symmetry; exact H | right; exact H].
Qed.

Lemma sortDesc_In {A} (key : A -> Q) (l : list A) (y : A) :
  In y (sortDesc key l) -> In y l.
Proof.
  induction l as [|x xs IH]; simpl; [tauto|].
  intros H. apply insertDesc_In in H as [H|H]; [left; symmetry; exact H|].
  right. apply IH. exact H.
Qed.

Lemma firstn_In {A} (n : nat) (l : list A) (y : A) :
  In y (firstn n l) -> In y l.
Proof.
  revert l. induction n as [|n IH]; intros [|x xs]; simpl; try tauto.
  intros [H|H]; [left; exact H | right; apply IH; exact H].
Qed.

Lemma slice0_In {A} (l : list A) (e : Z) (y : A) :
  In y (slice0 l e) -> In y l.
Proof.
  unfold slice0. destruct (e <? 0)%Z; apply firstn_In.
Qed.

Lemma Qeq_bool_zero (q : Q) : q == 0 -> Qeq_bool q 0 = true.
Proof. intros H. apply Qeq_bool_iff. exact H. Qed.

(** The early return of the scoring callback. *)
Lemma scoreCandidate_veto (query : string) (analysis : Analysis) (recent : bool)
  (msg : CompactMessage) :
  2 <= length (queryWordsOf query) ->
  orZero (relevanceScore msg) == 0 ->
  scoreCandidate query analysis recent msg = withFinalScore msg 0.
Proof.
  intros Hwords Hzero. unfold scoreCandidate.
  apply Nat.leb_le in Hwords. rewrite Hwords, (Qeq_bool_zero _ Hzero).
  reflexivity.
Qed.

Lemma relevanceScore_scoreCandidate (query : string) (analysis : Analysis)
  (recent : bool) (msg : CompactMessage) :
  relevanceScore (scoreCandidate query analysis recent msg) = relevanceScore msg.
Proof.
  unfold scoreCandidate.
  destruct ((2 <=? length (queryWordsOf query)) && Qeq_bool _ 0); reflexivity.
Qed.

Section WithEnv.
Variable World : Type.
Variable env : Env World.

Lemma scoreOne_returns (query : string) (analysis : Analysis) (msg : CompactMessage)
  (s : State World) :
  exists recent s',
    scoreOne World env query analysis msg s
    = (Returned (scoreCandidate query analysis recent msg), s').
Proof.
  unfold scoreOne.
  destruct (urgency analysis); [|exists false, s; reflexivity].
  destruct ((2 <=? length (queryWordsOf query)) && Qeq_bool _ 0);
    [exists false, s; reflexivity|].
  unfold bind, now, total, ret.
  destruct (Date_now env (world s)) as [t w].
  eexists _, _. reflexivity.
Qed.

(** Scoring the candidates never throws, and yields one scored copy per
    candidate. *)
Lemma scoreAll_returns (query : string) (analysis : Analysis)
  (candidates : list CompactMessage) (s : State World) :
  exists scored s',
    mapM (scoreOne World env query analysis) candidates s = (Returned scored, s')
    /\ Forall
         (fun m => exists msg recent,
              In msg candidates /\ m = scoreCandidate query analysis recent msg)
         scored.
Proof.
  revert s. induction candidates as [|msg rest IH]; intros s; simpl.
  - exists [], s. split; [reflexivity | constructor].
  - unfold bind at 1.
    destruct (scoreOne_returns query analysis msg s) as [recent [s1 H1]].
    rewrite H1. unfold bind at 1.
    destruct (IH s1) as [scored [s2 [H2 Hall]]]. rewrite H2.
    eexists _, _. split; [reflexivity|].
    constructor.
    + exists msg, recent. split; [left; reflexivity | reflexivity].
    + eapply Forall_impl; [|exact Hall].
      intros m [msg' [recent' [Hin Hm]]]. exists msg', recent'.
      split; [right; exact Hin | exact Hm].
Qed.

End WithEnv.

(** C1. For a query with at least two words longer than two characters,
    a candidate whose base relevance score is exactly 0 gets final
    score 0: the scoring step returns it before any coverage, semantic
    or recency boost, for every analysis and every clock, and every such
    record in the re-ranked list still has final score 0. *)
Theorem zero_score_veto_persists
  (World : Type) (env : Env World) (candidates : list CompactMessage)
  (query : string) (analysis : Analysis) (limit : Z) (s : State World) :
  2 <= length (queryWordsOf query) ->
  (forall msg recent,
      orZero (relevanceScore msg) == 0 ->
      finalScore (scoreCandidate query analysis recent msg) = Some 0%Q)
  /\ exists results s',
       selectTopRelevantResults World env candidates query analysis limit s
       = (Returned results, s')
       /\ forall m, In m results ->
            orZero (relevanceScore m) == 0 -> finalScore m = Some 0%Q.
Proof.
  intros Hwords. split.
  - intros msg recent Hzero.
    rewrite scoreCandidate_veto by assumption. reflexivity.
  - unfold selectTopRelevantResults, bind.
    destruct (scoreAll_returns World env query analysis candidates s)
      as [scored [s1 [Hrun Hall]]].
    rewrite Hrun. eexists _, _. split; [reflexivity|].
    intros m Hin Hzero.
    apply slice0_In, DedupFacts.intelligentDeduplicate_In in Hin
      as [m0 [Hin0 Hm]].
    apply sortDesc_In in Hin0.
    rewrite Forall_forall in Hall.
    destruct (Hall m0 Hin0) as [msg [recent [_ Hscored]]].
    subst m. rewrite DedupFacts.finalScore_sortedTools.
    rewrite DedupFacts.relevanceScore_sortedTools in Hzero.
    subst m0. rewrite relevanceScore_scoreCandidate in Hzero.
    rewrite scoreCandidate_veto by assumption. reflexivity.
Qed.

End RerankFacts.

(* ------------------------------------------------------------------ *)
(** ** Properties of the search operation *)
(* ------------------------------------------------------------------ *)

Module SearchFacts.
Import JS Eff Engine HistorySearchEngine.

Section WithEnv.
Variable World : Type.
Variable env : Env World.

Lemma tryCatch_returns {S A} (m : M S A) (h : string -> M S A) (s : S) :
  (forall e s', returns (h e) s') -> returns (tryCatch m h) s.
Proof.
  intros Hh. unfold returns, tryCatch.
  destruct (m s) as [[a|e] s']; [exists a, s'; reflexivity | apply Hh].
Qed.

Lemma now_returns (s : State World) :
  now World env s
  = (Returned (fst (Date_now env (world s))),
     {| world := snd (Date_now env (world s)); messageCache := messageCache s |}).
Proof.
  unfold now, total. destruct (Date_now env (world s)); reflexivity.
Qed.

(** The handler of [searchConversations]. *)
Lemma search_handler_returns (query : string) (startTime : Z) (s : State World) :
  returns (bind (now World env) (fun t => ret (emptyResult query (t - startTime)))) s.
Proof.
  unfold returns, bind. rewrite now_returns. eexists _, _. reflexivity.
Qed.

(** [searchConversations] reads the clock and then runs the search
    proper under its handler. *)
Lemma searchConversations_unfold (query : string)
  (projectFilter timeframe : option string) (limit : Z) (s : State World) :
  searchConversations World env query projectFilter timeframe limit s
  = tryCatch
      (performOptimizedSearch World env query (analyzeQueryIntent query) limit
         (fst (Date_now env (world s))) projectFilter timeframe)
      (fun _ =>
         bind (now World env)
           (fun t => ret (emptyResult query (t - fst (Date_now env (world s))))))
      {| world := snd (Date_now env (world s)); messageCache := messageCache s |}.
Proof.
  unfold searchConversations, bind at 1. rewrite now_returns. reflexivity.
Qed.

End WithEnv.

(** The listings of utils.ts absorb every failure of the file system. *)
Lemma findProjectDirectories_returns (World : Type) (fs : FileSystem World) (w : World) :
  returns (Listing.findProjectDirectories World fs) w.
Proof.
  unfold Listing.findProjectDirectories. apply tryCatch_returns.
  intros e w'. exists [], w'. reflexivity.
Qed.

Lemma findJsonlFiles_returns (World : Type) (fs : FileSystem World)
  (projectDir : string) (w : World) :
  returns (Listing.findJsonlFiles World fs projectDir) w.
Proof.
  unfold Listing.findJsonlFiles. apply tryCatch_returns.
  intros e w'. exists [], w'. reflexivity.
Qed.

(** A search returns from every state; when the search proper throws,
    and in particular when listing the project directories throws, the
    caller receives the empty result carrying the query and the time
    elapsed since the start.  With the listing of utils.ts, which
    catches a failing [readdir] itself, the caller receives that same
    empty result.  Finding similar queries returns as well. *)
Lemma searchConversations_catches
  (World : Type) (env : Env World) (query : string)
  (projectFilter timeframe : option string) (limit : Z) (s : State World) :
  returns (searchConversations World env query projectFilter timeframe limit) s
  /\ returns (findSimilarQueries World env query limit) s
  /\ (let startTime := fst (Date_now env (world s)) in
      let s0 := {| world := snd (Date_now env (world s));
                   messageCache := messageCache s |} in
      forall error s1,
        performOptimizedSearch World env query (analyzeQueryIntent query) limit
          startTime projectFilter timeframe s0 = (Thrown error, s1) ->
        searchConversations World env query projectFilter timeframe limit s
        = (Returned
             (emptyResult query (fst (Date_now env (world s1)) - startTime)),
           {| world := snd (Date_now env (world s1));
              messageCache := messageCache s1 |}))
  /\ (let startTime := fst (Date_now env (world s)) in
      let w0 := snd (Date_now env (world s)) in
      forall timeFilter w1 error w2,
        getTimeRangeFilter env timeframe w0 = (Returned timeFilter, w1) ->
        findProjectDirectories env w1 = (Thrown error, w2) ->
        searchConversations World env query projectFilter timeframe limit s
        = (Returned (emptyResult query (fst (Date_now env w2) - startTime)),
           {| world := snd (Date_now env w2); messageCache := messageCache s |}))
  /\ (let startTime := fst (Date_now env (world s)) in
      let w0 := snd (Date_now env (world s)) in
      forall (fs : FileSystem World) timeFilter w1 error w2,
        getTimeRangeFilter env timeframe w0 = (Returned timeFilter, w1) ->
        readdir fs (projectsPath fs) w1 = (Thrown error, w2) ->
        searchConversations World (withListing fs env) query projectFilter
          timeframe limit s
        = (Returned (emptyResult query (fst (Date_now env w2) - startTime)),
           {| world := snd (Date_now env w2); messageCache := messageCache s |})).
Proof.
  assert (Hcatch :
    forall startTime s0 error s1,
      performOptimizedSearch World env query (analyzeQueryIntent query) limit
        startTime projectFilter timeframe s0 = (Thrown error, s1) ->
      tryCatch
        (performOptimizedSearch World env query (analyzeQueryIntent query) limit
           startTime projectFilter timeframe)
        (fun _ => bind (now World env)
                    (fun t => ret (emptyResult query (t - startTime)))) s0
      = (Returned (emptyResult query (fst (Date_now env (world s1)) - startTime)),
         {| world := snd (Date_now env (world s1));
            messageCache := messageCache s1 |})).
  { intros startTime s0 error s1 H. unfold tryCatch. rewrite H.
    unfold bind. rewrite now_returns. reflexivity. }
  repeat split.
  - unfold returns. rewrite searchConversations_unfold.
    apply tryCatch_returns. intros e s'. apply search_handler_returns.
  - unfold findSimilarQueries. apply tryCatch_returns.
    intros e s'. exists [], s'. reflexivity.
  - intros startTime s0 error s1 H.
    rewrite searchConversations_unfold.
    apply Hcatch with (error := error). exact H.
  - intros startTime w0 timeFilter w1 error w2 Hfilter Hdirs.
    rewrite searchConversations_unfold.
    rewrite (Hcatch _ _ error
               {| world := w2; messageCache := messageCache s |}); [reflexivity|].
    unfold performOptimizedSearch, bind, tryCatch, liftW, throw. simpl.
    fold w0. rewrite Hfilter. simpl. rewrite Hdirs. reflexivity.
  - intros startTime w0 fs timeFilter w1 error w2 Hfilter Hreaddir.
    rewrite searchConversations_unfold. unfold tryCatch at 1.
    unfold performOptimizedSearch, bind, tryCatch, liftW, throw,
      expandWorktreeProjects, ret.
    cbn [world messageCache withListing getTimeRangeFilter findProjectDirectories
         Date_now].
    fold w0. rewrite Hfilter.
    unfold Listing.findProjectDirectories, tryCatch, bind, ret.
    cbn [world messageCache]. rewrite Hreaddir.
    destruct (String.length query <? 3).
    + rewrite now_returns. reflexivity.
    + assert (Hdirs : forall e, slice0 (@nil string) e = []).
      { intros e. unfold slice0. destruct (e <? 0)%Z; apply firstn_nil. }
      replace (match projectFilter with
               | Some p =>
                   if String.eqb p EmptyString
                   then slice0 []
                          (Z.min (Z.of_nat (length (@nil string)))
                             (Z.max 8 (ceilDiv limit 2)))
                   else filter (fun dir => includes dir p) []
               | None =>
                   slice0 []
                     (Z.min (Z.of_nat (length (@nil string)))
                        (Z.max 8 (ceilDiv limit 2)))
               end) with (@nil string)
        by (destruct projectFilter as [p|];
            [destruct (String.eqb p EmptyString)|]; rewrite ?Hdirs; reflexivity).
      unfold gatherRelevantCandidates, selectTopRelevantResults, bind, ret.
      cbn [mapM aggregate ret]. unfold ret.
      cbn [sortDesc fold_right intelligentDeduplicate fold_left map filter length].
      assert (Hcut : slice0 (@nil CompactMessage) limit = []).
      { unfold slice0. destruct (limit <? 0)%Z; apply firstn_nil. }
      rewrite Hcut. cbn [filter]. rewrite now_returns. reflexivity.
Qed.

(** C6, as the code has it.  A query shorter than 3 characters (before
    any trimming) gets the empty result: no message, total count 0, the
    query echoed; never an error. *)
Theorem short_query_returns_empty
  (World : Type) (env : Env World) (query : string)
  (projectFilter timeframe : option string) (limit : Z) (s : State World) :
  String.length query < 3 ->
  exists elapsed s',
    searchConversations World env query projectFilter timeframe limit s
    = (Returned
         {| messages := []; totalResults := 0; searchQuery := query;
            executionTime := elapsed |},
       s').
Proof.
  intros Hshort. apply Nat.ltb_lt in Hshort.
  rewrite searchConversations_unfold.
  unfold tryCatch at 1.
  unfold performOptimizedSearch, bind, tryCatch, liftW, throw,
    expandWorktreeProjects, ret. simpl.
  destruct (getTimeRangeFilter env timeframe _) as [[timeFilter|e] w1]; simpl.
  - destruct (findProjectDirectories env w1) as [[dirs|e] w2]; simpl.
    + rewrite Hshort. rewrite now_returns. simpl. eexists _, _. reflexivity.
    + rewrite now_returns. eexists _, _. reflexivity.
  - rewrite now_returns. eexists _, _. reflexivity.
Qed.

End SearchFacts.

(* ------------------------------------------------------------------ *)
(** ** Properties of the find-similar operation *)
(* ------------------------------------------------------------------ *)

Module SimilarFacts.
Import JS Eff Engine HistorySearchEngine SimilarSpec.

Lemma Qlt_bool_true (x y : Q) : Qlt_bool x y = true -> (x < y)%Q.
Proof.
  unfold Qlt_bool. intros H. apply negb_true_iff in H.
  apply Qnot_le_lt. intros Hle. apply Qle_bool_iff in Hle. congruence.
Qed.

Lemma Qlt_bool_false (x y : Q) : Qlt_bool x y = false -> (y <= x)%Q.
Proof.
  unfold Qlt_bool. intros H. apply negb_false_iff in H.
  apply Qle_bool_iff. exact H.
Qed.

Lemma insertDesc_HdRel {A} (key : A -> Q) (y x : A) (l : list A) :
  byKey key y x -> HdRel (byKey key) y l -> HdRel (byKey key) y (insertDesc key x l).
Proof.
  intros Hyx Hhd. destruct l as [|z zs]; simpl.
  - constructor. exact Hyx.
  - inversion Hhd; subst. destruct (Qlt_bool (key x) (key z)); constructor; assumption.
Qed.

Lemma insertDesc_Sorted {A} (key : A -> Q) (x : A) (l : list A) :
  Sorted (byKey key) l -> Sorted (byKey key) (insertDesc key x l).
Proof.
  induction 1 as [|y ys Hs IH Hhd]; simpl.
  - repeat constructor.
  - destruct (Qlt_bool (key x) (key y)) eqn:E.
    + constructor; [exact IH|].
      apply insertDesc_HdRel; [|exact Hhd].
      apply Qlt_bool_true in E. unfold byKey. apply Qlt_le_weak. exact E.
    + constructor; [constructor; assumption|].
      constructor. apply Qlt_bool_false in E. exact E.
Qed.

Lemma sortDesc_Sorted {A} (key : A -> Q) (l : list A) :
  Sorted (byKey key) (sortDesc key l).
Proof.
  induction l as [|x xs IH]; simpl; [constructor|].
  apply insertDesc_Sorted. exact IH.
Qed.

Lemma sortDesc_StronglySorted {A} (key : A -> Q) (l : list A) :
  StronglySorted (byKey key) (sortDesc key l).
Proof.
  apply Sorted_StronglySorted; [|apply sortDesc_Sorted].
  intros a b c Hab Hbc. unfold byKey in *. eapply Qle_trans; eassumption.
Qed.

Lemma firstn_StronglySorted {A} (R : A -> A -> Prop) (n : nat) (l : list A) :
  StronglySorted R l -> StronglySorted R (firstn n l).
Proof.
  intros H. revert n. induction H as [|x xs Hs IH Hall]; intros [|n]; simpl;
    try constructor.
  - apply IH.
  - rewrite Forall_forall in *. intros y Hy. apply Hall.
    eapply RerankFacts.firstn_In. exact Hy.
Qed.

Lemma slice0_StronglySorted {A} (R : A -> A -> Prop) (l : list A) (e : Z) :
  StronglySorted R l -> StronglySorted R (slice0 l e).
Proof.
  intros H. unfold slice0. destruct (e <? 0)%Z; apply firstn_StronglySorted, H.
Qed.

Lemma StronglySorted_on {A} (P : A -> Prop) (R R' : A -> A -> Prop) (l : list A) :
  (forall a b, P a -> P b -> R a b -> R' a b) ->
  Forall P l -> StronglySorted R l -> StronglySorted R' l.
Proof.
  intros Himp Hall Hs. induction Hs as [|x xs Hs IH Hrel]; [constructor|].
  inversion Hall as [|? ? Hx Hxs]; subst.
  constructor; [apply IH; exact Hxs|].
  rewrite Forall_forall in *. intros y Hy.
  apply Himp; [exact Hx | apply Hxs; exact Hy | apply Hrel; exact Hy].
Qed.

Lemma slice0_length {A} (l : list A) (e : Z) :
  (0 <= e)%Z -> (Z.of_nat (length (slice0 l e)) <= e)%Z.
Proof.
  intros H. unfold slice0.
  destruct (e <? 0)%Z eqn:E; [apply Z.ltb_lt in E; lia|].
  pose proof (firstn_le_length (Z.to_nat e) l). lia.
Qed.

Lemma collect_Forall {A B} (P : B -> Prop) (f : A -> option B) (l : list A) :
  (forall x y, In x l -> f x = Some y -> P y) -> Forall P (Parser.collect f l).
Proof.
  induction l as [|x xs IH]; intros H; simpl; [constructor|].
  assert (Hrest : Forall P (Parser.collect f xs)).
  { apply IH. intros x' y Hin. apply H. right. exact Hin. }
  destruct (f x) as [y|] eqn:E; [|exact Hrest].
  constructor; [|exact Hrest].
  apply (H x y); [left; reflexivity | exact E].
Qed.

Lemma attachAnswer_same (messages : list CompactMessage) (query : CompactMessage) :
  type (attachAnswer messages query) = type query
  /\ content (attachAnswer messages query) = content query
  /\ relevanceScore (attachAnswer messages query) = relevanceScore query.
Proof.
  unfold attachAnswer.
  destruct (afterUuid (uuid query) messages) as [following|]; [|auto].
  destruct (find _ (firstn 4 following)); auto.
Qed.

Lemma MessageType_eqb_eq (a b : MessageType) : MessageType_eqb a b = true -> a = b.
Proof. destruct a, b; simpl; congruence. Qed.

Lemma similarInFile_hits (targetQuery : string) (messages : list CompactMessage) :
  Forall (similarHit targetQuery) (similarInFile targetQuery messages).
Proof.
  unfold similarInFile. apply collect_Forall.
  intros query m Hin Hm.
  apply filter_In in Hin as [_ Huser].
  destruct (Qlt_bool (Binary64.rnd (4 # 10)) _) eqn:E; [|discriminate].
  injection Hm as Hm. subst m.
  destruct (attachAnswer_same messages
              (setSimilarity query
                 (SearchHelpers.calculateQuerySimilarity targetQuery (content query))))
    as [Ht [Hc Hr]].
  unfold isUserQuery in Huser.
  repeat (apply andb_prop in Huser as [Huser ?]).
  unfold similarHit. rewrite Ht, Hc, Hr. simpl.
  repeat split.
  - apply MessageType_eqb_eq. assumption.
  - apply Nat.ltb_lt. assumption.
  - apply Nat.ltb_lt. assumption.
  - apply Qlt_bool_true. exact E.
Qed.

(** The binary64 number 0.4 lies above four tenths. *)
Lemma similarHit_above (targetQuery : string) (m : CompactMessage) :
  similarHit targetQuery m ->
  (4 # 10 < SearchHelpers.calculateQuerySimilarity targetQuery (content m))%Q.
Proof.
  intros [_ [_ [H _]]]. eapply Qlt_trans; [|exact H]. vm_compute. reflexivity.
Qed.

Section WithEnv.
Variable World : Type.
Variable env : Env World.

Lemma similarFiles_hits (targetQuery : string) (limit : Z) (projectDir : string)
  (files : list string) (allMessages : list CompactMessage) (s : State World) :
  Forall (similarHit targetQuery) allMessages ->
  keeps (similarHit targetQuery)
    (similarFiles World env targetQuery limit projectDir files allMessages s).
Proof.
  revert allMessages s. induction files as [|file rest IH]; intros allMessages s Hall.
  - exact Hall.
  - simpl. unfold bind, total.
    destruct (readJsonl env projectDir file (world s)) as [lines w].
    assert (Hnext : Forall (similarHit targetQuery)
                      (allMessages
                       ++ similarInFile targetQuery
                            (Parser.parseLines (parserDeps env) projectDir None None lines))).
    { apply Forall_app. split; [exact Hall | apply similarInFile_hits]. }
    destruct (geZ _ _); [exact Hnext | apply IH; exact Hnext].
Qed.

Lemma similarDirs_hits (targetQuery : string) (limit : Z)
  (dirs : list string) (allMessages : list CompactMessage) (s : State World) :
  Forall (similarHit targetQuery) allMessages ->
  keeps (similarHit targetQuery)
    (similarDirs World env targetQuery limit dirs allMessages s).
Proof.
  revert allMessages s. induction dirs as [|projectDir rest IH]; intros allMessages s Hall.
  - exact Hall.
  - simpl. unfold bind at 1, liftW.
    destruct (findJsonlFiles env projectDir (world s)) as [[jsonlFiles|e] w];
      [|exact I].
    unfold bind.
    pose proof (similarFiles_hits targetQuery limit projectDir (firstn 5 jsonlFiles)
                  allMessages {| world := w; messageCache := messageCache s |} Hall)
      as Hfiles.
    destruct (similarFiles _ _ _ _ _ _ _ _) as [[found|e] s1]; [|exact I].
    unfold keeps in Hfiles. simpl in Hfiles.
    destruct (geZ _ _); [exact Hfiles | apply IH; exact Hfiles].
Qed.

End WithEnv.

(** C10. Finding similar queries always returns a list.  Every record
    in it is a user record whose content is longer than 15 and shorter
    than 800 characters, whose similarity to the target query exceeds
    the binary64 number 0.4 (which lies above four tenths) and is
    stored as its relevance score; the list is in non-increasing order
    of that similarity; and it holds at most as many records as the
    limit, a count, asks for. *)
Theorem findSimilarQueries_result
  (World : Type) (env : Env World) (targetQuery : string) (limit : Z)
  (s : State World) :
  exists results s',
    findSimilarQueries World env targetQuery limit s = (Returned results, s')
    /\ Forall (similarHit targetQuery) results
    /\ StronglySorted (bySimilarity targetQuery) results
    /\ ((0 <= limit)%Z -> (Z.of_nat (length results) <= limit)%Z).
Proof.
  unfold findSimilarQueries, tryCatch, bind, liftW, expandWorktreeProjects, ret.
  destruct (findProjectDirectories env (world s)) as [[projectDirs|e] w].
  2:{ eexists _, _. split; [reflexivity|].
      repeat split; [constructor | constructor | simpl; lia]. }
  pose proof (similarDirs_hits World env targetQuery limit (firstn 8 projectDirs) []
                {| world := w; messageCache := messageCache s |} (Forall_nil _))
    as Hhits.
  destruct (similarDirs _ _ _ _ _ _ _) as [[allMessages|e] s1].
  2:{ eexists _, _. split; [reflexivity|].
      repeat split; [constructor | constructor | simpl; lia]. }
  unfold keeps in Hhits. simpl in Hhits.
  eexists _, _. split; [reflexivity|].
  set (kept := filter (fun msg => negb (isLowValueContent (content msg))) allMessages).
  assert (Hkept : Forall (similarHit targetQuery)
                    (slice0 (sortDesc (fun m => orZero (relevanceScore m)) kept) limit)).
  { rewrite Forall_forall in *. intros m Hin. apply Hhits.
    apply RerankFacts.slice0_In, RerankFacts.sortDesc_In in Hin.
    apply filter_In in Hin as [Hin _]. exact Hin. }
  split; [exact Hkept|]. split; [|apply slice0_length].
  apply (StronglySorted_on (similarHit targetQuery)
           (byKey (fun m => orZero (relevanceScore m)))); [|exact Hkept|].
  - intros a b [_ [_ [_ Ha]]] [_ [_ [_ Hb]]]. unfold byKey, bySimilarity.
    rewrite Ha, Hb. simpl. tauto.
  - apply slice0_StronglySorted, sortDesc_StronglySorted.
Qed.

End SimilarFacts.

(* ------------------------------------------------------------------ *)
(** ** Properties of the similarity engine *)
(* ------------------------------------------------------------------ *)

Module SimilarityFacts.
Import JS SearchHelpers Binary64 Binary64Facts.

Lemma inject_nat_nonneg (n : nat) : (0 <= inject_Z (Z.of_nat n))%Q.
Proof. change 0%Q with (inject_Z 0). rewrite <- Zle_Qle. lia. Qed.

Lemma inject_nat_pos (n : nat) : 0 < n -> (0 < inject_Z (Z.of_nat n))%Q.
Proof. intros H. change 0%Q with (inject_Z 0). rewrite <- Zlt_Qlt. lia. Qed.

Lemma Qplus_nonneg (x y : Q) : (0 <= x)%Q -> (0 <= y)%Q -> (0 <= x + y)%Q.
Proof. apply Binary64Facts.sum_nonneg. Qed.

Lemma ratio_nonneg (a b : nat) : (0 <= ratio a b)%Q.
Proof.
  unfold ratio, Qdiv. apply Qmult_le_0_compat; [apply inject_nat_nonneg|].
  apply Qinv_le_0_compat, inject_nat_nonneg.
Qed.

Lemma ratio_le_1 (a b : nat) : a <= b -> 0 < b -> (ratio a b <= 1)%Q.
Proof.
  intros Hab Hb. unfold ratio.
  apply Qle_shift_div_r; [apply inject_nat_pos; exact Hb|].
  rewrite Qmult_1_l, <- Zle_Qle. lia.
Qed.

Lemma ratio_self (n : nat) : 0 < n -> (ratio n n == 1)%Q.
Proof.
  intros Hn. unfold ratio, Qdiv. apply Qmult_inv_r.
  intros H. apply inject_nat_pos in Hn. rewrite H in Hn.
  exact (Qlt_irrefl 0 Hn).
Qed.

Lemma quotient_nonneg (a b : nat) : (0 <= quotient a b)%Q.
Proof. apply div_nonneg; apply ofNat_nonneg. Qed.

Lemma quotient_le_1 (a b : nat) : a <= b -> 0 < b -> (quotient a b <= 1)%Q.
Proof.
  intros Hab Hb. unfold quotient, div.
  pose proof (ofNat_pos b Hb) as Hpos.
  assert (Hb0 : (0 < ofNat b)%Q) by (eapply Qlt_le_trans; [|exact Hpos]; reflexivity).
  apply rnd_le_1.
  - apply Qmult_le_0_compat; [apply ofNat_nonneg|].
    apply Qinv_le_0_compat, ofNat_nonneg.
  - apply Qle_shift_div_r; [exact Hb0|]. rewrite Qmult_1_l. apply ofNat_mono, Hab.
Qed.

Lemma quotient_self (n : nat) : 0 < n -> quotient n n = 1%Q.
Proof.
  intros Hn. unfold quotient, div. rewrite <- rnd_1. apply rnd_comp.
  unfold Qdiv. apply Qmult_inv_r. intros H.
  pose proof (ofNat_pos n Hn) as Hpos. rewrite H in Hpos. apply Hpos. reflexivity.
Qed.

(** The constants of the similarity, as binary64 numbers. *)
Lemma constants_range :
  (0 <= rnd (3 # 10))%Q
  /\ (0 <= rnd (6 # 10) <= 1)%Q
  /\ (0 <= rnd (7 # 10) <= 1)%Q
  /\ (0 <= rnd (8 # 10) <= 1)%Q
  /\ (1 <= rnd (12 # 10))%Q.
Proof. vm_compute. repeat split; discriminate. Qed.

Lemma pairScore_bounds (word1 word2 : string) (s1 s2 : bool) :
  (0 <= fst (pairScore word1 word2 s1 s2) <= 1)%Q.
Proof.
  destruct constants_range as [_ [H6 [H7 [H8 _]]]].
  unfold pairScore.
  destruct (String.eqb word1 word2); [simpl; split; discriminate|].
  destruct (includes word1 word2 || includes word2 word1).
  - destruct ((5 <=? _) && Qle_bool _ _) eqn:E; [|simpl; split; discriminate].
    apply andb_prop in E as [Hlen _]. apply Nat.leb_le in Hlen.
    set (shorter := Nat.min _ _) in *. set (longer := Nat.max _ _) in *.
    assert (Hle : shorter <= longer) by (subst shorter longer; lia).
    cbn [fst]. split.
    + apply mul_nonneg; [apply H8 | apply quotient_nonneg].
    + apply mul_le_1; [exact H8|].
      split; [apply quotient_nonneg | apply quotient_le_1; lia].
  - destruct (isWordSimilar word1 word2); [exact H6|].
    destruct (synonymHit word1 word2); [exact H7 | simpl; split; discriminate].
Qed.

Lemma Qlt_bool_ge (x y : Q) : (y <= x)%Q -> Qlt_bool x y = false.
Proof.
  intros H. unfold Qlt_bool. apply negb_false_iff, Qle_bool_iff. exact H.
Qed.

Section Scan.
Variables (word1 : string) (isSignificant1 : bool).
Variables (significant2 : list string) (matched : list nat).

Lemma scan_nonneg (words2 : list string) (j : nat) (st : Best) :
  (0 <= bestMatch st)%Q ->
  (0 <= bestMatch (scan word1 isSignificant1 significant2 matched j words2 st))%Q.
Proof.
  revert j st. induction words2 as [|word2 rest IH]; intros j st H; simpl; [exact H|].
  destruct (existsb (Nat.eqb j) matched); [apply IH; exact H|].
  destruct (pairScore word1 word2 isSignificant1 _) as [matchScore counted] eqn:E.
  apply IH.
  destruct (Qlt_bool (bestMatch st) matchScore) eqn:Hlt; simpl; [|exact H].
  pose proof (pairScore_bounds word1 word2 isSignificant1
                (inList word2 significant2)) as [Hb _].
  rewrite E in Hb. exact Hb.
Qed.

Lemma scan_counts_up (words2 : list string) (j : nat) (st : Best) :
  significantMatches st
  <= significantMatches (scan word1 isSignificant1 significant2 matched j words2 st).
Proof.
  revert j st. induction words2 as [|word2 rest IH]; intros j st; simpl; [lia|].
  destruct (existsb (Nat.eqb j) matched); [apply IH|].
  destruct (pairScore word1 word2 isSignificant1 _) as [matchScore counted].
  eapply Nat.le_trans; [|apply IH].
  destruct (Qlt_bool (bestMatch st) matchScore), counted; simpl; lia.
Qed.

(** Once a pair has scored 1 no later pair replaces it. *)
Lemma scan_settled (words2 : list string) (j : nat) (st : Best) :
  (1 <= bestMatch st)%Q ->
  bestMatch (scan word1 isSignificant1 significant2 matched j words2 st)
  = bestMatch st
  /\ bestIndex (scan word1 isSignificant1 significant2 matched j words2 st)
     = bestIndex st.
Proof.
  revert j st. induction words2 as [|word2 rest IH]; intros j st H; simpl; [auto|].
  destruct (existsb (Nat.eqb j) matched); [apply IH; exact H|].
  destruct (pairScore word1 word2 isSignificant1 _) as [matchScore counted] eqn:E.
  pose proof (pairScore_bounds word1 word2 isSignificant1
                (inList word2 significant2)) as [_ Hb].
  rewrite E in Hb. simpl in Hb.
  rewrite (Qlt_bool_ge (bestMatch st) matchScore) by (eapply Qle_trans; eassumption).
  match goal with
  | |- context [scan word1 isSignificant1 significant2 matched _ _ ?st'] =>
      destruct (IH (S j) st') as [H1 H2]; [exact H|]
  end.
  rewrite H1, H2. auto.
Qed.

(** Words whose indices are all taken are passed over. *)
Lemma scan_taken (words2 : list string) (j : nat) (st : Best) :
  (forall k, j <= k < j + length words2 -> existsb (Nat.eqb k) matched = true) ->
  scan word1 isSignificant1 significant2 matched j words2 st = st.
Proof.
  revert j. induction words2 as [|word2 rest IH]; intros j H; simpl; [reflexivity|].
  rewrite (H j) by (simpl; lia).
  apply IH. intros k Hk. apply H. simpl. lia.
Qed.

Lemma scan_app (l1 l2 : list string) (j : nat) (st : Best) :
  scan word1 isSignificant1 significant2 matched j (l1 ++ l2) st
  = scan word1 isSignificant1 significant2 matched (j + length l1) l2
      (scan word1 isSignificant1 significant2 matched j l1 st).
Proof.
  revert j st. induction l1 as [|word2 rest IH]; intros j st; simpl.
  - rewrite Nat.add_0_r. reflexivity.
  - replace (j + S (length rest)) with (S j + length rest) by lia.
    destruct (existsb (Nat.eqb j) matched); [apply IH|].
    destruct (pairScore word1 word2 isSignificant1 _) as [matchScore counted].
    apply IH.
Qed.

End Scan.

(** Scanning a list for one of its own words, when exactly the indices
    before that word are taken: the word itself is chosen, with score 1,
    and it is counted when it is significant. *)
Lemma scan_self (pre suf : list string) (word : string) (isSig : bool)
  (significant2 : list string) (matched : list nat) (count : nat) :
  (forall j, existsb (Nat.eqb j) matched = (j <? length pre)) ->
  let r := scan word isSig significant2 matched 0 (pre ++ word :: suf)
             {| bestMatch := 0; bestIndex := None; significantMatches := count |} in
  bestMatch r = 1%Q /\ bestIndex r = Some (length pre)
  /\ count + (if isSig && inList word significant2 then 1 else 0)
     <= significantMatches r.
Proof.
  intros Hmatched r. subst r.
  rewrite scan_app, (scan_taken word isSig significant2 matched pre 0).
  2:{ intros k Hk. rewrite Hmatched. apply Nat.ltb_lt. lia. }
  cbn [scan Nat.add].
  rewrite Hmatched, Nat.ltb_irrefl.
  unfold pairScore. rewrite String.eqb_refl.
  cbn [bestMatch bestIndex significantMatches].
  change (Qlt_bool 0%Q 1%Q) with true. cbv iota.
  match goal with |- context [scan _ _ _ _ ?j suf ?st] =>
    destruct (scan_settled word isSig significant2 matched suf j st) as [H1 H2];
    [cbn; discriminate|];
    pose proof (scan_counts_up word isSig significant2 matched suf j st) as H3
  end.
  rewrite H1, H2. cbn [bestMatch bestIndex significantMatches] in *.
  repeat split. destruct (isSig && inList word significant2); lia.
Qed.

Lemma stepWord_nonneg (significant1 significant2 words2 : list string)
  (i : nat) (word1 : string) (t : Tally) :
  (0 <= totalScore t)%Q ->
  (0 <= totalScore (stepWord significant1 significant2 words2 i word1 t))%Q.
Proof.
  intros H. unfold stepWord.
  match goal with |- context [bestIndex ?r] =>
    assert (Hr : (0 <= bestMatch r)%Q) by (apply scan_nonneg; simpl; discriminate);
    destruct (bestIndex r) end; cbn [totalScore]; [|exact H].
  apply add_nonneg; assumption.
Qed.

Lemma matchLoop_nonneg (significant1 significant2 words2 words1 : list string)
  (i : nat) (t : Tally) :
  (0 <= totalScore t)%Q ->
  (0 <= totalScore (matchLoop significant1 significant2 words2 i words1 t))%Q.
Proof.
  revert i t. induction words1 as [|word1 rest IH]; intros i t H; simpl; [exact H|].
  apply IH, stepWord_nonneg, H.
Qed.

Lemma inList_In (x : string) (l : list string) : inList x l = true <-> In x l.
Proof.
  unfold inList. rewrite existsb_exists. split.
  - intros [y [Hin Heq]]. apply String.eqb_eq in Heq. subst. exact Hin.
  - intros H. exists x. split; [exact H | apply String.eqb_refl].
Qed.

Lemma inList_filter (p : string -> bool) (x : string) (l : list string) :
  In x l -> inList x (filter p l) = p x.
Proof.
  intros Hin. destruct (p x) eqn:E.
  - apply inList_In, filter_In. auto.
  - destruct (inList x (filter p l)) eqn:F; [|reflexivity].
    apply inList_In, filter_In in F as [_ F]. congruence.
Qed.

(** The greedy loop on a list of words against itself: every word is
    matched with score 1, and every significant word is counted. *)
Lemma matchLoop_self (words : list string) (suf pre : list string) (t : Tally) :
  (Z.of_nat (length words) <= 2 ^ 53)%Z ->
  words = pre ++ suf ->
  (forall j, existsb (Nat.eqb j) (matched2 t) = (j <? length pre)) ->
  (totalScore t == inject_Z (Z.of_nat (length pre)))%Q ->
  length (significantOf pre) <= sigMatches t ->
  let t' := matchLoop (significantOf words) (significantOf words) words
              (length pre) suf t in
  (totalScore t' == inject_Z (Z.of_nat (length words)))%Q
  /\ length (significantOf words) <= sigMatches t'.
Proof.
  intros Hsize.
  revert pre t. induction suf as [|word rest IH]; intros pre t Hwords Hm Htotal Hsig.
  - rewrite app_nil_r in Hwords. subst pre. simpl. auto.
  - cbn [matchLoop].
    pose proof (scan_self pre rest word (inList word (significantOf words))
                  (significantOf words) (matched2 t) (sigMatches t) Hm) as Hscan.
    rewrite <- Hwords in Hscan. cbv zeta in Hscan.
    destruct Hscan as [Hbest [Hidx Hcount]].
    assert (Hin : In word words) by (subst words; apply in_or_app; right; left; reflexivity).
    replace (S (length pre)) with (length (pre ++ [word]))
      by (rewrite length_app; simpl; lia).
    apply IH.
    + rewrite <- app_assoc. exact Hwords.
    + intros j. unfold stepWord. rewrite Hidx. cbn [matched2 existsb].
      rewrite Hm, length_app. simpl length.
      destruct (Nat.eqb_spec j (length pre)), (Nat.ltb_spec j (length pre)),
        (Nat.ltb_spec j (length pre + 1)); simpl; try reflexivity; lia.
    + unfold stepWord. rewrite Hidx. cbn [totalScore].
      rewrite Hbest. unfold add.
      assert (Hsum : (totalScore t + 1 == inject_Z (Z.of_nat (length (pre ++ [word]))))%Q).
      { rewrite Htotal, length_app. simpl length.
        rewrite Nat2Z.inj_add, inject_Z_plus. reflexivity. }
      rewrite (rnd_comp _ _ Hsum). apply rnd_Z.
      assert (length (pre ++ [word]) <= length words).
      { rewrite Hwords, !length_app. simpl. lia. }
      lia.
    + unfold stepWord. rewrite Hidx. cbn [sigMatches].
      eapply Nat.le_trans; [|exact Hcount].
      rewrite andb_diag.
      assert (Hp : inList word (significantOf words)
                   = (4 <=? String.length word) && negb (inList word stopWords)).
      { unfold significantOf.
        exact (inList_filter
                 (fun w => (4 <=? String.length w) && negb (inList w stopWords))
                 word words Hin). }
      assert (Happ : significantOf (pre ++ [word])
                     = significantOf pre ++ significantOf [word])
        by apply filter_app.
      rewrite Hp, Happ, length_app. unfold significantOf at 2. cbn [filter].
      destruct ((4 <=? String.length word) && negb (inList word stopWords));
        cbn [length]; lia.
Qed.

Lemma greedy_self (words : list string) :
  (Z.of_nat (length words) <= 2 ^ 53)%Z ->
  (totalScore (greedy words words) == inject_Z (Z.of_nat (length words)))%Q
  /\ length (significantOf words) <= sigMatches (greedy words words).
Proof.
  intros Hsize. unfold greedy.
  apply (matchLoop_self words words []); [exact Hsize | reflexivity ..].
Qed.

Lemma stemBonus_nonneg (words1 words2 : list string) : (0 <= stemBonus words1 words2)%Q.
Proof.
  unfold stemBonus. apply mul_nonneg; [apply quotient_nonneg | apply constants_range].
Qed.

Lemma similarity_range (query1 query2 : string) :
  (0 <= calculateQuerySimilarity query1 query2 <= 1)%Q.
Proof.
  unfold calculateQuerySimilarity.
  destruct ((length (tokenize query1) =? 0) || (length (tokenize query2) =? 0));
    [split; discriminate|].
  destruct ((sigMatches _ <? 2) && _ && _); [split; discriminate|].
  split; [|apply Q.le_min_r].
  apply Q.min_glb; [|discriminate].
  apply add_nonneg; [|apply stemBonus_nonneg].
  apply mul_nonneg; [apply mul_nonneg|].
  - apply div_nonneg; [|apply ofNat_nonneg].
    apply matchLoop_nonneg. simpl. discriminate.
  - apply quotient_nonneg.
  - destruct (isTechnical _ _); [|discriminate].
    eapply Qle_trans; [|apply constants_range]. discriminate.
Qed.

(** The words of a query are no more than its characters. *)
Fixpoint totalLength (l : list string) : nat :=
  match l with
  | [] => 0
  | w :: ws => String.length w + totalLength ws
  end.

Lemma split_totalLength (delim : ascii -> bool) (s : string) :
  totalLength (split delim s) <= String.length s.
Proof.
  induction s as [|c s' IH]; simpl; [lia|].
  destruct (delim c).
  - destruct (startsWithP delim s'); simpl; lia.
  - destruct (split delim s') as [|w ws]; simpl in *; lia.
Qed.

Lemma filter_totalLength (l : list string) :
  length (filter (fun w => 2 <? String.length w) l) <= totalLength l.
Proof.
  induction l as [|w ws IH]; simpl; [lia|].
  destruct (Nat.ltb_spec 2 (String.length w)); simpl; lia.
Qed.

Lemma mapString_length (f : ascii -> ascii) (s : string) :
  String.length (mapString f s) = String.length s.
Proof. induction s as [|c s' IH]; simpl; [reflexivity | rewrite IH; reflexivity]. Qed.

Lemma tokenize_length (query : string) :
  length (tokenize query) <= String.length query.
Proof.
  unfold tokenize, splitSpaces.
  eapply Nat.le_trans; [apply filter_totalLength|].
  eapply Nat.le_trans; [apply split_totalLength|].
  unfold toLowerCase. rewrite mapString_length. lia.
Qed.

(** A query with at least one word of three characters or more is as
    similar to itself as can be. *)
Lemma similarity_self (query : string) :
  (Z.of_nat (String.length query) < 2 ^ 53)%Z ->
  tokenize query <> [] -> (calculateQuerySimilarity query query == 1)%Q.
Proof.
  intros Hsize Hwords. unfold calculateQuerySimilarity.
  pose proof (tokenize_length query) as Hcount.
  set (words := tokenize query) in *.
  assert (Hlen : 0 < length words) by (destruct words; [congruence | simpl; lia]).
  assert (Hfit : (Z.of_nat (length words) <= 2 ^ 53)%Z) by lia.
  destruct (greedy_self words Hfit) as [Htotal Hsig].
  replace (length words =? 0) with false by (symmetry; apply Nat.eqb_neq; lia).
  cbn [orb].
  replace ((sigMatches (greedy words words) <? 2)
           && (2 <=? length (significantOf words))
           && (2 <=? length (significantOf words))) with false.
  2:{ symmetry. destruct (Nat.leb_spec 2 (length (significantOf words))) as [H|H].
      - replace (sigMatches (greedy words words) <? 2) with false; [reflexivity|].
        symmetry. apply Nat.ltb_ge. lia.
      - rewrite andb_false_r. reflexivity. }
  apply Q.min_r.
  rewrite Nat.min_id, Nat.max_id, quotient_self by exact Hlen.
  assert (Hdiv : div (totalScore (greedy words words)) (ofNat (length words)) = 1%Q).
  { unfold div. rewrite <- rnd_1. apply rnd_comp.
    rewrite Htotal, (ofNat_exact _ Hfit).
    unfold Qdiv. apply Qmult_inv_r. intros H.
    apply (inject_nat_pos _) in Hlen. rewrite H in Hlen. exact (Qlt_irrefl 0 Hlen). }
  rewrite Hdiv. change (mul 1 1) with 1%Q.
  apply rnd_ge_1.
  rewrite <- (Qplus_0_r 1) at 1.
  apply Qplus_le_compat; [|apply stemBonus_nonneg].
  apply rnd_ge_1. rewrite Qmult_1_l.
  destruct (isTechnical words words); [apply constants_range | discriminate].
Qed.

(** C5. The similarity of two queries lies between 0 and 1, and no
    second argument makes a query more similar than the query itself.
    The second part is for a query of fewer than 2^53 characters, which
    is every string of JavaScript: up to there the count of the matched
    words is exact. *)
Theorem similarity_bounds (a b : string) :
  (0 <= calculateQuerySimilarity a b <= 1)%Q
  /\ ((Z.of_nat (String.length a) < 2 ^ 53)%Z ->
      (calculateQuerySimilarity a b <= calculateQuerySimilarity a a)%Q).
Proof.
  split; [apply similarity_range|]. intros Hsize.
  destruct (tokenize a) as [|w ws] eqn:E.
  - unfold calculateQuerySimilarity. rewrite E. simpl. discriminate.
  - rewrite (similarity_self a Hsize) by (rewrite E; discriminate).
    apply similarity_range.
Qed.

End SimilarityFacts.

(* ------------------------------------------------------------------ *)
(** ** The properties at concrete inputs *)
(* ------------------------------------------------------------------ *)

Module Instances.
Import JS Eff Engine HistorySearchEngine Scenarios SimilarSpec.

(** C4, at concrete inputs.  "write unit tests" against "test sidekick"
    gives 0.  "unit tests" against "tests tests" has two significant
    words on each side and a single greedy match, yet the counter that
    is compared with 2 has reached 2, because it is advanced for every
    pair the scan looks at, and the similarity is 0.65 instead of 0.  The same
    happens without a repeated word: "docker container" against
    "containers containerd" has one greedy match and similarity 0.51. *)
Theorem similarity_counts_scanned_pairs :
  SearchHelpers.calculateQuerySimilarity "write unit tests" "test sidekick" = 0%Q
  /\ length (SearchHelpers.significantOf (SearchHelpers.tokenize "unit tests")) = 2
  /\ length (SearchHelpers.significantOf (SearchHelpers.tokenize "tests tests")) = 2
  /\ SearchHelpers.chosen
       (SearchHelpers.greedy (SearchHelpers.tokenize "unit tests")
          (SearchHelpers.tokenize "tests tests")) = [(1, 0)]
  /\ SearchHelpers.significantGreedyMatches "unit tests" "tests tests" = 1
  /\ SearchHelpers.sigMatches
       (SearchHelpers.greedy (SearchHelpers.tokenize "unit tests")
          (SearchHelpers.tokenize "tests tests")) = 2
  /\ (SearchHelpers.calculateQuerySimilarity "unit tests" "tests tests"
      == Binary64.rnd (13 # 20))%Q
  /\ SearchHelpers.significantGreedyMatches "docker container" "containers containerd"
     = 1
  /\ (SearchHelpers.calculateQuerySimilarity "docker container" "containers containerd"
      == Binary64.rnd (51 # 100))%Q.
Proof.
  repeat split; vm_compute; reflexivity.
Qed.

Lemma zero_score_veto_persists_witness :
  2 <= length (queryWordsOf "docker auth error")
  /\ ((forall msg recent,
          orZero (relevanceScore msg) == 0 ->
          finalScore (scoreCandidate "docker auth error" urgentAnalysis recent msg)
          = Some 0%Q)
      /\ exists results s',
           selectTopRelevantResults Z (oneFileEnv []) [unmatchedCandidate]
             "docker auth error" urgentAnalysis 15 freshState
           = (Returned results, s')
           /\ forall m, In m results ->
                orZero (relevanceScore m) == 0 -> finalScore m = Some 0%Q).
Proof.
  split; [vm_compute; lia|].
  apply RerankFacts.zero_score_veto_persists. vm_compute; lia.
Defined.

Lemma strict_core_veto_witness :
  Utils.strictCoreTermsOf (Utils.words_gt2 (toLowerCase "react hooks optimization"))
  <> []
  /\ (forall term,
         In term (Utils.strictCoreTermsOf
                    (Utils.words_gt2 (toLowerCase "react hooks optimization"))) ->
         Utils.matchesTechTerm "ReAct agent pattern implementation" term = false)
  /\ Utils.calculateRelevanceScore reactMessage "react hooks optimization" None = 0%Z.
Proof.
  assert (H1 : Utils.strictCoreTermsOf
                 (Utils.words_gt2 (toLowerCase "react hooks optimization")) <> [])
    by (vm_compute; discriminate).
  assert (H2 : forall term,
             In term (Utils.strictCoreTermsOf
                        (Utils.words_gt2 (toLowerCase "react hooks optimization"))) ->
             Utils.matchesTechTerm "ReAct agent pattern implementation" term = false).
  { intros term Hin. vm_compute in Hin. destruct Hin as [<-|[]]. reflexivity. }
  split; [exact H1|]. split; [exact H2|].
  exact (ScorerFacts.strict_core_veto reactMessage "react hooks optimization" None H1 H2).
Defined.

Lemma smartContentPreservation_below_budget_witness :
  (Parser.strlen replyText < 3000)%Z
  /\ Parser.smartContentPreservation plainDeps replyText 3000 = replyText.
Proof.
  split; [vm_compute; reflexivity|].
  apply TruncationFacts.smartContentPreservation_below_budget.
  vm_compute; reflexivity.
Defined.

(** C6 as stated fails: the query " a " has trimmed length 1, and on a
    corpus of one assistant reply that contains it the search returns
    that reply. *)
Lemma padded_short_query_counterexample :
  String.length (trim " a ") < 3
  /\ fst (searchConversations Z (oneFileEnv replyCorpus) " a " None None 15 freshState)
     = Returned {| messages := [replyMessage]; totalResults := 1;
                   searchQuery := " a "; executionTime := 1 |}.
Proof.
  split; [vm_compute; lia | vm_compute; reflexivity].
Qed.

Lemma short_query_returns_empty_witness :
  String.length "ab" < 3
  /\ exists elapsed s',
       searchConversations Z (oneFileEnv replyCorpus) "ab" None None 15 freshState
       = (Returned
            {| messages := []; totalResults := 0; searchQuery := "ab";
               executionTime := elapsed |},
          s').
Proof.
  split; [vm_compute; lia|].
  apply SearchFacts.short_query_returns_empty. vm_compute; lia.
Defined.

Lemma similarity_bounds_witness :
  (Z.of_nat (String.length "docker compose networking") < 2 ^ 53)%Z
  /\ (SearchHelpers.calculateQuerySimilarity "docker compose networking"
        "compose network"
      <= SearchHelpers.calculateQuerySimilarity "docker compose networking"
           "docker compose networking")%Q.
Proof.
  split; [vm_compute; reflexivity|].
  apply (proj2 (SimilarityFacts.similarity_bounds "docker compose networking"
                  "compose network")).
  vm_compute. reflexivity.
Defined.

Lemma findSimilarQueries_result_witness :
  (0 <= 1)%Z
  /\ exists results s',
       findSimilarQueries Z (oneFileEnv askedCorpus) "docker compose networking"
         1 freshState = (Returned results, s')
       /\ Forall (similarHit "docker compose networking") results
       /\ StronglySorted (bySimilarity "docker compose networking") results
       /\ (Z.of_nat (length results) <= 1)%Z.
Proof.
  split; [lia|].
  destruct (SimilarFacts.findSimilarQueries_result Z (oneFileEnv askedCorpus)
              "docker compose networking" 1 freshState)
    as [results [s' [Hrun [Hhits [Hsorted Hlen]]]]].
  exists results, s'.
  split; [exact Hrun|]. split; [exact Hhits|]. split; [exact Hsorted|].
  apply Hlen. lia.
Defined.

End Instances.

(* ------------------------------------------------------------------ *)
(** ** Further properties: project path encoding *)
(* ------------------------------------------------------------------ *)

Module PathFacts.
Import JS Paths.

Lemma mapString_compose (f g : ascii -> ascii) (s : string) :
  mapString f (mapString g s) = mapString (fun c => f (g c)) s.
Proof.
  induction s as [|c rest IH]; simpl; [reflexivity|]. rewrite IH. reflexivity.
Qed.

Lemma mapString_ext (f g : ascii -> ascii) (s : string) :
  (forall c, f c = g c) -> mapString f s = mapString g s.
Proof.
  intros H. induction s as [|c rest IH]; simpl; [reflexivity|].
  rewrite H, IH. reflexivity.
Qed.

Lemma mapString_fixed (f : ascii -> ascii) (p : ascii -> bool) (s : string) :
  (forall c, f c = c <-> p c = true) ->
  mapString f s = s <-> forallString p s = true.
Proof.
  intros H. induction s as [|c rest IH]; simpl; [tauto|].
  rewrite andb_true_iff, <- IH, <- H. split.
  - intros E. injection E as E1 E2. auto.
  - intros [E1 E2]. rewrite E1, E2. reflexivity.
Qed.

(** X1. Decoding an encoded path turns every hyphen of the original
    into a slash as well: decoding after encoding is the same as
    decoding alone, and encoding after decoding the same as encoding
    alone.  So a path survives the round trip exactly when it holds no
    hyphen, and a directory name exactly when it holds no slash. *)
Theorem project_path_round_trip (p : string) :
  decodeProjectPath (encodeProjectPath p) = decodeProjectPath p
  /\ encodeProjectPath (decodeProjectPath p) = encodeProjectPath p
  /\ (decodeProjectPath (encodeProjectPath p) = p
      <-> forallString (fun c => negb (code c =? 45)) p = true)
  /\ (encodeProjectPath (decodeProjectPath p) = p
      <-> forallString (fun c => negb (code c =? 47)) p = true).
Proof.
  unfold decodeProjectPath, Parser.decodeProjectPath, encodeProjectPath.
  assert (H1 : mapString (fun c => if code c =? 45 then ascii_of_nat 47 else c)
                 (mapString (fun c => if code c =? 47 then ascii_of_nat 45 else c) p)
               = mapString (fun c => if code c =? 45 then ascii_of_nat 47 else c) p).
  { rewrite mapString_compose. apply mapString_ext.
    intros c. destruct c as [[] [] [] [] [] [] [] []]; reflexivity. }
  assert (H2 : mapString (fun c => if code c =? 47 then ascii_of_nat 45 else c)
                 (mapString (fun c => if code c =? 45 then ascii_of_nat 47 else c) p)
               = mapString (fun c => if code c =? 47 then ascii_of_nat 45 else c) p).
  { rewrite mapString_compose. apply mapString_ext.
    intros c. destruct c as [[] [] [] [] [] [] [] []]; reflexivity. }
  split; [exact H1|]. split; [exact H2|]. split.
  - rewrite H1. apply mapString_fixed.
    intros c. destruct c as [[] [] [] [] [] [] [] []]; vm_compute;
      split; congruence.
  - rewrite H2. apply mapString_fixed.
    intros c. destruct c as [[] [] [] [] [] [] [] []]; vm_compute;
      split; congruence.
Qed.

End PathFacts.

(* ------------------------------------------------------------------ *)
(** ** Further properties: term matcher and relevance scorer *)
(* ------------------------------------------------------------------ *)

Module ScorerMoreFacts.
Import JS Utils Casing.

Lemma lowerChar_keeps_class (c : ascii) :
  isCleanChar (lowerChar c) = isCleanChar c.
Proof.
  destruct c as [[] [] [] [] [] [] [] []]; reflexivity.
Qed.

Lemma toLowerCase_keeps_class (s : string) :
  forallString isCleanChar (toLowerCase s) = forallString isCleanChar s.
Proof.
  unfold toLowerCase. induction s as [|c rest IH]; simpl; [reflexivity|].
  rewrite lowerChar_keeps_class, IH. reflexivity.
Qed.

Lemma existsb_none {A} (p : A -> bool) (l : list A) :
  (forall x, In x l -> p x = false) -> existsb p l = false.
Proof.
  induction l as [|x xs IH]; intros H; simpl; [reflexivity|].
  rewrite (H x (or_introl eq_refl)). apply IH.
  intros y Hy. apply H. right. exact Hy.
Qed.

(** X2. The term matcher only ever compares the term with words made of
    letters, digits, underscores and hyphens.  A term that holds any
    other character (a dot, a plus, a space), or the empty term, matches
    no content at all. *)
Theorem matchesTechTerm_unmatchable (content term : string) :
  term = EmptyString \/ forallString isCleanChar term = false ->
  matchesTechTerm content term = false.
Proof.
  intros Hterm. unfold matchesTechTerm. apply existsb_none.
  intros word _. destruct (wordHits (toLowerCase term) word) eqn:E; [|reflexivity].
  apply TermMatcherFacts.wordHits_spec in E as [Hne [Heq _]].
  destruct Hterm as [-> | Hbad].
  - simpl in Heq. destruct (cleanWord word); [congruence | discriminate].
  - pose proof (TermMatcherFacts.cleanWord_clean word) as Hclean.
    rewrite <- toLowerCase_keeps_class, Heq, toLowerCase_keeps_class in Hclean.
    congruence.
Qed.

Lemma filter_length_le {A} (p : A -> bool) (l : list A) :
  length (filter p l) <= length l.
Proof.
  induction l as [|x xs IH]; simpl; [lia|]. destruct (p x); simpl; lia.
Qed.

(** Three tests of which no element passes two select at most as many
    elements as there are. *)
Lemma three_filters {A} (f g h : A -> bool) (l : list A) :
  (forall x, In x l ->
     (f x = true -> g x = false /\ h x = false) /\ (g x = true -> h x = false)) ->
  length (filter f l) + length (filter g l) + length (filter h l) <= length l.
Proof.
  induction l as [|x xs IH]; intros H; simpl; [lia|].
  assert (IH' : length (filter f xs) + length (filter g xs) + length (filter h xs)
                <= length xs).
  { apply IH. intros y Hy. apply H. right. exact Hy. }
  destruct (H x (or_introl eq_refl)) as [Hf Hg].
  destruct (f x) eqn:Ef.
  - destruct (Hf eq_refl) as [-> ->]. simpl. lia.
  - destruct (g x) eqn:Eg.
    + rewrite (Hg eq_refl). simpl. lia.
    + destruct (h x); simpl; lia.
Qed.

Lemma bonus_range (b : bool) (points : Z) :
  (0 <= points)%Z -> (0 <= bonus b points <= points)%Z.
Proof. intros H. destruct b; simpl; lia. Qed.

Lemma calculateRelevanceScore_nonneg
  (message : ClaudeMessage) (query : string) (projectPath : option string) :
  (0 <= calculateRelevanceScore message query projectPath)%Z.
Proof.
  unfold calculateRelevanceScore.
  destruct ((0 <? length _) && _); [lia|].
  assert (Hb : forall b n, (0 <= n)%Z -> (0 <= bonus b n)%Z)
    by (intros [] n; simpl; lia).
  repeat apply Z.add_nonneg_nonneg; try (apply Hb; lia); lia.
Qed.

(** X3. The relevance score is never negative and never more than ten
    points per query word (of more than two characters) plus the 22
    points of the five flat bonuses. *)
Theorem calculateRelevanceScore_bounds
  (message : ClaudeMessage) (query : string) (projectPath : option string) :
  (0 <= calculateRelevanceScore message query projectPath
   <= 10 * Z.of_nat (length (words_gt2 (toLowerCase query))) + 22)%Z.
Proof.
  unfold calculateRelevanceScore.
  set (content := extractContentFromMessage (cm_message message)).
  set (queryWords := words_gt2 (toLowerCase query)).
  set (strict := strictCoreTermsOf queryWords).
  set (supporting := supportingTermsOf queryWords).
  destruct ((0 <? length strict) && _); [lia|].
  set (residual := fun word : string =>
         negb (inList word strict) && negb (inList word supporting)
         && matchesTechTerm content word).
  pose proof (filter_length_le (matchesTechTerm content) strict) as Ha.
  pose proof (filter_length_le (matchesTechTerm content) supporting) as Hb.
  assert (Hsum : length strict + length supporting + length (filter residual queryWords)
                 <= length queryWords).
  { unfold strict, supporting, strictCoreTermsOf, supportingTermsOf.
    apply three_filters. intros w Hin. split.
    - intros Hcore. split.
      + rewrite Hcore. reflexivity.
      + unfold residual, strict, strictCoreTermsOf.
        rewrite (SimilarityFacts.inList_filter coreTechPatterns_test w queryWords Hin).
        rewrite Hcore. reflexivity.
    - intros Hsup. unfold residual, supporting, supportingTermsOf.
      rewrite (SimilarityFacts.inList_filter
                 (fun w => negb (coreTechPatterns_test w)
                           && negb (inList w genericTerms)
                           && (5 <=? String.length w)) w queryWords Hin).
      rewrite Hsup. rewrite andb_false_r. reflexivity. }
  fold residual.
  repeat match goal with
         | |- context [bonus ?b ?p] =>
             let H := fresh "Hbonus" in
             assert (H : (0 <= bonus b p <= p)%Z) by (apply bonus_range; lia);
             generalize dependent (bonus b p); intros
         end.
  lia.
Qed.

End ScorerMoreFacts.

(* ------------------------------------------------------------------ *)
(** ** Further properties: de-duplication and re-ranking *)
(* ------------------------------------------------------------------ *)

Module DedupMoreFacts.
Import JS Eff Engine HistorySearchEngine DedupInv SimilarSpec.

Section MapMore.
Context {V : Type}.

Lemma mapGet_Some_In (key : string) (v : V) (m : list (string * V)) :
  mapGet key m = Some v -> In (key, v) m.
Proof.
  induction m as [|[k old] rest IH]; simpl; [discriminate|].
  destruct (String.eqb k key) eqn:E.
  - apply String.eqb_eq in E. intros H. injection H as ->. left. congruence.
  - intros H. right. apply IH. exact H.
Qed.

Lemma In_mapGet (key : string) (v : V) (m : list (string * V)) :
  NoDup (map fst m) -> In (key, v) m -> mapGet key m = Some v.
Proof.
  induction m as [|[k old] rest IH]; simpl; [tauto|].
  intros Hnd [Heq|Hin].
  - injection Heq as -> ->. rewrite String.eqb_refl. reflexivity.
  - inversion Hnd as [|? ? Hnotin Hrest]; subst.
    destruct (String.eqb k key) eqn:E; [|apply IH; assumption].
    apply String.eqb_eq in E. subst k. exfalso. apply Hnotin.
    apply (in_map fst) in Hin. exact Hin.
Qed.

Lemma mapSet_In_new (key : string) (v : V) (m : list (string * V)) :
  In (key, v) (mapSet key v m).
Proof.
  induction m as [|[k old] rest IH]; simpl; [left; reflexivity|].
  destruct (String.eqb k key) eqn:E.
  - apply String.eqb_eq in E. subst. left. reflexivity.
  - right. exact IH.
Qed.

Lemma mapSet_In_other (key : string) (v : V) (m : list (string * V))
  (k' : string) (v' : V) :
  k' <> key -> In (k', v') m -> In (k', v') (mapSet key v m).
Proof.
  intros Hne. induction m as [|[k old] rest IH]; simpl; [tauto|].
  intros [Heq|Hin].
  - injection Heq as -> ->.
    destruct (String.eqb k' key) eqn:E; [apply String.eqb_eq in E; congruence|].
    left. reflexivity.
  - destruct (String.eqb k key); right; [exact Hin | apply IH; exact Hin].
Qed.

Lemma mapSet_length (key : string) (v : V) (m : list (string * V)) :
  length (mapSet key v m) <= S (length m).
Proof.
  induction m as [|[k old] rest IH]; simpl; [lia|].
  destruct (String.eqb k key); simpl; lia.
Qed.

End MapMore.

Lemma finalScore_le_refl (m : CompactMessage) :
  (orZero (finalScore m) <= orZero (finalScore (sortedTools m)))%Q.
Proof. rewrite DedupFacts.finalScore_sortedTools. apply Qle_refl. Qed.

Lemma wellKeyed_signatures (seen : list (string * CompactMessage)) :
  wellKeyed seen -> map createIntelligentSignature (map snd seen) = map fst seen.
Proof.
  intros [_ Hall]. induction seen as [|[k v] rest IH]; simpl; [reflexivity|].
  destruct (Hall k v (or_introl eq_refl)) as [-> _]. f_equal.
  apply IH. intros k' v' Hin. apply Hall. right. exact Hin.
Qed.

Lemma dedupStep_covers_new (seen : list (string * CompactMessage)) (m : CompactMessage) :
  exists kept,
    In (createIntelligentSignature m, kept) (dedupStep seen m)
    /\ (orZero (finalScore m) <= orZero (finalScore kept))%Q.
Proof.
  unfold dedupStep.
  destruct (mapGet (createIntelligentSignature m) seen) as [existing|] eqn:E.
  - destruct (Qlt_bool _ _) eqn:L.
    + exists (sortedTools m). split; [apply mapSet_In_new | apply finalScore_le_refl].
    + exists existing. split; [apply mapGet_Some_In; exact E|].
      apply SimilarFacts.Qlt_bool_false in L.
      rewrite DedupFacts.finalScore_sortedTools in L. exact L.
  - exists (sortedTools m). split; [apply mapSet_In_new | apply finalScore_le_refl].
Qed.

Lemma dedupStep_covers_old (seen : list (string * CompactMessage))
  (m : CompactMessage) (k : string) (v : CompactMessage) :
  wellKeyed seen -> In (k, v) seen ->
  exists kept,
    In (k, kept) (dedupStep seen m)
    /\ (orZero (finalScore v) <= orZero (finalScore kept))%Q.
Proof.
  intros [Hnd _] Hin. unfold dedupStep.
  assert (Hset :
    (k = createIntelligentSignature m ->
     (orZero (finalScore v) <= orZero (finalScore (sortedTools m)))%Q) ->
    exists kept,
      In (k, kept) (mapSet (createIntelligentSignature m) (sortedTools m) seen)
      /\ (orZero (finalScore v) <= orZero (finalScore kept))%Q).
  { intros Hle.
    destruct (String.eqb k (createIntelligentSignature m)) eqn:E.
    - apply String.eqb_eq in E.
      exists (sortedTools m). split; [rewrite E; apply mapSet_In_new|].
      apply Hle. exact E.
    - apply String.eqb_neq in E. exists v.
      split; [apply mapSet_In_other; assumption | apply Qle_refl]. }
  destruct (mapGet (createIntelligentSignature m) seen) as [existing|] eqn:E.
  - destruct (Qlt_bool _ _) eqn:L.
    + apply Hset. intros Hk. subst k.
      rewrite (In_mapGet _ _ _ Hnd Hin) in E. injection E as ->.
      apply SimilarFacts.Qlt_bool_true in L. apply Qlt_le_weak. exact L.
    + exists v. split; [exact Hin | apply Qle_refl].
  - apply Hset. intros Hk. subst k.
    rewrite (In_mapGet _ _ _ Hnd Hin) in E. discriminate.
Qed.

Lemma dedup_fold_covers_old (l : list CompactMessage)
  (seen : list (string * CompactMessage)) (k : string) (v : CompactMessage) :
  wellKeyed seen -> In (k, v) seen ->
  exists kept,
    In (k, kept) (fold_left dedupStep l seen)
    /\ (orZero (finalScore v) <= orZero (finalScore kept))%Q.
Proof.
  revert seen v. induction l as [|m ms IH]; intros seen v Hwk Hin; simpl.
  - exists v. split; [exact Hin | apply Qle_refl].
  - destruct (dedupStep_covers_old seen m k v Hwk Hin) as [kept [Hk Hle]].
    destruct (IH (dedupStep seen m) kept
                (DedupFacts.wellKeyed_dedupStep seen m Hwk) Hk)
      as [kept' [Hk' Hle']].
    exists kept'. split; [exact Hk' | eapply Qle_trans; eassumption].
Qed.

Lemma dedup_fold_covers (l : list CompactMessage)
  (seen : list (string * CompactMessage)) (m : CompactMessage) :
  wellKeyed seen -> In m l ->
  exists kept,
    In (createIntelligentSignature m, kept) (fold_left dedupStep l seen)
    /\ (orZero (finalScore m) <= orZero (finalScore kept))%Q.
Proof.
  revert seen. induction l as [|x xs IH]; intros seen Hwk Hin; [destruct Hin|].
  simpl. destruct Hin as [->|Hin].
  - destruct (dedupStep_covers_new seen m) as [kept [Hk Hle]].
    destruct (dedup_fold_covers_old xs (dedupStep seen m) _ kept
                (DedupFacts.wellKeyed_dedupStep seen m Hwk) Hk)
      as [kept' [Hk' Hle']].
    exists kept'. split; [exact Hk' | eapply Qle_trans; eassumption].
  - apply IH; [apply DedupFacts.wellKeyed_dedupStep; exact Hwk | exact Hin].
Qed.

Lemma wellKeyed_nil : wellKeyed [].
Proof. split; [constructor | intros k v []]. Qed.

Lemma dedup_fold_length (l : list CompactMessage)
  (seen : list (string * CompactMessage)) :
  length (fold_left dedupStep l seen) <= length seen + length l.
Proof.
  revert seen. induction l as [|m ms IH]; intros seen; simpl; [lia|].
  eapply Nat.le_trans; [apply IH|].
  assert (length (dedupStep seen m) <= S (length seen)); [|lia].
  unfold dedupStep.
  pose proof (mapSet_length (createIntelligentSignature m) (sortedTools m) seen).
  destruct (mapGet _ seen); [destruct (Qlt_bool _ _)|]; lia.
Qed.

Lemma intelligentDeduplicate_length (l : list CompactMessage) :
  length (intelligentDeduplicate l) <= length l.
Proof.
  unfold intelligentDeduplicate. rewrite length_map.
  apply (dedup_fold_length l []).
Qed.

Lemma intelligentDeduplicate_NoDup (l : list CompactMessage) :
  NoDup (map createIntelligentSignature (intelligentDeduplicate l)).
Proof.
  unfold intelligentDeduplicate.
  pose proof (DedupFacts.wellKeyed_fold l [] wellKeyed_nil) as Hwk.
  rewrite (wellKeyed_signatures _ Hwk). exact (proj1 Hwk).
Qed.

(** X4. De-duplication leaves no two records with the same signature;
    every record that went in is represented by a record of the same
    signature whose final score is at least as high; and every record
    that comes out is one that went in (with its tools sorted). *)
Theorem intelligentDeduplicate_keeps_best (messages : list CompactMessage) :
  NoDup (map createIntelligentSignature (intelligentDeduplicate messages))
  /\ length (intelligentDeduplicate messages) <= length messages
  /\ (forall m, In m messages ->
        exists kept,
          In kept (intelligentDeduplicate messages)
          /\ createIntelligentSignature kept = createIntelligentSignature m
          /\ (orZero (finalScore m) <= orZero (finalScore kept))%Q)
  /\ (forall kept, In kept (intelligentDeduplicate messages) ->
        exists m, In m messages /\ kept = sortedTools m).
Proof.
  split; [apply intelligentDeduplicate_NoDup|].
  split; [apply intelligentDeduplicate_length|].
  split; [|apply DedupFacts.intelligentDeduplicate_In].
  intros m Hin.
  destruct (dedup_fold_covers messages [] m wellKeyed_nil Hin) as [kept [Hk Hle]].
  exists kept. split; [|split; [|exact Hle]].
  - unfold intelligentDeduplicate. apply in_map_iff.
    exists (createIntelligentSignature m, kept). auto.
  - pose proof (DedupFacts.wellKeyed_fold messages [] wellKeyed_nil) as [_ Hall].
    apply (Hall _ _ Hk).
Qed.

End DedupMoreFacts.

Module RerankMoreFacts.
Import JS Eff Engine HistorySearchEngine DedupInv SimilarSpec.

Lemma fold_zero {A} (f : Q -> A -> Q) (l : list A) (acc : Q) :
  (forall q a, q == 0 -> f q a == 0) -> acc == 0 -> fold_left f l acc == 0.
Proof.
  intros Hf. revert acc. induction l as [|a rest IH]; intros acc Hacc; simpl;
    [exact Hacc|].
  apply IH, Hf, Hacc.
Qed.

Lemma fold_nonneg {A} (f : Q -> A -> Q) (l : list A) (acc : Q) :
  (forall q a, In a l -> 0 <= q -> 0 <= f q a)%Q -> (0 <= acc)%Q ->
  (0 <= fold_left f l acc)%Q.
Proof.
  revert acc. induction l as [|a rest IH]; intros acc Hf Hacc; simpl; [exact Hacc|].
  apply IH.
  - intros q b Hb. apply Hf. right. exact Hb.
  - apply Hf; [left; reflexivity | exact Hacc].
Qed.

Lemma coverageBoost_zero (score : Q) (contentLower : string) (queryTerms : list string) :
  score == 0 -> coverageBoost score contentLower queryTerms == 0.
Proof.
  intros H. unfold coverageBoost.
  set (matchCount := length (filter (includes contentLower) queryTerms)).
  set (coverageRatio := if 0 <? length queryTerms then _ else 1%Q).
  destruct (Qle_bool (1 # 2) coverageRatio).
  - apply fold_zero; [|exact H].
    intros q term Hq. destruct (includes contentLower term); [|exact Hq].
    rewrite Hq. reflexivity.
  - destruct (0 <? matchCount); rewrite H; apply Qmult_0_l.
Qed.

Lemma coverageBoost_nonneg (score : Q) (contentLower : string) (queryTerms : list string) :
  (0 <= score)%Q -> (0 <= coverageBoost score contentLower queryTerms)%Q.
Proof.
  intros H. unfold coverageBoost.
  set (matchCount := length (filter (includes contentLower) queryTerms)).
  set (coverageRatio := if 0 <? length queryTerms then _ else 1%Q).
  assert (Hratio : (0 <= coverageRatio)%Q).
  { subst coverageRatio. destruct (0 <? length queryTerms);
      [apply SimilarityFacts.ratio_nonneg | discriminate]. }
  destruct (Qle_bool (1 # 2) coverageRatio).
  - apply fold_nonneg; [|exact H].
    intros q term _ Hq. destruct (includes contentLower term); [|exact Hq].
    apply Qmult_le_0_compat; [exact Hq | discriminate].
  - destruct (0 <? matchCount).
    + apply Qmult_le_0_compat; [exact H|].
      apply Qmult_le_0_compat; [|exact Hratio].
      apply SimilarityFacts.Qplus_nonneg; [discriminate|].
      apply Qmult_le_0_compat;
        [apply SimilarityFacts.inject_nat_nonneg | discriminate].
    + apply Qmult_le_0_compat; [exact H | discriminate].
Qed.

(** X5. Re-scoring never turns a zero into something else, whatever the
    query: a candidate whose base score is 0 ends with final score 0
    also for a one-word query.  And a base score that is not negative
    gives a final score that is not negative, provided no multiplier of
    the analysis is negative. *)
Theorem scoreCandidate_sign
  (query : string) (analysis : Analysis) (recent : bool) (msg : CompactMessage) :
  (orZero (relevanceScore msg) == 0 ->
   orZero (finalScore (scoreCandidate query analysis recent msg)) == 0)
  /\ ((0 <= orZero (relevanceScore msg))%Q ->
      Forall (fun entry : string * Q => (0 <= snd entry)%Q) (semanticBoosts analysis) ->
      (0 <= orZero (finalScore (scoreCandidate query analysis recent msg)))%Q).
Proof.
  unfold scoreCandidate. split.
  - intros Hzero.
    destruct ((2 <=? _) && Qeq_bool _ 0); [reflexivity|].
    cbn [withFinalScore finalScore orZero].
    assert (Hboosted :
      applySemanticBoosts msg (semanticBoosts analysis)
        (coverageBoost (orZero (relevanceScore msg)) (toLowerCase (content msg))
           (Utils.words_gt2 (toLowerCase query))) == 0).
    { unfold applySemanticBoosts. apply fold_zero.
      - intros q entry Hq. destruct (messageMatchesSemanticType msg (fst entry));
          [|exact Hq]. rewrite Hq. apply Qmult_0_l.
      - apply coverageBoost_zero. exact Hzero. }
    destruct (urgency analysis); [destruct recent|]; try exact Hboosted.
    rewrite Hboosted. reflexivity.
  - intros Hbase Hboosts.
    destruct ((2 <=? _) && Qeq_bool _ 0); [discriminate|].
    cbn [withFinalScore finalScore orZero].
    assert (Hboosted :
      (0 <= applySemanticBoosts msg (semanticBoosts analysis)
              (coverageBoost (orZero (relevanceScore msg)) (toLowerCase (content msg))
                 (Utils.words_gt2 (toLowerCase query))))%Q).
    { unfold applySemanticBoosts. apply fold_nonneg.
      - intros q entry Hin Hq.
        destruct (messageMatchesSemanticType msg (fst entry)); [|exact Hq].
        apply Qmult_le_0_compat; [exact Hq|].
        rewrite Forall_forall in Hboosts. apply Hboosts. exact Hin.
      - apply coverageBoost_nonneg. exact Hbase. }
    destruct (urgency analysis); [destruct recent|]; try exact Hboosted.
    apply Qmult_le_0_compat; [exact Hboosted | discriminate].
Qed.

Lemma boosts_raise (msg : CompactMessage) (boosts : list (string * Q)) (score : Q) :
  Forall (fun entry : string * Q => (1 <= snd entry)%Q) boosts ->
  (0 <= score)%Q ->
  (score <= applySemanticBoosts msg boosts score)%Q.
Proof.
  unfold applySemanticBoosts. revert score.
  induction boosts as [|entry rest IH]; intros score Hall Hscore; simpl;
    [apply Qle_refl|].
  inversion Hall as [|? ? Hentry Hrest]; subst.
  destruct (messageMatchesSemanticType msg (fst entry)); [|apply IH; assumption].
  assert (Hup : (score <= score * snd entry)%Q).
  { rewrite <- (Qmult_1_r score) at 1.
    rewrite (Qmult_comm score 1), (Qmult_comm score (snd entry)).
    apply Qmult_le_compat_r; assumption. }
  eapply Qle_trans; [exact Hup|].
  apply IH; [exact Hrest | eapply Qle_trans; eassumption].
Qed.

(** X6. The analysis of a query carries at most six semantic
    multipliers, each between 2 and 3, so for the analyses the engine
    builds the semantic step never lowers a score that is not negative. *)
Theorem semantic_boosts_only_raise (query : string) (msg : CompactMessage) (score : Q) :
  length (semanticBoosts (analyzeQueryIntent query)) <= 6
  /\ Forall (fun entry : string * Q => (2 <= snd entry <= 3)%Q)
       (semanticBoosts (analyzeQueryIntent query))
  /\ ((0 <= score)%Q ->
      (score <= applySemanticBoosts msg (semanticBoosts (analyzeQueryIntent query))
                  score)%Q).
Proof.
  assert (Hrange : Forall (fun entry : string * Q => (2 <= snd entry <= 3)%Q)
                     (semanticBoosts (analyzeQueryIntent query))
                   /\ length (semanticBoosts (analyzeQueryIntent query)) <= 6).
  { unfold analyzeQueryIntent, getSemanticBoosts. cbn [semanticBoosts].
    destruct (includes _ "error"), (includes _ "implement"),
      (includes _ "optimize"), (includes _ "fix"), (includes _ "file"),
      (includes _ "tool");
      (split; [repeat constructor; discriminate | simpl; lia]). }
  destruct Hrange as [Hrange Hlen].
  split; [exact Hlen|]. split; [exact Hrange|].
  apply boosts_raise. eapply Forall_impl; [|exact Hrange].
  intros entry [H _]. eapply Qle_trans; [|exact H]. discriminate.
Qed.

Lemma StronglySorted_snoc {A} (R : A -> A -> Prop) (l : list A) (x : A) :
  StronglySorted R l -> Forall (fun v => R v x) l -> StronglySorted R (l ++ [x]).
Proof.
  induction 1 as [|y ys Hs IH Hall]; intros Hx; simpl.
  - repeat constructor.
  - inversion Hx as [|? ? Hyx Hrest]; subst.
    constructor; [apply IH; exact Hrest|].
    apply Forall_app. split; [exact Hall | repeat constructor; exact Hyx].
Qed.

(** On a list already in non-increasing order of final score the map of
    [intelligentDeduplicate] only grows at its end. *)
Lemma dedup_fold_sorted (l : list CompactMessage) (seen : list (string * CompactMessage)) :
  StronglySorted (byKey (fun m => orZero (finalScore m))) l ->
  StronglySorted (byKey (fun m => orZero (finalScore m))) (map snd seen) ->
  (forall v m, In v (map snd seen) -> In m l ->
     byKey (fun m => orZero (finalScore m)) v m) ->
  StronglySorted (byKey (fun m => orZero (finalScore m)))
    (map snd (fold_left dedupStep l seen)).
Proof.
  revert seen. induction l as [|m rest IH]; intros seen Hl Hseen Hdom; simpl;
    [exact Hseen|].
  inversion Hl as [|? ? Hrest Hm]; subst.
  rewrite Forall_forall in Hm.
  assert (Hgrow :
    mapGet (createIntelligentSignature m) seen = None ->
    StronglySorted (byKey (fun m => orZero (finalScore m)))
      (map snd (fold_left dedupStep rest
                  (mapSet (createIntelligentSignature m) (sortedTools m) seen)))).
  { intros Hnone. rewrite (DedupFacts.mapSet_absent _ _ _ Hnone).
    apply IH; [exact Hrest | |].
    - rewrite map_app. simpl. apply StronglySorted_snoc; [exact Hseen|].
      rewrite Forall_forall. intros v Hv. unfold byKey.
      rewrite DedupFacts.finalScore_sortedTools.
      apply (Hdom v m Hv). left. reflexivity.
    - intros v m' Hv Hm'. rewrite map_app in Hv. apply in_app_or in Hv as [Hv|Hv].
      + apply Hdom; [exact Hv | right; exact Hm'].
      + destruct Hv as [<-|[]]. unfold byKey. simpl.
        rewrite DedupFacts.finalScore_sortedTools. apply Hm. exact Hm'. }
  unfold dedupStep at 2.
  destruct (mapGet (createIntelligentSignature m) seen) as [existing|] eqn:E;
    [|apply Hgrow; reflexivity].
  assert (Hle : byKey (fun m => orZero (finalScore m)) existing m).
  { apply Hdom; [|left; reflexivity].
    apply in_map_iff. exists (createIntelligentSignature m, existing).
    split; [reflexivity | apply DedupMoreFacts.mapGet_Some_In; exact E]. }
  unfold byKey in Hle. rewrite <- (DedupFacts.finalScore_sortedTools m) in Hle.
  rewrite (SimilarityFacts.Qlt_bool_ge _ _ Hle).
  apply IH; [exact Hrest | exact Hseen|].
  intros v m' Hv Hm'. apply Hdom; [exact Hv | right; exact Hm'].
Qed.

Lemma NoDup_firstn {A} (n : nat) (l : list A) : NoDup l -> NoDup (firstn n l).
Proof.
  intros H. revert n. induction H as [|x xs Hnotin Hnd IH]; intros [|n]; simpl;
    try constructor.
  - intros Hin. apply Hnotin. eapply RerankFacts.firstn_In. exact Hin.
  - apply IH.
Qed.

Lemma slice0_map {A B} (f : A -> B) (l : list A) (e : Z) :
  map f (slice0 l e) = slice0 (map f l) e.
Proof.
  unfold slice0. rewrite length_map.
  destruct (e <? 0)%Z; symmetry; apply firstn_map.
Qed.

Lemma slice0_NoDup {A} (l : list A) (e : Z) : NoDup l -> NoDup (slice0 l e).
Proof.
  intros H. unfold slice0. destruct (e <? 0)%Z; apply NoDup_firstn, H.
Qed.

Lemma mapM_length {S A B} (f : A -> M S B) (l : list A) (s s' : S) (r : list B) :
  mapM f l s = (Returned r, s') -> length r = length l.
Proof.
  revert s s' r. induction l as [|x xs IH]; intros s s' r; simpl.
  - unfold ret. intros H. injection H as <- _. reflexivity.
  - unfold bind at 1. destruct (f x s) as [[y|e] s1]; [|discriminate].
    unfold bind at 1. destruct (mapM f xs s1) as [[ys|e] s2] eqn:E; [|discriminate].
    unfold ret. intros H. injection H as <- _. simpl. f_equal.
    eapply IH. exact E.
Qed.

Lemma insertDesc_length {A} (key : A -> Q) (x : A) (l : list A) :
  length (insertDesc key x l) = S (length l).
Proof.
  induction l as [|y ys IH]; simpl; [reflexivity|].
  destruct (Qlt_bool (key x) (key y)); simpl; [rewrite IH|]; reflexivity.
Qed.

Lemma sortDesc_length {A} (key : A -> Q) (l : list A) :
  length (sortDesc key l) = length l.
Proof.
  induction l as [|x xs IH]; simpl; [reflexivity|].
  rewrite insertDesc_length, IH. reflexivity.
Qed.

Lemma slice0_length_le {A} (l : list A) (e : Z) : length (slice0 l e) <= length l.
Proof.
  unfold slice0. destruct (e <? 0)%Z; rewrite length_firstn; lia.
Qed.

(** The pure tail of re-ranking: sort, de-duplicate, cut. *)
Lemma rerank_pure (scored : list CompactMessage) (limit : Z) :
  let results :=
    slice0 (intelligentDeduplicate (sortDesc (fun m => orZero (finalScore m)) scored))
      limit in
  StronglySorted (byKey (fun m => orZero (finalScore m))) results
  /\ NoDup (map createIntelligentSignature results)
  /\ length results <= length scored
  /\ ((0 <= limit)%Z -> (Z.of_nat (length results) <= limit)%Z)
  /\ (forall m, In m results -> exists m0, In m0 scored /\ m = sortedTools m0).
Proof.
  cbv zeta. split; [|split; [|split; [|split]]].
  - apply SimilarFacts.slice0_StronglySorted.
    unfold intelligentDeduplicate. apply dedup_fold_sorted.
    + apply SimilarFacts.sortDesc_StronglySorted.
    + constructor.
    + intros v m [].
  - rewrite slice0_map. apply slice0_NoDup, DedupMoreFacts.intelligentDeduplicate_NoDup.
  - eapply Nat.le_trans; [apply slice0_length_le|].
    eapply Nat.le_trans; [apply DedupMoreFacts.intelligentDeduplicate_length|].
    rewrite sortDesc_length. lia.
  - apply SimilarFacts.slice0_length.
  - intros m Hin.
    apply RerankFacts.slice0_In, DedupFacts.intelligentDeduplicate_In in Hin
      as [m0 [Hin0 Hm]].
    exists m0. split; [apply RerankFacts.sortDesc_In in Hin0; exact Hin0 | exact Hm].
Qed.

(** Re-ranking never throws: it scores every candidate and hands the
    scored copies to the pure tail. *)
Lemma selectTop_returns (World : Type) (env : Env World)
  (candidates : list CompactMessage) (query : string) (analysis : Analysis)
  (limit : Z) (s : State World) :
  exists scored s',
    selectTopRelevantResults World env candidates query analysis limit s
    = (Returned
         (slice0
            (intelligentDeduplicate (sortDesc (fun m => orZero (finalScore m)) scored))
            limit),
       s')
    /\ length scored = length candidates
    /\ Forall
         (fun m => exists msg recent,
              In msg candidates /\ m = scoreCandidate query analysis recent msg)
         scored.
Proof.
  unfold selectTopRelevantResults, bind.
  destruct (RerankFacts.scoreAll_returns World env query analysis candidates s)
    as [scored [s1 [Hrun Hall]]].
  rewrite Hrun. exists scored, s1. split; [reflexivity|].
  split; [exact (mapM_length _ _ _ _ _ Hrun) | exact Hall].
Qed.

Lemma scoreCandidate_copy (query : string) (analysis : Analysis) (recent : bool)
  (msg : CompactMessage) :
  exists score, scoreCandidate query analysis recent msg = withFinalScore msg score.
Proof.
  unfold scoreCandidate.
  destruct ((2 <=? _) && Qeq_bool _ 0); eexists; reflexivity.
Qed.

(** X7. Re-ranking never throws.  The list it returns holds no two
    records with the same signature, is no longer than the list of
    candidates and, for a limit that is not negative, holds at most
    that many records; every record in it is one of the candidates,
    with a final score attached and the names of its tools in order. *)
Theorem selectTopRelevantResults_selects
  (World : Type) (env : Env World) (candidates : list CompactMessage)
  (query : string) (analysis : Analysis) (limit : Z) (s : State World) :
  exists results s',
    selectTopRelevantResults World env candidates query analysis limit s
    = (Returned results, s')
    /\ NoDup (map createIntelligentSignature results)
    /\ length results <= length candidates
    /\ ((0 <= limit)%Z -> (Z.of_nat (length results) <= limit)%Z)
    /\ (forall m, In m results ->
          exists msg score,
            In msg candidates /\ m = sortedTools (withFinalScore msg score)).
Proof.
  destruct (selectTop_returns World env candidates query analysis limit s)
    as [scored [s1 [Hrun [Hlen Hall]]]].
  destruct (rerank_pure scored limit) as [_ [Hnd [Hle [Hlimit Hfrom]]]].
  eexists _, _. split; [exact Hrun|].
  split; [exact Hnd|].
  split; [rewrite <- Hlen; exact Hle|]. split; [exact Hlimit|].
  intros m Hin. destruct (Hfrom m Hin) as [m0 [Hin0 Hm]].
  rewrite Forall_forall in Hall.
  destruct (Hall m0 Hin0) as [msg [recent [Hmsg Hscored]]].
  destruct (scoreCandidate_copy query analysis recent msg) as [score Hcopy].
  exists msg, score. split; [exact Hmsg | congruence].
Qed.

End RerankMoreFacts.

(* ------------------------------------------------------------------ *)
(** ** The search pipeline, from the files to the result *)
(* ------------------------------------------------------------------ *)

Module PipelineFacts.
Import JS Eff Engine HistorySearchEngine SimilarSpec.

Lemma insertSorted_length (x : string) (l : list string) :
  length (insertSorted x l) = S (length l).
Proof.
  induction l as [|y ys IH]; simpl; [reflexivity|].
  destruct (String.leb x y); simpl; [|rewrite IH]; reflexivity.
Qed.

Lemma sortStrings_length (l : list string) : length (sortStrings l) = length l.
Proof.
  induction l as [|x xs IH]; simpl; [reflexivity|].
  rewrite insertSorted_length, IH. reflexivity.
Qed.

(** Sorting the tools of a record in place does not change what the
    relevance tests see of it. *)
Lemma isHighlyRelevant_sortedTools (m : CompactMessage) (query : string)
  (analysis : Analysis) :
  isHighlyRelevant (sortedTools m) query analysis = isHighlyRelevant m query analysis.
Proof.
  unfold isHighlyRelevant, matchesQueryIntent, sortedTools, ctxField.
  destruct (context m) as [c|] eqn:Ec; [|rewrite Ec; reflexivity].
  destruct (toolsUsed c) as [tools|] eqn:Et;
    cbn [content relevanceScore context type toolsUsed errorPatterns codeSnippets
         lengthOr0];
    rewrite ?Ec, ?Et, ?sortStrings_length; reflexivity.
Qed.

Lemma isHighlyRelevant_scoreCandidate (m : CompactMessage) (query query' : string)
  (analysis analysis' : Analysis) (recent : bool) :
  isHighlyRelevant (scoreCandidate query' analysis' recent m) query analysis
  = isHighlyRelevant m query analysis.
Proof.
  unfold scoreCandidate.
  destruct ((2 <=? length (queryWordsOf query')) && Qeq_bool _ 0); reflexivity.
Qed.

Lemma content_sortedTools (m : CompactMessage) : content (sortedTools m) = content m.
Proof.
  unfold sortedTools. destruct (context m) as [c|]; [|reflexivity].
  destruct (toolsUsed c); reflexivity.
Qed.

Lemma filter_StronglySorted {A} (R : A -> A -> Prop) (p : A -> bool) (l : list A) :
  StronglySorted R l -> StronglySorted R (filter p l).
Proof.
  induction 1 as [|x xs Hs IH Hall]; simpl; [constructor|].
  destruct (p x); [|exact IH]. constructor; [exact IH|].
  rewrite Forall_forall in *. intros y Hy. apply filter_In in Hy as [Hy _].
  apply Hall, Hy.
Qed.

Lemma filter_map_NoDup {A B} (key : A -> B) (keep : A -> bool) (xs : list A)
  (Hdistinct : NoDup (map key xs)) :
  NoDup (map key (filter keep xs)).
Proof.
  induction xs as [|x xs IH]; simpl; [constructor|].
  inversion Hdistinct as [|y ys Hnotin Hrest]; subst.
  destruct (keep x); simpl; [|apply IH, Hrest].
  constructor; [|apply IH, Hrest].
  intros Hin. apply Hnotin. apply in_map_iff in Hin as [z [Hz Hin]].
  apply filter_In in Hin as [Hin _]. apply in_map_iff. exists z. auto.
Qed.

Section WithEnv.
Variable World : Type.
Variable env : Env World.

(** Reading a file through the cache never throws. *)
Lemma processJsonlFile_returns (projectDir file query : string)
  (timeFilter : option (string -> bool)) (s : State World) :
  returns (processJsonlFile World env projectDir file query timeFilter) s.
Proof.
  unfold returns, processJsonlFile.
  destruct (mapGet _ (messageCache s)) as [cached|]; [eexists _, _; reflexivity|].
  destruct (readJsonl env projectDir file (world s)) as [lines w].
  eexists _, _. reflexivity.
Qed.

(** What the scan of one project keeps of a record. *)
Lemma focusedLoop_relevant (projectDir query : string) (analysis : Analysis)
  (timeFilter : option (string -> bool)) (targetPerProject perFile : Z)
  (files : list string) (messages : list CompactMessage) (s : State World) :
  Forall (fun m => (1 <= orZero (relevanceScore m))%Q
                   /\ matchesQueryIntent m analysis = true) messages ->
  exists out s',
    focusedLoop World env projectDir query analysis timeFilter targetPerProject
      perFile files messages s = (Returned out, s')
    /\ Forall (fun m => (1 <= orZero (relevanceScore m))%Q
                        /\ matchesQueryIntent m analysis = true) out.
Proof.
  revert messages s. induction files as [|file rest IH]; intros messages s Hall; simpl.
  - exists messages, s. split; [reflexivity | exact Hall].
  - unfold bind at 1, settle.
    destruct (processJsonlFile World env projectDir file query timeFilter s)
      as [[fileMessages|e] s1].
    + match goal with
      | |- context [if geZ (length ?l) _ then _ else _] => set (messages' := l)
      end.
      assert (Hall' : Forall (fun m => (1 <= orZero (relevanceScore m))%Q
                                       /\ matchesQueryIntent m analysis = true)
                        messages').
      { unfold messages'. apply Forall_app. split; [exact Hall|].
        apply Forall_forall. intros m Hin.
        apply RerankFacts.slice0_In in Hin.
        apply filter_In in Hin as [Hin Hintent].
        apply filter_In in Hin as [_ Hscore].
        split; [apply Qle_bool_iff; exact Hscore | exact Hintent]. }
      destruct (geZ (length messages') targetPerProject).
      * exists messages', s1. split; [reflexivity | exact Hall'].
      * apply IH. exact Hall'.
    + exists messages, s1. split; [reflexivity | exact Hall].
Qed.

Lemma processProjectFocused_relevant (projectDir query : string) (analysis : Analysis)
  (timeFilter : option (string -> bool)) (targetPerProject : Z) (s : State World) :
  exists out s',
    processProjectFocused World env projectDir query analysis timeFilter
      targetPerProject s = (Returned out, s')
    /\ Forall (fun m => (1 <= orZero (relevanceScore m))%Q
                        /\ matchesQueryIntent m analysis = true) out.
Proof.
  unfold processProjectFocused, bind, settle, liftW.
  destruct (findJsonlFiles env projectDir (world s)) as [[jsonlFiles|e] w].
  - apply focusedLoop_relevant. constructor.
  - eexists _, _. split; [reflexivity | constructor].
Qed.

Lemma aggregate_relevant (query : string) (analysis : Analysis) (targetCount : Z)
  (projectResults : list (Outcome (list CompactMessage)))
  (candidates : list CompactMessage) :
  Forall (fun r => match r with
                   | Returned value =>
                       Forall (fun m => (1 <= orZero (relevanceScore m))%Q) value
                   | Thrown _ => True
                   end) projectResults ->
  Forall (fun m => isHighlyRelevant m query analysis = true
                   /\ (1 <= orZero (relevanceScore m))%Q) candidates ->
  Forall (fun m => isHighlyRelevant m query analysis = true
                   /\ (1 <= orZero (relevanceScore m))%Q)
    (aggregate query analysis targetCount projectResults candidates).
Proof.
  revert candidates.
  induction projectResults as [|[value|e] rest IH]; intros candidates Hres Hall; simpl.
  - exact Hall.
  - inversion Hres as [|r rs Hvalue Hrest]; subst.
    assert (Hall' : Forall (fun m => isHighlyRelevant m query analysis = true
                                     /\ (1 <= orZero (relevanceScore m))%Q)
                      (candidates
                       ++ filter (fun msg => isHighlyRelevant msg query analysis) value)).
    { apply Forall_app. split; [exact Hall|].
      apply Forall_forall. intros m Hin. apply filter_In in Hin as [Hin Hrel].
      rewrite Forall_forall in Hvalue. split; [exact Hrel | apply Hvalue, Hin]. }
    destruct (geZ _ targetCount); [exact Hall' | apply IH; assumption].
  - inversion Hres; subst. apply IH; assumption.
Qed.

Lemma scans_relevant (query : string) (analysis : Analysis)
  (timeFilter : option (string -> bool)) (targetPerProject : Z)
  (projectDirs : list string) (s : State World) :
  exists projectResults s',
    mapM (fun projectDir =>
            settle (processProjectFocused World env projectDir query analysis
                      timeFilter targetPerProject))
         projectDirs s = (Returned projectResults, s')
    /\ Forall (fun r => match r with
                        | Returned value =>
                            Forall (fun m => (1 <= orZero (relevanceScore m))%Q) value
                        | Thrown _ => True
                        end) projectResults.
Proof.
  revert s. induction projectDirs as [|projectDir rest IH]; intros s; simpl.
  - exists [], s. split; [reflexivity | constructor].
  - unfold bind at 1, settle at 1.
    destruct (processProjectFocused_relevant projectDir query analysis timeFilter
                targetPerProject s) as [out [s1 [Hrun Hout]]].
    rewrite Hrun. unfold bind at 1.
    destruct (IH s1) as [results [s2 [Hrest Hall]]]. rewrite Hrest.
    eexists _, _. split; [reflexivity|].
    constructor; [|exact Hall].
    eapply Forall_impl; [|exact Hout]. intros m [H _]. exact H.
Qed.

Lemma gather_relevant
  (projectDirs : list string) (query : string) (analysis : Analysis)
  (timeFilter : option (string -> bool)) (targetCount : Z) (s : State World) :
  exists candidates s',
    gatherRelevantCandidates World env projectDirs query analysis timeFilter
      targetCount s = (Returned candidates, s')
    /\ Forall (fun m => isHighlyRelevant m query analysis = true
                        /\ (1 <= orZero (relevanceScore m))%Q) candidates.
Proof.
  unfold gatherRelevantCandidates, bind.
  destruct (scans_relevant query analysis timeFilter
              (ceilDiv targetCount (length projectDirs)) projectDirs s)
    as [projectResults [s1 [Hrun Hall]]].
  rewrite Hrun. eexists _, _. split; [reflexivity|].
  apply aggregate_relevant; [exact Hall | constructor].
Qed.

(** X8. Gathering candidates never throws, whatever the file system
    does, and every candidate it hands on is highly relevant to the
    query (no noise pattern, 40 characters or more, intent matched) with
    a base relevance score of at least 1. *)
Theorem gatherRelevantCandidates_relevant
  (projectDirs : list string) (query : string) (analysis : Analysis)
  (timeFilter : option (string -> bool)) (targetCount : Z) (s : State World) :
  exists candidates s',
    gatherRelevantCandidates World env projectDirs query analysis timeFilter
      targetCount s = (Returned candidates, s')
    /\ Forall (fun m => isHighlyRelevant m query analysis = true
                        /\ matchesQueryIntent m analysis = true
                        /\ (1 <= orZero (relevanceScore m))%Q
                        /\ 40 <= String.length (content m)
                        /\ forall noise, In noise noisePatterns ->
                             includes (toLowerCase (content m)) noise = false)
         candidates.
Proof.
  destruct (gather_relevant projectDirs query analysis timeFilter targetCount s)
    as [candidates [s1 [Hrun Hall]]].
  exists candidates, s1. split; [exact Hrun|].
  eapply Forall_impl; [|exact Hall].
  intros m [Hrel Hscore]. split; [exact Hrel|].
  unfold isHighlyRelevant in Hrel.
  destruct (existsb (includes (toLowerCase (content m))) noisePatterns) eqn:Enoise;
    [discriminate|].
  destruct (String.length (toLowerCase (content m)) <? 40) eqn:Elen;
    [discriminate|].
  cbn [orb] in Hrel.
  destruct (Qlt_bool (orZero (relevanceScore m)) (3 # 10)); [discriminate|].
  split; [exact Hrel|]. split; [exact Hscore|]. split.
  - apply Nat.ltb_ge in Elen.
    assert (Hlen : forall t, String.length (toLowerCase t) = String.length t).
    { induction t as [|c t IH]; simpl; [reflexivity | f_equal; exact IH]. }
    rewrite Hlen in Elen. exact Elen.
  - intros noise Hin.
    destruct (includes (toLowerCase (content m)) noise) eqn:E; [|reflexivity].
    assert (existsb (includes (toLowerCase (content m))) noisePatterns = true)
      by (apply existsb_exists; exists noise; auto).
    congruence.
Qed.

(** What holds of the result of the search proper, when it returns. *)
Lemma performOptimizedSearch_quality (query : string) (analysis : Analysis)
  (limit startTime : Z) (projectFilter timeframe : option string)
  (s s' : State World) (r : SearchResult) :
  performOptimizedSearch World env query analysis limit startTime projectFilter
    timeframe s = (Returned r, s') ->
  searchQuery r = query
  /\ Forall (fun m => isHighlyRelevant m query analysis = true
                      /\ (1 <= orZero (relevanceScore m))%Q
                      /\ (15 # 10 <= effectiveScore m)%Q
                      /\ 40 <= String.length (content m)
                      /\ isLowValueContent (content m) = false)
       (messages r)
  /\ StronglySorted (byKey (fun m => orZero (finalScore m))) (messages r)
  /\ NoDup (map createIntelligentSignature (messages r))
  /\ length (messages r) <= totalResults r
  /\ ((0 <= limit)%Z -> (Z.of_nat (length (messages r)) <= limit)%Z).
Proof.
  assert (Hempty : forall elapsed,
    let r0 := emptyResult query elapsed in
    searchQuery r0 = query
    /\ Forall (fun m => isHighlyRelevant m query analysis = true
                        /\ (1 <= orZero (relevanceScore m))%Q
                        /\ (15 # 10 <= effectiveScore m)%Q
                        /\ 40 <= String.length (content m)
                        /\ isLowValueContent (content m) = false)
         (messages r0)
    /\ StronglySorted (byKey (fun m => orZero (finalScore m))) (messages r0)
    /\ NoDup (map createIntelligentSignature (messages r0))
    /\ length (messages r0) <= totalResults r0
    /\ ((0 <= limit)%Z -> (Z.of_nat (length (messages r0)) <= limit)%Z)).
  { intros elapsed. cbn. repeat split; try constructor. intros H. exact H. }
  unfold performOptimizedSearch, bind, tryCatch, liftW, throw,
    expandWorktreeProjects, ret.
  destruct (getTimeRangeFilter env timeframe (world s)) as [[timeFilter|e] w1];
    [|discriminate].
  cbn [world messageCache].
  destruct (findProjectDirectories env w1) as [[dirs|e] w2]; [|discriminate].
  destruct (String.length query <? 3).
  - rewrite SearchFacts.now_returns. intros H. injection H as <- _. apply Hempty.
  - match goal with
    | |- context [gatherRelevantCandidates World env ?d ?q ?a ?tf ?tc ?st] =>
        destruct (gather_relevant d q a tf tc st) as [candidates [s2 [Hgather Hcand]]]
    end.
    rewrite Hgather.
    destruct (RerankMoreFacts.selectTop_returns World env candidates query analysis
                limit s2) as [scored [s3 [Hselect [Hlen Hscored]]]].
    rewrite Hselect.
    destruct (RerankMoreFacts.rerank_pure scored limit)
      as [Hsorted [Hnd [Hle [Hlimit Hfrom]]]].
    rewrite SearchFacts.now_returns. intros H. injection H as <- _.
    cbn [messages totalResults searchQuery].
    split; [reflexivity|]. split; [|split; [|split; [|split]]].
    + apply Forall_forall. intros m Hin.
      apply filter_In in Hin as [Hin Hquality].
      apply andb_true_iff in Hquality as [Hquality Hvalue].
      apply andb_true_iff in Hquality as [Heff Hlong].
      destruct (Hfrom m Hin) as [m0 [Hin0 Hm]].
      rewrite Forall_forall in Hscored.
      destruct (Hscored m0 Hin0) as [msg [recent [Hmsg Hm0]]].
      rewrite Forall_forall in Hcand. destruct (Hcand msg Hmsg) as [Hrel Hscore].
      split; [|split; [|split; [|split]]].
      * subst m m0.
        rewrite isHighlyRelevant_sortedTools, isHighlyRelevant_scoreCandidate.
        exact Hrel.
      * subst m m0.
        rewrite DedupFacts.relevanceScore_sortedTools,
          RerankFacts.relevanceScore_scoreCandidate.
        exact Hscore.
      * apply Qle_bool_iff. exact Heff.
      * apply Nat.leb_le. exact Hlong.
      * apply negb_true_iff. exact Hvalue.
    + apply filter_StronglySorted. exact Hsorted.
    + apply filter_map_NoDup. exact Hnd.
    + eapply Nat.le_trans; [apply ScorerMoreFacts.filter_length_le|].
      rewrite <- Hlen. exact Hle.
    + intros Hpos. specialize (Hlimit Hpos).
      match goal with
      | |- context [length (filter ?p ?l)] =>
          pose proof (ScorerMoreFacts.filter_length_le p l)
      end.
      lia.
Qed.

(** X9. A search always returns a result that echoes the query.  Every
    message in it is highly relevant to the query as analysed, has a
    base relevance score of at least 1, is at least 40 characters long
    and is not low-value content.  No two messages share a signature,
    there are no more of them than the total reported and, for a limit
    that is not negative, no more than the limit. *)
Theorem searchConversations_result_quality
  (query : string) (projectFilter timeframe : option string) (limit : Z)
  (s : State World) :
  exists r s',
    searchConversations World env query projectFilter timeframe limit s
    = (Returned r, s')
    /\ searchQuery r = query
    /\ Forall (fun m => isHighlyRelevant m query (analyzeQueryIntent query) = true
                        /\ (1 <= orZero (relevanceScore m))%Q
                        /\ 40 <= String.length (content m)
                        /\ isLowValueContent (content m) = false)
         (messages r)
    /\ NoDup (map createIntelligentSignature (messages r))
    /\ length (messages r) <= totalResults r
    /\ ((0 <= limit)%Z -> (Z.of_nat (length (messages r)) <= limit)%Z).
Proof.
  rewrite SearchFacts.searchConversations_unfold. unfold tryCatch at 1.
  destruct (performOptimizedSearch World env query (analyzeQueryIntent query) limit
              (fst (Date_now env (world s))) projectFilter timeframe _)
    as [[r|e] s1] eqn:Hrun.
  - exists r, s1. split; [reflexivity|].
    destruct (performOptimizedSearch_quality _ _ _ _ _ _ _ _ _ Hrun)
      as [Hecho [Hall [_ [Hnd [Htotal Hlimit]]]]].
    split; [exact Hecho|]. split; [|split; [exact Hnd | split; assumption]].
    eapply Forall_impl; [|exact Hall]. cbv beta. tauto.
  - unfold bind. rewrite SearchFacts.now_returns. eexists _, _.
    split; [reflexivity|]. cbn.
    repeat split; try constructor. intros H. exact H.
Qed.

(** X25. A project filter that no project directory contains gives
    the empty result: for a query of 3 characters or more and a filter
    that is not empty, when the time filter and the listing of project
    directories are obtained and no directory name contains the filter,
    the search returns no message and a total of 0, with the query
    echoed, and does not throw. *)
Theorem unmatched_project_filter_empty
  (query projectFilter : string) (timeframe : option string) (limit : Z)
  (s : State World) (timeFilter : string -> bool) (w1 w2 : World)
  (dirs : list string) :
  3 <= String.length query ->
  projectFilter <> EmptyString ->
  getTimeRangeFilter env timeframe (snd (Date_now env (world s)))
  = (Returned timeFilter, w1) ->
  findProjectDirectories env w1 = (Returned dirs, w2) ->
  (forall dir, In dir dirs -> includes dir projectFilter = false) ->
  exists elapsed s',
    searchConversations World env query (Some projectFilter) timeframe limit s
    = (Returned
         {| messages := []; totalResults := 0; searchQuery := query;
            executionTime := elapsed |},
       s').
Proof.
  intros Hlong Hfilter Htime Hdirs Hnone.
  rewrite SearchFacts.searchConversations_unfold. unfold tryCatch at 1.
  unfold performOptimizedSearch, bind, tryCatch, liftW, throw,
    expandWorktreeProjects, ret.
  cbn [world messageCache]. rewrite Htime. cbn [world messageCache].
  rewrite Hdirs. cbn [world messageCache].
  apply Nat.ltb_ge in Hlong. rewrite Hlong.
  apply String.eqb_neq in Hfilter. rewrite Hfilter.
  rewrite (ScorerFacts.filter_none _ _ Hnone).
  unfold gatherRelevantCandidates, selectTopRelevantResults, bind, ret.
  cbn [mapM aggregate ret]. unfold ret.
  cbn [sortDesc fold_right intelligentDeduplicate fold_left map filter length].
  assert (Hcut : slice0 (@nil CompactMessage) limit = []).
  { unfold slice0. destruct (limit <? 0)%Z; apply firstn_nil. }
  rewrite Hcut. cbn [filter]. rewrite SearchFacts.now_returns.
  eexists _, _. reflexivity.
Qed.

End WithEnv.
End PipelineFacts.

(* ------------------------------------------------------------------ *)
(** ** The message cache of the engine *)
(* ------------------------------------------------------------------ *)

Module CacheFacts.
Import JS Eff Engine HistorySearchEngine.

Section MapLaws.
Context {V : Type}.

Lemma mapGet_mapSet (key : string) (v : V) (m : list (string * V)) :
  mapGet key (mapSet key v m) = Some v.
Proof.
  induction m as [|[k old] rest IH]; simpl.
  - rewrite String.eqb_refl. reflexivity.
  - destruct (String.eqb k key) eqn:E; simpl; rewrite E; [reflexivity | exact IH].
Qed.



End MapLaws.

Section WithEnv.
Variable World : Type.
Variable env : Env World.




End WithEnv.
End CacheFacts.

(* ------------------------------------------------------------------ *)
(** ** The parser: lines to records, and truncation at a boundary *)
(* ------------------------------------------------------------------ *)

Module ParserMoreFacts.
Import JS Parser.

Lemma collect_app {A B} (f : A -> option B) (l1 l2 : list A) :
  collect f (l1 ++ l2) = collect f l1 ++ collect f l2.
Proof.
  induction l1 as [|x xs IH]; simpl; [reflexivity|].
  destruct (f x); simpl; rewrite IH; reflexivity.
Qed.

Lemma collect_length {A B} (f : A -> option B) (l : list A) :
  length (collect f l) <= length l.
Proof.
  induction l as [|x xs IH]; simpl; [lia|]. destruct (f x); simpl; lia.
Qed.

(** X11. The parser skips blank and malformed lines without losing the
    lines around them, and parses a file line by line: the records of
    two runs of lines are the records of the first followed by those of
    the second.  Every record comes from a parsed line with content
    that passed the time filter, carries the decoded project path and
    no final score, and has a relevance score that is not negative, and
    is 0 when no query (or the empty query) is given; a content of at
    most 3000 characters is kept as it is. *)
Theorem parseLines_records
  (deps : ParserDeps) (projectDir : string) (query : option string)
  (timeFilter : option (string -> bool)) (lines : list Line) :
  length (parseLines deps projectDir query timeFilter lines) <= length lines
  /\ (forall before after,
        parseLines deps projectDir query timeFilter (before ++ after)
        = parseLines deps projectDir query timeFilter before
          ++ parseLines deps projectDir query timeFilter after)
  /\ (forall before after,
        parseLines deps projectDir query timeFilter (before ++ Malformed :: after)
        = parseLines deps projectDir query timeFilter (before ++ after)
        /\ parseLines deps projectDir query timeFilter (before ++ Blank :: after)
           = parseLines deps projectDir query timeFilter (before ++ after))
  /\ Forall
       (fun m =>
          projectPath m = Some (Paths.decodeProjectPath projectDir)
          /\ finalScore m = None
          /\ (0 <= orZero (relevanceScore m))%Q
          /\ (query = None \/ query = Some EmptyString ->
              relevanceScore m = Some 0%Q)
          /\ exists claudeMessage,
               In (Parsed claudeMessage) lines
               /\ uuid m = cm_uuid claudeMessage
               /\ type m = cm_type claudeMessage
               /\ sessionId m = cm_sessionId claudeMessage
               /\ Utils.extractContentFromMessage (cm_message claudeMessage)
                  <> EmptyString
               /\ (forall f, timeFilter = Some f ->
                     f (cm_timestamp claudeMessage) = true)
               /\ ((strlen (Utils.extractContentFromMessage
                              (cm_message claudeMessage)) <= 3000)%Z ->
                   content m
                   = Utils.extractContentFromMessage (cm_message claudeMessage)))
       (parseLines deps projectDir query timeFilter lines).
Proof.
  unfold parseLines.
  split; [apply collect_length|]. split; [intros; apply collect_app|].
  split; [intros before after; rewrite !collect_app; split; reflexivity|].
  apply SimilarFacts.collect_Forall.
  intros [| |claudeMessage] m Hin; simpl; try discriminate.
  destruct (negb match timeFilter with
                 | Some f => f (cm_timestamp claudeMessage)
                 | None => true
                 end) eqn:Etime; [discriminate|].
  destruct (String.eqb (Utils.extractContentFromMessage (cm_message claudeMessage))
              EmptyString) eqn:Econtent; [discriminate|].
  destruct (formatTimestamp deps (cm_timestamp claudeMessage)) as [ts|];
    [|discriminate].
  intros Hm. injection Hm as <-. cbn [projectPath finalScore relevanceScore orZero
                                      uuid type sessionId content].
  split; [reflexivity|]. split; [reflexivity|]. split; [|split].
  - destruct query as [q|]; [|discriminate].
    destruct (String.eqb q EmptyString); [discriminate|].
    pose proof (ScorerMoreFacts.calculateRelevanceScore_nonneg
                  claudeMessage q (Some projectDir)) as Hlow.
    unfold Qle. simpl. lia.
  - intros [-> | ->]; reflexivity.
  - exists claudeMessage. split; [exact Hin|].
    split; [reflexivity|]. split; [reflexivity|]. split; [reflexivity|].
    split; [|split].
    + intros H. rewrite H in Econtent. discriminate.
    + intros f ->. apply negb_false_iff in Etime. exact Etime.
    + intros Hshort. unfold smartContentPreservation.
      assert (Hlimit : (3000 <= getContentLimit deps
                                  (Utils.extractContentFromMessage
                                     (cm_message claudeMessage)))%Z)
        by (unfold getContentLimit; destruct (detectContentType deps _); lia).
      destruct (strlen _ <=? getContentLimit deps _)%Z eqn:E; [reflexivity|].
      apply Z.leb_gt in E. lia.
Qed.

Lemma take_length (n : nat) (s : string) :
  String.length (take n s) = Nat.min n (String.length s).
Proof.
  revert s. induction n as [|n IH]; intros [|c s]; simpl; try reflexivity.
  rewrite IH. reflexivity.
Qed.

Lemma append_length (s t : string) :
  String.length (s ++ t) = String.length s + String.length t.
Proof.
  induction s as [|c s IH]; simpl; [reflexivity | rewrite IH; reflexivity].
Qed.

(** [lastIndexOf] answers -1 or a position that is not past the clamped
    starting point. *)
Lemma lastIndexOfFrom_range (content pat : string) (i : nat) (from last : Z) :
  lastIndexOfFrom content pat i from last = last
  \/ (Z.of_nat i <= lastIndexOfFrom content pat i from last <= Z.max from 0)%Z.
Proof.
  revert i last. induction content as [|c rest IH]; intros i last;
    cbn [lastIndexOfFrom].
  - destruct ((Z.of_nat i <=? Z.max from 0)%Z && startsWith EmptyString pat) eqn:E;
      [|left; reflexivity].
    apply andb_true_iff in E as [E _]. apply Z.leb_le in E. right. lia.
  - match goal with
    | |- context [lastIndexOfFrom rest pat (S i) from ?h] => set (here := h)
    end.
    destruct (IH (S i) here) as [H|H].
    + rewrite H. unfold here.
      destruct ((Z.of_nat i <=? Z.max from 0)%Z && startsWith (String c rest) pat)
        eqn:E; [|left; reflexivity].
      apply andb_true_iff in E as [E _]. apply Z.leb_le in E. right. lia.
    + right. lia.
Qed.

Lemma lastIndexOf_range (content pat : string) (from : Z) :
  (-1 <= lastIndexOf content pat from <= Z.max from 0)%Z.
Proof.
  unfold lastIndexOf.
  destruct (lastIndexOfFrom_range content pat 0 from (-1)%Z) as [H|H]; lia.
Qed.

(** What truncation returns for a text over the budget. *)
(** A boundary is taken only beyond seven tenths of the budget, up to
    the rounding of that product: for a budget below 2^53 the index is
    above the budget times the binary64 number 0.7, which is
    0.7 - 0.4 / 2^53. *)
Lemma threshold_passed (maxLength lastBoundary : Z) :
  (3 <= maxLength <= 2 ^ 53)%Z ->
  Qlt_bool (Binary64.mul (Binary64.ofZ maxLength) (Binary64.rnd (7 # 10)))
    (inject_Z lastBoundary) = true ->
  (7 * maxLength < 10 * (lastBoundary + 3))%Z.
Proof.
  intros Hbudget Hfar. apply SimilarFacts.Qlt_bool_true in Hfar.
  unfold Binary64.mul, Binary64.ofZ in Hfar.
  assert (Hexact : (Binary64.rnd (inject_Z maxLength) * Binary64.rnd (7 # 10)
                    == inject_Z maxLength * Binary64.rnd (7 # 10))%Q).
  { rewrite (Binary64Facts.rnd_Z maxLength) by lia. reflexivity. }
  rewrite (Binary64Facts.rnd_comp _ _ Hexact) in Hfar.
  assert (H7 : Binary64.rnd (7 # 10) = (3152519739159347 # 4503599627370496)%Q)
    by (vm_compute; reflexivity).
  rewrite H7 in Hfar.
  apply Binary64Facts.rnd_lt_Z in Hfar.
  - unfold Qlt in Hfar. cbn [Qmult Qnum Qden inject_Z] in Hfar.
    rewrite !Pos2Z.inj_mul in Hfar. lia.
  - apply Qmult_le_0_compat; [|discriminate].
    change 0%Q with (inject_Z 0). rewrite <- Zle_Qle. lia.
  - unfold Qlt. cbn [Qmult Qnum Qden inject_Z].
    rewrite !Pos2Z.inj_mul. lia.
Qed.

Lemma intelligentTruncation_cut (content : string) (maxLength : Z) :
  (maxLength < strlen content)%Z ->
  exists n,
    intelligentTruncation content maxLength = (take n content ++ "...")%string
    /\ (Z.of_nat n <= Z.max (maxLength - 3) 0)%Z
    /\ (3 <= maxLength <= 2 ^ 53 -> 7 * maxLength < 10 * (Z.of_nat n + 3))%Z.
Proof.
  intros Hlong. unfold intelligentTruncation.
  destruct (strlen content <=? maxLength)%Z eqn:E; [apply Z.leb_le in E; lia|].
  destruct (find _ boundaries) as [boundary|] eqn:Efind.
  - apply find_some in Efind as [_ Hfar]. cbv zeta in Hfar.
    pose proof (lastIndexOf_range content boundary (maxLength - 3)) as Hrange.
    exists (Z.to_nat (lastIndexOf content boundary (maxLength - 3))).
    split; [reflexivity|]. split; [lia|].
    intros Hbudget. pose proof (threshold_passed _ _ Hbudget Hfar). lia.
  - exists (Z.to_nat (maxLength - 3)). split; [reflexivity|]. split; lia.
Qed.

(** X12. Truncation at a boundary respects a budget of 3 or more: the
    text it returns is never longer than the budget.  A text over the
    budget comes back as one of its own prefixes followed by three
    dots, and, for a budget up to 2^53, uses more than seven tenths of
    the budget.  Below a budget of 3 the answer for such a text is the
    three dots alone, which is longer than the budget. *)
Theorem intelligentTruncation_budget (content : string) (maxLength : Z) :
  ((3 <= maxLength)%Z ->
   (strlen (intelligentTruncation content maxLength) <= maxLength)%Z)
  /\ ((maxLength < strlen content)%Z ->
      exists n,
        intelligentTruncation content maxLength = (take n content ++ "...")%string
        /\ (Z.of_nat n <= Z.max (maxLength - 3) 0)%Z)
  /\ ((3 <= maxLength < strlen content)%Z -> (maxLength <= 2 ^ 53)%Z ->
      (7 * maxLength < 10 * strlen (intelligentTruncation content maxLength))%Z)
  /\ ((maxLength < 3)%Z -> (maxLength < strlen content)%Z ->
      intelligentTruncation content maxLength = "...").
Proof.
  split; [|split; [|split]].
  - intros Hbudget.
    destruct (Z.le_gt_cases (strlen content) maxLength) as [Hfits|Hlong].
    + rewrite TruncationFacts.intelligentTruncation_within by exact Hfits. exact Hfits.
    + destruct (intelligentTruncation_cut content maxLength Hlong)
        as [n [-> [Hn _]]].
      unfold strlen. rewrite append_length, take_length. simpl. lia.
  - intros Hlong.
    destruct (intelligentTruncation_cut content maxLength Hlong) as [n [H [Hn _]]].
    exists n. split; assumption.
  - intros [Hbudget Hlong] Hsize.
    destruct (intelligentTruncation_cut content maxLength Hlong)
      as [n [-> [Hn Hfar]]].
    specialize (Hfar (conj Hbudget Hsize)).
    unfold strlen in *. rewrite append_length, take_length.
    cbn [String.length]. lia.
  - intros Hsmall Hlong.
    destruct (intelligentTruncation_cut content maxLength Hlong)
      as [n [-> [Hn _]]].
    assert (n = 0) as -> by lia. destruct content; reflexivity.
Qed.

End ParserMoreFacts.

(* ------------------------------------------------------------------ *)
(** ** The directory listings of utils.ts *)
(* ------------------------------------------------------------------ *)

Module ListingFacts.
Import JS Eff Listing.

Lemma insertDesc_Permutation {A} (key : A -> Q) (x : A) (l : list A) :
  Permutation (insertDesc key x l) (x :: l).
Proof.
  induction l as [|y ys IH]; simpl; [reflexivity|].
  destruct (Qlt_bool (key x) (key y)); [|reflexivity].
  rewrite IH. apply perm_swap.
Qed.

Lemma sortDesc_Permutation {A} (key : A -> Q) (l : list A) :
  Permutation (sortDesc key l) l.
Proof.
  induction l as [|x xs IH]; simpl; [reflexivity|].
  rewrite insertDesc_Permutation, IH. reflexivity.
Qed.

Section WithFileSystem.
Variable World : Type.
Variable fs : FileSystem World.

(** Examining one file never throws, and answers for that file. *)
Lemma statFile_returns (fullPath file : string) (w : World) :
  exists mtime w', statFile World fs fullPath file w = (Returned (file, mtime), w').
Proof.
  unfold statFile, tryCatch, bind, ret.
  destruct (stat fs (path_join fs fullPath file) w) as [[stats|e] w'];
    eexists _, _; reflexivity.
Qed.

Lemma statFiles_returns (fullPath : string) (files : list string) (w : World) :
  exists stats w',
    mapM (statFile World fs fullPath) files w = (Returned stats, w')
    /\ map fst stats = files.
Proof.
  revert w. induction files as [|file rest IH]; intros w; simpl.
  - exists [], w. split; reflexivity.
  - unfold bind at 1.
    destruct (statFile_returns fullPath file w) as [mtime [w1 H1]]. rewrite H1.
    unfold bind at 1. destruct (IH w1) as [stats [w2 [H2 Hfst]]]. rewrite H2.
    eexists _, _. split; [reflexivity|]. simpl. rewrite Hfst. reflexivity.
Qed.

(** X13. When the project directory can be read, the listing of its
    session files holds exactly the entries that end in .jsonl, each as
    often as the directory names it, whether or not the files can be
    examined; when the directory cannot be read the listing is empty. *)
Theorem findJsonlFiles_lists_every_file (projectDir : string) (w : World) :
  (forall entries w1,
      readdir fs (path_join fs (projectsPath fs) projectDir) w
      = (Returned entries, w1) ->
      exists files w2,
        findJsonlFiles World fs projectDir w = (Returned files, w2)
        /\ Permutation files (filter (fun file => endsWith file ".jsonl") entries))
  /\ (forall error w1,
        readdir fs (path_join fs (projectsPath fs) projectDir) w
        = (Thrown error, w1) ->
        findJsonlFiles World fs projectDir w = (Returned [], w1)).
Proof.
  split.
  - intros entries w1 Hread. unfold findJsonlFiles, tryCatch, bind at 1.
    rewrite Hread. unfold bind at 1.
    destruct (statFiles_returns (path_join fs (projectsPath fs) projectDir)
                (filter (fun file => endsWith file ".jsonl") entries) w1)
      as [stats [w2 [Hstat Hfst]]].
    rewrite Hstat. eexists _, _. split; [reflexivity|].
    rewrite <- Hfst. apply Permutation_map, sortDesc_Permutation.
  - intros error w1 Hread. unfold findJsonlFiles, tryCatch, bind at 1.
    rewrite Hread. reflexivity.
Qed.

Lemma statEntries_In (entries : list string) (acc out : list (string * Q))
  (w w' : World) :
  statEntries World fs entries acc w = (Returned out, w') ->
  forall d, In d (map fst out) -> In d (map fst acc) \/ In d entries.
Proof.
  revert acc w. induction entries as [|entry rest IH]; intros acc w; simpl.
  - unfold ret. intros H. injection H as <- _. auto.
  - unfold bind at 1.
    destruct (stat fs (path_join fs (projectsPath fs) entry) w) as [[stats|e] w1];
      [|discriminate].
    intros H d Hd. destruct (IH _ _ H d Hd) as [Hacc|Hrest]; [|auto].
    destruct (isDirectory stats); [|auto].
    rewrite map_app in Hacc. apply in_app_or in Hacc as [Hacc|[Hacc|[]]]; auto.
Qed.

Lemma statEntries_throws (entries : list string) (entry : string)
  (acc : list (string * Q)) (w : World) :
  In entry entries ->
  (forall w0, exists error w1,
      stat fs (path_join fs (projectsPath fs) entry) w0 = (Thrown error, w1)) ->
  exists error w', statEntries World fs entries acc w = (Thrown error, w').
Proof.
  intros Hin Hbad. revert acc w.
  induction entries as [|x rest IH]; intros acc w; [destruct Hin|].
  simpl. unfold bind at 1.
  destruct (stat fs (path_join fs (projectsPath fs) x) w) as [[stats|e] w1] eqn:E.
  - destruct Hin as [->|Hin].
    + destruct (Hbad w) as [error [w2 H]]. congruence.
    + apply IH. exact Hin.
  - eexists _, _. reflexivity.
Qed.

(** X14. The listing of project directories names entries of the
    projects directory only.  It is all or nothing: one entry that
    cannot be examined empties the whole listing, and so does a
    projects directory that cannot be read. *)
Theorem findProjectDirectories_all_or_nothing (w : World) :
  (forall entries w1,
      readdir fs (projectsPath fs) w = (Returned entries, w1) ->
      exists dirs w2,
        findProjectDirectories World fs w = (Returned dirs, w2)
        /\ (forall d, In d dirs -> In d entries)
        /\ (forall entry,
              In entry entries ->
              (forall w0, exists error w3,
                  stat fs (path_join fs (projectsPath fs) entry) w0
                  = (Thrown error, w3)) ->
              dirs = []))
  /\ (forall error w1,
        readdir fs (projectsPath fs) w = (Thrown error, w1) ->
        findProjectDirectories World fs w = (Returned [], w1)).
Proof.
  split.
  - intros entries w1 Hread. unfold findProjectDirectories, tryCatch, bind at 1.
    rewrite Hread. unfold bind at 1.
    destruct (statEntries World fs entries [] w1) as [[out|e] w2] eqn:Estat.
    + eexists _, _. split; [reflexivity|]. split.
      * intros d Hd.
        assert (Hd' : In d (map fst out)).
        { eapply Permutation_in; [|exact Hd].
          apply Permutation_map, sortDesc_Permutation. }
        destruct (statEntries_In _ _ _ _ _ Estat d Hd') as [[]|H]. exact H.
      * intros entry Hin Hbad.
        destruct (statEntries_throws entries entry [] w1 Hin Hbad) as [e [w3 H]].
        congruence.
    + eexists _, _. split; [reflexivity|]. split; [intros d []|reflexivity].
  - intros error w1 Hread. unfold findProjectDirectories, tryCatch, bind at 1.
    rewrite Hread. reflexivity.
Qed.

End WithFileSystem.
End ListingFacts.

(* ------------------------------------------------------------------ *)
(** ** The simple de-duplication of the engine *)
(* ------------------------------------------------------------------ *)

Module SimpleDedupFacts.
Import JS SimpleDedup.

Lemma inList_false (x : string) (l : list string) : inList x l = false <-> ~ In x l.
Proof.
  rewrite <- SimilarityFacts.inList_In. destruct (inList x l); split; congruence.
Qed.

Lemma deduplicateFrom_In (seen : list string) (l : list CompactMessage)
  (m : CompactMessage) :
  In m (deduplicateFrom seen l) -> In m l /\ ~ In (simpleHash m) seen.
Proof.
  revert seen. induction l as [|x xs IH]; intros seen; simpl; [tauto|].
  destruct (inList (simpleHash x) seen) eqn:E.
  - intros H. destruct (IH _ H). auto.
  - intros [<-|H].
    + split; [auto | apply inList_false, E].
    + destruct (IH _ H) as [Hin Hseen]. split; [auto|].
      intros Hs. apply Hseen. right. exact Hs.
Qed.

Lemma deduplicateFrom_NoDup (seen : list string) (l : list CompactMessage) :
  NoDup (map simpleHash (deduplicateFrom seen l)).
Proof.
  revert seen. induction l as [|x xs IH]; intros seen; simpl; [constructor|].
  destruct (inList (simpleHash x) seen); [apply IH|].
  simpl. constructor; [|apply IH].
  intros Hin. apply in_map_iff in Hin as [m [Heq Hin]].
  apply deduplicateFrom_In in Hin as [_ Hseen]. apply Hseen. left. symmetry. exact Heq.
Qed.

Lemma deduplicateFrom_covers (seen : list string) (l : list CompactMessage)
  (m : CompactMessage) :
  In m l ->
  In (simpleHash m) seen \/ In (simpleHash m) (map simpleHash (deduplicateFrom seen l)).
Proof.
  revert seen. induction l as [|x xs IH]; intros seen; simpl; [tauto|].
  intros [->|Hin].
  - destruct (inList (simpleHash m) seen) eqn:E.
    + left. apply SimilarityFacts.inList_In, E.
    + right. left. reflexivity.
  - destruct (inList (simpleHash x) seen) eqn:E; [apply IH, Hin|].
    destruct (IH (simpleHash x :: seen) Hin) as [[Heq|H]|H].
    + right. left. exact Heq.
    + left. exact H.
    + right. right. exact H.
Qed.

Lemma deduplicateFrom_idempotent (seen : list string) (l : list CompactMessage) :
  deduplicateFrom seen (deduplicateFrom seen l) = deduplicateFrom seen l.
Proof.
  revert seen. induction l as [|x xs IH]; intros seen; simpl; [reflexivity|].
  destruct (inList (simpleHash x) seen) eqn:E; [apply IH|].
  simpl. rewrite E, IH. reflexivity.
Qed.

Lemma deduplicateFrom_length (seen : list string) (l : list CompactMessage) :
  length (deduplicateFrom seen l) <= length l.
Proof.
  revert seen. induction l as [|x xs IH]; intros seen; simpl; [lia|].
  destruct (inList (simpleHash x) seen); simpl; [specialize (IH seen)
                                               | specialize (IH (simpleHash x :: seen))];
    lia.
Qed.

(** X15. The simple de-duplication keeps the first record of every
    content hash and drops the later ones: no two records it returns
    share a hash, every record that went in has its hash represented,
    every record that comes out went in, the first record always
    survives, and a second pass changes nothing. *)
Theorem deduplicateMessages_first_wins (messages : list CompactMessage) :
  NoDup (map simpleHash (deduplicateMessages messages))
  /\ length (deduplicateMessages messages) <= length messages
  /\ (forall m, In m messages ->
        In (simpleHash m) (map simpleHash (deduplicateMessages messages)))
  /\ (forall m, In m (deduplicateMessages messages) -> In m messages)
  /\ (forall first rest,
        messages = first :: rest ->
        exists kept, deduplicateMessages messages = first :: kept)
  /\ deduplicateMessages (deduplicateMessages messages) = deduplicateMessages messages.
Proof.
  unfold deduplicateMessages.
  split; [apply deduplicateFrom_NoDup|]. split; [apply deduplicateFrom_length|].
  split; [|split; [|split]].
  - intros m Hin. destruct (deduplicateFrom_covers [] messages m Hin) as [[]|H].
    exact H.
  - intros m Hin. apply deduplicateFrom_In in Hin as [H _]. exact H.
  - intros first rest ->. simpl. eexists. reflexivity.
  - apply deduplicateFrom_idempotent.
Qed.

End SimpleDedupFacts.

(* ------------------------------------------------------------------ *)
(** ** Substrings *)
(* ------------------------------------------------------------------ *)

Module SubstringFacts.
Import JS.

Lemma app_assoc_string (a b c : string) : ((a ++ b) ++ c = a ++ (b ++ c))%string.
Proof. induction a as [|x a IH]; simpl; [reflexivity | rewrite IH; reflexivity]. Qed.

Lemma mapString_app (f : ascii -> ascii) (a b : string) :
  mapString f (a ++ b) = (mapString f a ++ mapString f b)%string.
Proof. induction a as [|x a IH]; simpl; [reflexivity | rewrite IH; reflexivity]. Qed.

Lemma startsWith_spec (s p : string) :
  startsWith s p = true <-> exists post, s = (p ++ post)%string.
Proof.
  revert s. induction p as [|a p IH]; intros s.
  - simpl. split; [intros _; exists s; reflexivity | destruct s; reflexivity].
  - destruct s as [|b s]; simpl.
    + split; [discriminate | intros [post H]; discriminate].
    + rewrite andb_true_iff, IH. split.
      * intros [Hab [post ->]]. apply Ascii.eqb_eq in Hab. subst b.
        exists post. reflexivity.
      * intros [post H]. injection H as -> ->. split; [apply Ascii.eqb_refl|].
        exists post. reflexivity.
Qed.

(** [s.includes(sub)] holds exactly when [sub] sits somewhere in [s]. *)
Lemma includes_spec (s sub : string) :
  includes s sub = true <-> exists pre post, s = (pre ++ sub ++ post)%string.
Proof.
  induction s as [|c s IH].
  - cbn [includes]. rewrite orb_false_r, startsWith_spec. split.
    + intros [post H]. exists EmptyString, post. exact H.
    + intros [pre [post H]]. destruct pre; [|discriminate]. exists post. exact H.
  - cbn [includes]. rewrite orb_true_iff, startsWith_spec, IH. split.
    + intros [[post H]|[pre [post H]]].
      * exists EmptyString, post. exact H.
      * exists (String c pre), post. simpl. rewrite H. reflexivity.
    + intros [[|x pre] [post H]].
      * left. exists post. exact H.
      * right. simpl in H. injection H as _ H. exists pre, post. exact H.
Qed.

Lemma includes_empty (s : string) : includes s EmptyString = true.
Proof. apply includes_spec. exists EmptyString, s. reflexivity. Qed.

Lemma includes_refl (s : string) : includes s s = true.
Proof.
  apply includes_spec. exists EmptyString, EmptyString. simpl.
  induction s as [|c s IH]; simpl; [reflexivity | rewrite <- IH; reflexivity].
Qed.

Lemma includes_trans (a b c : string) :
  includes a b = true -> includes b c = true -> includes a c = true.
Proof.
  rewrite !includes_spec. intros [p1 [q1 ->]] [p2 [q2 ->]].
  exists (p1 ++ p2)%string, (q2 ++ q1)%string.
  rewrite !app_assoc_string. reflexivity.
Qed.

Lemma includes_mapString (f : ascii -> ascii) (a b : string) :
  includes a b = true -> includes (mapString f a) (mapString f b) = true.
Proof.
  rewrite !includes_spec. intros [pre [post ->]].
  exists (mapString f pre), (mapString f post).
  rewrite !mapString_app. reflexivity.
Qed.

End SubstringFacts.

(* ------------------------------------------------------------------ *)
(** ** Query expansion, error matching and word pairs *)
(* ------------------------------------------------------------------ *)

Module SearchHelpersMoreFacts.
Import JS SearchHelpers SearchHelpersMore.

Lemma uniqueFrom_In (seen xs : list string) (x : string) :
  In x (uniqueFrom seen xs) -> In x xs /\ ~ In x seen.
Proof.
  revert seen. induction xs as [|y ys IH]; intros seen; simpl; [tauto|].
  destruct (inList y seen) eqn:E.
  - intros H. destruct (IH _ H). auto.
  - intros [<-|H].
    + split; [auto | apply SimpleDedupFacts.inList_false, E].
    + destruct (IH _ H) as [Hin Hseen]. split; [auto|].
      intros Hs. apply Hseen. right. exact Hs.
Qed.

Lemma uniqueFrom_NoDup (seen xs : list string) : NoDup (uniqueFrom seen xs).
Proof.
  revert seen. induction xs as [|y ys IH]; intros seen; simpl; [constructor|].
  destruct (inList y seen); [apply IH|].
  constructor; [|apply IH].
  intros Hin. apply uniqueFrom_In in Hin as [_ Hseen]. apply Hseen. left. reflexivity.
Qed.

Lemma uniqueFrom_length (seen xs : list string) :
  length (uniqueFrom seen xs) <= length xs.
Proof.
  revert seen. induction xs as [|y ys IH]; intros seen; simpl; [lia|].
  destruct (inList y seen); simpl;
    [specialize (IH seen) | specialize (IH (y :: seen))]; lia.
Qed.

Lemma pushed_In (baseQuery term : string) (table : list (string * list string)) :
  In term (pushed baseQuery table) ->
  exists entry,
    In entry table /\ includes baseQuery (fst entry) = true /\ In term (snd entry).
Proof.
  unfold pushed. rewrite in_flat_map. intros [entry [Hin Hterm]].
  exists entry. destruct (includes baseQuery (fst entry)); [auto | destruct Hterm].
Qed.

Lemma pushed_length (baseQuery : string) (table : list (string * list string)) :
  length (pushed baseQuery table) <= length (flat_map snd table).
Proof.
  unfold pushed. induction table as [|entry rest IH]; simpl; [lia|].
  rewrite !length_app. destruct (includes baseQuery (fst entry)); simpl; lia.
Qed.

(** X16. The expansion of a query starts with the query itself, lower
    cased and trimmed, and never names a term twice.  Every further
    term is a synonym listed for a trigger that the query contains, so
    a query with no trigger expands to itself alone; there are never
    more than 43 terms. *)
Theorem expandQuery_shape (query : string) :
  exists rest,
    expandQuery query = trim (toLowerCase query) :: rest
    /\ NoDup (expandQuery query)
    /\ length (expandQuery query) <= 43
    /\ (forall term, In term rest ->
          exists entry,
            In entry (technicalExpansions ++ patternExpansions)
            /\ includes (trim (toLowerCase query)) (fst entry) = true
            /\ In term (snd entry))
    /\ ((forall entry, In entry (technicalExpansions ++ patternExpansions) ->
           includes (trim (toLowerCase query)) (fst entry) = false) ->
        rest = []).
Proof.
  unfold expandQuery, unique.
  set (baseQuery := trim (toLowerCase query)).
  set (more := pushed baseQuery technicalExpansions
               ++ pushed baseQuery patternExpansions).
  assert (Hmore : forall term, In term more ->
            exists entry,
              In entry (technicalExpansions ++ patternExpansions)
              /\ includes baseQuery (fst entry) = true /\ In term (snd entry)).
  { intros term Hin. unfold more in Hin. apply in_app_or in Hin as [Hin|Hin];
      apply pushed_In in Hin as [entry [He Hrest]]; exists entry;
      (split; [apply in_or_app; auto | exact Hrest]). }
  cbn [app uniqueFrom inList existsb].
  exists (uniqueFrom [baseQuery] more).
  split; [reflexivity|]. split; [|split; [|split]].
  - constructor; [|apply uniqueFrom_NoDup].
    intros Hin. apply uniqueFrom_In in Hin as [_ Hseen]. apply Hseen. left. reflexivity.
  - cbn [length].
    pose proof (uniqueFrom_length [baseQuery] more) as Hlen.
    assert (Hsum : length more
                   = length (pushed baseQuery technicalExpansions)
                     + length (pushed baseQuery patternExpansions))
      by (unfold more; apply length_app).
    pose proof (pushed_length baseQuery technicalExpansions) as Ha.
    pose proof (pushed_length baseQuery patternExpansions) as Hb.
    change (length (flat_map snd technicalExpansions)) with 35 in Ha.
    change (length (flat_map snd patternExpansions)) with 7 in Hb.
    lia.
  - intros term Hin. apply uniqueFrom_In in Hin as [Hin _]. apply Hmore, Hin.
  - intros Hnone.
    destruct (uniqueFrom [baseQuery] more) as [|term rest] eqn:E; [reflexivity|].
    assert (Hin : In term (uniqueFrom [baseQuery] more)) by (rewrite E; left; reflexivity).
    apply uniqueFrom_In in Hin as [Hin _].
    destruct (Hmore term Hin) as [entry [He [Hinc _]]].
    rewrite (Hnone entry He) in Hinc. discriminate.
Qed.

(** *** hasErrorInContent *)

Lemma existsb_mono {A} (p q : A -> bool) (l : list A) :
  (forall x, p x = true -> q x = true) -> existsb p l = true -> existsb q l = true.
Proof.
  intros H. rewrite !existsb_exists. intros [x [Hin Hp]]. exists x. auto.
Qed.

Lemma filter_mono_length {A} (p q : A -> bool) (l : list A) :
  (forall x, p x = true -> q x = true) ->
  length (filter p l) <= length (filter q l).
Proof.
  intros H. induction l as [|x xs IH]; simpl; [lia|].
  destruct (p x) eqn:E.
  - rewrite (H x E). simpl. lia.
  - destruct (q x); simpl; lia.
Qed.

Lemma dropWhile_all (p : ascii -> bool) (s : string) :
  forallString p s = true -> dropWhile p s = EmptyString.
Proof.
  induction s as [|c s IH]; simpl; [reflexivity|].
  intros H. apply andb_true_iff in H as [Hc Hs]. rewrite Hc. apply IH, Hs.
Qed.

Lemma trim_all_space (s : string) :
  forallString isSpace s = true -> trim s = EmptyString.
Proof.
  intros H. unfold trim. rewrite (dropWhile_all _ _ H). reflexivity.
Qed.

Lemma punctuation_only (errorPattern : string) :
  forallString (fun c => isErrorPunctuation c || isSpace c) errorPattern = true ->
  lowerPatternOf errorPattern = EmptyString.
Proof.
  intros H. unfold lowerPatternOf. apply trim_all_space.
  induction errorPattern as [|c rest IH]; [reflexivity|].
  simpl in H. apply andb_true_iff in H as [Hc Hrest].
  specialize (IH Hrest). cbn [toLowerCase mapString filterString].
  fold (toLowerCase rest).
  assert (Hchar : isErrorPunctuation (lowerChar c) = true
                  \/ (isErrorPunctuation (lowerChar c) = false
                      /\ isSpace (lowerChar c) = true)).
  { revert Hc. clear. destruct c as [[] [] [] [] [] [] [] []]; vm_compute; auto. }
  destruct Hchar as [Hp|[Hp Hs]]; rewrite Hp; cbn [negb]; [exact IH|].
  cbn [forallString]. rewrite Hs. exact IH.
Qed.

(** X17. Matching an error pattern against a content.  A pattern made
    of punctuation marks and white space only matches every content.
    For a pattern that names a specific error code, a content matches
    exactly when it holds the whole pattern or one of the codes the
    pattern names.  And a match is never lost by adding text around the
    content. *)
Theorem hasErrorInContent_matches (content errorPattern : string) :
  (forallString (fun c => isErrorPunctuation c || isSpace c) errorPattern = true ->
   hasErrorInContent content errorPattern = true)
  /\ (forall code,
        In code specificErrorCodes ->
        includes (lowerPatternOf errorPattern) code = true ->
        hasErrorInContent content errorPattern
        = includes (toLowerCase content) (lowerPatternOf errorPattern)
          || existsb
               (fun code' =>
                  includes (lowerPatternOf errorPattern) code'
                  && includes (toLowerCase content) code')
               specificErrorCodes)
  /\ (forall longer,
        includes longer content = true ->
        hasErrorInContent content errorPattern = true ->
        hasErrorInContent longer errorPattern = true).
Proof.
  split; [|split].
  - intros Hpunct. unfold hasErrorInContent.
    rewrite (punctuation_only _ Hpunct), SubstringFacts.includes_empty. reflexivity.
  - intros code Hin Hcode. unfold hasErrorInContent.
    destruct (includes (toLowerCase content) (lowerPatternOf errorPattern));
      [reflexivity|].
    assert (Hspecific : existsb (fun c => includes (lowerPatternOf errorPattern) c)
                          specificErrorCodes = true).
    { apply existsb_exists. exists code. auto. }
    rewrite Hspecific. reflexivity.
  - intros longer Hlonger. unfold hasErrorInContent.
    assert (Hmono : forall x, includes (toLowerCase content) x = true ->
                              includes (toLowerCase longer) x = true).
    { intros x Hx. eapply SubstringFacts.includes_trans; [|exact Hx].
      apply SubstringFacts.includes_mapString. exact Hlonger. }
    destruct (includes (toLowerCase longer) (lowerPatternOf errorPattern)) eqn:Edirect;
      [reflexivity|].
    destruct (includes (toLowerCase content) (lowerPatternOf errorPattern)) eqn:Ec.
    { rewrite (Hmono _ Ec) in Edirect. discriminate. }
    destruct (existsb (fun c => includes (lowerPatternOf errorPattern) c)
                specificErrorCodes).
    + apply existsb_mono. intros c Hc. apply andb_true_iff in Hc as [H1 H2].
      rewrite H1, (Hmono _ H2). reflexivity.
    + destruct (length _ =? 0); [auto|].
      match goal with
      | |- (if existsb ?p _ then _ else _) = true ->
           (if existsb ?q _ then _ else _) = true =>
          destruct (existsb p errorPhrases) eqn:Ephrase;
            [rewrite (existsb_mono p q errorPhrases); [reflexivity| |exact Ephrase]|]
      end.
      * intros phrase Hp. apply andb_true_iff in Hp as [H1 H2].
        rewrite H1, (Hmono _ H2). reflexivity.
      * match goal with
        | |- _ -> (if ?b then _ else _) = true => destruct b; [reflexivity|]
        end.
        intros Hcount. apply Nat.leb_le in Hcount. apply Nat.leb_le.
        eapply Nat.le_trans; [exact Hcount|].
        apply filter_mono_length. exact Hmono.
Qed.

(** *** Word pairs *)

Lemma samePositions_sym (a b : string) : samePositions a b = samePositions b a.
Proof.
  revert b. induction a as [|x a IH]; intros [|y b]; simpl; try reflexivity.
  rewrite IH, (Ascii.eqb_sym x y). reflexivity.
Qed.

Lemma isWordSimilar_sym (a b : string) : isWordSimilar a b = isWordSimilar b a.
Proof.
  unfold isWordSimilar.
  rewrite (Nat.max_comm (String.length a)), (Nat.min_comm (String.length a)),
    (samePositions_sym a b).
  reflexivity.
Qed.

Lemma synonymHit_sym (a b : string) : synonymHit a b = synonymHit b a.
Proof.
  unfold synonymHit. induction technicalSynonyms as [|[key synonyms] rest IH];
    [reflexivity|].
  cbn [existsb]. rewrite IH. f_equal.
  destruct (String.eqb key a), (String.eqb key b), (inList a synonyms),
    (inList b synonyms); reflexivity.
Qed.

(** X18. The score of a pair of words does not depend on which of the
    two words comes from which query, and it is 1 exactly for equal
    words; two words are never similar by position when one of them has
    fewer than 4 characters or their lengths differ by more than 3. *)
Theorem pairScore_symmetric (word1 word2 : string) (s1 s2 : bool) :
  pairScore word1 word2 s1 s2 = pairScore word2 word1 s2 s1
  /\ (fst (pairScore word1 word2 s1 s2) == 1 <-> word1 = word2)
  /\ (isWordSimilar word1 word2 = true ->
      4 <= String.length word1 /\ 4 <= String.length word2
      /\ String.length word1 <= String.length word2 + 3
      /\ String.length word2 <= String.length word1 + 3).
Proof.
  split; [|split].
  - unfold pairScore.
    rewrite (String.eqb_sym word2 word1), (orb_comm (includes word2 word1)),
      (Nat.min_comm (String.length word2)), (Nat.max_comm (String.length word2)),
      (isWordSimilar_sym word2 word1), (synonymHit_sym word2 word1),
      (andb_comm s2 s1).
    reflexivity.
  - unfold pairScore. destruct (String.eqb word1 word2) eqn:E.
    + apply String.eqb_eq in E. simpl. split; [intros _; exact E | reflexivity].
    + apply String.eqb_neq in E. split; [|intros H; contradiction].
      intros Hone. exfalso.
      destruct (includes word1 word2 || includes word2 word1).
      * destruct ((5 <=? _) && Qle_bool _ _) eqn:Eratio; [|discriminate Hone].
        apply andb_prop in Eratio as [Hlen _]. apply Nat.leb_le in Hlen.
        cbn [fst] in Hone.
        set (q := quotient (Nat.min (String.length word1) (String.length word2))
                    (Nat.max (String.length word1) (String.length word2))) in *.
        assert (Hq : (0 <= q <= 1)%Q).
        { split; [apply SimilarityFacts.quotient_nonneg|].
          apply SimilarityFacts.quotient_le_1; lia. }
        assert (Hlt : (Binary64.mul (Binary64.rnd (8 # 10)) q < 1)%Q).
        { apply Qle_lt_trans with (Binary64.rnd (Binary64.rnd (8 # 10) * 1)).
          - apply Binary64Facts.rnd_mono.
            + apply Qmult_le_0_compat; [|apply Hq].
              apply SimilarityFacts.constants_range.
            + apply Qmult_le_l; [|apply Hq]. vm_compute. reflexivity.
          - vm_compute. reflexivity. }
        rewrite Hone in Hlt. discriminate Hlt.
      * destruct (isWordSimilar word1 word2);
          [vm_compute in Hone; discriminate Hone|].
        destruct (synonymHit word1 word2); vm_compute in Hone; discriminate Hone.
  - unfold isWordSimilar.
    destruct (3 <? _) eqn:Ediff; [discriminate|].
    destruct (Nat.min _ _ <? 4) eqn:Emin; [discriminate|].
    apply Nat.ltb_ge in Ediff, Emin. intros _. lia.
Qed.

End SearchHelpersMoreFacts.

(* ------------------------------------------------------------------ *)
(** ** The formatter: similar messages are shown once *)
(* ------------------------------------------------------------------ *)

Module FormatterFacts.
Import JS SearchHelpersMore Formatter SimilarSpec.

Lemma uniqueFrom_complete (seen xs : list string) (x : string) :
  In x xs -> ~ In x seen -> In x (uniqueFrom seen xs).
Proof.
  revert seen. induction xs as [|y ys IH]; intros seen; simpl; [tauto|].
  intros [->|Hin] Hseen.
  - apply SimpleDedupFacts.inList_false in Hseen. rewrite Hseen. left. reflexivity.
  - destruct (inList y seen) eqn:E; [apply IH; assumption|].
    destruct (String.eqb y x) eqn:Eyx.
    + apply String.eqb_eq in Eyx. left. exact Eyx.
    + right. apply IH; [exact Hin|].
      intros [H|H]; [|contradiction].
      subst y. rewrite String.eqb_refl in Eyx. discriminate.
Qed.

Lemma unique_In (xs : list string) (x : string) : In x (unique xs) <-> In x xs.
Proof.
  unfold unique. split.
  - intros H. apply SearchHelpersMoreFacts.uniqueFrom_In in H as [H _]. exact H.
  - intros H. apply uniqueFrom_complete; [exact H | intros []].
Qed.

Lemma unique_NoDup (xs : list string) : NoDup (unique xs).
Proof. apply SearchHelpersMoreFacts.uniqueFrom_NoDup. Qed.

(** Two sets with the same members have the same size. *)
Lemma unique_length_ext (xs ys : list string) :
  (forall x, In x xs <-> In x ys) -> length (unique xs) = length (unique ys).
Proof.
  intros H. apply Permutation_length, NoDup_Permutation; try apply unique_NoDup.
  intros x. rewrite !unique_In. apply H.
Qed.

Lemma split_nonempty (delim : ascii -> bool) (s : string) : split delim s <> [].
Proof.
  induction s as [|c s IH]; simpl; [discriminate|].
  destruct (delim c).
  - destruct (startsWithP delim s); [exact IH | discriminate].
  - destruct (split delim s); discriminate.
Qed.

Lemma wordSet_nonempty (text : string) : 0 < length (wordSet text).
Proof.
  unfold wordSet, unique, splitSpaces.
  destruct (split isSpace (toLowerCase text)) as [|w ws] eqn:E.
  - exfalso. exact (split_nonempty _ _ E).
  - simpl. lia.
Qed.

Lemma union_positive (text1 text2 : string) :
  0 < length (unique (wordSet text1 ++ wordSet text2)).
Proof.
  pose proof (wordSet_nonempty text1) as H.
  destruct (wordSet text1) as [|w ws]; [simpl in H; lia|].
  unfold unique. simpl. lia.
Qed.

Lemma calculateSimilarity_sym (text1 text2 : string) :
  calculateSimilarity text1 text2 = calculateSimilarity text2 text1.
Proof.
  unfold calculateSimilarity. f_equal.
  - apply unique_length_ext. intros x. rewrite !filter_In, !SimilarityFacts.inList_In.
    tauto.
  - apply unique_length_ext. intros x. rewrite !in_app_iff. tauto.
Qed.

Lemma calculateSimilarity_same_words (text1 text2 : string) :
  (forall w, In w (wordSet text1) <-> In w (wordSet text2)) ->
  calculateSimilarity text1 text2 == 1.
Proof.
  intros Hsame. unfold calculateSimilarity.
  assert (Hlen : length (unique (filter (fun x => inList x (wordSet text2))
                                   (wordSet text1)))
                 = length (unique (wordSet text1 ++ wordSet text2))).
  { apply unique_length_ext. intros x.
    rewrite filter_In, SimilarityFacts.inList_In, in_app_iff, <- Hsame. tauto. }
  rewrite Hlen. apply SimilarityFacts.ratio_self, union_positive.
Qed.

(** X19. The similarity of two texts is the Jaccard index of their
    sets of lower-cased words: it lies between 0 and 1, does not depend
    on the order of the two texts, and is 1 for two texts with the same
    words, so for every text and itself. *)
Theorem calculateSimilarity_jaccard (text1 text2 : string) :
  (0 <= calculateSimilarity text1 text2 <= 1)%Q
  /\ calculateSimilarity text1 text2 = calculateSimilarity text2 text1
  /\ calculateSimilarity text1 text1 == 1
  /\ ((forall w, In w (wordSet text1) <-> In w (wordSet text2)) ->
      calculateSimilarity text1 text2 == 1).
Proof.
  split; [|split; [apply calculateSimilarity_sym|split;
                   [apply calculateSimilarity_same_words; tauto
                   |apply calculateSimilarity_same_words]]].
  unfold calculateSimilarity. split; [apply SimilarityFacts.ratio_nonneg|].
  apply SimilarityFacts.ratio_le_1; [|apply union_positive].
  apply NoDup_incl_length; [apply unique_NoDup|].
  intros x. rewrite !unique_In, filter_In, in_app_iff. tauto.
Qed.

Lemma ForallOrdPairs_snoc {A} (R : A -> A -> Prop) (l : list A) (x : A) :
  ForallOrdPairs R l -> Forall (fun y => R y x) l -> ForallOrdPairs R (l ++ [x]).
Proof.
  induction 1 as [|y ys Hy Hys IH]; intros Hall; simpl.
  - repeat constructor.
  - inversion Hall as [|z zs Hyx Hrest]; subst. constructor.
    + apply Forall_app. split; [exact Hy | repeat constructor; exact Hyx].
    + apply IH. exact Hrest.
Qed.

Lemma ForallOrdPairs_insertDesc {A} (R : A -> A -> Prop) (key : A -> Q)
  (x : A) (l : list A) :
  (forall a b, R a b -> R b a) ->
  Forall (R x) l -> ForallOrdPairs R l -> ForallOrdPairs R (insertDesc key x l).
Proof.
  intros Hsym Hx Hl. induction Hl as [|y ys Hy Hys IH]; simpl.
  - repeat constructor.
  - inversion Hx as [|z zs Hxy Hxs]; subst.
    destruct (Qlt_bool (key x) (key y)).
    + constructor; [|apply IH; exact Hxs].
      apply Forall_forall. intros z Hz.
      apply RerankFacts.insertDesc_In in Hz as [->|Hz];
        [apply Hsym, Hxy | rewrite Forall_forall in Hy; apply Hy, Hz].
    + constructor; [exact Hx | constructor; assumption].
Qed.

Lemma ForallOrdPairs_sortDesc {A} (R : A -> A -> Prop) (key : A -> Q) (l : list A) :
  (forall a b, R a b -> R b a) ->
  ForallOrdPairs R l -> ForallOrdPairs R (sortDesc key l).
Proof.
  intros Hsym. induction 1 as [|x xs Hx Hxs IH]; simpl; [constructor|].
  apply ForallOrdPairs_insertDesc; [exact Hsym | | exact IH].
  apply Forall_forall. intros y Hy. apply RerankFacts.sortDesc_In in Hy.
  rewrite Forall_forall in Hx. apply Hx, Hy.
Qed.

Lemma dropSimilar_spec (deduplicated scored : list (CompactMessage * Z)) :
  ForallOrdPairs (fun a b : CompactMessage * Z =>
       (calculateSimilarity (content (fst a)) (content (fst b)) <= 8 # 10)%Q) deduplicated ->
  ForallOrdPairs (fun a b : CompactMessage * Z =>
       (calculateSimilarity (content (fst a)) (content (fst b)) <= 8 # 10)%Q) (dropSimilar deduplicated scored)
  /\ (forall msg, In msg (dropSimilar deduplicated scored) ->
        In msg deduplicated \/ In msg scored)
  /\ (forall msg, In msg deduplicated -> In msg (dropSimilar deduplicated scored))
  /\ (forall msg, In msg scored ->
        exists kept,
          In kept (dropSimilar deduplicated scored)
          /\ (8 # 10 < calculateSimilarity (content (fst msg)) (content (fst kept)))%Q).
Proof.
  revert deduplicated. induction scored as [|msg rest IH]; intros deduplicated Hpairs.
  - simpl. split; [exact Hpairs|]. split; [auto|]. split; [auto|]. intros msg [].
  - cbn [dropSimilar].
    destruct (existsb _ deduplicated) eqn:Edup.
    + destruct (IH deduplicated Hpairs) as [H1 [H2 [H3 H4]]].
      split; [exact H1|]. split; [|split; [exact H3|]].
      * intros m Hm. destruct (H2 m Hm); [left | right; right]; assumption.
      * intros m [<-|Hm]; [|apply H4, Hm].
        apply existsb_exists in Edup as [existing [Hin Hsim]].
        exists existing. split; [apply H3, Hin|].
        apply SimilarFacts.Qlt_bool_true. exact Hsim.
    + assert (Hpairs' : ForallOrdPairs (fun a b : CompactMessage * Z =>
       (calculateSimilarity (content (fst a)) (content (fst b)) <= 8 # 10)%Q)
                          (deduplicated ++ [msg])).
      { apply ForallOrdPairs_snoc; [exact Hpairs|].
        apply Forall_forall. intros existing Hin.
        rewrite calculateSimilarity_sym.
        destruct (Qlt_bool (8 # 10)
                    (calculateSimilarity (content (fst msg)) (content (fst existing))))
          eqn:E.
        - assert (existsb
                    (fun existing =>
                       Qlt_bool (8 # 10)
                         (calculateSimilarity (content (fst msg))
                            (content (fst existing)))) deduplicated = true)
            by (apply existsb_exists; exists existing; auto).
          congruence.
        - apply SimilarFacts.Qlt_bool_false. exact E. }
      destruct (IH _ Hpairs') as [H1 [H2 [H3 H4]]].
      split; [exact H1|]. split; [|split].
      * intros m Hm. destruct (H2 m Hm) as [H|H]; [|right; right; exact H].
        apply in_app_or in H as [H|[<-|[]]]; [left; exact H | right; left; reflexivity].
      * intros m Hm. apply H3, in_or_app. left. exact Hm.
      * intros m [<-|Hm]; [|apply H4, Hm].
        exists msg. split; [apply H3, in_or_app; right; left; reflexivity|].
        assert (Hself : calculateSimilarity (content (fst msg)) (content (fst msg)) == 1)
          by (apply calculateSimilarity_same_words; tauto).
        rewrite Hself. reflexivity.
Qed.

(** X20. Of the messages handed to the formatter, those shown are in
    non-increasing order of their density score, each with the score
    computed for it; no two of them are more than 0.8 similar, in
    either order; and every message that is not shown is more than 0.8
    similar to one that is.  The first message is always shown. *)
Theorem rankAndDeduplicateMessages_shows_distinct (messages : list CompactMessage) :
  StronglySorted (byKey (fun msg => inject_Z (snd msg)))
    (rankAndDeduplicateMessages messages)
  /\ ForallOrdPairs
       (fun a b =>
          (calculateSimilarity (content (fst a)) (content (fst b)) <= 8 # 10)%Q
          /\ (calculateSimilarity (content (fst b)) (content (fst a)) <= 8 # 10)%Q)
       (rankAndDeduplicateMessages messages)
  /\ (forall shown, In shown (rankAndDeduplicateMessages messages) ->
        In (fst shown) messages /\ snd shown = densityScore (fst shown))
  /\ (forall msg, In msg messages ->
        exists shown,
          In shown (rankAndDeduplicateMessages messages)
          /\ (8 # 10 < calculateSimilarity (content msg) (content (fst shown)))%Q)
  /\ (forall first rest,
        messages = first :: rest ->
        In (first, densityScore first) (rankAndDeduplicateMessages messages)).
Proof.
  unfold rankAndDeduplicateMessages.
  destruct (dropSimilar_spec [] (map (fun msg => (msg, densityScore msg)) messages))
    as [Hpairs [Hfrom [_ Hcover]]]; [constructor|].
  assert (Hperm := ListingFacts.sortDesc_Permutation
                     (fun msg : CompactMessage * Z => inject_Z (snd msg))
                     (dropSimilar [] (map (fun msg => (msg, densityScore msg)) messages))).
  split; [apply SimilarFacts.sortDesc_StronglySorted|].
  split; [|split; [|split]].
  - apply ForallOrdPairs_sortDesc; [intros a b [H1 H2]; auto|].
    clear -Hpairs. induction Hpairs as [|x xs Hx Hxs IH]; constructor; [|exact IH].
    eapply Forall_impl; [|exact Hx]. intros y Hy. split; [exact Hy|].
    rewrite calculateSimilarity_sym. exact Hy.
  - intros shown Hin. apply RerankFacts.sortDesc_In in Hin.
    destruct (Hfrom shown Hin) as [[]|H].
    apply in_map_iff in H as [msg [<- Hmsg]]. split; [exact Hmsg | reflexivity].
  - intros msg Hin.
    destruct (Hcover (msg, densityScore msg)) as [kept [Hkept Hsim]].
    { apply in_map_iff. exists msg. auto. }
    exists kept. split; [|exact Hsim].
    eapply Permutation_in; [symmetry; exact Hperm | exact Hkept].
  - intros first rest ->.
    eapply Permutation_in; [symmetry; exact Hperm|].
    cbn [map dropSimilar existsb app].
    destruct (dropSimilar_spec [(first, densityScore first)]
                (map (fun msg => (msg, densityScore msg)) rest))
      as [_ [_ [Hkeep _]]]; [repeat constructor|].
    apply Hkeep. left. reflexivity.
Qed.

(** *** Truncation for display *)

Lemma revString_length (s acc : string) :
  String.length (revString s acc) = String.length s + String.length acc.
Proof.
  revert acc. induction s as [|c s IH]; intros acc; simpl; [reflexivity|].
  rewrite IH. simpl. lia.
Qed.

Lemma dropWhile_length (p : ascii -> bool) (s : string) :
  String.length (dropWhile p s) <= String.length s.
Proof.
  induction s as [|c s IH]; simpl; [lia|]. destruct (p c); simpl; lia.
Qed.

Lemma trim_length (s : string) : String.length (trim s) <= String.length s.
Proof.
  unfold trim. rewrite revString_length. simpl.
  eapply Nat.le_trans; [rewrite Nat.add_0_r; apply dropWhile_length|].
  rewrite revString_length. simpl. rewrite Nat.add_0_r. apply dropWhile_length.
Qed.

Lemma endsWith_append (s suffix : string) : endsWith (s ++ suffix) suffix = true.
Proof.
  induction s as [|c s IH]; simpl.
  - destruct suffix; simpl; [reflexivity|].
    rewrite Ascii.eqb_refl, String.eqb_refl. reflexivity.
  - rewrite IH. apply orb_true_r.
Qed.

(** The loops never pass the budget (with a separator of one
    character), and add nothing under a budget below 1. *)
Lemma addWhileFits_budget (budget : Z) (sep : string) (pieces : list string)
  (result : string) :
  String.length sep = 1 ->
  (Z.of_nat (String.length (addWhileFits budget sep pieces result))
   <= Z.max budget (Z.of_nat (String.length result)))%Z
  /\ ((budget < 1)%Z -> addWhileFits budget sep pieces result = result).
Proof.
  intros Hsep. revert result. induction pieces as [|piece rest IH]; intros result.
  - simpl. split; [lia | reflexivity].
  - cbn [addWhileFits].
    destruct (Z.of_nat (String.length result) + Z.of_nat (String.length piece) + 1
              <=? budget)%Z eqn:E.
    + apply Z.leb_le in E. destruct (IH (result ++ piece ++ sep)%string) as [Hlen _].
      rewrite !ParserMoreFacts.append_length, Hsep in Hlen.
      split; lia.
    + split; [lia | reflexivity].
Qed.

(** X23. The formatter's truncation returns a text within the budget
    unchanged.  For a budget of 3 or more it never returns more than
    the budget; a text over the budget comes back ending in two dots at
    least, and for a budget below 4 as the three dots alone (which
    exceed a budget below 3). *)
Theorem intelligentTextTruncation_budget (text : string) (maxLength : Z) :
  ((Parser.strlen text <= maxLength)%Z ->
   intelligentTextTruncation text maxLength = text)
  /\ ((3 <= maxLength)%Z ->
      (Parser.strlen (intelligentTextTruncation text maxLength) <= maxLength)%Z)
  /\ ((maxLength < Parser.strlen text)%Z ->
      endsWith (intelligentTextTruncation text maxLength) ".." = true)
  /\ ((maxLength < Parser.strlen text)%Z -> (maxLength < 4)%Z ->
      intelligentTextTruncation text maxLength = "...").
Proof.
  unfold intelligentTextTruncation.
  destruct (addWhileFits_budget (maxLength - 3) "." (split isSentenceEnd text)
              EmptyString eq_refl) as [Hsentences Hnone1].
  destruct (addWhileFits_budget (maxLength - 3) " " (splitOn (ascii_of_nat 32) text)
              EmptyString eq_refl) as [Hwords Hnone2].
  pose proof (trim_length (addWhileFits (maxLength - 3) " "
                             (splitOn (ascii_of_nat 32) text) EmptyString)) as Htrim.
  cbn [String.length] in Hsentences, Hwords.
  destruct (Parser.strlen text <=? maxLength)%Z eqn:E.
  - apply Z.leb_le in E. split; [reflexivity|]. split; [intros _; exact E|].
    split; intros H; lia.
  - apply Z.leb_gt in E. split; [intros H; lia|]. split; [|split].
    + intros Hbudget. unfold Parser.strlen.
      destruct (0 <? String.length _);
        rewrite ParserMoreFacts.append_length; cbn [String.length]; lia.
    + intros _. destruct (0 <? String.length _); [apply endsWith_append|].
      change "..." with ("." ++ "..")%string.
      rewrite <- SubstringFacts.app_assoc_string. apply endsWith_append.
    + intros _ Hsmall.
      rewrite Hnone1, Hnone2 by lia. reflexivity.
Qed.

End FormatterFacts.

(* ------------------------------------------------------------------ *)
(** ** De-duplication by content *)
(* ------------------------------------------------------------------ *)

Module ContentDedupFacts.
Import JS Engine ContentDedup ContentDedupInv.

Lemma sortedLists_idempotent (m : CompactMessage) :
  sortedLists (sortedLists m) = sortedLists m.
Proof.
  unfold sortedLists.
  destruct (context m) as [c|] eqn:Ec; [|rewrite Ec; reflexivity].
  cbn [context filesReferenced toolsUsed].
  destruct (filesReferenced c), (toolsUsed c); cbn [option_map];
    rewrite ?DedupFacts.sortStrings_idempotent; reflexivity.
Qed.

Lemma signature_sortedLists (m : CompactMessage) :
  createContentSignature (sortedLists m) = createContentSignature m.
Proof.
  unfold createContentSignature, sortedLists, ctxField.
  destruct (context m) as [c|] eqn:Ec; [|rewrite Ec; reflexivity].
  cbn [context filesReferenced toolsUsed errorPatterns content].
  destruct (filesReferenced c), (toolsUsed c); cbn [option_map orNil];
    rewrite ?DedupFacts.sortStrings_idempotent; reflexivity.
Qed.

Lemma relevanceScore_sortedLists (m : CompactMessage) :
  relevanceScore (sortedLists m) = relevanceScore m.
Proof. unfold sortedLists. destruct (context m); reflexivity. Qed.

Lemma contentKeyed_mapSet (seen : list (string * CompactMessage)) (m : CompactMessage) :
  contentKeyed seen ->
  contentKeyed (mapSet (createContentSignature m) (sortedLists m) seen).
Proof.
  intros [Hnd Hall]. split.
  - destruct (mapGet (createContentSignature m) seen) eqn:E.
    + rewrite DedupFacts.mapSet_present_keys by congruence. exact Hnd.
    + rewrite (DedupFacts.mapSet_absent _ _ _ E), map_app. simpl.
      apply DedupFacts.mapGet_None in E.
      apply NoDup_rev in Hnd. rewrite <- (rev_involutive (map fst seen ++ _)).
      apply NoDup_rev. rewrite rev_app_distr. simpl.
      constructor; [rewrite <- in_rev; exact E | exact Hnd].
  - intros k v Hin. apply DedupFacts.mapSet_In in Hin as [Heq|Hin]; [|apply Hall; exact Hin].
    inversion Heq; subst.
    split; [apply signature_sortedLists | apply sortedLists_idempotent].
Qed.

Lemma contentKeyed_contentDedupStep (seen : list (string * CompactMessage)) (m : CompactMessage) :
  contentKeyed seen -> contentKeyed (contentDedupStep seen m).
Proof.
  intros H. unfold contentDedupStep.
  destruct (mapGet (createContentSignature m) seen) as [existing|].
  - destruct (Qlt_bool _ _); [apply contentKeyed_mapSet; exact H | exact H].
  - apply contentKeyed_mapSet. exact H.
Qed.

Lemma contentKeyed_fold (l : list CompactMessage) (seen : list (string * CompactMessage)) :
  contentKeyed seen -> contentKeyed (fold_left contentDedupStep l seen).
Proof.
  revert seen. induction l as [|m ms IH]; intros seen H; simpl; [exact H|].
  apply IH, contentKeyed_contentDedupStep, H.
Qed.

(** Feeding the values of a well-keyed map back in rebuilds that map. *)
Lemma content_refill (rest acc : list (string * CompactMessage)) :
  contentKeyed (acc ++ rest) ->
  fold_left contentDedupStep (map snd rest) acc = acc ++ rest.
Proof.
  revert acc. induction rest as [|[k v] rest IH]; intros acc H; simpl.
  - rewrite app_nil_r. reflexivity.
  - destruct H as [Hnd Hall].
    destruct (Hall k v) as [Hsig Hsorted]; [apply in_or_app; right; left; reflexivity|].
    assert (Habsent : mapGet k acc = None).
    { apply DedupFacts.mapGet_None. intros Hin.
      rewrite map_app in Hnd. simpl in Hnd.
      apply NoDup_remove_2 in Hnd. apply Hnd, in_or_app. left. exact Hin. }
    unfold contentDedupStep at 2. rewrite Hsig, Habsent, Hsorted.
    rewrite (DedupFacts.mapSet_absent _ _ _ Habsent).
    rewrite IH; rewrite <- app_assoc; simpl; [reflexivity|].
    split; assumption.
Qed.

Lemma deduplicateByContent_idempotent (messages : list CompactMessage) :
  deduplicateByContent (deduplicateByContent messages)
  = deduplicateByContent messages.
Proof.
  unfold deduplicateByContent.
  rewrite (content_refill (fold_left contentDedupStep messages []) []); [reflexivity|].
  simpl. apply contentKeyed_fold. split; [constructor | intros k v []].
Qed.

(** Every record that leaves de-duplication is one of the records that
    entered it, with its tools sorted. *)
Lemma content_fold_In (l : list CompactMessage) (seen : list (string * CompactMessage))
  (kv : string * CompactMessage) :
  In kv (fold_left contentDedupStep l seen) ->
  In kv seen \/ exists m, In m l /\ snd kv = sortedLists m.
Proof.
  revert seen. induction l as [|m ms IH]; intros seen H; simpl in H; [left; exact H|].
  apply IH in H as [H|[m' [Hin Heq]]].
  - unfold contentDedupStep in H.
    assert (Hset : In kv (mapSet (createContentSignature m) (sortedLists m) seen) ->
                   In kv seen \/ exists m0, In m0 (m :: ms) /\ snd kv = sortedLists m0).
    { intros Hs. apply DedupFacts.mapSet_In in Hs as [Hs|Hs]; [|left; exact Hs].
      right. exists m. split; [left; reflexivity | subst kv; reflexivity]. }
    destruct (mapGet (createContentSignature m) seen).
    + destruct (Qlt_bool _ _); [apply Hset; exact H | left; exact H].
    + apply Hset; exact H.
  - right. exists m'. split; [right; exact Hin | exact Heq].
Qed.

Lemma deduplicateByContent_In (l : list CompactMessage) (m : CompactMessage) :
  In m (deduplicateByContent l) -> exists m0, In m0 l /\ m = sortedLists m0.
Proof.
  unfold deduplicateByContent. intros H.
  apply in_map_iff in H as [kv [Heq Hin]].
  apply content_fold_In in Hin as [[]|[m0 [Hin Hm]]].
  exists m0. split; [exact Hin | congruence].
Qed.

Lemma relevance_le_refl (m : CompactMessage) :
  (orZero (relevanceScore m) <= orZero (relevanceScore (sortedLists m)))%Q.
Proof. rewrite relevanceScore_sortedLists. apply Qle_refl. Qed.

Lemma contentKeyed_signatures (seen : list (string * CompactMessage)) :
  contentKeyed seen -> map createContentSignature (map snd seen) = map fst seen.
Proof.
  intros [_ Hall]. induction seen as [|[k v] rest IH]; simpl; [reflexivity|].
  destruct (Hall k v (or_introl eq_refl)) as [-> _]. f_equal.
  apply IH. intros k' v' Hin. apply Hall. right. exact Hin.
Qed.

Lemma contentDedupStep_covers_new (seen : list (string * CompactMessage)) (m : CompactMessage) :
  exists kept,
    In (createContentSignature m, kept) (contentDedupStep seen m)
    /\ (orZero (relevanceScore m) <= orZero (relevanceScore kept))%Q.
Proof.
  unfold contentDedupStep.
  destruct (mapGet (createContentSignature m) seen) as [existing|] eqn:E.
  - destruct (Qlt_bool _ _) eqn:L.
    + exists (sortedLists m). split; [apply DedupMoreFacts.mapSet_In_new | apply relevance_le_refl].
    + exists existing. split; [apply DedupMoreFacts.mapGet_Some_In; exact E|].
      apply SimilarFacts.Qlt_bool_false in L.
      rewrite relevanceScore_sortedLists in L. exact L.
  - exists (sortedLists m). split; [apply DedupMoreFacts.mapSet_In_new | apply relevance_le_refl].
Qed.

Lemma contentDedupStep_covers_old (seen : list (string * CompactMessage))
  (m : CompactMessage) (k : string) (v : CompactMessage) :
  contentKeyed seen -> In (k, v) seen ->
  exists kept,
    In (k, kept) (contentDedupStep seen m)
    /\ (orZero (relevanceScore v) <= orZero (relevanceScore kept))%Q.
Proof.
  intros [Hnd _] Hin. unfold contentDedupStep.
  assert (Hset :
    (k = createContentSignature m ->
     (orZero (relevanceScore v) <= orZero (relevanceScore (sortedLists m)))%Q) ->
    exists kept,
      In (k, kept) (mapSet (createContentSignature m) (sortedLists m) seen)
      /\ (orZero (relevanceScore v) <= orZero (relevanceScore kept))%Q).
  { intros Hle.
    destruct (String.eqb k (createContentSignature m)) eqn:E.
    - apply String.eqb_eq in E.
      exists (sortedLists m). split; [rewrite E; apply DedupMoreFacts.mapSet_In_new|].
      apply Hle. exact E.
    - apply String.eqb_neq in E. exists v.
      split; [apply DedupMoreFacts.mapSet_In_other; assumption | apply Qle_refl]. }
  destruct (mapGet (createContentSignature m) seen) as [existing|] eqn:E.
  - destruct (Qlt_bool _ _) eqn:L.
    + apply Hset. intros Hk. subst k.
      rewrite (DedupMoreFacts.In_mapGet _ _ _ Hnd Hin) in E. injection E as ->.
      apply SimilarFacts.Qlt_bool_true in L. apply Qlt_le_weak. exact L.
    + exists v. split; [exact Hin | apply Qle_refl].
  - apply Hset. intros Hk. subst k.
    rewrite (DedupMoreFacts.In_mapGet _ _ _ Hnd Hin) in E. discriminate.
Qed.

Lemma content_fold_covers_old (l : list CompactMessage)
  (seen : list (string * CompactMessage)) (k : string) (v : CompactMessage) :
  contentKeyed seen -> In (k, v) seen ->
  exists kept,
    In (k, kept) (fold_left contentDedupStep l seen)
    /\ (orZero (relevanceScore v) <= orZero (relevanceScore kept))%Q.
Proof.
  revert seen v. induction l as [|m ms IH]; intros seen v Hwk Hin; simpl.
  - exists v. split; [exact Hin | apply Qle_refl].
  - destruct (contentDedupStep_covers_old seen m k v Hwk Hin) as [kept [Hk Hle]].
    destruct (IH (contentDedupStep seen m) kept
                (contentKeyed_contentDedupStep seen m Hwk) Hk)
      as [kept' [Hk' Hle']].
    exists kept'. split; [exact Hk' | eapply Qle_trans; eassumption].
Qed.

Lemma content_fold_covers (l : list CompactMessage)
  (seen : list (string * CompactMessage)) (m : CompactMessage) :
  contentKeyed seen -> In m l ->
  exists kept,
    In (createContentSignature m, kept) (fold_left contentDedupStep l seen)
    /\ (orZero (relevanceScore m) <= orZero (relevanceScore kept))%Q.
Proof.
  revert seen. induction l as [|x xs IH]; intros seen Hwk Hin; [destruct Hin|].
  simpl. destruct Hin as [->|Hin].
  - destruct (contentDedupStep_covers_new seen m) as [kept [Hk Hle]].
    destruct (content_fold_covers_old xs (contentDedupStep seen m) _ kept
                (contentKeyed_contentDedupStep seen m Hwk) Hk)
      as [kept' [Hk' Hle']].
    exists kept'. split; [exact Hk' | eapply Qle_trans; eassumption].
  - apply IH; [apply contentKeyed_contentDedupStep; exact Hwk | exact Hin].
Qed.

Lemma contentKeyed_nil : contentKeyed [].
Proof. split; [constructor | intros k v []]. Qed.

Lemma content_fold_length (l : list CompactMessage)
  (seen : list (string * CompactMessage)) :
  length (fold_left contentDedupStep l seen) <= length seen + length l.
Proof.
  revert seen. induction l as [|m ms IH]; intros seen; simpl; [lia|].
  eapply Nat.le_trans; [apply IH|].
  assert (length (contentDedupStep seen m) <= S (length seen)); [|lia].
  unfold contentDedupStep.
  pose proof (DedupMoreFacts.mapSet_length (createContentSignature m) (sortedLists m) seen).
  destruct (mapGet _ seen); [destruct (Qlt_bool _ _)|]; lia.
Qed.

Lemma deduplicateByContent_length (l : list CompactMessage) :
  length (deduplicateByContent l) <= length l.
Proof.
  unfold deduplicateByContent. rewrite length_map.
  apply (content_fold_length l []).
Qed.

Lemma deduplicateByContent_NoDup (l : list CompactMessage) :
  NoDup (map createContentSignature (deduplicateByContent l)).
Proof.
  unfold deduplicateByContent.
  pose proof (contentKeyed_fold l [] contentKeyed_nil) as Hwk.
  rewrite (contentKeyed_signatures _ Hwk). exact (proj1 Hwk).
Qed.

(** X21. De-duplication by content leaves no two records with the
    same content signature; every record that went in is represented
    by a record of the same signature whose relevance score is at least
    as high; every record that comes out is one that went in (with its
    files and tools sorted); and a second pass changes nothing. *)
Theorem deduplicateByContent_keeps_best (messages : list CompactMessage) :
  NoDup (map createContentSignature (deduplicateByContent messages))
  /\ length (deduplicateByContent messages) <= length messages
  /\ (forall m, In m messages ->
        exists kept,
          In kept (deduplicateByContent messages)
          /\ createContentSignature kept = createContentSignature m
          /\ (orZero (relevanceScore m) <= orZero (relevanceScore kept))%Q)
  /\ (forall kept, In kept (deduplicateByContent messages) ->
        exists m, In m messages /\ kept = sortedLists m)
  /\ deduplicateByContent (deduplicateByContent messages)
     = deduplicateByContent messages.
Proof.
  split; [apply deduplicateByContent_NoDup|].
  split; [apply deduplicateByContent_length|].
  split; [|split; [apply deduplicateByContent_In
                  |apply deduplicateByContent_idempotent]].
  intros m Hin.
  destruct (content_fold_covers messages [] m contentKeyed_nil Hin) as [kept [Hk Hle]].
  exists kept. split; [|split; [|exact Hle]].
  - unfold deduplicateByContent. apply in_map_iff.
    exists (createContentSignature m, kept). auto.
  - pose proof (contentKeyed_fold messages [] contentKeyed_nil) as [_ Hall].
    apply (Hall _ _ Hk).
Qed.

End ContentDedupFacts.

(* ------------------------------------------------------------------ *)
(** ** The parser's session bookkeeping *)
(* ------------------------------------------------------------------ *)

Module SessionFacts.
Import JS Engine Sessions.

Lemma mapGet_mapSet_other {V} (key key' : string) (v : V) (m : list (string * V)) :
  key' <> key -> mapGet key' (mapSet key v m) = mapGet key' m.
Proof.
  intros Hne. induction m as [|[k old] rest IH]; simpl.
  - destruct (String.eqb key key') eqn:E; [|reflexivity].
    apply String.eqb_eq in E. congruence.
  - destruct (String.eqb k key) eqn:E; simpl.
    + apply String.eqb_eq in E. subst k.
      destruct (String.eqb key key') eqn:E'; [|reflexivity].
      apply String.eqb_eq in E'. congruence.
    + destruct (String.eqb k key'); [reflexivity | exact IH].
Qed.

Lemma mapSet_keys_NoDup {V} (key : string) (v : V) (m : list (string * V)) :
  NoDup (map fst m) -> NoDup (map fst (mapSet key v m)).
Proof.
  intros Hnd. destruct (mapGet key m) eqn:E.
  - rewrite DedupFacts.mapSet_present_keys by congruence. exact Hnd.
  - rewrite (DedupFacts.mapSet_absent _ _ _ E), map_app. simpl.
    apply DedupFacts.mapGet_None in E.
    apply NoDup_rev in Hnd. rewrite <- (rev_involutive (map fst m ++ _)).
    apply NoDup_rev. rewrite rev_app_distr. simpl.
    constructor; [rewrite <- in_rev; exact E | exact Hnd].
Qed.

Section WithCalendar.
Variable World : Type.
Variable calendar : Calendar World.
Variable deps : ParserDeps.

(** One message more for its session, and nothing else counted. *)
Lemma updateSessionInfo_counts (message : ClaudeMessage) (projectDir : string)
  (st : ParserState World) (sid : string) :
  messageCountOf sid (fst (updateSessionInfo World calendar message projectDir st))
  = messageCountOf sid (fst st)
    + (if String.eqb (cm_sessionId message) sid then 1 else 0).
Proof.
  destruct st as [sessions w]. unfold updateSessionInfo, messageCountOf. cbn [fst].
  destruct (mapGet (cm_sessionId message) sessions) as [session|] eqn:Eget.
  - rewrite Eget. cbn [fst].
    destruct (String.eqb (cm_sessionId message) sid) eqn:E.
    + apply String.eqb_eq in E. subst sid.
      rewrite CacheFacts.mapGet_mapSet, Eget. cbn. lia.
    + apply String.eqb_neq in E.
      rewrite mapGet_mapSet_other by congruence. lia.
  - destruct (stampOrNow World calendar (cm_timestamp message) w) as [startTime w'].
    destruct (stampOrNow World calendar (cm_timestamp message) w') as [endTime w''].
    rewrite CacheFacts.mapGet_mapSet. cbn [fst].
    destruct (String.eqb (cm_sessionId message) sid) eqn:E.
    + apply String.eqb_eq in E. subst sid.
      rewrite CacheFacts.mapGet_mapSet, Eget. reflexivity.
    + apply String.eqb_neq in E.
      rewrite !mapGet_mapSet_other by congruence. lia.
Qed.

Lemma updateSessionInfo_keys (message : ClaudeMessage) (projectDir : string)
  (st : ParserState World) :
  NoDup (map fst (fst st)) ->
  NoDup (map fst (fst (updateSessionInfo World calendar message projectDir st))).
Proof.
  destruct st as [sessions w]. unfold updateSessionInfo. cbn [fst]. intros Hnd.
  destruct (mapGet (cm_sessionId message) sessions) as [session|] eqn:Eget.
  - rewrite Eget. cbn [fst]. apply mapSet_keys_NoDup, Hnd.
  - destruct (stampOrNow World calendar (cm_timestamp message) w) as [startTime w'].
    destruct (stampOrNow World calendar (cm_timestamp message) w') as [endTime w''].
    rewrite CacheFacts.mapGet_mapSet. cbn [fst].
    apply mapSet_keys_NoDup, mapSet_keys_NoDup, Hnd.
Qed.

(** A session is known afterwards when it was known before, or is the
    session of the message. *)
Lemma updateSessionInfo_known (message : ClaudeMessage) (projectDir : string)
  (st : ParserState World) (sid : string) :
  mapGet sid (fst (updateSessionInfo World calendar message projectDir st)) <> None
  <-> mapGet sid (fst st) <> None \/ cm_sessionId message = sid.
Proof.
  destruct st as [sessions w]. unfold updateSessionInfo. cbn [fst].
  destruct (String.eqb (cm_sessionId message) sid) eqn:E.
  - apply String.eqb_eq in E. subst sid.
    destruct (mapGet (cm_sessionId message) sessions) as [session|] eqn:Eget.
    + rewrite Eget. cbn [fst]. rewrite CacheFacts.mapGet_mapSet.
      split; [auto | discriminate].
    + destruct (stampOrNow World calendar (cm_timestamp message) w) as [startTime w'].
      destruct (stampOrNow World calendar (cm_timestamp message) w') as [endTime w''].
      rewrite CacheFacts.mapGet_mapSet. cbn [fst]. rewrite CacheFacts.mapGet_mapSet.
      split; [auto | discriminate].
  - apply String.eqb_neq in E.
    destruct (mapGet (cm_sessionId message) sessions) as [session|] eqn:Eget.
    + rewrite Eget. cbn [fst]. rewrite mapGet_mapSet_other by congruence.
      split; [auto | intros [H|H]; [exact H | contradiction]].
    + destruct (stampOrNow World calendar (cm_timestamp message) w) as [startTime w'].
      destruct (stampOrNow World calendar (cm_timestamp message) w') as [endTime w''].
      rewrite CacheFacts.mapGet_mapSet. cbn [fst].
      rewrite !mapGet_mapSet_other by congruence.
      split; [auto | intros [H|H]; [exact H | contradiction]].
Qed.

Lemma parseLine_sessionId (projectDir : string) (query : option string)
  (timeFilter : option (string -> bool)) (claudeMessage : ClaudeMessage)
  (m : CompactMessage) :
  Parser.parseLine deps projectDir query timeFilter (Parsed claudeMessage) = Some m ->
  sessionId m = cm_sessionId claudeMessage.
Proof.
  simpl.
  destruct (negb _); [discriminate|].
  destruct (String.eqb _ EmptyString); [discriminate|].
  destruct (formatTimestamp deps _); [|discriminate].
  intros H. injection H as <-. reflexivity.
Qed.

(** The loop, from any messages pushed so far and any parser state. *)
Lemma parseLinesTracked_spec (projectDir : string) (query : option string)
  (timeFilter : option (string -> bool)) (lines : list Line)
  (messages : list CompactMessage) (st : ParserState World) :
  fst (parseLinesTracked World calendar deps projectDir query timeFilter lines
         messages st)
  = messages ++ Parser.parseLines deps projectDir query timeFilter lines
  /\ (forall sid,
        messageCountOf sid
          (fst (snd (parseLinesTracked World calendar deps projectDir query
                       timeFilter lines messages st)))
        = messageCountOf sid (fst st)
          + length (filter (fun m => String.eqb (sessionId m) sid)
                      (Parser.parseLines deps projectDir query timeFilter lines)))
  /\ (forall sid,
        mapGet sid
          (fst (snd (parseLinesTracked World calendar deps projectDir query
                       timeFilter lines messages st))) <> None
        <-> mapGet sid (fst st) <> None
            \/ exists m,
                 In m (Parser.parseLines deps projectDir query timeFilter lines)
                 /\ sessionId m = sid)
  /\ (NoDup (map fst (fst st)) ->
      NoDup (map fst
               (fst (snd (parseLinesTracked World calendar deps projectDir query
                            timeFilter lines messages st))))).
Proof.
  revert messages st. induction lines as [|line rest IH]; intros messages st.
  - simpl. rewrite app_nil_r. split; [reflexivity|]. split; [intros; lia|].
    split; [|auto]. intros sid. split; [auto | intros [H|[m [[] _]]]; exact H].
  - assert (Hskip :
      Parser.parseLine deps projectDir query timeFilter line = None ->
      parseLinesTracked World calendar deps projectDir query timeFilter
        (line :: rest) messages st
      = parseLinesTracked World calendar deps projectDir query timeFilter
          rest messages st
      /\ Parser.parseLines deps projectDir query timeFilter (line :: rest)
         = Parser.parseLines deps projectDir query timeFilter rest).
    { intros Hnone. unfold Parser.parseLines. cbn [parseLinesTracked Parser.collect].
      destruct line; rewrite Hnone; split; reflexivity. }
    destruct (Parser.parseLine deps projectDir query timeFilter line) as [m|] eqn:Eline.
    + destruct line as [| |claudeMessage]; try discriminate Eline.
      cbn [parseLinesTracked]. rewrite Eline.
      unfold Parser.parseLines. cbn [Parser.collect]. rewrite Eline.
      fold (Parser.parseLines deps projectDir query timeFilter rest).
      destruct (IH (messages ++ [m])
                  (updateSessionInfo World calendar claudeMessage projectDir st))
        as [Hmsgs [Hcount [Hknown Hkeys]]].
      pose proof (parseLine_sessionId _ _ _ _ _ Eline) as Hsid.
      split; [rewrite Hmsgs, <- app_assoc; reflexivity|].
      split; [|split].
      * intros sid. rewrite Hcount, updateSessionInfo_counts.
        cbn [filter]. rewrite Hsid.
        destruct (String.eqb (cm_sessionId claudeMessage) sid); simpl; lia.
      * intros sid. rewrite Hknown, updateSessionInfo_known. split.
        -- intros [[H|H]|[m' [Hin Hm']]].
           ++ left. exact H.
           ++ right. exists m. split; [left; reflexivity | congruence].
           ++ right. exists m'. split; [right; exact Hin | exact Hm'].
        -- intros [H|[m' [[<-|Hin] Hm']]].
           ++ left. left. exact H.
           ++ left. right. congruence.
           ++ right. exists m'. split; assumption.
      * intros Hnd. apply Hkeys, updateSessionInfo_keys, Hnd.
    + destruct (Hskip eq_refl) as [-> ->]. apply IH.
Qed.

(** X22. Parsing a file with the session bookkeeping returns the same
    records as without it, and counts them: for every session id, the
    message count of that session grows by exactly the number of
    records returned for it (a session not known before starts at 0).
    The sessions known afterwards are those known before and those of
    the records returned, the session map keeps one entry per session
    id, and over any sessions that cover the records the counts grow by
    the number of records in all. *)
Theorem parseJsonlFile_counts_sessions (projectDir : string) (query : option string)
  (timeFilter : option (string -> bool)) (lines : list Line)
  (st : ParserState World) :
  let run :=
    parseLinesTracked World calendar deps projectDir query timeFilter lines [] st in
  let records := Parser.parseLines deps projectDir query timeFilter lines in
  fst run = records
  /\ (forall sid,
        messageCountOf sid (fst (snd run))
        = messageCountOf sid (fst st)
          + length (filter (fun m => String.eqb (sessionId m) sid) records))
  /\ (forall sid,
        mapGet sid (fst (snd run)) <> None
        <-> mapGet sid (fst st) <> None
            \/ exists m, In m records /\ sessionId m = sid)
  /\ (NoDup (map fst (fst st)) -> NoDup (map fst (fst (snd run))))
  /\ (forall sid,
        (forall m, In m records -> sessionId m = sid) ->
        messageCountOf sid (fst (snd run))
        = messageCountOf sid (fst st) + length records).
Proof.
  cbv zeta.
  destruct (parseLinesTracked_spec projectDir query timeFilter lines [] st)
    as [Hmsgs [Hcount [Hknown Hkeys]]].
  split; [exact Hmsgs|]. split; [exact Hcount|]. split; [exact Hknown|].
  split; [exact Hkeys|].
  intros sid Hall. rewrite Hcount. f_equal. f_equal.
  revert Hall.
  generalize (Parser.parseLines deps projectDir query timeFilter lines).
  intros records Hall. induction records as [|m ms IH]; [reflexivity|].
  cbn [filter]. rewrite (Hall m (or_introl eq_refl)), String.eqb_refl.
  f_equal. apply IH. intros m' Hin. apply Hall. right. exact Hin.
Qed.

End WithCalendar.
End SessionFacts.

(* ------------------------------------------------------------------ *)
(** ** Solutions for an error pattern *)
(* ------------------------------------------------------------------ *)

Module ErrorSolutionFacts.
Import JS Eff Engine ErrorSolutions.

Lemma mapPush_keys (key : string) (msgs : list CompactMessage)
  (map : list (string * list CompactMessage)) :
  NoDup (List.map fst map) -> NoDup (List.map fst (mapPush key msgs map)).
Proof.
  intros H. unfold mapPush.
  destruct (mapGet key map); apply SessionFacts.mapSet_keys_NoDup, H.
Qed.

Lemma pushAll_keys (entries acc : list (string * list CompactMessage)) :
  NoDup (map fst acc) ->
  NoDup (map fst
           (fold_left (fun acc entry => mapPush (fst entry) (snd entry) acc)
              entries acc)).
Proof.
  revert acc. induction entries as [|entry rest IH]; intros acc H; simpl; [exact H|].
  apply IH, mapPush_keys, H.
Qed.

Lemma aggregateErrors_keys
  (projectResults : list (Outcome (list (string * list CompactMessage)))) :
  NoDup (map fst (aggregateErrors projectResults)).
Proof.
  unfold aggregateErrors.
  assert (Hgen : forall acc,
            NoDup (map fst acc) ->
            NoDup (map fst
                     (fold_left
                        (fun errorMap result =>
                           match result with
                           | Returned projectErrorMap =>
                               fold_left
                                 (fun acc entry => mapPush (fst entry) (snd entry) acc)
                                 projectErrorMap errorMap
                           | Thrown _ => errorMap
                           end)
                        projectResults acc))).
  { induction projectResults as [|[projectErrorMap|e] rest IH]; intros acc H; simpl.
    - exact H.
    - apply IH, pushAll_keys, H.
    - apply IH, H. }
  apply Hgen. constructor.
Qed.

(** The patterns of the solutions are keys of the map, in its order. *)
Lemma toSolutions_patterns (errorMap : list (string * list CompactMessage)) :
  NoDup (map fst errorMap) -> NoDup (map es_errorPattern (toSolutions errorMap)).
Proof.
  unfold toSolutions. induction errorMap as [|[pattern msgs] rest IH]; simpl.
  - constructor.
  - intros H. inversion H as [|k ks Hnotin Hnd]; subst.
    destruct (0 <? length (filter isQualitySolution msgs)); [|apply IH, Hnd].
    simpl. constructor; [|apply IH, Hnd].
    intros Hin. apply Hnotin. clear -Hin.
    induction rest as [|[k v] rest IH]; simpl in *; [exact Hin|].
    destruct (0 <? length (filter isQualitySolution v)); simpl in Hin.
    + destruct Hin as [Hin|Hin]; [left; exact Hin | right; apply IH, Hin].
    + right. apply IH, Hin.
Qed.

Lemma take_length_le (n : nat) (s : string) : String.length (take n s) <= n.
Proof. rewrite ParserMoreFacts.take_length. lia. Qed.

(** What holds of every solution built from the map. *)
Lemma toSolutions_quality (errorMap : list (string * list CompactMessage)) :
  Forall
    (fun solution =>
       es_solution solution <> []
       /\ length (es_solution solution) <= 5
       /\ length (es_solution solution) <= es_frequency solution
       /\ Forall (fun msg => type msg = assistant
                             /\ isLowValueContent (content msg) = false
                             /\ 20 <= String.length (content msg))
            (es_solution solution)
       /\ String.length (es_context solution) <= 203
       /\ endsWith (es_context solution) "..." = true)
    (toSolutions errorMap).
Proof.
  unfold toSolutions. apply SimilarFacts.collect_Forall.
  intros [pattern msgs] solution _. cbn [fst snd].
  remember (firstn 5 (filter isQualitySolution msgs)) as top eqn:Etop.
  destruct (0 <? length (filter isQualitySolution msgs)) eqn:E; [|discriminate].
  apply Nat.ltb_lt in E. intros H. injection H as <-.
  cbn [es_solution es_frequency es_context]. subst top.
  pose proof (ScorerMoreFacts.filter_length_le isQualitySolution msgs) as Hle.
  split; [|split; [|split; [|split; [|split]]]].
  - destruct (filter isQualitySolution msgs); [simpl in E; lia | discriminate].
  - rewrite length_firstn. lia.
  - rewrite length_firstn. lia.
  - apply Forall_forall. intros msg Hin.
    apply RerankFacts.firstn_In, filter_In in Hin as [_ Hq].
    unfold isQualitySolution in Hq.
    apply andb_true_iff in Hq as [Hq Hlen]. apply andb_true_iff in Hq as [Htype Hvalue].
    split; [apply SimilarFacts.MessageType_eqb_eq, Htype|].
    split; [apply negb_true_iff, Hvalue | apply Nat.leb_le, Hlen].
  - unfold extractSolutionContext. rewrite ParserMoreFacts.append_length.
    pose proof (take_length_le 200
                  (join " " (map content (filter isQualitySolution msgs)))).
    cbn [String.length]. lia.
  - apply FormatterFacts.endsWith_append.
Qed.

Section WithEnv.
Variable tests : ErrorTests.
Variable completion : Completion.
Variable World : Type.
Variable env : Env World.

(** Joined scans never throw. *)
Lemma settled_scans_return {A B} (f : A -> M (State World) B) (l : list A)
  (s : State World) :
  exists results s', mapM (fun x => settle (f x)) l s = (Returned results, s').
Proof.
  revert s. induction l as [|x xs IH]; intros s; simpl.
  - exists [], s. reflexivity.
  - unfold bind at 1, settle at 1. destruct (f x s) as [r s1].
    unfold bind at 1. destruct (IH s1) as [results [s2 H]]. rewrite H.
    eexists _, _. reflexivity.
Qed.

(** X24. Looking for the solutions of an error never throws, in
    whatever order the scans of the files complete.  The
    solutions come in non-increasing order of frequency, at most limit
    of them for a limit that is not negative, and no two for the same
    error pattern.  Every solution holds between one and five messages,
    no more than its frequency, each from the assistant, at least 20
    characters long and not low-value content; its context is at most
    203 characters long and ends in three dots. *)
Theorem getErrorSolutions_result (errorPattern : string) (limit : Z)
  (s : State World) :
  exists solutions s',
    getErrorSolutions tests completion World env errorPattern limit s = (Returned solutions, s')
    /\ StronglySorted (fun a b => es_frequency b <= es_frequency a) solutions
    /\ ((0 <= limit)%Z -> (Z.of_nat (length solutions) <= limit)%Z)
    /\ NoDup (map es_errorPattern solutions)
    /\ Forall
         (fun solution =>
            es_solution solution <> []
            /\ length (es_solution solution) <= 5
            /\ length (es_solution solution) <= es_frequency solution
            /\ Forall (fun msg => type msg = assistant
                                  /\ isLowValueContent (content msg) = false
                                  /\ 20 <= String.length (content msg))
                 (es_solution solution)
            /\ String.length (es_context solution) <= 203
            /\ endsWith (es_context solution) "..." = true)
         solutions.
Proof.
  unfold getErrorSolutions, tryCatch, bind at 1, HistorySearchEngine.liftW.
  destruct (findProjectDirectories env (world s)) as [[projectDirs|e] w].
  - unfold bind at 1, HistorySearchEngine.expandWorktreeProjects, ret at 1.
    unfold bind at 1.
    destruct (settled_scans_return (scanProject tests completion World env errorPattern)
                (firstn 12 projectDirs)
                {| world := w; messageCache := messageCache s |})
      as [projectResults [s1 Hrun]].
    rewrite Hrun. unfold ret.
    set (solutions := toSolutions (aggregateErrors projectResults)).
    eexists _, _. split; [reflexivity|]. split; [|split; [|split]].
    + apply SimilarFacts.slice0_StronglySorted.
      eapply SimilarFacts.StronglySorted_on with (P := fun _ => True);
        [| apply Forall_forall; auto
         | apply (SimilarFacts.sortDesc_StronglySorted
                    (fun x => inject_Z (Z.of_nat (es_frequency x))))].
      intros a b _ _ H. unfold SimilarSpec.byKey in H.
      rewrite <- Zle_Qle in H. lia.
    + apply SimilarFacts.slice0_length.
    + rewrite RerankMoreFacts.slice0_map. apply RerankMoreFacts.slice0_NoDup.
      eapply Permutation_NoDup;
        [symmetry; apply Permutation_map, ListingFacts.sortDesc_Permutation|].
      apply toSolutions_patterns, aggregateErrors_keys.
    + apply Forall_forall. intros solution Hin.
      apply RerankFacts.slice0_In, RerankFacts.sortDesc_In in Hin.
      pose proof (toSolutions_quality (aggregateErrors projectResults)) as Hall.
      rewrite Forall_forall in Hall. apply Hall, Hin.
  - exists [], {| world := w; messageCache := messageCache s |}.
    split; [reflexivity|]. split; [constructor|]. split; [simpl; lia|].
    split; constructor.
Qed.

End WithEnv.
End ErrorSolutionFacts.

(* ------------------------------------------------------------------ *)
(** ** The case of a query *)
(* ------------------------------------------------------------------ *)

Module QueryCaseFacts.
Import JS Engine.

Lemma lowerChar_idempotent (c : ascii) : lowerChar (lowerChar c) = lowerChar c.
Proof. destruct c as [[] [] [] [] [] [] [] []]; reflexivity. Qed.

Lemma toLowerCase_idempotent (s : string) : toLowerCase (toLowerCase s) = toLowerCase s.
Proof.
  induction s as [|c s IH]; [reflexivity|].
  unfold toLowerCase in *. simpl. rewrite lowerChar_idempotent, IH. reflexivity.
Qed.

(** X26. The case of a query does not matter to the analysis of its
    intent, to the relevance score of a message, or to the similarity
    of two queries: two queries that are equal up to case get the same
    analysis, give every message the same relevance score, and are
    equally similar to every other query, on either side. *)
Theorem query_case_is_ignored (query query' : string) :
  toLowerCase query = toLowerCase query' ->
  analyzeQueryIntent query = analyzeQueryIntent query'
  /\ (forall message projectPath,
        Utils.calculateRelevanceScore message query projectPath
        = Utils.calculateRelevanceScore message query' projectPath)
  /\ (forall other,
        SearchHelpers.calculateQuerySimilarity query other
        = SearchHelpers.calculateQuerySimilarity query' other
        /\ SearchHelpers.calculateQuerySimilarity other query
           = SearchHelpers.calculateQuerySimilarity other query')
  /\ analyzeQueryIntent (toLowerCase query) = analyzeQueryIntent query.
Proof.
  intros Hsame.
  assert (Hintent : forall a b, toLowerCase a = toLowerCase b ->
                                analyzeQueryIntent a = analyzeQueryIntent b).
  { intros a b H. unfold analyzeQueryIntent, classifyQueryType. rewrite H.
    reflexivity. }
  split; [apply Hintent, Hsame|]. split; [|split].
  - intros message projectPath. unfold Utils.calculateRelevanceScore.
    rewrite Hsame. reflexivity.
  - intros other. unfold SearchHelpers.calculateQuerySimilarity, SearchHelpers.tokenize.
    rewrite Hsame. split; reflexivity.
  - apply Hintent, toLowerCase_idempotent.
Qed.

End QueryCaseFacts.

(* ------------------------------------------------------------------ *)
(** ** No entry point raises a fault *)
(* ------------------------------------------------------------------ *)

Module EntryPointFacts.
Import JS Eff Engine Operations Outcomes.

Lemma returns_ret {S A} (a : A) (s : S) : returns (@ret S A a) s.
Proof. exists a, s. reflexivity. Qed.

Lemma returns_bind {S A B} (m : M S A) (k : A -> M S B) (s : S) :
  returns m s -> (forall a s', returns (k a) s') -> returns (bind m k) s.
Proof.
  intros [a [s' H]] Hk. unfold returns, bind. rewrite H. apply Hk.
Qed.

Lemma returnsWith_bind {S A B} (post : A -> S -> Prop) (m : M S A)
  (k : A -> M S B) (s : S) :
  returnsWith post m s -> (forall a s', post a s' -> returns (k a) s') ->
  returns (bind m k) s.
Proof.
  intros [a [s' [H Hpost]]] Hk. unfold returns, bind. rewrite H.
  apply Hk. exact Hpost.
Qed.

(** A [try] whose handler returns a default value returns. *)
Lemma returns_caught {S A} (m : M S A) (d : A) (s : S) :
  returns (tryCatch m (fun _ => ret d)) s.
Proof.
  apply SearchFacts.tryCatch_returns. intros e s'. apply returns_ret.
Qed.

Lemma caught_thrown {S A} (m : M S A) (d : A) (s s' : S) (e : string) :
  m s = (Thrown e, s') -> tryCatch m (fun _ => ret d) s = (Returned d, s').
Proof.
  intros H. unfold tryCatch. rewrite H. reflexivity.
Qed.

Section WithEnv.
Variable patterns : Patterns.
Variable tests : ErrorTests.
Variable completion : Completion.
Variable World : Type.
Variable env : Env World.
Variable node : Node World.
Variable desktop : Desktop World.

Local Abbreviation St := (State World).
Local Abbreviation U := (Universal World).

(** *** The Claude Code engine *)

(** The operations that enumerate the projects first: when the
    enumeration throws, their handler gives the empty list. *)
Lemma enumeration_thrown {B} (k : list string -> M St (list B))
  (s : St) (error : string) (w : World) :
  findProjectDirectories env (world s) = (Thrown error, w) ->
  tryCatch
    (bind (HistorySearchEngine.liftW World (findProjectDirectories env)) k)
    (fun _ => ret []) s
  = (Returned [], {| world := w; messageCache := messageCache s |}).
Proof.
  intros H. apply caught_thrown with (e := error).
  unfold bind, HistorySearchEngine.liftW. rewrite H. reflexivity.
Qed.

(** *** The engine over both sources *)

Lemma returns_liftE {A} (m : M St A) (u : U) :
  returns m (claudeCodeEngine u) ->
  returns (UniversalHistorySearchEngine.liftE World m) u.
Proof.
  intros [a [s' H]]. unfold returns, UniversalHistorySearchEngine.liftE.
  rewrite H. eexists _, _. reflexivity.
Qed.

Lemma returns_liftW {A} (m : M World A) (s : St) :
  returns m (world s) -> returns (HistorySearchEngine.liftW World m) s.
Proof.
  intros [a [w' H]]. unfold returns, HistorySearchEngine.liftW.
  rewrite H. eexists _, _. reflexivity.
Qed.

Lemma returns_liftWorld {A} (m : M World A) (u : U) :
  (forall w, returns m w) ->
  returns (UniversalHistorySearchEngine.liftWorld World m) u.
Proof.
  intros H. apply returns_liftE, returns_liftW, H.
Qed.

Lemma returnsWith_liftWorld {A} (post : A -> Prop) (m : M World A) (u : U) :
  (forall w, returnsWith (fun a _ => post a) m w) ->
  returnsWith (fun a _ => post a) (UniversalHistorySearchEngine.liftWorld World m) u.
Proof.
  intros H. destruct (H (world (claudeCodeEngine u))) as [a [w' [Hm Hpost]]].
  unfold returnsWith, UniversalHistorySearchEngine.liftWorld,
    UniversalHistorySearchEngine.liftE, HistorySearchEngine.liftW.
  rewrite Hm. eexists _, _. split; [reflexivity | exact Hpost].
Qed.

Lemma detectLevelDB_returns (u : U) :
  returns (UniversalHistorySearchEngine.detectLevelDB World node) u.
Proof.
  unfold UniversalHistorySearchEngine.detectLevelDB.
  apply SearchFacts.tryCatch_returns. intros e s'. apply returns_caught.
Qed.

(** A getter returns once [getClaudeDesktopPath] does. *)
Lemma existingUnder_returns (directory : string) (path : option string) (w : World) :
  UniversalHistorySearchEngine.getClaudeDesktopPath World node = Returned path ->
  returns (UniversalHistorySearchEngine.existingUnder World node directory) w.
Proof.
  intros Hpath. unfold UniversalHistorySearchEngine.existingUnder.
  rewrite Hpath. unfold ofOutcome, bind, ret.
  destruct (given path) as [p|]; [apply returns_caught | apply returns_ret].
Qed.

(** The detection returns; when it answers [true], the directory of
    Claude Desktop was found, so [getClaudeDesktopPath] did not throw,
    and the getters, which call it outside their [try], return. *)
Lemma detectClaudeDesktop_returns (w : World) :
  returnsWith
    (fun detected _ =>
       detected = true ->
       forall directory w',
         returns (UniversalHistorySearchEngine.existingUnder World node directory) w')
    (UniversalHistorySearchEngine.detectClaudeDesktop World node) w.
Proof.
  unfold returnsWith, UniversalHistorySearchEngine.detectClaudeDesktop.
  destruct (UniversalHistorySearchEngine.getClaudeDesktopPath World node)
    as [path|error] eqn:Hpath.
  - destruct (returns_caught
                (bind (ofOutcome (Returned path))
                   (fun desktopPath =>
                      match given desktopPath with
                      | Some path0 =>
                          bind (fs_access node
                                  (joinPaths node [path0; "claude_desktop_config.json"]))
                            (fun _ => ret true)
                      | None => ret false
                      end))
                false w) as [detected [w' H]].
    exists detected, w'. split; [exact H|].
    intros _ directory w''. apply existingUnder_returns with (path := path).
    exact Hpath.
  - exists false, w. split; [reflexivity | discriminate].
Qed.

Lemma returns_modify {S} (f : S -> S) (s : S) :
  returns (UniversalHistorySearchEngine.modify f) s.
Proof. exists tt, (f s). reflexivity. Qed.

Lemma initialize_returns (u : U) :
  returns (UniversalHistorySearchEngine.initialize World node) u.
Proof.
  unfold UniversalHistorySearchEngine.initialize.
  apply returns_bind; [apply detectLevelDB_returns|]. intros _ u1.
  apply returnsWith_bind
    with (post := fun detected (_ : U) =>
                    detected = true ->
                    forall directory w',
                      returns (UniversalHistorySearchEngine.existingUnder World node
                                 directory) w').
  - apply (returnsWith_liftWorld
             (fun detected =>
                detected = true ->
                forall directory w',
                  returns (UniversalHistorySearchEngine.existingUnder World node
                             directory) w')).
    apply detectClaudeDesktop_returns.
  - intros detected u2 Hgetters.
    apply returns_bind; [apply returns_modify|]. intros _ u3.
    destruct detected; [|apply returns_ret].
    apply returns_bind.
    { apply returns_liftWorld. intros w.
      apply (Hgetters eq_refl "Local Storage" w). }
    intros storagePath u4.
    apply returns_bind; [apply returns_modify|]. intros _ u5.
    apply returns_bind.
    { apply returns_liftWorld. intros w.
      apply (Hgetters eq_refl "IndexedDB" w). }
    intros indexedDBPath u6. apply returns_modify.
Qed.

Lemma searchClaudeDesktopConversations_returns (query : string)
  (timeframe : option string) (limit : option Z) (u : U) :
  returns
    (UniversalHistorySearchEngine.searchClaudeDesktopConversations World desktop
       query timeframe limit) u.
Proof.
  unfold UniversalHistorySearchEngine.searchClaudeDesktopConversations.
  unfold returns, bind at 1, UniversalHistorySearchEngine.getState.
  destruct (given (desktopIndexedDBPath u)); [apply returns_caught | apply returns_ret].
Qed.

Lemma withDesktop_returns {A} (query : string) (timeframe : option string)
  (limit : option Z) (claudeCodeResults : A)
  (combine : A -> list CompactMessage -> A) (u : U) :
  returns
    (UniversalHistorySearchEngine.withDesktop World desktop query timeframe limit
       claudeCodeResults combine) u.
Proof.
  unfold UniversalHistorySearchEngine.withDesktop.
  unfold returns, bind at 1, UniversalHistorySearchEngine.getState.
  destruct (negb (UniversalHistorySearchEngine.available World u));
    [apply returns_ret|].
  apply returns_bind; [apply searchClaudeDesktopConversations_returns|].
  intros desktopMessages u'. apply returns_ret.
Qed.

(** An operation of this engine that initializes, runs an operation of
    the Claude Code engine that returns, and goes on with a step that
    returns. *)
Lemma wrapper_returns {A B} (m : M St A) (k : A -> M U B) (u : U) :
  (forall s, returns m s) -> (forall a u', returns (k a) u') ->
  returns
    (bind (UniversalHistorySearchEngine.initialize World node)
       (fun _ => bind (UniversalHistorySearchEngine.liftE World m) k)) u.
Proof.
  intros Hm Hk.
  apply returns_bind; [apply initialize_returns|]. intros _ u1.
  apply returns_bind; [apply returns_liftE, Hm | exact Hk].
Qed.

Lemma searchConversations_returns (query : string)
  (projectFilter timeframe : option string) (limit : Z) (s : St) :
  returns (HistorySearchEngine.searchConversations World env query projectFilter
             timeframe limit) s.
Proof.
  unfold returns. rewrite SearchFacts.searchConversations_unfold.
  apply SearchFacts.tryCatch_returns. intros e s'.
  apply SearchFacts.search_handler_returns.
Qed.

Lemma getSessionMessages_thrown (projectDir sessionId error : string) (s : St) :
  os_homedir node = Thrown error ->
  getSessionMessages World env node projectDir sessionId s = (Returned [], s).
Proof.
  intros H. unfold getSessionMessages.
  apply caught_thrown with (e := error).
  unfold bind, parseJsonlFile, getClaudeProjectsPath, ofOutcome. rewrite H.
  reflexivity.
Qed.

Lemma searchPlans_thrown (query error : string) (limit : Z) (s : St) :
  os_homedir node = Thrown error ->
  searchPlans patterns World node query limit s = (Returned [], s).
Proof.
  intros H. unfold searchPlans.
  apply caught_thrown with (e := error).
  unfold bind, HistorySearchEngine.liftW, findPlanFiles, tryCatch,
    getClaudePlansPath, ofOutcome, throw, ret.
  rewrite H. destruct s. reflexivity.
Qed.

End WithEnv.

(** C9. No query entry point raises a fault to its caller.  The eight
    operations of the Claude Code engine (search, find similar queries,
    file context, error solutions, tool patterns, recent sessions, the
    messages of a session, plans) return from every state, whatever the
    file system, the parser helpers, the patterns and the order of
    completion of the file scans do; so do the eight operations of the
    engine over both sources, whatever the detection of Claude Desktop
    and the searches of its stores do.  When the enumeration of the
    projects throws, the list-valued operations return the empty list,
    and the search returns the empty result carrying the query and the
    time elapsed since its start; the latter holds as well when the
    search proper throws anywhere, and when the [readdir] under the
    listing of utils.ts throws.  When the home directory cannot be
    determined, the messages of a session and the plans are the empty
    list.  The search over both sources, when the enumeration of the
    projects throws, returns a result that carries the query and the
    elapsed time as well; it is that same empty result unless Claude
    Desktop was detected and its stores gave messages, which are then
    the messages of the result. *)
Theorem entry_points_never_throw
  (World : Type) (env : Env World) (node : Node World) (desktop : Desktop World)
  (patterns : Patterns) (tests : ErrorTests) (completion : Completion)
  (query filePath errorPattern projectDir sessionId : string)
  (projectFilter timeframe toolName : option string)
  (limit : Z) (optionalLimit maxMessages : option Z)
  (s : State World) (u : Universal World) :
  (returns (HistorySearchEngine.searchConversations World env query projectFilter
              timeframe limit) s
   /\ returns (HistorySearchEngine.findSimilarQueries World env query limit) s
   /\ returns (Operations.findFileContext patterns World env node filePath limit) s
   /\ returns (ErrorSolutions.getErrorSolutions tests completion World env
                 errorPattern limit) s
   /\ returns (Operations.getToolPatterns patterns completion World env node
                 toolName limit) s
   /\ returns (Operations.getRecentSessions patterns World env node limit) s
   /\ returns (Operations.getSessionMessages World env node projectDir sessionId) s
   /\ returns (Operations.searchPlans patterns World node query limit) s)
  /\ (returns (UniversalHistorySearchEngine.searchConversations World env node desktop
                 query projectFilter timeframe optionalLimit) u
      /\ returns (UniversalHistorySearchEngine.findSimilarQueries World env node
                    desktop query optionalLimit) u
      /\ returns (UniversalHistorySearchEngine.findFileContext patterns World env node
                    desktop filePath optionalLimit) u
      /\ returns (UniversalHistorySearchEngine.getErrorSolutions tests completion World
                    env node desktop errorPattern optionalLimit) u
      /\ returns (UniversalHistorySearchEngine.getToolPatterns patterns completion
                    World env node toolName optionalLimit) u
      /\ returns (UniversalHistorySearchEngine.getRecentSessions patterns World env
                    node optionalLimit) u
      /\ returns (UniversalHistorySearchEngine.generateCompactSummary patterns World
                    env node sessionId maxMessages) u
      /\ returns (UniversalHistorySearchEngine.searchPlans patterns World node query
                    optionalLimit) u)
  /\ (forall error w,
        findProjectDirectories env (world s) = (Thrown error, w) ->
        let s' := {| world := w; messageCache := messageCache s |} in
        HistorySearchEngine.findSimilarQueries World env query limit s
        = (Returned [], s')
        /\ Operations.findFileContext patterns World env node filePath limit s
           = (Returned [], s')
        /\ ErrorSolutions.getErrorSolutions tests completion World env errorPattern
             limit s
           = (Returned [], s')
        /\ Operations.getToolPatterns patterns completion World env node toolName
             limit s
           = (Returned [], s')
        /\ Operations.getRecentSessions patterns World env node limit s
           = (Returned [], s'))
  /\ (forall error,
        os_homedir node = Thrown error ->
        Operations.getSessionMessages World env node projectDir sessionId s
        = (Returned [], s)
        /\ Operations.searchPlans patterns World node query limit s = (Returned [], s))
  /\ (let startTime := fst (Date_now env (world s)) in
      let s0 := {| world := snd (Date_now env (world s));
                   messageCache := messageCache s |} in
      forall error s1,
        HistorySearchEngine.performOptimizedSearch World env query
          (analyzeQueryIntent query) limit startTime projectFilter timeframe s0
        = (Thrown error, s1) ->
        HistorySearchEngine.searchConversations World env query projectFilter
          timeframe limit s
        = (Returned
             (HistorySearchEngine.emptyResult query
                (fst (Date_now env (world s1)) - startTime)),
           {| world := snd (Date_now env (world s1));
              messageCache := messageCache s1 |}))
  /\ (let startTime := fst (Date_now env (world s)) in
      let w0 := snd (Date_now env (world s)) in
      forall timeFilter w1 error w2,
        getTimeRangeFilter env timeframe w0 = (Returned timeFilter, w1) ->
        findProjectDirectories env w1 = (Thrown error, w2) ->
        HistorySearchEngine.searchConversations World env query projectFilter
          timeframe limit s
        = (Returned
             (HistorySearchEngine.emptyResult query (fst (Date_now env w2) - startTime)),
           {| world := snd (Date_now env w2); messageCache := messageCache s |}))
  /\ (let startTime := fst (Date_now env (world s)) in
      let w0 := snd (Date_now env (world s)) in
      forall (fs : FileSystem World) timeFilter w1 error w2,
        getTimeRangeFilter env timeframe w0 = (Returned timeFilter, w1) ->
        readdir fs (projectsPath fs) w1 = (Thrown error, w2) ->
        HistorySearchEngine.searchConversations World (withListing fs env) query
          projectFilter timeframe limit s
        = (Returned
             (HistorySearchEngine.emptyResult query (fst (Date_now env w2) - startTime)),
           {| world := snd (Date_now env w2); messageCache := messageCache s |}))
  /\ (forall u1 timeFilter w1 error w2,
        UniversalHistorySearchEngine.initialize World node u = (Returned tt, u1) ->
        let startTime := fst (Date_now env (world (claudeCodeEngine u1))) in
        let w0 := snd (Date_now env (world (claudeCodeEngine u1))) in
        getTimeRangeFilter env timeframe w0 = (Returned timeFilter, w1) ->
        findProjectDirectories env w1 = (Thrown error, w2) ->
        exists found u2,
          UniversalHistorySearchEngine.searchConversations World env node desktop
            query projectFilter timeframe optionalLimit u
          = (Returned found, u2)
          /\ searchQuery (results found) = query
          /\ executionTime (results found) = (fst (Date_now env w2) - startTime)%Z
          /\ (enhanced found = false ->
              found
              = {| source := claude_code;
                   results :=
                     HistorySearchEngine.emptyResult query
                       (fst (Date_now env w2) - startTime);
                   enhanced := false |})).
Proof.
  split; [|split; [|split; [|split]]].
  - repeat split.
    + apply searchConversations_returns.
    + apply returns_caught.
    + apply returns_caught.
    + apply returns_caught.
    + apply returns_caught.
    + apply returns_caught.
    + apply returns_caught.
    + apply returns_caught.
  - repeat split.
    + apply wrapper_returns; [intros s2; apply searchConversations_returns|].
      intros a u'. apply withDesktop_returns.
    + apply wrapper_returns; [intros s2; apply returns_caught|].
      intros a u'. apply withDesktop_returns.
    + apply wrapper_returns; [intros s2; apply returns_caught|].
      intros a u'. apply withDesktop_returns.
    + apply wrapper_returns; [intros s2; apply returns_caught|].
      intros a u'. apply withDesktop_returns.
    + apply wrapper_returns; [intros s2; apply returns_caught|].
      intros a u'.
      apply returns_bind; [eexists _, _; reflexivity|]. intros u0 u1.
      apply returns_ret.
    + apply wrapper_returns; [intros s2; apply returns_caught|].
      intros a u'.
      apply returns_bind; [eexists _, _; reflexivity|]. intros u0 u1.
      apply returns_ret.
    + apply wrapper_returns; [intros s2; apply returns_caught|].
      intros allSessions u'. cbv zeta.
      destruct (if String.eqb (toLowerCase sessionId) "latest"
                then match allSessions with
                     | latest :: _ => Some (session_id latest)
                     | [] => None
                     end
                else Some sessionId) as [resolvedSessionId|]; [|apply returns_ret].
      destruct (find (UniversalHistorySearchEngine.isSession patterns resolvedSessionId)
                  allSessions) as [sessionData|]; [|apply returns_ret].
      apply returns_bind; [apply returns_liftE, returns_caught|].
      intros messages u1.
      apply returns_bind; [eexists _, _; reflexivity|]. intros u2 u3.
      apply returns_ret.
    + apply returns_bind; [apply returns_liftE, returns_caught|].
      intros plans u'. apply returns_ret.
  - intros error w Hdirs s'. repeat split.
    + apply (enumeration_thrown World env _ s error w Hdirs).
    + apply (enumeration_thrown World env _ s error w Hdirs).
    + apply (enumeration_thrown World env _ s error w Hdirs).
    + apply (enumeration_thrown World env _ s error w Hdirs).
    + apply (enumeration_thrown World env _ s error w Hdirs).
  - intros error Hhome. split.
    + apply getSessionMessages_thrown with (error := error). exact Hhome.
    + apply searchPlans_thrown with (error := error). exact Hhome.
  - destruct (SearchFacts.searchConversations_catches World env query projectFilter
                timeframe limit s) as [_ [_ [H1 [H2 H3]]]].
    split; [exact H1 | split; [exact H2 | split; [exact H3|]]].
    intros u1 timeFilter w1 error w2 Hinit startTime w0 Hfilter Hdirs.
    destruct (SearchFacts.searchConversations_catches World env query projectFilter
                timeframe (orDefault optionalLimit 15) (claudeCodeEngine u1))
      as [_ [_ [_ [Hcaught _]]]].
    specialize (Hcaught timeFilter w1 error w2 Hfilter Hdirs).
    fold startTime in Hcaught.
    unfold UniversalHistorySearchEngine.searchConversations.
    unfold bind at 1. rewrite Hinit.
    unfold bind at 1, UniversalHistorySearchEngine.liftE at 1. rewrite Hcaught.
    unfold UniversalHistorySearchEngine.withDesktop.
    unfold bind at 1, UniversalHistorySearchEngine.getState at 1.
    match goal with
    | |- context [negb (UniversalHistorySearchEngine.available World ?u)] =>
        set (u2 := u);
        destruct (negb (UniversalHistorySearchEngine.available World u2))
    end.
    + eexists _, _. split; [reflexivity|].
      split; [reflexivity|]. split; [reflexivity|]. intros _. reflexivity.
    + destruct (searchClaudeDesktopConversations_returns World desktop query
                  timeframe optionalLimit u2) as [desktopMessages [u3 Hdesktop]].
      unfold bind. rewrite Hdesktop.
      eexists _, _. split; [reflexivity|].
      split; [reflexivity|]. split; [reflexivity|].
      cbn [enhanced]. intros Hnone.
      destruct desktopMessages as [|message rest]; [reflexivity | discriminate Hnone].
Qed.

End EntryPointFacts.

(* ------------------------------------------------------------------ *)
(** ** The further properties at concrete inputs *)
(* ------------------------------------------------------------------ *)

Module MoreInstances.
Import JS Eff Engine HistorySearchEngine Scenarios MoreScenarios SimilarSpec.

Lemma matchesTechTerm_unmatchable_witness :
  forallString Casing.isCleanChar "node.js" = false
  /\ Utils.matchesTechTerm "we run node.js in production" "node.js" = false.
Proof.
  split; [reflexivity|].
  apply ScorerMoreFacts.matchesTechTerm_unmatchable. right. reflexivity.
Defined.

Lemma scoreCandidate_sign_witness :
  orZero (relevanceScore unmatchedCandidate) == 0
  /\ orZero (finalScore (scoreCandidate "docker" urgentAnalysis true unmatchedCandidate))
     == 0
  /\ (0 <= orZero (relevanceScore replyMessage))%Q
  /\ (0 <= orZero (finalScore (scoreCandidate "parser" urgentAnalysis true replyMessage)))%Q.
Proof.
  split; [reflexivity|]. split.
  - apply (proj1 (RerankMoreFacts.scoreCandidate_sign "docker" urgentAnalysis true
                    unmatchedCandidate)).
    reflexivity.
  - split; [discriminate|].
    apply (proj2 (RerankMoreFacts.scoreCandidate_sign "parser" urgentAnalysis true
                    replyMessage)).
    + discriminate.
    + repeat constructor; discriminate.
Defined.

Lemma semantic_boosts_only_raise_witness :
  (0 <= 5)%Q
  /\ (5 <= applySemanticBoosts unmatchedCandidate
             (semanticBoosts (analyzeQueryIntent "fix the docker error")) 5)%Q.
Proof.
  split; [discriminate|].
  apply (proj2 (proj2 (RerankMoreFacts.semantic_boosts_only_raise
                         "fix the docker error" unmatchedCandidate 5))).
  discriminate.
Defined.

Lemma selectTopRelevantResults_selects_witness :
  (0 <= 1)%Z
  /\ exists results s',
       selectTopRelevantResults Z (oneFileEnv []) [replyMessage; unmatchedCandidate]
         "docker auth error" urgentAnalysis 1 freshState = (Returned results, s')
       /\ (Z.of_nat (length results) <= 1)%Z.
Proof.
  split; [lia|].
  destruct (RerankMoreFacts.selectTopRelevantResults_selects Z (oneFileEnv [])
              [replyMessage; unmatchedCandidate] "docker auth error" urgentAnalysis 1
              freshState)
    as [results [s' [Hrun [_ [_ [Hlimit _]]]]]].
  exists results, s'. split; [exact Hrun | apply Hlimit; lia].
Defined.

Lemma searchConversations_result_quality_witness :
  (0 <= 15)%Z
  /\ exists r s',
       searchConversations Z (oneFileEnv replyCorpus) "parser handles" None None 15
         freshState = (Returned r, s')
       /\ (Z.of_nat (length (messages r)) <= 15)%Z.
Proof.
  split; [lia|].
  destruct (PipelineFacts.searchConversations_result_quality Z
              (oneFileEnv replyCorpus) "parser handles" None None 15 freshState)
    as [r [s' [Hrun [_ [_ [_ [_ Hlimit]]]]]]].
  exists r, s'. split; [exact Hrun | apply Hlimit; lia].
Defined.


Lemma intelligentDeduplicate_keeps_best_witness :
  In unmatchedCandidate [replyMessage; unmatchedCandidate; unmatchedCandidate]
  /\ exists kept,
       In kept (intelligentDeduplicate
                  [replyMessage; unmatchedCandidate; unmatchedCandidate])
       /\ createIntelligentSignature kept = createIntelligentSignature unmatchedCandidate
       /\ (orZero (finalScore unmatchedCandidate) <= orZero (finalScore kept))%Q.
Proof.
  assert (Hin : In unmatchedCandidate
                  [replyMessage; unmatchedCandidate; unmatchedCandidate])
    by (right; left; reflexivity).
  split; [exact Hin|].
  exact (proj1 (proj2 (proj2 (DedupMoreFacts.intelligentDeduplicate_keeps_best
                                [replyMessage; unmatchedCandidate; unmatchedCandidate])))
           unmatchedCandidate Hin).
Defined.

Lemma gatherRelevantCandidates_relevant_witness :
  In "caveat:" noisePatterns
  /\ exists candidates s',
       gatherRelevantCandidates Z (oneFileEnv replyCorpus) ["-home-dev-app"]
         "parser handles" (analyzeQueryIntent "parser handles") None 30 freshState
       = (Returned candidates, s')
       /\ Forall (fun m => includes (toLowerCase (content m)) "caveat:" = false)
            candidates.
Proof.
  assert (Hin : In "caveat:" noisePatterns) by (right; left; reflexivity).
  split; [exact Hin|].
  destruct (PipelineFacts.gatherRelevantCandidates_relevant Z
              (oneFileEnv replyCorpus) ["-home-dev-app"] "parser handles"
              (analyzeQueryIntent "parser handles") None 30 freshState)
    as [candidates [s' [Hrun Hall]]].
  exists candidates, s'. split; [exact Hrun|].
  eapply Forall_impl; [|exact Hall].
  intros m [_ [_ [_ [_ Hnoise]]]]. apply Hnoise. exact Hin.
Defined.

Lemma parseLines_records_witness :
  Forall (fun m => relevanceScore m = Some 0%Q)
    (Parser.parseLines plainDeps "-home-dev-app" None None replyCorpus).
Proof.
  eapply Forall_impl;
    [|exact (proj2 (proj2 (proj2 (ParserMoreFacts.parseLines_records plainDeps
                                    "-home-dev-app" None None replyCorpus))))].
  intros m [_ [_ [_ [Hzero _]]]]. apply Hzero. left. reflexivity.
Defined.

Lemma intelligentTruncation_budget_witness :
  (3 <= 40)%Z
  /\ (Parser.strlen (Parser.intelligentTruncation replyText 40) <= 40)%Z.
Proof.
  split; [lia|].
  apply (proj1 (ParserMoreFacts.intelligentTruncation_budget replyText 40)). lia.
Defined.

Lemma findJsonlFiles_lists_every_file_witness :
  readdir flakyFs (path_join flakyFs (projectsPath flakyFs) "-home-dev-app") 0%Z
  = (Returned ["a.jsonl"; "notes.txt"; "b.jsonl"], 0%Z)
  /\ exists files w2,
       Listing.findJsonlFiles Z flakyFs "-home-dev-app" 0%Z = (Returned files, w2)
       /\ Permutation files ["a.jsonl"; "b.jsonl"].
Proof.
  split; [reflexivity|].
  exact (proj1 (ListingFacts.findJsonlFiles_lists_every_file Z flakyFs
                  "-home-dev-app" 0%Z)
           ["a.jsonl"; "notes.txt"; "b.jsonl"] 0%Z eq_refl).
Defined.

Lemma findProjectDirectories_all_or_nothing_witness :
  readdir flakyFs (projectsPath flakyFs) 0%Z
  = (Returned ["a.jsonl"; "notes.txt"; "b.jsonl"], 0%Z)
  /\ In "b.jsonl" ["a.jsonl"; "notes.txt"; "b.jsonl"]
  /\ (forall w0, exists error w3,
         stat flakyFs (path_join flakyFs (projectsPath flakyFs) "b.jsonl") w0
         = (Thrown error, w3))
  /\ exists w2, Listing.findProjectDirectories Z flakyFs 0%Z = (Returned [], w2).
Proof.
  assert (Hin : In "b.jsonl" ["a.jsonl"; "notes.txt"; "b.jsonl"])
    by (right; right; left; reflexivity).
  assert (Hbad : forall w0 : Z, exists error w3,
             stat flakyFs (path_join flakyFs (projectsPath flakyFs) "b.jsonl") w0
             = (Thrown error, w3))
    by (intros w0; exists "EACCES", w0; reflexivity).
  split; [reflexivity|]. split; [exact Hin|]. split; [exact Hbad|].
  destruct (proj1 (ListingFacts.findProjectDirectories_all_or_nothing Z flakyFs 0%Z)
              ["a.jsonl"; "notes.txt"; "b.jsonl"] 0%Z eq_refl)
    as [dirs [w2 [Hrun [_ Hnone]]]].
  exists w2. rewrite <- (Hnone "b.jsonl" Hin Hbad). exact Hrun.
Defined.

Lemma deduplicateMessages_first_wins_witness :
  exists kept,
    SimpleDedup.deduplicateMessages [replyMessage; unmatchedCandidate; replyMessage]
    = replyMessage :: kept.
Proof.
  exact (proj1 (proj2 (proj2 (proj2 (proj2
           (SimpleDedupFacts.deduplicateMessages_first_wins
              [replyMessage; unmatchedCandidate; replyMessage])))))
           replyMessage [unmatchedCandidate; replyMessage] eq_refl).
Defined.

Lemma expandQuery_shape_witness :
  (forall entry,
      In entry (SearchHelpersMore.technicalExpansions
                ++ SearchHelpersMore.patternExpansions) ->
      includes (trim (toLowerCase "  Hello World ")) (fst entry) = false)
  /\ SearchHelpersMore.expandQuery "  Hello World " = ["hello world"].
Proof.
  assert (Hnone : forall entry,
             In entry (SearchHelpersMore.technicalExpansions
                       ++ SearchHelpersMore.patternExpansions) ->
             includes (trim (toLowerCase "  Hello World ")) (fst entry) = false).
  { intros entry Hin. cbn in Hin.
    repeat (destruct Hin as [<-|Hin]; [vm_compute; reflexivity|]).
    destruct Hin. }
  split; [exact Hnone|].
  destruct (SearchHelpersMoreFacts.expandQuery_shape "  Hello World ")
    as [rest [Heq [_ [_ [_ Hrest]]]]].
  rewrite Heq, (Hrest Hnone). reflexivity.
Defined.

Lemma hasErrorInContent_matches_witness :
  forallString
    (fun c => SearchHelpersMore.isErrorPunctuation c || isSpace c) "!: ?" = true
  /\ SearchHelpersMore.hasErrorInContent "the build finished" "!: ?" = true.
Proof.
  split; [reflexivity|].
  apply (proj1 (SearchHelpersMoreFacts.hasErrorInContent_matches
                  "the build finished" "!: ?")).
  reflexivity.
Defined.

Lemma pairScore_symmetric_witness :
  SearchHelpers.isWordSimilar "docker" "dockre" = true
  /\ 4 <= String.length "docker" /\ 4 <= String.length "dockre"
  /\ String.length "docker" <= String.length "dockre" + 3
  /\ String.length "dockre" <= String.length "docker" + 3.
Proof.
  split; [reflexivity|].
  apply (proj2 (proj2 (SearchHelpersMoreFacts.pairScore_symmetric
                         "docker" "dockre" true true))).
  reflexivity.
Defined.

Lemma calculateSimilarity_jaccard_witness :
  (forall w, In w (Formatter.wordSet "Fix the  bug") <->
             In w (Formatter.wordSet "bug FIX the fix"))
  /\ Formatter.calculateSimilarity "Fix the  bug" "bug FIX the fix" == 1.
Proof.
  assert (Hsame : forall w, In w (Formatter.wordSet "Fix the  bug") <->
                            In w (Formatter.wordSet "bug FIX the fix"))
    by (intros w; vm_compute; tauto).
  split; [exact Hsame|].
  apply (proj2 (proj2 (proj2 (FormatterFacts.calculateSimilarity_jaccard
                                "Fix the  bug" "bug FIX the fix")))).
  exact Hsame.
Defined.

Lemma rankAndDeduplicateMessages_shows_distinct_witness :
  In (replyMessage, Formatter.densityScore replyMessage)
    (Formatter.rankAndDeduplicateMessages [replyMessage; unmatchedCandidate]).
Proof.
  exact (proj2 (proj2 (proj2 (proj2
           (FormatterFacts.rankAndDeduplicateMessages_shows_distinct
              [replyMessage; unmatchedCandidate]))))
           replyMessage [unmatchedCandidate] eq_refl).
Defined.

Lemma deduplicateByContent_keeps_best_witness :
  In unmatchedCandidate [replyMessage; unmatchedCandidate; unmatchedCandidate]
  /\ exists kept,
       In kept (ContentDedup.deduplicateByContent
                  [replyMessage; unmatchedCandidate; unmatchedCandidate])
       /\ ContentDedup.createContentSignature kept
          = ContentDedup.createContentSignature unmatchedCandidate
       /\ (orZero (relevanceScore unmatchedCandidate)
           <= orZero (relevanceScore kept))%Q.
Proof.
  assert (Hin : In unmatchedCandidate
                  [replyMessage; unmatchedCandidate; unmatchedCandidate])
    by (right; left; reflexivity).
  split; [exact Hin|].
  exact (proj1 (proj2 (proj2 (ContentDedupFacts.deduplicateByContent_keeps_best
                                [replyMessage; unmatchedCandidate; unmatchedCandidate])))
           unmatchedCandidate Hin).
Defined.

Lemma parseJsonlFile_counts_sessions_witness :
  (forall m,
      In m (Parser.parseLines plainDeps "-home-dev-app" None None askedCorpus) ->
      sessionId m = "s1")
  /\ Sessions.messageCountOf "s1"
       (fst (snd (Sessions.parseLinesTracked Z wallCalendar plainDeps
                    "-home-dev-app" None None askedCorpus [] ([], 0%Z))))
     = 0 + 2.
Proof.
  assert (Hall : forall m,
             In m (Parser.parseLines plainDeps "-home-dev-app" None None askedCorpus) ->
             sessionId m = "s1").
  { intros m Hin. vm_compute in Hin. destruct Hin as [<-|[<-|[]]]; reflexivity. }
  split; [exact Hall|].
  exact (proj2 (proj2 (proj2 (proj2
           (SessionFacts.parseJsonlFile_counts_sessions Z wallCalendar plainDeps
              "-home-dev-app" None None askedCorpus ([], 0%Z)))))
           "s1" Hall).
Defined.

Lemma intelligentTextTruncation_budget_witness :
  (3 <= 30)%Z
  /\ (Parser.strlen (Formatter.intelligentTextTruncation replyText 30) <= 30)%Z.
Proof.
  split; [lia|].
  apply (proj1 (proj2 (FormatterFacts.intelligentTextTruncation_budget replyText 30))).
  lia.
Defined.

Lemma getErrorSolutions_result_witness :
  (0 <= 5)%Z
  /\ exists solutions s',
       ErrorSolutions.getErrorSolutions plainTests lastFileFirst Z
         (oneFileEnv replyCorpus) "docker auth error" 5 freshState
       = (Returned solutions, s')
       /\ (Z.of_nat (length solutions) <= 5)%Z.
Proof.
  split; [lia|].
  destruct (ErrorSolutionFacts.getErrorSolutions_result plainTests lastFileFirst Z
              (oneFileEnv replyCorpus) "docker auth error" 5 freshState)
    as [solutions [s' [Hrun [_ [Hlimit _]]]]].
  exists solutions, s'. split; [exact Hrun | apply Hlimit; lia].
Defined.

Lemma unmatched_project_filter_empty_witness :
  3 <= String.length "parser handles"
  /\ "other-project" <> EmptyString
  /\ (forall dir, In dir ["-home-dev-app"] -> includes dir "other-project" = false)
  /\ exists elapsed s',
       searchConversations Z (oneFileEnv replyCorpus) "parser handles"
         (Some "other-project") None 15 freshState
       = (Returned
            {| messages := []; totalResults := 0; searchQuery := "parser handles";
               executionTime := elapsed |},
          s').
Proof.
  assert (Hlong : 3 <= String.length "parser handles") by (simpl; lia).
  assert (Hfilter : "other-project" <> EmptyString) by discriminate.
  assert (Hnone : forall dir, In dir ["-home-dev-app"] ->
                              includes dir "other-project" = false)
    by (intros dir [<-|[]]; reflexivity).
  split; [exact Hlong|]. split; [exact Hfilter|]. split; [exact Hnone|].
  exact (PipelineFacts.unmatched_project_filter_empty Z (oneFileEnv replyCorpus)
           "parser handles" "other-project" None 15 freshState (fun _ => true)
           1%Z 1%Z ["-home-dev-app"] Hlong Hfilter eq_refl eq_refl Hnone).
Defined.

Lemma query_case_is_ignored_witness :
  toLowerCase "Docker AUTH Error" = toLowerCase "docker auth error"
  /\ analyzeQueryIntent "Docker AUTH Error" = analyzeQueryIntent "docker auth error".
Proof.
  split; [reflexivity|].
  apply (proj1 (QueryCaseFacts.query_case_is_ignored
                  "Docker AUTH Error" "docker auth error" eq_refl)).
Defined.

(** The search of the plans and the summary of a session on the machine
    with one plan and one session file: the plan is found and scored,
    and the session file is summarised under the keyword [latest]. *)
Example searchPlans_example :
  Operations.searchPlans plainPatterns Z laptop "parser roadmap" 10 Scenarios.freshState
  = (Returned
       [ {| pr_name := "roadmap";
            pr_filepath := "/home/dev/.claude/plans/roadmap.md";
            pr_title := Some "Roadmap";
            pr_content := "The roadmap of the parser";
            pr_sections := [];
            pr_filesMentioned := [];
            pr_timestamp := "2026-01-01T00:00:00.000Z";
            pr_relevanceScore := 7 |} ],
     Scenarios.freshState)
  /\ Operations.searchPlans plainPatterns Z laptop "parser fix( roadmap" 10
       Scenarios.freshState
     = (Returned [], Scenarios.freshState).
Proof. split; vm_compute; reflexivity. Qed.

Example generateCompactSummary_example :
  fst (UniversalHistorySearchEngine.generateCompactSummary plainPatterns Z
         (Scenarios.oneFileEnv Scenarios.replyCorpus) laptop "latest" None freshEngine)
  = Returned
      {| source := claude_code;
         results :=
           {| sum_session_id := "session";
              sum_end_time := Some "2026-01-01T00:00:00.000Z";
              sum_start_time := Some "2026-01-01T00:00:00.000Z";
              sum_duration_minutes := 0;
              sum_message_count := 1;
              sum_project_path := Some "/home/dev/app";
              sum_tools_used := [];
              sum_files_modified := [];
              sum_accomplishments := [];
              sum_key_decisions := [] |};
         enhanced := true |}.
Proof. vm_compute. reflexivity. Qed.

Lemma entry_points_never_throw_witness :
  findProjectDirectories Scenarios.brokenEnv 0%Z = (Thrown "EACCES", 0%Z)
  /\ os_homedir homeless = Thrown "ENOENT"
  /\ HistorySearchEngine.findSimilarQueries Z Scenarios.brokenEnv "docker auth" 15
       Scenarios.freshState
     = (Returned [], {| world := 0%Z; messageCache := [] |})
  /\ Operations.findFileContext plainPatterns Z Scenarios.brokenEnv homeless
       "parser.ts" 15 Scenarios.freshState
     = (Returned [], {| world := 0%Z; messageCache := [] |})
  /\ ErrorSolutions.getErrorSolutions plainTests lastFileFirst Z Scenarios.brokenEnv
       "TypeError" 15 Scenarios.freshState
     = (Returned [], {| world := 0%Z; messageCache := [] |})
  /\ Operations.getToolPatterns plainPatterns lastFileFirst Z Scenarios.brokenEnv
       homeless None 15 Scenarios.freshState
     = (Returned [], {| world := 0%Z; messageCache := [] |})
  /\ Operations.getRecentSessions plainPatterns Z Scenarios.brokenEnv homeless 15
       Scenarios.freshState
     = (Returned [], {| world := 0%Z; messageCache := [] |})
  /\ Operations.getSessionMessages Z Scenarios.brokenEnv homeless "-home-dev-app"
       "latest" Scenarios.freshState
     = (Returned [], Scenarios.freshState)
  /\ Operations.searchPlans plainPatterns Z homeless "docker auth" 15
       Scenarios.freshState
     = (Returned [], Scenarios.freshState)
  /\ HistorySearchEngine.searchConversations Z Scenarios.brokenEnv "docker auth" None
       None 15 Scenarios.freshState
     = (Returned (HistorySearchEngine.emptyResult "docker auth" 1),
        {| world := 2%Z; messageCache := [] |})
  /\ readdir Scenarios.brokenFs (projectsPath Scenarios.brokenFs) 1%Z
     = (Thrown "ENOENT", 1%Z)
  /\ HistorySearchEngine.searchConversations Z
       (withListing Scenarios.brokenFs (Scenarios.oneFileEnv Scenarios.replyCorpus))
       "docker auth" None None 15 Scenarios.freshState
     = (Returned (HistorySearchEngine.emptyResult "docker auth" 1),
        {| world := 2%Z; messageCache := [] |})
  /\ UniversalHistorySearchEngine.initialize Z homeless freshEngine
     = (Returned tt, initializedEngine)
  /\ fst (UniversalHistorySearchEngine.searchConversations Z Scenarios.brokenEnv
            homeless lockedStores "docker auth" None None None freshEngine)
     = Returned
         {| source := claude_code;
            results := HistorySearchEngine.emptyResult "docker auth" 1;
            enhanced := false |}
  /\ returns
       (UniversalHistorySearchEngine.generateCompactSummary plainPatterns Z
          Scenarios.brokenEnv homeless "latest" None) freshEngine.
Proof.
  pose proof (EntryPointFacts.entry_points_never_throw Z Scenarios.brokenEnv homeless
                lockedStores plainPatterns plainTests lastFileFirst
                "docker auth" "parser.ts" "TypeError" "-home-dev-app" "latest"
                None None None 15 None None Scenarios.freshState freshEngine)
    as [_ [Hboth [Hdirs [Hhome [_ [Hlist [_ Huniversal]]]]]]].
  pose proof (EntryPointFacts.entry_points_never_throw Z
                (Scenarios.oneFileEnv Scenarios.replyCorpus) homeless
                lockedStores plainPatterns plainTests lastFileFirst
                "docker auth" "parser.ts" "TypeError" "-home-dev-app" "latest"
                None None None 15 None None Scenarios.freshState freshEngine)
    as [_ [_ [_ [_ [_ [_ [Hread _]]]]]]].
  destruct (Hdirs "EACCES" 0%Z eq_refl)
    as [Hsimilar [Hcontext [Hsolutions [Hpatterns Hsessions]]]].
  destruct (Hhome "ENOENT" eq_refl) as [Hmessages Hplans].
  destruct Hboth as [_ [_ [_ [_ [_ [_ [Hsummary _]]]]]]].
  destruct (Huniversal initializedEngine (fun _ => true) 1%Z "EACCES" 1%Z
              eq_refl eq_refl eq_refl)
    as [found [u2 [Hrun [_ [_ Hempty]]]]].
  split; [reflexivity|].
  split; [reflexivity|].
  split; [exact Hsimilar|].
  split; [exact Hcontext|].
  split; [exact Hsolutions|].
  split; [exact Hpatterns|].
  split; [exact Hsessions|].
  split; [exact Hmessages|].
  split; [exact Hplans|].
  split; [exact (Hlist (fun _ => true) 1%Z "EACCES" 1%Z eq_refl eq_refl)|].
  split; [reflexivity|].
  split; [exact (Hread Scenarios.brokenFs (fun _ => true) 1%Z "ENOENT" 1%Z
                   eq_refl eq_refl)|].
  split; [reflexivity|].
  split; [|exact Hsummary].
  rewrite Hrun. cbn [fst]. f_equal. apply Hempty.
  vm_compute in Hrun. injection Hrun as Hfound _.
  rewrite <- Hfound. reflexivity.
Defined.

(** X28. The similarity is the binary64 one.  For "deploy employ" and
    "employ deployed" it is 1: the product 0.8 * (6 / 8) rounds above
    0.6, so "deploy" is matched with "deployed" and leaves "employ" to
    "employ".  For "deploy config alpha" and "redeploy reconfig gamma" it
    is 0.4000000000000001, the binary64 number next above the constant
    0.4, although the same expression over the rationals is two fifths;
    a stored question with that text is therefore found as similar to
    the query. *)
Theorem similarity_rounds_as_binary64 :
  (SearchHelpers.calculateQuerySimilarity "deploy employ" "employ deployed" == 1)%Q
  /\ SearchHelpers.calculateQuerySimilarity "deploy config alpha"
       "redeploy reconfig gamma"
     = (7205759403792795 # 18014398509481984)%Q
  /\ Binary64.rnd (4 # 10) = (3602879701896397 # 9007199254740992)%Q
  /\ (Binary64.rnd (4 # 10)
      < SearchHelpers.calculateQuerySimilarity "deploy config alpha"
          "redeploy reconfig gamma")%Q
  /\ findSimilarQueries Z (oneFileEnv [line user "u1" "redeploy reconfig gamma"])
       "deploy config alpha" 10 freshState
     = (Returned
          [ {| uuid := "u1";
               timestamp := "2026-01-01T00:00:00.000Z";
               type := user;
               content := "redeploy reconfig gamma";
               sessionId := "s1";
               projectPath := Some "/home/dev/app";
               relevanceScore := Some (7205759403792795 # 18014398509481984)%Q;
               finalScore := None;
               context := None |} ],
        freshState).
Proof.
  split; [vm_compute; reflexivity|].
  split; [vm_compute; reflexivity|].
  split; [vm_compute; reflexivity|].
  split; [vm_compute; reflexivity|].
  vm_compute. reflexivity.
Qed.

(** X29. The threshold of the parser's truncation is the binary64
    product.  For a budget of 90 it is 62.99999999999999, so a sentence
    that ends at index 63 is a boundary late enough, and the text is
    cut there, although 63 is not above seven tenths of 90. *)
Theorem truncation_threshold_is_binary64 :
  String.length boundaryText = 111
  /\ Parser.lastIndexOf boundaryText ". " (90 - 3) = 63%Z
  /\ (Binary64.mul (Binary64.ofZ 90) (Binary64.rnd (7 # 10)) < 63)%Q
  /\ (7 * 90 <? 10 * 63)%Z = false
  /\ Parser.intelligentTruncation boundaryText 90
     = "The parser reads each file line by line and keeps every message...".
Proof.
  split; [reflexivity|].
  split; [vm_compute; reflexivity|].
  split; [vm_compute; reflexivity|].
  split; [reflexivity|].
  vm_compute. reflexivity.
Qed.


End MoreInstances.
